(* ===== verification/_CoqProject ===== *)
-Q . S2P
Prelude.v
Types.v
Pbmux.v
Reassembly.v
Codec.v
Control.v
ResourceWire.v
ComputeWire.v
BufferWire.v
Delivery.v
Wire.v
Lease.v
ResourceGuard.v
GuardFacts.v
GuardIdem.v
BufferStore.v
Claims.v
BufferFacts.v
BufferInv.v
BufferRefine.v
BufferSystem.v
ComputeStore.v
WorkerCore.v
WorkerFacts.v
WorkerInv.v
WorkerCompute.v
WorkerSystem.v
WorkerGuard.v
WorkerDemo.v
Pairing.v
Sas.v
Text.v
Storage.v
Records.v
Planner.v
Admission.v
Framing.v
Runtime.v
PairingLoop.v
PairingFacts.v
PairingLive.v
PairingDemo.v
Initiator.v
Session.v
ClientFacts.v
SessionFacts.v
SessionDemo.v
RemoteCall.v
Android.v
Transport.v
AndroidFacts.v
RemoteWorker.v
RemoteDemo.v
