(* ===== verification/Prelude.v ===== *)
(** * PhoneBoost: a verification development

    PhoneBoost lets a host machine use a phone on the local network as a worker: the two
    are paired by comparing a short code, the host leases the phone, reserves a bounded
    amount of its memory, writes data into remote buffers and runs a hash job over them.
    All traffic is PBMUX frames on an authenticated Noise session.  This library models
    the Rust core of both ends, from byte strings to the worker's entry points and from
    the pairing to the host's decision where to run a job, and proves what makes it
    correct.

    ** Parts of the program and the files that model them

    Wire protocol.
    - [crates/pb-types/src/lib.rs], protocol constants and enumerations: [Types].
    - [crates/pb-pbmux/src/lib.rs]: the frame codec and dispatch rules are [Pbmux];
      sequence tracking, quota accounting and reassembly are [Reassembly]; the
      COMMAND, COMMAND_ACK and HEARTBEAT messages are [Control], over the
      single-frame scheme of [Codec].
    - [crates/pb-pbmux/src/resource.rs], [compute.rs], [remote_buffer.rs]: the
      RESOURCE, COMPUTE and REMOTE_BUFFER messages are [ResourceWire],
      [ComputeWire] and [BufferWire].  [Delivery] composes the fragmentation of
      buffer messages with the receiver's reassembler; [Wire] states the round trips
      of all messages at once.

    The worker on the phone.
    - [crates/pb-worker-core/src/lease.rs], the controller lease with its command
      log and bounded result cache: [Lease] (Module [LeaseManager], specification
      [LeaseSpec]).
    - [crates/pb-worker-core/src/resource_guard.rs], device health, hysteresis,
      reservations and idempotence: [ResourceGuard] (Module [Guard]) with its
      theory in [GuardFacts] and, for the idempotence table, [GuardIdem]; [Claims] is
      the contract between the guard and the stores that consume its reservations.
    - [crates/pb-worker-core/src/remote_buffer.rs], the buffer table:
      [BufferStore], with [BufferFacts] (ranges and partial byte strings),
      [BufferInv] (invariant), [BufferRefine] (specification [BufferSpec] and
      simulation) and [BufferSystem] (store and guard as one transition system).
    - [crates/pb-worker-core/src/compute.rs], jobs and their caches:
      [ComputeStore] (Module [JobStore]).
    - [crates/pb-worker-core/src/lib.rs], the worker that composes lease manager,
      guard and stores: [WorkerCore] (Module [Worker]), with [WorkerFacts],
      [WorkerInv], [WorkerCompute] (invariant and compute requests),
      [WorkerSystem] (reachable workers and their theorems), [WorkerGuard] (repeated
      reserves) and [WorkerDemo] (concrete runs).
    - [android/core-jni/src/lib.rs]: the worker behind the session's command handler and
      the integer interface of the application are [Android], starting and stopping the
      transport is [Transport], their theory is [AndroidFacts].

    Pairing and sessions, on both ends.
    - [crates/pb-secure/src/pairing.rs], confirmation and mismatch cooldown: [Pairing].
    - [derive_sas] of [crates/pb-secure/src/lib.rs], the six-digit code: [Sas].
    - [crates/pb-runtime-secure/src/storage.rs]: the text encodings are [Text]; record
      formats, validation and the atomic replacement of files are [Storage].
    - [crates/pb-runtime-secure/src/wire.rs], encrypted records on a stream: [Records].
    - [crates/pb-runtime-secure/src/runtime.rs]: the shared state is [Runtime], the
      pairing loop [PairingLoop] with [PairingFacts] (agreement), [PairingLive]
      (completion) and [PairingDemo]; the authenticated session is [Session] with
      [SessionFacts] (numbering) and [SessionDemo].
    - [crates/pb-runtime-secure/src/initiator.rs], the client, its queue and the session's
      driver: [Initiator], with [ClientFacts].
    - [RemoteCall] joins the two ends of a session; [RemoteWorker] composes it with the
      Android handler and the worker; [RemoteDemo] is a concrete exchange.

    The host.
    - [crates/pb-host/src/planner.rs], evidence and the placement decision: [Planner].
    - [crates/pb-host/src/admission.rs] and [admission/framing.rs], the local socket's
      client gate and line framing: [Admission] and [Framing].

    The parts interact by calls: the worker validates the lease of a request with
    the lease manager, hands the resulting proof to the guard or a store, and the
    stores consume and release reservations of the guard.  The end of a lease or of
    a session ends the jobs and buffers that belong to it.  A session of the initiator
    takes requests from its clients' queue and answers each through a one-shot channel; a
    session of the responder calls the handler, which locks the worker.

    ** How the code is translated

    Structs are records, enums inductive types whose constructors carry a prefix,
    [Result] is [result] with the notation [let?] for the question-mark operator,
    [BTreeMap] and [HashMap] are finite maps, byte arrays are lists of bytes, and
    unsigned integers are [Z] with saturating, checked and wrapping operations
    written out.  A method that mutates its receiver returns the new state; a loop
    over the values of a map is a fold over its entries.  Anything that would panic
    in Rust (an [expect], [unreachable!], an index out of range, an arithmetic
    overflow without a check) is [None] of an option type, so that the absence of
    panics is a theorem.  The clock, random bytes, fallible allocations, the answers of
    sockets and of the file system and the session-liveness flag are arguments.

    Threads are interleavings of steps: a method that holds a mutex for its whole body is
    one step, and a function that takes a lock twice is several.  This is how the two
    session threads and the two users of a pairing, the clients and the driver of a
    session, the threads of the connection gate and those of the phone's transport are
    composed.

    Third-party code is a parameter with the laws the code relies on: the BLAKE3 hasher
    (hashing chunks in order is hashing their concatenation), SHA-256, the curve
    operation that derives a public key, [serde_json] (reading what was written), and the
    Noise transport (what one end wrote the other reads, in order, 16 bytes longer).

    Recursion is structural where the code's is.  The loops that retry a random draw are
    bounded by eight as in the code; the fuel of [slice_chunks] is the length of its
    input, which is enough because every step removes a byte; the fuel of [derive_sas] is
    the 2^32 values of its counter; readers consume a list of answers of the system.

    ** What the theorems show

    - Wire: every encoder and decoder pair is a bijection between the valid values
      and the accepted byte strings ([decode_iff_encode], [messages_bijective]), errors
      are classified as documented, and buffer messages survive fragmentation and
      reassembly.
    - Reassembly: any sequence of decodable frames keeps the session within its quotas
      without underflow, up to the one kind of frame that overflows the fragment counter
      of its message, which takes 2^32 - 1 earlier frames ([reassembler_run_safe],
      [fragment_counter_overflows]).
    - Lease: the manager refines a specification in which a lease is a deadline and
      an unbounded log of results; the lease excludes other peers; repeated
      commands are answered identically.
    - Guard: the byte counter is exactly the sum of live reservations, reservations
      follow their state machine, grants are within the health budget, duplicates
      are idempotent, and recovery is conservative.
    - Buffers: the store refines a map of partial byte strings with owner, session
      and deadline; live buffers and consumed reservations correspond one to one.
    - Worker: no reachable call panics, so the phone's mutex is never poisoned; no job or
      scratch reservation outlives its call, completed jobs carry the digest of the bytes
      in the buffer, and compute responses can always be encoded.
    - Pairing: in every interleaving a side enters the authenticated session only when
      both users confirmed and both sides stored the other's key; when nothing fails, the
      rounds of the two sides do not overlap and no user calls it off, the pairing
      completes within four rounds of each side; actor and guard refine their specifications; the code shown to the
      user is uniform over its range and always found or refused.
    - Storage: up to 64 peers and the mismatch cooldown survive a restart, and an
      interrupted write leaves the old or the new file.
    - Sessions: frames are numbered consecutively and only an overflow of the fragment
      counter can panic, every client request is answered once
      with a fitting response, and a call through a session reaches the handler unaltered;
      end to end, a digest the host receives is the hash of the bytes it wrote.
    - Host: the placement decision agrees with its declarative rules; the number of local
      clients never exceeds its limit and no thread waits for another to get its answer;
      lines are cut exactly at newlines.
    - Some theorems document defects: [consumed_entries_exhaust_table] (idempotence
      entries of consumed reservations are never dated), [late_reserve_replay_unencodable]
      (a late duplicate of a reserve is answered with a message its own encoder refuses),
      [peers_survive_restart] (a 65th peer is committed, and the next start fails),
      [fragment_counter_overflows] (empty fragments drive the fragment counter to its end),
      [early_ping_lost] (a PING that arrives before the responder's commit is discarded
      and the pairing stalls) and [displayed_health_stale] (two clocks are compared).

    The state theorems speak of every state reachable by the operations of a
    component, as the reflexive transitive closure of a step relation whose only
    side conditions are that request fields are in the range of their Rust types
    and that a random 128-bit identifier is not already in use.

    ** What is not modelled

    Sockets, the Noise handshake (the third-party snow crate), opening of directories and
    files, process start-up, HTTP, the JNI calling convention and the user interfaces;
    functions compiled only for tests.  Still to come: the validation of local requests
    ([crates/pb-host/src/admission/validation.rs]), the profile and import stores, and the
    host's transport loop.

    ** This file

    Results, machine integers, big-endian fields, slices, the shared tactics and
    weighted sums over finite maps. *)

From Stdlib Require Import ZArith Lia.
From Stdlib Require Strings.Byte.
From stdpp Require Import base tactics list gmap fin_maps.

#[global] Open Scope Z_scope.

(** ** Results: Rust's [Result] and the [?] operator *)

Inductive result (T E : Type) : Type :=
| Ok (t : T)
| Err (e : E).
Arguments Ok {T E} _.
Arguments Err {T E} _.

Declare Scope rust_scope.
Delimit Scope rust_scope with rust.
#[global] Open Scope rust_scope.

Notation "'let?' x ':=' e 'in' k" :=
  (match e with Ok x => k | Err err => Err err end)
  (at level 10, x name, e at level 100, k at level 200)
  : rust_scope.

Definition ok_or {T E} (o : option T) (e : E) : result T E :=
  match o with Some t => Ok t | None => Err e end.

Definition is_ok {T E} (r : result T E) : bool :=
  match r with Ok _ => true | Err _ => false end.

#[export] Instance result_eq_dec {T E} `{EqDecision T, EqDecision E} :
  EqDecision (result T E).
Proof. solve_decision. Defined.

Lemma Ok_inj {T E} (a b : T) : @Ok T E a = Ok b -> a = b.
Proof. congruence. Qed.

(** ** Machine integers

    A [w]-bit unsigned integer is a [Z]; [uw w z] is the type's range.  The
    operations are the ones the sources use. *)

Definition uw (w z : Z) : Prop := 0 <= z < 2 ^ w.

Definition U16_MAX : Z := 2 ^ 16 - 1.
Definition U32_MAX : Z := 2 ^ 32 - 1.
Definition U64_MAX : Z := 2 ^ 64 - 1.

(** [u64::saturating_add], [saturating_sub] and [checked_add]. *)
Definition sat_add64 (a b : Z) : Z := Z.min (a + b) U64_MAX.
Definition sat_sub (a b : Z) : Z := Z.max 0 (a - b).
Definition checked_add64 (a b : Z) : option Z :=
  if a + b <=? U64_MAX then Some (a + b) else None.
(** The truncating cast [as u32]. *)
Definition as_u32 (z : Z) : Z := z mod 2 ^ 32.

(** [Option::is_some] and [u8::from(bool)]. *)
Definition is_some {T} (o : option T) : bool :=
  match o with Some _ => true | None => false end.
Definition u8_of_bool (b : bool) : Z := if b then 1 else 0.

(** ** Bytes *)

Abbreviation byte := Byte.byte.

Definition b2z (b : byte) : Z := Z.of_N (Byte.to_N b).
Definition z2b (z : Z) : byte :=
  default Byte.x00 (Byte.of_N (Z.to_N (z mod 256))).

#[export] Instance byte_eq_dec : EqDecision byte := Byte.byte_eq_dec.
#[export] Instance byte_countable : Countable byte :=
  inj_countable Byte.to_N Byte.of_N Byte.of_to_N.

Lemma b2z_range b : 0 <= b2z b < 256.
Proof. unfold b2z. pose proof (Byte.to_N_bounded b). lia. Qed.

Lemma b2z_z2b z : b2z (z2b z) = z mod 256.
Proof.
  unfold b2z, z2b. pose proof (Z.mod_pos_bound z 256 ltac:(lia)) as Hz.
  destruct (Byte.of_N (Z.to_N (z mod 256))) as [b|] eqn:E; simpl.
  - apply Byte.to_of_N in E. rewrite E. rewrite Z2N.id; lia.
  - apply Byte.of_N_None_iff in E. lia.
Qed.

Lemma z2b_b2z b : z2b (b2z b) = b.
Proof.
  unfold z2b, b2z. pose proof (b2z_range b) as Hb. unfold b2z in Hb.
  rewrite Z.mod_small by lia. rewrite N2Z.id, Byte.of_to_N. done.
Qed.

(** Big-endian fields: [to_be n z] is [z.to_be_bytes()] of an [n]-byte integer
    and [be_val] is [from_be_bytes]. *)
Fixpoint to_be (n : nat) (z : Z) : list byte :=
  match n with
  | O => []
  | S n' => z2b (z / 256 ^ Z.of_nat n') :: to_be n' z
  end.

Fixpoint be_val (l : list byte) : Z :=
  match l with
  | [] => 0
  | b :: l' => b2z b * 256 ^ Z.of_nat (length l') + be_val l'
  end.

(** [bytes[off..off + n]].  Every use in the sources follows a length check
    that puts the range inside the slice. *)
Definition slice (l : list byte) (off n : nat) : list byte := take n (drop off l).

Definition read_u8 (l : list byte) (off : nat) : Z := be_val (slice l off 1).
Definition len (l : list byte) : Z := Z.of_nat (length l).
Definition zeros (n : nat) : list byte := replicate n Byte.x00.

(** [id.iter().any(|byte| *byte != 0)] *)
Definition nonzero (id : list byte) : bool :=
  existsb (fun b => negb (bool_decide (b = Byte.x00))) id.

(** ** Lemmas on big-endian fields *)

Lemma length_to_be n z : length (to_be n z) = n.
Proof. induction n; simpl; congruence. Qed.

Lemma be_val_range l : 0 <= be_val l < 256 ^ Z.of_nat (length l).
Proof.
  induction l as [|b l IH]; simpl be_val; [simpl; lia|].
  cbn [length]. rewrite Nat2Z.inj_succ, Z.pow_succ_r by lia.
  pose proof (b2z_range b). nia.
Qed.

Lemma be_val_to_be_mod n z : be_val (to_be n z) = z mod 256 ^ Z.of_nat n.
Proof.
  induction n as [|n IH]; [simpl; symmetry; apply Z.mod_1_r|].
  cbn [to_be be_val]. rewrite length_to_be, IH, b2z_z2b.
  rewrite Nat2Z.inj_succ, Z.pow_succ_r, (Z.mul_comm 256) by lia.
  rewrite Z.rem_mul_r by lia. lia.
Qed.

Lemma pow_256 n : 256 ^ Z.of_nat n = 2 ^ (8 * Z.of_nat n).
Proof. change 256 with (2 ^ 8). rewrite <- Z.pow_mul_r; lia. Qed.

(** Decoding an encoded integer of the field's width gives it back. *)
Lemma be_val_to_be n z : uw (8 * Z.of_nat n) z -> be_val (to_be n z) = z.
Proof.
  intros Hz. rewrite be_val_to_be_mod, pow_256. apply Z.mod_small. exact Hz.
Qed.

Lemma be_val_uw l n : length l = n -> uw (8 * Z.of_nat n) (be_val l).
Proof. intros <-. unfold uw. rewrite <- pow_256. apply be_val_range. Qed.

Lemma to_be_mod n : forall z z',
  z mod 256 ^ Z.of_nat n = z' mod 256 ^ Z.of_nat n -> to_be n z = to_be n z'.
Proof.
  induction n as [|n IH]; intros z z' Hz; [done|].
  cbn [to_be]. rewrite Nat2Z.inj_succ, Z.pow_succ_r, (Z.mul_comm 256) in Hz by lia.
  rewrite !Z.rem_mul_r in Hz by lia.
  pose proof (Z.mod_pos_bound z (256 ^ Z.of_nat n) ltac:(lia)).
  pose proof (Z.mod_pos_bound z' (256 ^ Z.of_nat n) ltac:(lia)).
  destruct (Z.div_mod_unique (256 ^ Z.of_nat n)
    ((z / 256 ^ Z.of_nat n) mod 256) ((z' / 256 ^ Z.of_nat n) mod 256)
    (z mod 256 ^ Z.of_nat n) (z' mod 256 ^ Z.of_nat n)) as [H1 H2]; [lia..|].
  f_equal; [|by apply IH]. unfold z2b. by rewrite H1.
Qed.

(** Encoding a decoded field gives back the bytes that were read. *)
Lemma to_be_be_val l n : length l = n -> to_be n (be_val l) = l.
Proof.
  intros <-. induction l as [|b l IH]; [done|].
  cbn [length to_be be_val]. pose proof (be_val_range l) as Hl. f_equal.
  - rewrite Z.div_add_l by (apply Z.pow_nonzero; lia).
    rewrite (Z.div_small (be_val l)) by lia. rewrite Z.add_0_r. apply z2b_b2z.
  - etransitivity; [|exact IH]. apply to_be_mod.
    rewrite Z.add_comm, Z.mod_add; [done|lia].
Qed.

Lemma to_be_inj n z z' :
  uw (8 * Z.of_nat n) z -> uw (8 * Z.of_nat n) z' -> to_be n z = to_be n z' -> z = z'.
Proof.
  intros Hz Hz' E. rewrite <- (be_val_to_be n z), <- (be_val_to_be n z'), E; done.
Qed.

(** ** Lemmas on slices *)

Lemma length_slice l k n : (k + n <= length l)%nat -> length (slice l k n) = n.
Proof. intros H. unfold slice. rewrite length_take, length_drop. lia. Qed.

Lemma slice_here a b n : length a = n -> slice (a ++ b) 0 n = a.
Proof. intros <-. unfold slice. rewrite drop_0. apply take_app_length. Qed.

Lemma slice_last a n : length a = n -> slice a 0 n = a.
Proof. intros <-. unfold slice. rewrite drop_0. apply firstn_all. Qed.

Lemma slice_skip a b m k k' n :
  length a = m -> k = (m + k')%nat -> slice (a ++ b) k n = slice b k' n.
Proof.
  intros Ha ->. unfold slice. f_equal. subst m. apply drop_app_add.
Qed.

Lemma drop_skip (a b : list byte) m k k' :
  length a = m -> k = (m + k')%nat -> drop k (a ++ b) = drop k' b.
Proof. intros Ha ->. subst m. apply drop_app_add. Qed.

Lemma slice_join l k n k' m :
  k' = (k + n)%nat -> slice l k n ++ slice l k' m = slice l k (n + m).
Proof.
  intros ->. unfold slice. rewrite <- drop_drop.
  generalize (drop k l); clear l k. intros l. revert l.
  induction n as [|n IH]; intros l; [done|].
  destruct l as [|x l]; simpl; [by rewrite take_nil|]. by rewrite IH.
Qed.

Lemma slice_join_app l k n k' m r :
  k' = (k + n)%nat -> slice l k n ++ slice l k' m ++ r = slice l k (n + m) ++ r.
Proof. intros ->. by rewrite app_assoc, slice_join. Qed.

Lemma slice_drop_join l k n k' :
  k' = (k + n)%nat -> slice l k n ++ drop k' l = drop k l.
Proof. intros ->. unfold slice. rewrite <- drop_drop. apply take_drop. Qed.

Lemma slice_all l n : length l = n -> slice l 0 n = l.
Proof. apply slice_last. Qed.

Lemma length_zeros n : length (zeros n) = n.
Proof. apply length_replicate. Qed.

Lemma be_val_zeros n : be_val (zeros n) = 0.
Proof. unfold zeros. induction n as [|n IH]; [done|]. simpl. rewrite IH. done. Qed.

Lemma zeros_be_val l n : length l = n -> be_val l = 0 -> l = zeros n.
Proof.
  intros Hl H. rewrite <- (to_be_be_val l n Hl), H.
  rewrite <- (be_val_zeros n). apply to_be_be_val, length_zeros.
Qed.

(** A byte that reads 0 is a reserved zero byte. *)
Lemma zero_byte l k : (k < length l)%nat -> read_u8 l k = 0 -> slice l k 1 = zeros 1.
Proof. intros Hk H. apply zeros_be_val; [apply length_slice; lia|done]. Qed.

Lemma nonzero_false id : nonzero id = false <-> id = zeros (length id).
Proof.
  unfold nonzero, zeros. induction id as [|b id IH]; simpl; [done|].
  destruct (decide (b = Byte.x00)) as [->|Hne].
  - rewrite bool_decide_true by done. simpl. rewrite IH. split; congruence.
  - rewrite bool_decide_false by done. simpl. split; [done|]. congruence.
Qed.

Lemma nonzero_true id : nonzero id = true <-> id <> zeros (length id).
Proof.
  rewrite <- not_false_iff_true, nonzero_false. done.
Qed.

(** Codec proofs rewrite fields with the lemmas above, never by unfolding. *)
#[global] Arguments to_be : simpl never.
#[global] Arguments be_val : simpl never.
#[global] Arguments slice : simpl never.
#[global] Arguments zeros : simpl never.

Ltac psimpl := cbn -[to_be be_val slice zeros app drop take Z.ltb Z.leb Z.eqb Z.of_nat].
Tactic Notation "psimpl" "in" hyp(H) :=
  cbn -[to_be be_val slice zeros app drop take Z.ltb Z.leb Z.eqb Z.of_nat] in H.

(** ** Bit masks *)

(** Rust's [!x] on [u16] and [u32]. *)
Definition not16 (x : Z) : Z := Z.lxor x U16_MAX.
Definition not32 (x : Z) : Z := Z.lxor x U32_MAX.
(** [x & mask != 0] *)
Definition has_flag (x mask : Z) : bool := negb (Z.land x mask =? 0).

Lemma land_pow2 x k : 0 <= k -> Z.land x (2 ^ k) = if Z.testbit x k then 2 ^ k else 0.
Proof.
  intros Hk. apply Z.bits_inj'. intros n Hn. rewrite Z.land_spec.
  destruct (Z.eq_dec n k) as [->|Hne].
  - rewrite Z.pow2_bits_true by lia. destruct (Z.testbit x k); simpl.
    + by rewrite Z.pow2_bits_true by lia.
    + by rewrite Z.bits_0.
  - rewrite Z.pow2_bits_false by lia. rewrite andb_false_r.
    destruct (Z.testbit x k); [by rewrite Z.pow2_bits_false by lia|by rewrite Z.bits_0].
Qed.

(** ** Automation *)

(** Turn boolean guards in the context into propositions. *)
Ltac bool_hyps :=
  repeat match goal with
  | H : _ || _ = false |- _ => apply orb_false_iff in H; destruct H
  | H : _ && _ = true |- _ => apply andb_true_iff in H; destruct H
  | H : _ || _ = true |- _ => apply orb_true_iff in H
  | H : _ && _ = false |- _ => apply andb_false_iff in H
  | H : negb _ = true |- _ => apply negb_true_iff in H
  | H : negb _ = false |- _ => apply negb_false_iff in H
  | H : (_ =? _) = true |- _ => apply Z.eqb_eq in H
  | H : (_ =? _) = false |- _ => apply Z.eqb_neq in H
  | H : (_ <? _) = true |- _ => apply Z.ltb_lt in H
  | H : (_ <? _) = false |- _ => apply Z.ltb_ge in H
  | H : (_ <=? _) = true |- _ => apply Z.leb_le in H
  | H : (_ <=? _) = false |- _ => apply Z.leb_gt in H
  | H : bool_decide _ = true |- _ => apply bool_decide_eq_true in H
  | H : bool_decide _ = false |- _ => apply bool_decide_eq_false in H
  end.

(** The two inverse laws of an enumeration's [try_from]. *)
Ltac enum_from_as := intros x; by destruct x.
Ltac enum_as_from f :=
  let H := fresh in unfold f; intros H; repeat case_match; simplify_eq;
  bool_hyps; simpl; congruence.

(** Open a successful run: peel every guard and binding of [H : code = Ok v]. *)
Ltac ok_inv H :=
  repeat (cbn zeta in H;
    match type of H with
    | (if ?c then _ else _) = _ =>
        let E := fresh "G" in destruct c eqn:E; try discriminate H
    | match ?e with Ok _ => _ | Err _ => _ end = _ =>
        let E := fresh "G" in destruct e eqn:E; try discriminate H
    | match ?e with Some _ => _ | None => _ end = _ =>
        let E := fresh "G" in destruct e eqn:E; try discriminate H
    end).

(** Evaluate comparisons between numerals. *)
Ltac zconst :=
  repeat match goal with
  | |- context [?a =? ?b] =>
      lazymatch a with Z0 => idtac | Zpos _ => idtac end;
      lazymatch b with Z0 => idtac | Zpos _ => idtac end;
      let v := eval compute in (a =? b) in change (a =? b) with v
  | |- context [?a <? ?b] =>
      lazymatch a with Z0 => idtac | Zpos _ => idtac end;
      lazymatch b with Z0 => idtac | Zpos _ => idtac end;
      let v := eval compute in (a <? b) in change (a <? b) with v
  end; cbn [negb andb orb]; cbv iota.

(** The number of bytes an encoded field takes. *)
Ltac field_len a :=
  lazymatch a with
  | to_be ?n _ => n
  | zeros ?n => n
  | slice _ _ ?n => n
  | _ => match goal with
         | H : length a = ?n |- _ => n
         | H : ?n = length a |- _ => n
         end
  end.

Ltac len_solve :=
  rewrite ?length_app, ?length_to_be, ?length_zeros, ?length_nil; try assumption; try lia.

(** Read fields back out of a concatenation of encoded fields. *)
Ltac slice_read_step :=
  match goal with
  | |- context [slice (?a ++ ?b) 0%nat ?n] =>
      rewrite (slice_here a b n) by len_solve
  | |- context [slice (?a ++ ?b) ?k ?n] =>
      let m := field_len a in
      let k' := eval compute in (k - m)%nat in
      rewrite (slice_skip a b m k k' n) by len_solve
  | |- context [drop ?k (?a ++ ?b)] =>
      let m := field_len a in
      let k' := eval compute in (k - m)%nat in
      rewrite (drop_skip a b m k k') by len_solve
  | |- context [slice ?a 0%nat ?n] =>
      rewrite (slice_last a n) by len_solve
  | |- context [drop 0 ?a] => change (drop 0 a) with a
  end.
Ltac slice_read := repeat slice_read_step.

(** Rewrite [be_val (to_be n z)] to [z] from the range facts in the context. *)
Ltac be_read :=
  repeat match goal with
  | |- context [be_val (to_be ?n ?z)] =>
      rewrite (be_val_to_be n z) by (first [assumption | unfold uw in *; simpl in *; lia])
  end.

(** Glue consecutive slices of one buffer back together. *)
Ltac slice_glue :=
  repeat match goal with
  | |- context [to_be ?n (be_val (slice ?l ?k ?n))] =>
      rewrite (to_be_be_val (slice l k n) n) by (apply length_slice; lia)
  end;
  repeat match goal with
  | |- context [slice ?l ?k ?n ++ slice ?l ?k' ?m ++ ?r] =>
      rewrite (slice_join_app l k n k' m r) by lia
  | |- context [slice ?l ?k ?n ++ slice ?l ?k' ?m] =>
      rewrite (slice_join l k n k' m) by lia
  | |- context [slice ?l ?k ?n ++ drop ?k' ?l] =>
      rewrite (slice_drop_join l k n k') by lia
  end.

(** ** Weighted sums over finite maps *)

Section msum.
Context {K : Type} `{Countable K} {V : Type}.
Implicit Types (f g : K -> V -> Z) (m : gmap K V).

Definition msum f m : Z := map_fold (fun k v acc => f k v + acc) 0 m.

Lemma msum_empty f : msum f ∅ = 0.
Proof. apply map_fold_empty. Qed.

Lemma msum_insert f m k v : m !! k = None -> msum f (<[k:=v]> m) = f k v + msum f m.
Proof.
  intros Hk. unfold msum. rewrite map_fold_insert_L; [done| |done]. intros; lia.
Qed.

Lemma msum_delete f m k v : m !! k = Some v -> msum f m = f k v + msum f (delete k m).
Proof.
  intros Hk. rewrite <- (insert_delete_id m k v Hk) at 1.
  apply msum_insert, lookup_delete_eq.
Qed.

Lemma msum_replace f m k v v' :
  m !! k = Some v -> msum f (<[k:=v']> m) = msum f m - f k v + f k v'.
Proof.
  intros Hk. rewrite <- insert_delete_eq, msum_insert by apply lookup_delete_eq.
  rewrite (msum_delete f m k v Hk). lia.
Qed.

Lemma msum_nonneg f m : (forall k v, m !! k = Some v -> 0 <= f k v) -> 0 <= msum f m.
Proof.
  induction m as [|k v m Hk IH] using map_ind; intros Hf; [by rewrite msum_empty|].
  rewrite msum_insert by done.
  pose proof (Hf k v ltac:(apply lookup_insert_eq)).
  assert (0 <= msum f m); [|lia]. apply IH. intros k' v' Hk'.
  apply Hf. rewrite lookup_insert_ne; congruence.
Qed.

Lemma msum_elem_le f m k v :
  (forall k v, m !! k = Some v -> 0 <= f k v) -> m !! k = Some v -> f k v <= msum f m.
Proof.
  intros Hf Hk. rewrite (msum_delete f m k v Hk).
  assert (0 <= msum f (delete k m)); [|lia]. apply msum_nonneg.
  intros k' v' Hk'. apply Hf. by apply lookup_delete_Some in Hk' as [_ ?].
Qed.

Lemma msum_ext f g m :
  (forall k v, m !! k = Some v -> f k v = g k v) -> msum f m = msum g m.
Proof.
  induction m as [|k v m Hk IH] using map_ind; intros Hf; [by rewrite !msum_empty|].
  rewrite !msum_insert by done. rewrite (Hf k v) by apply lookup_insert_eq.
  rewrite IH; [done|]. intros k' v' Hk'. apply Hf. rewrite lookup_insert_ne; congruence.
Qed.

Lemma msum_le f g m :
  (forall k v, m !! k = Some v -> f k v <= g k v) -> msum f m <= msum g m.
Proof.
  induction m as [|k v m Hk IH] using map_ind; intros Hf; [by rewrite !msum_empty|].
  rewrite !msum_insert by done. pose proof (Hf k v ltac:(apply lookup_insert_eq)).
  assert (msum f m <= msum g m); [|lia].
  apply IH. intros k' v' Hk'. apply Hf. rewrite lookup_insert_ne; congruence.
Qed.

(** Dropping weightless entries does not change a sum. *)
Lemma msum_filter f (P : K * V -> Prop) `{!forall x, Decision (P x)} m :
  (forall k v, m !! k = Some v -> ~ P (k, v) -> f k v = 0) ->
  msum f (filter P m) = msum f m.
Proof.
  induction m as [|k v m Hk IH] using map_ind; intros Hf; [by rewrite map_filter_empty|].
  assert (IH' : msum f (filter P m) = msum f m).
  { apply IH. intros k' v' Hk'. apply Hf. rewrite lookup_insert_ne; congruence. }
  rewrite (msum_insert f m) by done.
  destruct (decide (P (k, v))) as [HP|HP].
  - rewrite map_filter_insert_True by done. rewrite msum_insert; [lia|].
    by apply map_lookup_filter_None_2; left.
  - rewrite map_filter_insert_False, delete_id by done.
    rewrite (Hf k v) by (try apply lookup_insert_eq; done). lia.
Qed.
End msum.

(** [a - b] where the source subtracts without a check: [None] is underflow. *)
Definition checked_sub (a b : Z) : option Z := if b <=? a then Some (a - b) else None.
