(* ===== verification/Types.v ===== *)
(** * pb-types: protocol constants, channel registry and reason codes

    Models [crates/pb-types/src/lib.rs]: the PBMUX size limits and flag bits,
    the closed enumerations shared by every crate and the message-type
    registry [is_known_message_type]. *)

From stdpp Require Import base tactics list gmap strings.
From S2P Require Import Prelude.

(** ** Constants *)

(** [b"PBM1"] *)
Definition PBMUX_MAGIC : list byte := [Byte.x50; Byte.x42; Byte.x4d; Byte.x31].
Definition PBMUX_VERSION : Z := 1.
Definition PBMUX_HEADER_LEN : Z := 40.
Definition MAX_PBMUX_PAYLOAD : Z := 61440.
Definition MAX_PBMUX_PLAINTEXT : Z := 61480.
Definition MAX_NOISE_CIPHERTEXT : Z := 61496.
Definition MAX_LOGICAL_MESSAGE : Z := 4 * 1024 * 1024.
Definition MAX_REASSEMBLY_PER_CHANNEL : Z := 8 * 1024 * 1024.
Definition MAX_REASSEMBLY_PER_SESSION : Z := 16 * 1024 * 1024.
Definition MAX_INFLIGHT_CONTROL : Z := 64.
Definition MAX_INFLIGHT_PER_DATA_CHANNEL : Z := 16.

Definition FLAG_START : Z := 0x0001.
Definition FLAG_END : Z := 0x0002.
Definition FLAG_ACK_REQUIRED : Z := 0x0004.
Definition FLAG_ERROR : Z := 0x0008.
Definition KNOWN_FLAGS : Z :=
  Z.lor (Z.lor (Z.lor FLAG_START FLAG_END) FLAG_ACK_REQUIRED) FLAG_ERROR.

Definition PAIRING_TIMEOUT_MS : Z := 120000.
Definition PAIRING_COOLDOWN_MS : Z := 600000.
Definition PAIRING_MISMATCH_LIMIT : Z := 3.

(** The locked sizes fit together: a full frame is a header and a full payload,
    and a Noise record adds the 16-byte authentication tag. *)
Lemma locked_constants :
  PBMUX_HEADER_LEN + MAX_PBMUX_PAYLOAD = MAX_PBMUX_PLAINTEXT /\
  MAX_PBMUX_PLAINTEXT + 16 = MAX_NOISE_CIPHERTEXT.
Proof. split; reflexivity. Qed.

(** ** Channels *)

Inductive Channel : Type :=
| Ch_Control | Ch_Resource | Ch_RemoteBuffer | Ch_Compute | Ch_AiRpc | Ch_Metrics.

#[export] Instance Channel_eq_dec : EqDecision Channel.
Proof. solve_decision. Defined.

(** [channel as u8] (and [as usize]) *)
Definition Channel_as_u8 (c : Channel) : Z :=
  match c with
  | Ch_Control => 0 | Ch_Resource => 1 | Ch_RemoteBuffer => 2
  | Ch_Compute => 3 | Ch_AiRpc => 4 | Ch_Metrics => 5
  end.

Definition Channel_try_from (value : Z) : result Channel unit :=
  if value =? 0 then Ok Ch_Control
  else if value =? 1 then Ok Ch_Resource
  else if value =? 2 then Ok Ch_RemoteBuffer
  else if value =? 3 then Ok Ch_Compute
  else if value =? 4 then Ok Ch_AiRpc
  else if value =? 5 then Ok Ch_Metrics
  else Err tt.

Lemma Channel_try_from_as c : Channel_try_from (Channel_as_u8 c) = Ok c.
Proof. by destruct c. Qed.

Lemma Channel_as_try_from v c : Channel_try_from v = Ok c -> Channel_as_u8 c = v.
Proof. unfold Channel_try_from. intros H. ok_inv H; bool_hyps; by simplify_eq. Qed.

Lemma Channel_as_u8_uw c : uw 8 (Channel_as_u8 c).
Proof. unfold uw. by destruct c. Qed.

#[export] Instance Channel_countable : Countable Channel.
Proof.
  apply (inj_countable' Channel_as_u8
    (fun z => match Channel_try_from z with Ok c => c | Err _ => Ch_Control end)).
  intros c. by rewrite Channel_try_from_as.
Defined.

(** ** CONTROL and COMPUTE message types *)

Inductive ControlType : Type :=
| Ct_Ping | Ct_Pong | Ct_Error | Ct_Capabilities
| Ct_Command | Ct_CommandAck | Ct_SessionClose | Ct_PairConfirm.

#[export] Instance ControlType_eq_dec : EqDecision ControlType.
Proof. solve_decision. Defined.

Definition ControlType_as_u16 (t : ControlType) : Z :=
  match t with
  | Ct_Ping => 1 | Ct_Pong => 2 | Ct_Error => 3 | Ct_Capabilities => 4
  | Ct_Command => 5 | Ct_CommandAck => 6 | Ct_SessionClose => 7 | Ct_PairConfirm => 8
  end.

Definition ControlType_try_from (value : Z) : result ControlType unit :=
  if value =? 1 then Ok Ct_Ping
  else if value =? 2 then Ok Ct_Pong
  else if value =? 3 then Ok Ct_Error
  else if value =? 4 then Ok Ct_Capabilities
  else if value =? 5 then Ok Ct_Command
  else if value =? 6 then Ok Ct_CommandAck
  else if value =? 7 then Ok Ct_SessionClose
  else if value =? 8 then Ok Ct_PairConfirm
  else Err tt.

Lemma ControlType_as_try_from value t :
  ControlType_try_from value = Ok t -> ControlType_as_u16 t = value.
Proof. enum_as_from ControlType_try_from. Qed.

Inductive ComputeType : Type := Cp_Submit | Cp_Status | Cp_Result | Cp_Cancel.

Definition ComputeType_try_from (value : Z) : result ComputeType unit :=
  if value =? 1 then Ok Cp_Submit
  else if value =? 2 then Ok Cp_Status
  else if value =? 3 then Ok Cp_Result
  else if value =? 4 then Ok Cp_Cancel
  else Err tt.

Definition in_range (lo hi v : Z) : bool := (lo <=? v) && (v <=? hi).

Definition is_known_message_type (channel : Channel) (message_type : Z) : bool :=
  match channel with
  | Ch_Control => is_ok (ControlType_try_from message_type)
  | Ch_Resource => in_range 1 5 message_type
  | Ch_RemoteBuffer => in_range 1 8 message_type
  | Ch_Compute => is_ok (ComputeType_try_from message_type)
  | Ch_AiRpc => in_range 1 4 message_type
  | Ch_Metrics => in_range 1 2 message_type
  end.

(** ** Pairing states, error scopes and reason codes *)

Inductive PairingState : Type :=
| Ps_Unpaired | Ps_PairingXx | Ps_SasPending | Ps_LocalConfirmed | Ps_PeerConfirmed
| Ps_MutualConfirmed | Ps_TrustCommitting | Ps_Paired | Ps_PairRejected | Ps_PairingFailed.

#[export] Instance PairingState_eq_dec : EqDecision PairingState.
Proof. solve_decision. Defined.

Inductive ErrorScope : Type :=
| Sc_Request | Sc_LogicalMessage | Sc_Channel | Sc_Session
| Sc_Pairing | Sc_Provider | Sc_Device | Sc_Process.

#[export] Instance ErrorScope_eq_dec : EqDecision ErrorScope.
Proof. solve_decision. Defined.

Inductive ReasonCode : Type :=
| Rc_LocalRuntimeUnsafe | Rc_LocalAuthFailed | Rc_LocalBusy | Rc_LocalBadRequest
| Rc_LocalUnsupportedMethod | Rc_FrameTooLarge | Rc_SequenceError | Rc_ReassemblyTimeout
| Rc_BackpressureTimeout | Rc_UnsupportedMessage | Rc_ControllerBusy
| Rc_StaleControllerLease | Rc_OutOfOrder | Rc_DuplicateResultEvicted
| Rc_ResourceExhausted | Rc_RefusedStaleState | Rc_RefusedMemoryPressure
| Rc_RefusedThermal | Rc_RefusedBattery | Rc_RequestIdConflict | Rc_BufferNotOwned
| Rc_BufferRangeInvalid | Rc_BufferRangeBusy | Rc_BufferInvalidState | Rc_BufferLost
| Rc_FailedReservation | Rc_FailedTimeout | Rc_Cancelled | Rc_UnknownAfterDisconnect
| Rc_VersionMismatch | Rc_UnverifiedBuild | Rc_StateCorrupt | Rc_StateVersionUnsupported
| Rc_CacheRebuilt | Rc_DeviceLost | Rc_PairingNotCommitted | Rc_PairConfirmUnexpected
| Rc_PairPersistFailed | Rc_UnknownInitiatorIkRejected | Rc_SasRejected
| Rc_PairCancelled | Rc_PairingTimeout.

#[export] Instance ReasonCode_eq_dec : EqDecision ReasonCode.
Proof. solve_decision. Defined.

(** [ReasonCode::as_str], the stable wire and log spelling. *)
Definition ReasonCode_as_str (r : ReasonCode) : string :=
  match r with
  | Rc_LocalRuntimeUnsafe => "LOCAL_RUNTIME_UNSAFE"
  | Rc_LocalAuthFailed => "LOCAL_AUTH_FAILED"
  | Rc_LocalBusy => "LOCAL_BUSY"
  | Rc_LocalBadRequest => "LOCAL_BAD_REQUEST"
  | Rc_LocalUnsupportedMethod => "LOCAL_UNSUPPORTED_METHOD"
  | Rc_FrameTooLarge => "FRAME_TOO_LARGE"
  | Rc_SequenceError => "SEQUENCE_ERROR"
  | Rc_ReassemblyTimeout => "REASSEMBLY_TIMEOUT"
  | Rc_BackpressureTimeout => "BACKPRESSURE_TIMEOUT"
  | Rc_UnsupportedMessage => "UNSUPPORTED_MESSAGE"
  | Rc_ControllerBusy => "CONTROLLER_BUSY"
  | Rc_StaleControllerLease => "STALE_CONTROLLER_LEASE"
  | Rc_OutOfOrder => "OUT_OF_ORDER"
  | Rc_DuplicateResultEvicted => "DUPLICATE_RESULT_EVICTED"
  | Rc_ResourceExhausted => "RESOURCE_EXHAUSTED"
  | Rc_RefusedStaleState => "REFUSED_STALE_STATE"
  | Rc_RefusedMemoryPressure => "REFUSED_MEMORY_PRESSURE"
  | Rc_RefusedThermal => "REFUSED_THERMAL"
  | Rc_RefusedBattery => "REFUSED_BATTERY"
  | Rc_RequestIdConflict => "REQUEST_ID_CONFLICT"
  | Rc_BufferNotOwned => "BUFFER_NOT_OWNED"
  | Rc_BufferRangeInvalid => "BUFFER_RANGE_INVALID"
  | Rc_BufferRangeBusy => "BUFFER_RANGE_BUSY"
  | Rc_BufferInvalidState => "BUFFER_INVALID_STATE"
  | Rc_BufferLost => "BUFFER_LOST"
  | Rc_FailedReservation => "FAILED_RESERVATION"
  | Rc_FailedTimeout => "FAILED_TIMEOUT"
  | Rc_Cancelled => "CANCELLED"
  | Rc_UnknownAfterDisconnect => "UNKNOWN_AFTER_DISCONNECT"
  | Rc_VersionMismatch => "VERSION_MISMATCH"
  | Rc_UnverifiedBuild => "UNVERIFIED_BUILD"
  | Rc_StateCorrupt => "STATE_CORRUPT"
  | Rc_StateVersionUnsupported => "STATE_VERSION_UNSUPPORTED"
  | Rc_CacheRebuilt => "CACHE_REBUILT"
  | Rc_DeviceLost => "DEVICE_LOST"
  | Rc_PairingNotCommitted => "PAIRING_NOT_COMMITTED"
  | Rc_PairConfirmUnexpected => "PAIR_CONFIRM_UNEXPECTED"
  | Rc_PairPersistFailed => "PAIR_PERSIST_FAILED"
  | Rc_UnknownInitiatorIkRejected => "UNKNOWN_INITIATOR_IK_REJECTED"
  | Rc_SasRejected => "SAS_REJECTED"
  | Rc_PairCancelled => "PAIR_CANCELLED"
  | Rc_PairingTimeout => "PAIRING_TIMEOUT"
  end%string.

(** Reason spellings are distinct, so a log line or a reply names one reason. *)
Lemma ReasonCode_as_str_inj r1 r2 :
  ReasonCode_as_str r1 = ReasonCode_as_str r2 -> r1 = r2.
Proof. intros H; destruct r1; destruct r2; first [reflexivity | discriminate H]. Qed.

(** [pb_types::Mutation]: a value with a flag saying whether state changed. *)
Record Mutation (T : Type) : Type := mkMutation { value : T; state_changed : bool }.
Arguments mkMutation {T} _ _.
Arguments value {T} _.
Arguments state_changed {T} _.
