(* ===== verification/Pbmux.v ===== *)
(** * pb-pbmux, frame layer: headers, [encode]/[decode] and dispatch

    Models the first half of [crates/pb-pbmux/src/lib.rs]: the 40-byte frame
    header, the frame codec, the fragment-field rules, the PAIR_CONFIRM profile
    and the authorisation of a decoded frame in a dispatch mode. *)

From Stdlib Require Import ZArith Lia.
From stdpp Require Import base tactics list gmap.
From S2P Require Import Prelude Types.

(** ** Data *)

Record Header : Type := mkHeader {
  channel : Channel;
  flags : Z;
  message_type : Z;
  request_id : Z;
  sequence : Z;
  fragment_index : Z;
  payload_len : Z;
  logical_message_len : Z;
}.

Record Frame : Type := mkFrame { header : Header; payload : list byte }.

Inductive PbmuxErrorKind : Type :=
| K_FrameTooLarge | K_HeaderTooShort | K_InvalidMagic | K_InvalidVersion
| K_InvalidHeaderLength | K_UnknownChannel | K_ReservedFlags | K_PayloadLengthMismatch
| K_LogicalLengthInvalid | K_FragmentInvalid | K_UnsupportedMessage
| K_InvalidCommandPayload | K_SequenceMismatch | K_ReassemblyQuota | K_ReassemblyMissing
| K_PairingNotCommitted | K_PairConfirmUnexpected | K_InvalidResourcePayload
| K_InvalidRemoteBufferPayload | K_InvalidComputePayload.

#[export] Instance PbmuxErrorKind_eq_dec : EqDecision PbmuxErrorKind.
Proof. solve_decision. Defined.

Record PbmuxError : Type := mkPbmuxError { kind : PbmuxErrorKind; scope : ErrorScope }.

#[export] Instance PbmuxError_eq_dec : EqDecision PbmuxError.
Proof. solve_decision. Defined.

Definition session (k : PbmuxErrorKind) : PbmuxError := mkPbmuxError k Sc_Session.
Definition logical (k : PbmuxErrorKind) : PbmuxError := mkPbmuxError k Sc_LogicalMessage.

Definition reason_code (e : PbmuxError) : ReasonCode :=
  match kind e with
  | K_FrameTooLarge => Rc_FrameTooLarge
  | K_UnsupportedMessage => Rc_UnsupportedMessage
  | K_InvalidCommandPayload => Rc_UnsupportedMessage
  | K_InvalidResourcePayload | K_InvalidRemoteBufferPayload | K_InvalidComputePayload =>
      Rc_UnsupportedMessage
  | K_SequenceMismatch => Rc_SequenceError
  | K_PairingNotCommitted => Rc_PairingNotCommitted
  | K_PairConfirmUnexpected => Rc_PairConfirmUnexpected
  | _ => Rc_FrameTooLarge
  end.

Definition read_u16 (bytes : list byte) (offset : nat) : Z := be_val (slice bytes offset 2).
Definition read_u32 (bytes : list byte) (offset : nat) : Z := be_val (slice bytes offset 4).
Definition read_u64 (bytes : list byte) (offset : nat) : Z := be_val (slice bytes offset 8).

(** The ranges that the Rust field types give a header. *)
Record header_typed (h : Header) : Prop := {
  ht_flags : uw 16 (flags h);
  ht_message_type : uw 16 (message_type h);
  ht_request_id : uw 64 (request_id h);
  ht_sequence : uw 64 (sequence h);
  ht_fragment_index : uw 32 (fragment_index h);
  ht_payload_len : uw 32 (payload_len h);
  ht_logical_message_len : uw 32 (logical_message_len h);
}.

(** ** Frame codec *)

Definition validate_fragment_fields (h : Header) : result unit PbmuxError :=
  let start := has_flag (flags h) FLAG_START in
  let end_ := has_flag (flags h) FLAG_END in
  let logical_len := logical_message_len h in
  let payload_len := payload_len h in
  if MAX_LOGICAL_MESSAGE <? logical_len then Err (logical K_LogicalLengthInvalid)
  else if start then
    if negb (fragment_index h =? 0) || (logical_len <? payload_len) then
      Err (logical K_FragmentInvalid)
    else if end_ && negb (logical_len =? payload_len) then
      Err (logical K_LogicalLengthInvalid)
    else if negb end_ && (logical_len <=? payload_len) then
      Err (logical K_LogicalLengthInvalid)
    else Ok tt
  else if (fragment_index h =? 0) || negb (logical_message_len h =? 0) then
    Err (logical K_FragmentInvalid)
  else Ok tt.

Definition encode (frame : Frame) : result (list byte) PbmuxError :=
  let h := header frame in
  if MAX_PBMUX_PAYLOAD <? len (payload frame) then Err (session K_FrameTooLarge)
  else if negb (payload_len h =? len (payload frame)) then
    Err (session K_PayloadLengthMismatch)
  else if negb (Z.land (flags h) (not16 KNOWN_FLAGS) =? 0) then
    Err (session K_ReservedFlags)
  else if negb (is_known_message_type (channel h) (message_type h)) then
    Err (logical K_UnsupportedMessage)
  else
    let? _ := validate_fragment_fields h in
    Ok (PBMUX_MAGIC
          ++ to_be 1 PBMUX_VERSION
          ++ to_be 1 (Channel_as_u8 (channel h))
          ++ to_be 2 (flags h)
          ++ to_be 2 (message_type h)
          ++ to_be 2 PBMUX_HEADER_LEN
          ++ to_be 8 (request_id h)
          ++ to_be 8 (sequence h)
          ++ to_be 4 (fragment_index h)
          ++ to_be 4 (payload_len h)
          ++ to_be 4 (logical_message_len h)
          ++ payload frame).

Definition decode (bytes : list byte) : result Frame PbmuxError :=
  if len bytes <? PBMUX_HEADER_LEN then Err (session K_HeaderTooShort)
  else if MAX_PBMUX_PLAINTEXT <? len bytes then Err (session K_FrameTooLarge)
  else if negb (bool_decide (slice bytes 0 4 = PBMUX_MAGIC)) then
    Err (session K_InvalidMagic)
  else if negb (read_u8 bytes 4 =? PBMUX_VERSION) then Err (session K_InvalidVersion)
  else
    match Channel_try_from (read_u8 bytes 5) with
    | Err _ => Err (session K_UnknownChannel)
    | Ok channel =>
        let flags := read_u16 bytes 6 in
        if negb (Z.land flags (not16 KNOWN_FLAGS) =? 0) then Err (session K_ReservedFlags)
        else
          let header_len := read_u16 bytes 10 in
          if negb (header_len =? PBMUX_HEADER_LEN) then Err (session K_InvalidHeaderLength)
          else
            let payload_len := read_u32 bytes 32 in
            if (MAX_PBMUX_PAYLOAD <? payload_len)
               || negb (PBMUX_HEADER_LEN + payload_len =? len bytes) then
              Err (session K_PayloadLengthMismatch)
            else
              let message_type := read_u16 bytes 8 in
              if negb (is_known_message_type channel message_type) then
                Err (logical K_UnsupportedMessage)
              else
                let header := {|
                  channel := channel;
                  flags := flags;
                  message_type := message_type;
                  request_id := read_u64 bytes 12;
                  sequence := read_u64 bytes 20;
                  fragment_index := read_u32 bytes 28;
                  payload_len := payload_len;
                  logical_message_len := read_u32 bytes 36 |} in
                let? _ := validate_fragment_fields header in
                Ok {| header := header; payload := drop 40 bytes |}
    end.

(** ** PAIR_CONFIRM and dispatch *)

Definition pair_confirm_frame (request_id sequence : Z) : result Frame PbmuxError :=
  if request_id =? 0 then Err (logical K_PairConfirmUnexpected)
  else Ok {|
    header := {|
      channel := Ch_Control;
      flags := Z.lor FLAG_START FLAG_END;
      message_type := ControlType_as_u16 Ct_PairConfirm;
      request_id := request_id;
      sequence := sequence;
      fragment_index := 0;
      payload_len := 0;
      logical_message_len := 0 |};
    payload := [] |}.

Definition is_empty (l : list byte) : bool := match l with [] => true | _ => false end.

Definition validate_pair_confirm (frame : Frame) : result unit PbmuxError :=
  let h := header frame in
  if negb (bool_decide (channel h = Ch_Control))
     || negb (message_type h =? ControlType_as_u16 Ct_PairConfirm)
     || negb (flags h =? Z.lor FLAG_START FLAG_END)
     || (request_id h =? 0)
     || negb (fragment_index h =? 0)
     || negb (payload_len h =? 0)
     || negb (logical_message_len h =? 0)
     || negb (is_empty (payload frame))
  then Err (logical K_PairConfirmUnexpected)
  else Ok tt.

Inductive DispatchMode : Type := PairingControlOnly | Committed.

#[export] Instance DispatchMode_eq_dec : EqDecision DispatchMode.
Proof. solve_decision. Defined.

Definition authorize_dispatch (frame : Frame) (mode : DispatchMode) : result unit PbmuxError :=
  let h := header frame in
  if bool_decide (channel h = Ch_Control)
     && (message_type h =? ControlType_as_u16 Ct_PairConfirm) then
    if bool_decide (mode = Committed) then Err (logical K_PairConfirmUnexpected)
    else validate_pair_confirm frame
  else if bool_decide (mode = Committed) then Ok tt
  else
    let allowed :=
      bool_decide (channel h = Ch_Control)
      && match ControlType_try_from (message_type h) with
         | Ok Ct_Ping | Ok Ct_Pong | Ok Ct_Error | Ok Ct_SessionClose => true
         | _ => false
         end in
    if allowed then Ok tt else Err (logical K_PairingNotCommitted).

(** ** The codec's contract

    [frame_wf] is the abstract description of a wire frame: what a PBMUX peer
    may put on the wire, independent of the byte layout. *)

Definition fragment_ok (h : Header) : Prop :=
  logical_message_len h <= MAX_LOGICAL_MESSAGE /\
  if has_flag (flags h) FLAG_START then
    fragment_index h = 0 /\
    (if has_flag (flags h) FLAG_END then logical_message_len h = payload_len h
     else payload_len h < logical_message_len h)
  else fragment_index h <> 0 /\ logical_message_len h = 0.

Record frame_wf (f : Frame) : Prop := {
  fw_typed : header_typed (header f);
  fw_len : payload_len (header f) = len (payload f);
  fw_max : len (payload f) <= MAX_PBMUX_PAYLOAD;
  fw_flags : Z.land (flags (header f)) (not16 KNOWN_FLAGS) = 0;
  fw_type : is_known_message_type (channel (header f)) (message_type (header f)) = true;
  fw_fragment : fragment_ok (header f);
}.

Lemma validate_fragment_fields_ok h :
  header_typed h -> (validate_fragment_fields h = Ok tt <-> fragment_ok h).
Proof.
  intros []. unfold validate_fragment_fields, fragment_ok, uw in *.
  destruct (has_flag (flags h) FLAG_START), (has_flag (flags h) FLAG_END);
    repeat case_match; bool_hyps; simpl in *; intuition (try discriminate; try lia).
Qed.

Lemma read_uw bytes off n : (off + n <= length bytes)%nat ->
  uw (8 * Z.of_nat n) (be_val (slice bytes off n)).
Proof. intros H. apply be_val_uw, length_slice, H. Qed.

Lemma encode_ok_iff f :
  header_typed (header f) -> (is_ok (encode f) = true <-> frame_wf f).
Proof.
  intros Ht. unfold encode. pose proof (validate_fragment_fields_ok _ Ht) as Hv.
  split.
  - intros H. repeat case_match; try discriminate H; bool_hyps.
    constructor; try done. apply Hv. by destruct t.
  - intros [_ H1 H2 H3 H4 H5].
    rewrite (proj2 Hv H5), H3, H4.
    rewrite (proj2 (Z.ltb_ge _ _)) by lia. rewrite (proj2 (Z.eqb_eq _ _)) by lia. done.
Qed.

(** The bytes [encode] lays out for a frame. *)
Definition frame_bytes (f : Frame) : list byte :=
  let h := header f in
  PBMUX_MAGIC ++ to_be 1 PBMUX_VERSION ++ to_be 1 (Channel_as_u8 (channel h))
    ++ to_be 2 (flags h) ++ to_be 2 (message_type h) ++ to_be 2 PBMUX_HEADER_LEN
    ++ to_be 8 (request_id h) ++ to_be 8 (sequence h) ++ to_be 4 (fragment_index h)
    ++ to_be 4 (payload_len h) ++ to_be 4 (logical_message_len h) ++ payload f.

Lemma encode_bytes f b : encode f = Ok b -> b = frame_bytes f.
Proof. unfold encode. intros H. ok_inv H. by simplify_eq. Qed.

Lemma len_frame_bytes f : len (frame_bytes f) = 40 + len (payload f).
Proof.
  unfold frame_bytes, len. change (length PBMUX_MAGIC) with 4%nat.
  rewrite !length_app, !length_to_be. change (length PBMUX_MAGIC) with 4%nat. lia.
Qed.

Lemma decode_frame_bytes f : frame_wf f -> decode (frame_bytes f) = Ok f.
Proof.
  intros [Htd Hl Hm Hf Ht Hfr]. pose proof Htd as []. unfold decode.
  rewrite len_frame_bytes. unfold frame_bytes.
  assert (HM : length PBMUX_MAGIC = 4%nat) by done.
  unfold read_u8, read_u16, read_u32, read_u64. cbn zeta.
  slice_read. pose proof (Channel_as_u8_uw (channel (header f))).
  rewrite !be_val_to_be by (done || (unfold uw; simpl; lia)).
  rewrite Channel_try_from_as, Hf, Ht.
  rewrite bool_decide_true by done.
  rewrite (proj2 (Z.ltb_ge _ _)) by (unfold PBMUX_HEADER_LEN, len; lia).
  rewrite (proj2 (Z.ltb_ge MAX_PBMUX_PLAINTEXT _)) by
    (unfold MAX_PBMUX_PLAINTEXT, MAX_PBMUX_PAYLOAD in *; lia).
  rewrite (proj2 (Z.ltb_ge MAX_PBMUX_PAYLOAD _)) by lia.
  rewrite (proj2 (Z.eqb_eq (PBMUX_HEADER_LEN + _) _)) by (unfold PBMUX_HEADER_LEN; lia).
  simpl negb. cbn [orb]. destruct f as [[] p]. simpl in *.
  rewrite (proj2 (validate_fragment_fields_ok _ Htd) Hfr). done.
Qed.

Lemma decode_wf b f : decode b = Ok f -> frame_wf f /\ frame_bytes f = b.
Proof.
  unfold decode. intros H. ok_inv H. destruct t0. bool_hyps.
  assert (40 <= length b)%nat by (unfold PBMUX_HEADER_LEN, len in *; lia).
  assert (Ht : header_typed (header f)).
  { simplify_eq. constructor; simpl; apply (read_uw b); lia. }
  simplify_eq. simpl in Ht. split.
  - constructor; simpl; try done.
    + unfold len. rewrite length_drop. unfold len, PBMUX_HEADER_LEN in *. lia.
    + unfold len. rewrite length_drop. unfold len, PBMUX_HEADER_LEN, MAX_PBMUX_PAYLOAD in *. lia.
    + apply (validate_fragment_fields_ok _ Ht). done.
  - unfold frame_bytes. cbn [header payload channel flags message_type request_id sequence
      fragment_index payload_len logical_message_len].
    match goal with H : Channel_try_from _ = Ok _ |- _ =>
      apply Channel_as_try_from in H; rewrite H end.
    match goal with H : slice b 0 4 = _ |- _ => rewrite <- H end.
    match goal with H : read_u8 b 4 = _ |- _ => rewrite <- H end.
    match goal with H : read_u16 b 10 = _ |- _ => rewrite <- H end.
    unfold read_u8, read_u16, read_u32, read_u64.
    slice_glue. done.
Qed.

(** What the encoder produced decodes to the frame. *)
Lemma decode_encoded f b : header_typed (header f) -> encode f = Ok b -> decode b = Ok f.
Proof.
  intros Ht E. rewrite (encode_bytes _ _ E). apply decode_frame_bytes.
  apply (encode_ok_iff f Ht). by rewrite E.
Qed.

(** ** Theorems *)

(** C8: the frame codec is a bijection between well-typed frames the encoder
    accepts and the byte strings the decoder accepts: [decode] inverts [encode],
    and every accepted byte string is the one canonical encoding of its frame. *)
Theorem decode_iff_encode b f :
  decode b = Ok f <-> header_typed (header f) /\ encode f = Ok b.
Proof.
  split.
  - intros H. destruct (decode_wf _ _ H) as [Hw Hb].
    pose proof (fw_typed _ Hw) as Ht. split; [done|].
    pose proof (proj2 (encode_ok_iff f Ht) Hw) as Hok.
    destruct (encode f) as [b'|] eqn:E; [|done].
    by rewrite (encode_bytes _ _ E), Hb.
  - intros [Ht E]. by apply decode_encoded.
Qed.

(** The envelope checks of [decode]: everything a receiver must trust before
    it can attribute a defect to one logical message. *)
Definition envelope_ok (b : list byte) : Prop :=
  PBMUX_HEADER_LEN <= len b <= MAX_PBMUX_PLAINTEXT /\
  slice b 0 4 = PBMUX_MAGIC /\ read_u8 b 4 = PBMUX_VERSION /\
  is_ok (Channel_try_from (read_u8 b 5)) = true /\
  Z.land (read_u16 b 6) (not16 KNOWN_FLAGS) = 0 /\
  read_u16 b 10 = PBMUX_HEADER_LEN /\
  read_u32 b 32 <= MAX_PBMUX_PAYLOAD /\ PBMUX_HEADER_LEN + read_u32 b 32 = len b.

Lemma validate_fragment_fields_scope h e :
  validate_fragment_fields h = Err e -> scope e = Sc_LogicalMessage.
Proof. unfold validate_fragment_fields. intros H. repeat case_match; by simplify_eq. Qed.

(** A rejected frame is charged to its logical message exactly when its
    envelope is intact; any broken envelope is an error of the whole session. *)
Lemma decode_error_scope b e :
  decode b = Err e ->
  (scope e = Sc_LogicalMessage /\ envelope_ok b) \/ (scope e = Sc_Session /\ ~ envelope_ok b).
Proof.
  unfold decode. intros H. cbn zeta in H.
  repeat match type of H with
  | (if ?c then _ else _) = _ =>
      let E := fresh "G" in destruct c eqn:E; [injection H as <-|]
  | match ?e with Ok _ => _ | Err _ => _ end = _ =>
      let E := fresh "G" in destruct e eqn:E; [|try injection H as <-]
  end; try discriminate H; bool_hyps; unfold envelope_ok;
  try (right; split; [reflexivity|];
       intros ((? & ?) & ? & ? & Hc & ? & ? & ? & ?);
       first [lia | congruence | by rewrite G3 in Hc | intuition (bool_hyps; lia)]).
  - left. rewrite G3. repeat split; done || lia.
  - left. split; [by eapply validate_fragment_fields_scope; subst|].
    rewrite G3. repeat split; done || lia.
Qed.

Lemma decode_error_scope_witness :
  decode [] = Err (session K_HeaderTooShort) /\
  ((scope (session K_HeaderTooShort) = Sc_LogicalMessage /\ envelope_ok []) \/
   (scope (session K_HeaderTooShort) = Sc_Session /\ ~ envelope_ok [])).
Proof. split; [reflexivity|]. apply (decode_error_scope [] _). reflexivity. Defined.

Lemma validate_pair_confirm_iff f :
  validate_pair_confirm f = Ok tt <->
  exists rid seq, pair_confirm_frame rid seq = Ok f.
Proof.
  unfold validate_pair_confirm, pair_confirm_frame. split.
  - intros H. ok_inv H. bool_hyps. exists (request_id (header f)), (sequence (header f)).
    rewrite (proj2 (Z.eqb_neq _ _)) by done. destruct f as [[] []]; simpl in *; congruence.
  - intros (rid & seq & H). ok_inv H. injection H as <-. simpl.
    by rewrite G.
Qed.

(** C40: dispatch authorisation.  While pairing, the only frames let through are
    CONTROL PING, PONG, ERROR and SESSION_CLOSE and the exact PAIR_CONFIRM frame
    the builder produces; once trust is committed PAIR_CONFIRM is the only frame
    refused. *)
Theorem authorize_dispatch_spec f :
  (authorize_dispatch f PairingControlOnly = Ok tt <->
     (channel (header f) = Ch_Control /\
      (message_type (header f) = 1 \/ message_type (header f) = 2 \/
       message_type (header f) = 3 \/ message_type (header f) = 7)) \/
     exists rid seq, pair_confirm_frame rid seq = Ok f) /\
  (authorize_dispatch f Committed = Ok tt <->
     ~ (channel (header f) = Ch_Control /\ message_type (header f) = 8)).
Proof.
  unfold authorize_dispatch. rewrite <- validate_pair_confirm_iff.
  rewrite (bool_decide_false (PairingControlOnly = Committed)) by done.
  rewrite (bool_decide_true (Committed = Committed)) by done.
  assert (Hv : validate_pair_confirm f = Ok tt ->
    channel (header f) = Ch_Control /\ message_type (header f) = 8).
  { unfold validate_pair_confirm. intros H. ok_inv H. bool_hyps. done. }
  destruct (decide (channel (header f) = Ch_Control)) as [Hc|Hc];
    [rewrite (bool_decide_true _ Hc)|rewrite (bool_decide_false _ Hc)]; simpl.
  - change (ControlType_as_u16 Ct_PairConfirm) with 8.
    destruct (Z.eqb_spec (message_type (header f)) 8) as [E|E].
    + split; [|split; [done|naive_solver]]. split; [by right|].
      intros [[_ ?]|?]; [lia|done].
    + split; [|split; [naive_solver|done]].
      unfold ControlType_try_from. repeat case_match; bool_hyps; try congruence;
        split; intros; try discriminate; try lia; try (left; split; [done|lia]);
        intuition (congruence || lia).
  - split; [|split; [naive_solver|done]]. split; [discriminate|].
    intros [[? _]|H]; [done|]. by destruct (Hv H).
Qed.
