(* ===== verification/Reassembly.v ===== *)
(** * pb-pbmux, receive side: sequence tracking, quotas and reassembly

    Models the second half of [crates/pb-pbmux/src/lib.rs]: [SequenceTracker],
    [ReassemblyAccounting] and [Reassembler].  The [HashMap] of partial messages
    is a [gmap]; the accounting arrays are lists of length 6 indexed by the
    channel number.  An unchecked subtraction or increment that would leave the
    integer's range makes the operation [None]. *)

From Stdlib Require Import ZArith Lia.
From stdpp Require Import base tactics list list_numbers gmap.
From S2P Require Import Prelude Types Pbmux.

(** ** Sequence numbers *)

Module SequenceTracker.
Record t : Type := mk { expected : Z }.

Definition new : t := mk 0.

Definition accept (s : t) (received : Z) : t * result unit PbmuxError :=
  if negb (received =? expected s) then (s, Err (session K_SequenceMismatch))
  else
    match checked_add64 (expected s) 1 with
    | None => (s, Err (session K_SequenceMismatch))
    | Some next => (mk next, Ok tt)
    end.

(** Feed received sequence numbers until the first rejection. *)
Fixpoint run (s : t) (received : list Z) : t * bool :=
  match received with
  | [] => (s, true)
  | r :: rest =>
      match accept s r with
      | (s', Ok _) => run s' rest
      | (s', Err _) => (s', false)
      end
  end.
End SequenceTracker.

(** ** Reassembly quotas *)

Module Accounting.
Record Ticket : Type := mkTicket { t_channel : Channel; t_bytes : Z }.

Record t : Type := mk {
  channel_bytes : list Z;
  channel_count : list Z;
  session_bytes : Z;
}.

Definition default : t := mk (replicate 6 0) (replicate 6 0) 0.

Definition idx (c : Channel) : nat := Z.to_nat (Channel_as_u8 c).
(** [array[channel as usize]] *)
Definition at_ch (l : list Z) (c : Channel) : Z := nth (idx c) l 0.

Definition count_limit (c : Channel) : Z :=
  if bool_decide (c = Ch_Control) then MAX_INFLIGHT_CONTROL
  else MAX_INFLIGHT_PER_DATA_CHANNEL.

Definition try_start (a : t) (c : Channel) (logical_bytes : Z) :
    t * result Ticket PbmuxError :=
  if MAX_LOGICAL_MESSAGE <? logical_bytes then (a, Err (logical K_LogicalLengthInvalid))
  else
    match checked_add64 (at_ch (channel_bytes a) c) logical_bytes with
    | None => (a, Err (logical K_ReassemblyQuota))
    | Some channel_after =>
        match checked_add64 (session_bytes a) logical_bytes with
        | None => (a, Err (logical K_ReassemblyQuota))
        | Some session_after =>
            if (count_limit c <=? at_ch (channel_count a) c)
               || (MAX_REASSEMBLY_PER_CHANNEL <? channel_after)
               || (MAX_REASSEMBLY_PER_SESSION <? session_after)
            then (a, Err (logical K_ReassemblyQuota))
            else
              (mk (<[idx c := channel_after]> (channel_bytes a))
                  (<[idx c := at_ch (channel_count a) c + 1]> (channel_count a))
                  session_after,
               Ok (mkTicket c logical_bytes))
        end
    end.

Definition finish (a : t) (ticket : Ticket) : option t :=
  let c := t_channel ticket in
  cb ← checked_sub (at_ch (channel_bytes a) c) (t_bytes ticket);
  cc ← checked_sub (at_ch (channel_count a) c) 1;
  sb ← checked_sub (session_bytes a) (t_bytes ticket);
  Some (mk (<[idx c := cb]> (channel_bytes a)) (<[idx c := cc]> (channel_count a)) sb).
End Accounting.

(** ** Reassembler *)

Module Reassembler.
Record Partial : Type := mkPartial {
  ticket : Accounting.Ticket;
  p_message_type : Z;
  ack_required : bool;
  expected_fragment : Z;
  expected_len : Z;
  p_payload : list byte;
}.

Record t : Type := mk {
  accounting : Accounting.t;
  partial : gmap (Channel * Z) Partial;
}.

Definition default : t := mk Accounting.default ∅.

Definition abort_partial (s : t) (key : Channel * Z) (k : PbmuxErrorKind) :
    option (t * PbmuxError) :=
  match partial s !! key with
  | Some p =>
      acc ← Accounting.finish (accounting s) (ticket p);
      Some (mk acc (delete key (partial s)), logical k)
  | None => Some (s, logical k)
  end.

(** [return Err(self.abort_partial(key, kind))] *)
Definition abort (s : t) (key : Channel * Z) (k : PbmuxErrorKind) :
    option (t * result (option (list byte)) PbmuxError) :=
  '(s', e) ← abort_partial s key k; Some (s', Err e).

(** [u16::from(ack) * FLAG_ACK_REQUIRED] *)
Definition ack_bits (ack : bool) : Z := (if ack then 1 else 0) * FLAG_ACK_REQUIRED.

Definition accept (s : t) (frame : Frame) :
    option (t * result (option (list byte)) PbmuxError) :=
  let h := header frame in
  let start := has_flag (flags h) FLAG_START in
  let end_ := has_flag (flags h) FLAG_END in
  let key := (channel h, request_id h) in
  if start && end_ then
    if bool_decide (is_Some (partial s !! key)) then abort s key K_FragmentInvalid
    else Some (s, Ok (Some (payload frame)))
  else if start then
    if bool_decide (is_Some (partial s !! key)) then abort s key K_FragmentInvalid
    else
      let expected_len := logical_message_len h in
      match Accounting.try_start (accounting s) (channel h) expected_len with
      | (acc, Err e) => Some (mk acc (partial s), Err e)
      | (acc, Ok ticket) =>
          let p := {|
            ticket := ticket;
            p_message_type := message_type h;
            ack_required := has_flag (flags h) FLAG_ACK_REQUIRED;
            expected_fragment := 1;
            expected_len := expected_len;
            p_payload := payload frame |} in
          Some (mk acc (<[key := p]> (partial s)), Ok None)
      end
  else
    match partial s !! key with
    | None => Some (s, Err (logical K_ReassemblyMissing))
    | Some p =>
        if negb (message_type h =? p_message_type p)
           || negb (Z.land (flags h) FLAG_ACK_REQUIRED =? ack_bits (ack_required p))
           || negb (fragment_index h =? expected_fragment p)
           || (expected_len p <? len (p_payload p) + len (payload frame))
        then abort s key K_FragmentInvalid
        else if U32_MAX <? expected_fragment p + 1 then None
        else
          let p' := {|
            ticket := ticket p;
            p_message_type := p_message_type p;
            ack_required := ack_required p;
            expected_fragment := expected_fragment p + 1;
            expected_len := expected_len p;
            p_payload := p_payload p ++ payload frame |} in
          let s' := mk (accounting s) (<[key := p']> (partial s)) in
          if negb end_ then Some (s', Ok None)
          else if negb (len (p_payload p') =? expected_len p') then
            abort s' key K_LogicalLengthInvalid
          else
            acc ← Accounting.finish (accounting s') (ticket p');
            Some (mk acc (delete key (partial s')), Ok (Some (p_payload p')))
    end.

(** Feed frames in order, collecting what each call returns. *)
Fixpoint run (s : t) (frames : list Frame) :
    option (t * list (result (option (list byte)) PbmuxError)) :=
  match frames with
  | [] => Some (s, [])
  | f :: rest =>
      '(s', r) ← accept s f;
      '(s'', rs) ← run s' rest;
      Some (s'', r :: rs)
  end.
End Reassembler.

(** ** Invariant: the accounting is the exact cost of the partial messages *)

Import Accounting Reassembler.

Lemma idx_lt c : (idx c < 6)%nat.
Proof. destruct c; compute; lia. Qed.

Lemma idx_inj c c' : idx c = idx c' -> c = c'.
Proof. by destruct c, c'. Qed.

Lemma at_ch_insert l c c' v :
  length l = 6%nat -> at_ch (<[idx c := v]> l) c' = if bool_decide (c = c') then v else at_ch l c'.
Proof.
  intros Hl. unfold at_ch. rewrite !nth_lookup. case_bool_decide as E.
  - subst c'. rewrite list_lookup_insert_eq; [done|]. rewrite Hl. apply idx_lt.
  - rewrite list_lookup_insert_ne; [done|]. intros ?. by apply E, idx_inj.
Qed.

(** What one partial message costs channel [c], in bytes and in messages. *)
Definition w_bytes (c : Channel) (k : Channel * Z) (p : Partial) : Z :=
  if bool_decide (k.1 = c) then t_bytes (ticket p) else 0.
Definition w_count (c : Channel) (k : Channel * Z) (p : Partial) : Z :=
  if bool_decide (k.1 = c) then 1 else 0.
Definition w_session (k : Channel * Z) (p : Partial) : Z := t_bytes (ticket p).

Record partial_ok (k : Channel * Z) (p : Partial) : Prop := {
  po_channel : t_channel (ticket p) = k.1;
  po_bytes : t_bytes (ticket p) = expected_len p;
  po_len : 0 <= len (p_payload p) <= expected_len p;
  po_max : expected_len p <= MAX_LOGICAL_MESSAGE;
  po_frag : 1 <= expected_fragment p <= U32_MAX;
}.

Record Inv (s : Reassembler.t) : Prop := {
  inv_len_b : length (channel_bytes (accounting s)) = 6%nat;
  inv_len_c : length (channel_count (accounting s)) = 6%nat;
  inv_bytes c : at_ch (channel_bytes (accounting s)) c = msum (w_bytes c) (partial s);
  inv_count c : at_ch (channel_count (accounting s)) c = msum (w_count c) (partial s);
  inv_session : session_bytes (accounting s) = msum w_session (partial s);
  inv_partial k p : partial s !! k = Some p -> partial_ok k p;
  inv_quota_b c : at_ch (channel_bytes (accounting s)) c <= MAX_REASSEMBLY_PER_CHANNEL;
  inv_quota_c c : at_ch (channel_count (accounting s)) c <= count_limit c;
  inv_quota_s : session_bytes (accounting s) <= MAX_REASSEMBLY_PER_SESSION;
}.

Lemma inv_default : Inv Reassembler.default.
Proof.
  constructor; try done; intros; try (rewrite msum_empty); try (by destruct c);
    try (destruct c; compute; discriminate).
Qed.

Lemma inv_w_nonneg s k p c : Inv s -> partial s !! k = Some p ->
  0 <= w_bytes c k p /\ 0 <= w_count c k p /\ 0 <= w_session k p.
Proof.
  intros Hi Hk. destruct (inv_partial s Hi k p Hk).
  unfold w_bytes, w_count, w_session. case_bool_decide; lia.
Qed.

(** Releasing the ticket of a stored partial message never underflows. *)
Lemma finish_inv s k p : Inv s -> partial s !! k = Some p ->
  exists acc, finish (accounting s) (ticket p) = Some acc /\
    Inv (Reassembler.mk acc (delete k (partial s))).
Proof.
  intros Hi Hk. pose proof (inv_partial s Hi k p Hk) as Hp.
  pose proof Hp as [Hc Hb Hl Hm _].
  pose proof (msum_delete (w_bytes k.1) _ _ _ Hk) as Eb.
  pose proof (msum_delete (w_count k.1) _ _ _ Hk) as Ec.
  pose proof (msum_delete w_session _ _ _ Hk) as Es.
  assert (Hnn : forall c k' p', delete k (partial s) !! k' = Some p' ->
     0 <= w_bytes c k' p' /\ 0 <= w_count c k' p' /\ 0 <= w_session k' p').
  { intros c k' p' H. apply lookup_delete_Some in H as [_ H]. by apply (inv_w_nonneg s). }
  pose proof (msum_nonneg (w_bytes k.1) (delete k (partial s)) ltac:(intros; by apply Hnn)) as Nb.
  pose proof (msum_nonneg (w_count k.1) (delete k (partial s)) ltac:(intros; by apply Hnn)) as Nc.
  pose proof (msum_nonneg w_session (delete k (partial s))
                ltac:(intros; by apply (Hnn k.1))) as Ns.
  assert (Wb : w_bytes k.1 k p = t_bytes (ticket p)) by (unfold w_bytes; by rewrite bool_decide_true).
  assert (Wc : w_count k.1 k p = 1) by (unfold w_count; by rewrite bool_decide_true).
  rewrite <- (inv_bytes s Hi) in Eb. rewrite <- (inv_count s Hi) in Ec.
  rewrite <- (inv_session s Hi) in Es. unfold w_session in Es at 1.
  unfold finish. rewrite Hc. unfold checked_sub.
  rewrite (proj2 (Z.leb_le _ _)) by lia. simpl. rewrite (proj2 (Z.leb_le _ _)) by lia. simpl.
  rewrite (proj2 (Z.leb_le _ _)) by lia. simpl. eexists. split; [reflexivity|].
  assert (Hd : forall (w : Channel * Z -> Partial -> Z), msum w (partial s) = w k p + msum w (delete k (partial s)))
    by (intros; by apply msum_delete).
  pose proof (inv_len_b s Hi). pose proof (inv_len_c s Hi).
  constructor; simpl; rewrite ?length_insert; try done.
  - intros c. rewrite at_ch_insert by done. pose proof (Hd (w_bytes c)).
    rewrite <- (inv_bytes s Hi) in *. case_bool_decide; [subst; lia|].
    unfold w_bytes in H1 at 1. rewrite bool_decide_false in H1 by done. lia.
  - intros c. rewrite at_ch_insert by done. pose proof (Hd (w_count c)).
    rewrite <- (inv_count s Hi) in *. case_bool_decide; [subst; lia|].
    unfold w_count in H1 at 1. rewrite bool_decide_false in H1 by done. lia.
  - lia.
  - intros k' p' H'. apply lookup_delete_Some in H' as [_ ?]. by apply (inv_partial s Hi).
  - intros c. rewrite at_ch_insert by done. pose proof (inv_quota_b s Hi c).
    case_bool_decide; [subst; lia|done].
  - intros c. rewrite at_ch_insert by done. pose proof (inv_quota_c s Hi c).
    case_bool_decide; [subst; lia|done].
  - pose proof (inv_quota_s s Hi). lia.
Qed.

(** Admitting a partial message keeps every quota. *)
Lemma start_inv s k p acc tk : Inv s -> partial s !! k = None ->
  try_start (accounting s) k.1 (expected_len p) = (acc, Ok tk) ->
  ticket p = tk -> partial_ok k p ->
  Inv (Reassembler.mk acc (<[k := p]> (partial s))).
Proof.
  intros Hi Hk Hts Htk Hp. unfold try_start in Hts.
  repeat case_match; simplify_eq; bool_hyps.
  unfold checked_add64 in *. repeat case_match; simplify_eq.
  pose proof (inv_len_b s Hi). pose proof (inv_len_c s Hi).
  destruct Hp as [Hc Hb Hl Hm Hf].
  assert (Hd : forall w : Channel * Z -> Partial -> Z,
    msum w (<[k := p]> (partial s)) = w k p + msum w (partial s))
    by (intros; by apply msum_insert).
  assert (Htb : t_bytes (ticket p) = expected_len p) by done.
  constructor; simpl; rewrite ?length_insert; try done.
  - intros c. rewrite at_ch_insert, Hd by done. unfold w_bytes at 1.
    rewrite <- (inv_bytes s Hi). case_bool_decide; [subst; lia|lia].
  - intros c. rewrite at_ch_insert, Hd by done. unfold w_count at 1.
    rewrite <- (inv_count s Hi). case_bool_decide; [subst; lia|lia].
  - rewrite Hd, <- (inv_session s Hi). unfold w_session. lia.
  - intros k' p' H'. apply lookup_insert_Some in H' as [[<- <-]|[_ ?]];
      [by constructor|by apply (inv_partial s Hi)].
  - intros c. rewrite at_ch_insert by done. pose proof (inv_quota_b s Hi c).
    case_bool_decide; lia.
  - intros c. rewrite at_ch_insert by done. pose proof (inv_quota_c s Hi c).
    case_bool_decide; [subst; lia|lia].
Qed.

(** Growing a stored partial message inside its ticket keeps the accounting. *)
Lemma update_inv s k p p' : Inv s -> partial s !! k = Some p ->
  ticket p' = ticket p -> partial_ok k p' ->
  Inv (Reassembler.mk (accounting s) (<[k := p']> (partial s))).
Proof.
  intros Hi Hk Ht Hp'.
  assert (Hd : forall w : Channel * Z -> Partial -> Z, w k p' = w k p ->
    msum w (<[k := p']> (partial s)) = msum w (partial s)).
  { intros w Hw. rewrite (msum_replace w _ k p p' Hk). lia. }
  destruct Hi. constructor; simpl; try done;
    try (intros; rewrite Hd by (unfold w_bytes, w_count, w_session; by rewrite ?Ht); done).
  intros k' q H. apply lookup_insert_Some in H as [[<- <-]|[_ ?]]; [done|eauto].
Qed.

Lemma abort_inv s k e : Inv s ->
  exists s', abort s k e = Some (s', Err (logical e)) /\ Inv s' /\ partial s' !! k = None.
Proof.
  intros Hi. unfold abort, abort_partial. destruct (partial s !! k) as [p|] eqn:E.
  - destruct (finish_inv s k p Hi E) as (acc & -> & Hi'). simpl.
    eexists. split; [reflexivity|]. split; [done|]. apply lookup_delete_eq.
  - simpl. eauto.
Qed.

Lemma try_start_err a c n acc e : try_start a c n = (acc, Err e) -> acc = a.
Proof. unfold try_start. intros. repeat case_match; by simplify_eq. Qed.

(** No message in progress waits for a fragment beyond number [n]. *)
Definition reached (n : Z) (s : Reassembler.t) : Prop :=
  forall k p, partial s !! k = Some p -> expected_fragment p <= n.

Lemma reached_delete n acc m k :
  (forall k' p, m !! k' = Some p -> expected_fragment p <= n) ->
  reached n (Reassembler.mk acc (delete k m)).
Proof. intros Hm k' p Hk. cbn in Hk. apply lookup_delete_Some in Hk as [_ Hk]. eauto. Qed.

Lemma reached_insert n acc m k p :
  (forall k' q, m !! k' = Some q -> expected_fragment q <= n) -> expected_fragment p <= n ->
  reached n (Reassembler.mk acc (<[k := p]> m)).
Proof. intros Hm Hp k' q Hk. cbn in Hk. apply lookup_insert_Some in Hk as [[_ <-]|[_ Hk]]; eauto. Qed.

Lemma reached_abort n s k e s' r : reached n s -> abort s k e = Some (s', r) -> reached n s'.
Proof.
  unfold abort, abort_partial. intros Hs E. destruct (partial s !! k) as [p|]; cbn in E.
  - destruct (finish _ _) as [acc|]; [|done]. injection E as <- _. by apply reached_delete.
  - by injection E as <- _.
Qed.

(** One frame moves the fragment counters by at most one. *)
Lemma accept_reached n s f s' r :
  0 <= n -> reached n s -> Reassembler.accept s f = Some (s', r) -> reached (n + 1) s'.
Proof.
  intros Hn Hs. assert (Hw : reached (n + 1) s) by (intros k p Hk; specialize (Hs k p Hk); lia).
  unfold Reassembler.accept. cbn zeta. set (k := (_, _)).
  destruct (has_flag _ FLAG_START); cbn [andb].
  - destruct (has_flag _ FLAG_END); case_match; try (by apply reached_abort).
    + by intros [= <- _].
    + destruct (try_start _ _ _) as [acc [tk|e]]; intros [= <- _]; [|exact Hw].
      apply reached_insert; [exact Hw|cbn; lia].
  - destruct (partial s !! k) as [p|] eqn:Ek; [|by intros [= <- _]].
    case_match; [by apply reached_abort|]. case_match; [done|]. specialize (Hs k p Ek).
    set (p' := mkPartial _ _ _ _ _ _).
    assert (Hi : reached (n + 1) (Reassembler.mk (accounting s) (<[k := p']> (partial s))))
      by (apply reached_insert; [exact Hw|cbn; lia]).
    case_match; [by intros [= <- _]|]. case_match; [by apply reached_abort|].
    destruct (finish _ _) as [acc|]; cbn; [|done]. intros [= <- _]. apply reached_delete, Hi.
Qed.

(** [expected_fragment += 1] leaves the range of a u32: the frame is the continuation
    number 2^32 - 1 of a message in progress that waits for exactly this number. *)
Definition counter_overflow (s : Reassembler.t) (f : Frame) : Prop :=
  fragment_index (header f) = U32_MAX /\
  exists p, partial s !! (channel (header f), request_id (header f)) = Some p /\
    expected_fragment p = U32_MAX.

(** [accept] returns on every frame the decoder can produce and keeps the invariant,
    unless the fragment counter overflows. *)
Lemma reassembler_accept_inv s f :
  Inv s -> frame_wf f ->
  (exists s' r, Reassembler.accept s f = Some (s', r) /\ Inv s') \/
  (Reassembler.accept s f = None /\ counter_overflow s f).
Proof.
  intros Hi Hw. unfold Reassembler.accept, counter_overflow. cbn zeta.
  set (k := (channel (header f), request_id (header f))).
  destruct (fw_fragment f Hw) as [Hlm Hfr].
  pose proof (ht_logical_message_len _ (fw_typed f Hw)) as Hll.
  destruct (has_flag (flags (header f)) FLAG_START) eqn:Es; simpl.
  - left. destruct (bool_decide (is_Some (partial s !! k))) eqn:Ek.
    { destruct (abort_inv s k K_FragmentInvalid Hi) as (s' & -> & ? & _).
      case_match; eauto. }
    bool_hyps. apply eq_None_not_Some in Ek.
    destruct (has_flag (flags (header f)) FLAG_END) eqn:Ee; [eauto|].
    destruct (try_start _ _ _) as [acc [tk|e]] eqn:Ets.
    + do 2 eexists. split; [reflexivity|]. destruct Hfr as [_ Hlt].
      eapply (start_inv s k); [done|done|exact Ets|done|].
      unfold try_start in Ets. repeat case_match; simplify_eq.
      pose proof (fw_len f Hw). constructor; simpl; unfold len, U32_MAX in *; lia || done.
    + apply try_start_err in Ets as ->. destruct s. eauto.
  - destruct (partial s !! k) as [p|] eqn:Ek; [|eauto].
    pose proof (inv_partial s Hi k p Ek) as Hp.
    case_match eqn:G.
    { destruct (abort_inv s k K_FragmentInvalid Hi) as (s' & -> & ? & _). eauto. }
    bool_hyps. destruct (U32_MAX <? expected_fragment p + 1) eqn:Eo; bool_hyps.
    { right. pose proof (po_frag _ _ Hp). split; [done|]. split; [lia|]. exists p.
      split; [done|lia]. }
    left. set (p' := mkPartial _ _ _ _ _ _).
    assert (Hi' : Inv (Reassembler.mk (accounting s) (<[k := p']> (partial s)))).
    { eapply update_inv; [done|done|done|]. destruct Hp.
      constructor; simpl; try done; unfold len in *; rewrite ?length_app; lia. }
    case_match; [eauto|]. case_match.
    + destruct (abort_inv _ k K_LogicalLengthInvalid Hi') as (s' & E & ? & _).
      rewrite E. eauto.
    + destruct (finish_inv _ k p' Hi') as (acc & E & ?); [apply lookup_insert_eq|].
      simpl in E |- *. rewrite E. simpl. eauto.
Qed.

(** ** Theorems *)

Lemma buffered_le s : Inv s ->
  msum (fun _ p => len (p_payload p)) (partial s) <= session_bytes (accounting s).
Proof.
  intros Hi. rewrite (inv_session s Hi). apply msum_le. intros k p Hk.
  destruct (inv_partial s Hi k p Hk). unfold w_session. lia.
Qed.

(** What the reassembler may hold: at most 8 MiB and 64 (control) or 16 messages per
    channel are promised, and at most 16 MiB are buffered. *)
Definition within_quotas (s : Reassembler.t) : Prop :=
  (forall c, at_ch (channel_bytes (accounting s)) c <= MAX_REASSEMBLY_PER_CHANNEL /\
             at_ch (channel_count (accounting s)) c <= count_limit c) /\
  msum (fun _ p => len (p_payload p)) (partial s) <= MAX_REASSEMBLY_PER_SESSION.

Lemma inv_within s : Inv s -> within_quotas s.
Proof.
  intros Hs. split; [intros c; split; apply Hs|].
  pose proof (buffered_le s Hs). pose proof (inv_quota_s s Hs). lia.
Qed.

Lemma run_inv frames : Forall frame_wf frames -> forall n s, 0 <= n -> Inv s -> reached n s ->
  (exists s' rs, Reassembler.run s frames = Some (s', rs) /\ Inv s') \/
  (Reassembler.run s frames = None /\
   exists pre f post s' rs, frames = pre ++ f :: post /\
     Reassembler.run s pre = Some (s', rs) /\ Inv s' /\ counter_overflow s' f /\
     U32_MAX <= n + Z.of_nat (length pre)).
Proof.
  induction 1 as [|f frames Hw _ IH]; intros n s Hn Hs Hr; cbn [Reassembler.run]; [eauto|].
  destruct (reassembler_accept_inv s f Hs Hw) as [(s1 & r & E & Hs1)|(E & Ho)]; rewrite E; cbn.
  - pose proof (accept_reached n s f s1 r Hn Hr E) as Hr1.
    destruct (IH (n + 1) s1 ltac:(lia) Hs1 Hr1)
      as [(s2 & rs & -> & Hs2)|(-> & pre & g & post & s2 & rs & -> & Ep & Hs2 & Ho & Hl)];
      cbn; [by eauto|].
    right. split; [done|]. exists (f :: pre), g, post, s2, (r :: rs).
    cbn [app Reassembler.run length]. rewrite E. cbn [mbind option_bind]. rewrite Ep, Nat2Z.inj_succ.
    split_and!; try done; try apply Ho. lia.
  - right. split; [done|]. exists [], f, frames, s, []. cbn [app Reassembler.run length].
    split_and!; try done; try apply Ho. destruct Ho as (_ & p & Hp & Hx). specialize (Hr _ _ Hp). lia.
Qed.

(** C11: whatever frames the decoder hands over, the reassembler stays within its quotas
    (at most 8 MiB and 64 or 16 messages per channel, at most 16 MiB actually buffered)
    and its accounting never underflows.  There is one sequence of frames it does not
    survive: after at least 2^32 - 1 frames the fragment counter of a message can be at
    its maximum, and the next fragment of that message overflows it; up to that frame
    the quotas held.  So every run of fewer than 2^32 frames is safe. *)
Theorem reassembler_run_safe frames :
  Forall frame_wf frames ->
  (exists s rs, Reassembler.run Reassembler.default frames = Some (s, rs) /\ within_quotas s) \/
  (Reassembler.run Reassembler.default frames = None /\
   exists pre f post s rs, frames = pre ++ f :: post /\
     Reassembler.run Reassembler.default pre = Some (s, rs) /\ within_quotas s /\
     counter_overflow s f /\ U32_MAX <= Z.of_nat (length pre)).
Proof.
  intros Hf. destruct (run_inv frames Hf 0 _ ltac:(lia) inv_default)
    as [(s & rs & E & Hs)|(E & pre & f & post & s & rs & -> & Ep & Hs & Ho & Hl)];
    [done| |].
  - left. exists s, rs. split; [done|by apply inv_within].
  - right. split; [done|]. exists pre, f, post, s, rs.
    split_and!; try done; by apply inv_within.
Qed.

(** Frame number [i] of the message [rid] of a channel; [n] is the length announced. *)
Definition buffer_part (rid : Z) (more : Z) (i n : Z) (bytes : list byte) : Frame :=
  mkFrame (mkHeader Ch_RemoteBuffer more 3 rid i i (len bytes) n) bytes.

(** Two messages interleaved, the second one completed, the first one cut off by a wrong
    fragment number; then three messages of the maximal length, of which the channel has
    room for two. *)
Definition busy_frames : list Frame := [
  buffer_part 1 FLAG_START 0 4 [Byte.x01; Byte.x02];
  buffer_part 2 FLAG_START 0 3 [Byte.x0a];
  buffer_part 2 0 1 0 [Byte.x0b];
  buffer_part 2 FLAG_END 2 0 [Byte.x0c];
  buffer_part 1 FLAG_END 2 0 [Byte.x03; Byte.x04];
  buffer_part 3 FLAG_START 0 MAX_LOGICAL_MESSAGE [];
  buffer_part 4 FLAG_START 0 MAX_LOGICAL_MESSAGE [Byte.xff];
  buffer_part 5 FLAG_START 0 MAX_LOGICAL_MESSAGE []].

Lemma reassembler_run_safe_witness :
  exists s rs, Reassembler.run Reassembler.default busy_frames = Some (s, rs) /\
    within_quotas s /\
    rs = [Ok None; Ok None; Ok None; Ok (Some [Byte.x0a; Byte.x0b; Byte.x0c]);
          Err (logical K_FragmentInvalid); Ok None; Ok None; Err (logical K_ReassemblyQuota)] /\
    session_bytes (accounting s) = 2 * MAX_LOGICAL_MESSAGE.
Proof.
  destruct (reassembler_run_safe busy_frames) as [(s & rs & E & Hs)|(E & _)].
  - repeat constructor; vm_compute; intuition discriminate.
  - exists s, rs. split; [done|]. split; [done|]. vm_compute in E. injection E as <- <-. done.
  - exfalso. by vm_compute in E.
Defined.

(** *** The overflow exists *)

(** The start of a message that announces [n] bytes and brings none. *)
Definition empty_start (c : Channel) (ty rid n : Z) (ack : bool) : Frame :=
  mkFrame (mkHeader c (Z.lor FLAG_START (ack_bits ack)) ty rid 0 0 0 n) [].
(** Its [i]-th fragment, empty as well. *)
Definition empty_fragment (c : Channel) (ty rid : Z) (ack : bool) (i : Z) : Frame :=
  mkFrame (mkHeader c (ack_bits ack) ty rid i i 0 0) [].

(** The message is in progress, empty so far, and waits for fragment [i]. *)
Definition waiting (c : Channel) (ty rid : Z) (ack : bool) (s : Reassembler.t) (i : Z) : Prop :=
  exists p, partial s !! (c, rid) = Some p /\ p_message_type p = ty /\ ack_required p = ack /\
    expected_fragment p = i /\ p_payload p = [] /\ 0 <= expected_len p.

Lemma empty_flags ack :
  has_flag (Z.lor FLAG_START (ack_bits ack)) FLAG_START = true /\
  has_flag (Z.lor FLAG_START (ack_bits ack)) FLAG_END = false /\
  has_flag (ack_bits ack) FLAG_START = false /\ has_flag (ack_bits ack) FLAG_END = false.
Proof. by destruct ack. Qed.

Lemma empty_step c ty rid ack s i : waiting c ty rid ack s i ->
  (i < U32_MAX -> exists s', Reassembler.accept s (empty_fragment c ty rid ack i) = Some (s', Ok None) /\
     waiting c ty rid ack s' (i + 1)) /\
  (U32_MAX <= i -> Reassembler.accept s (empty_fragment c ty rid ack i) = None).
Proof.
  intros (p & Hp & Ht & Ha & Hx & Hy & Hl). unfold Reassembler.accept.
  cbn [empty_fragment header payload channel request_id flags message_type fragment_index].
  destruct (empty_flags ack) as (_ & _ & -> & ->).
  cbn [andb]. rewrite Hp, Ht, Ha, Hx, Hy, !Z.eqb_refl.
  replace (Z.land (ack_bits ack) FLAG_ACK_REQUIRED =? ack_bits ack) with true by (by destruct ack).
  rewrite (proj2 (Z.ltb_ge (expected_len p) _)) by (unfold len; cbn; lia). cbn [negb orb app].
  split; intros Hi.
  - rewrite (proj2 (Z.ltb_ge _ _)) by lia. eexists. split; [done|]. eexists.
    split; [apply lookup_insert_eq|done].
  - by rewrite (proj2 (Z.ltb_lt _ _)) by lia.
Qed.

Lemma empty_run c ty rid ack m : forall i s, waiting c ty rid ack s i ->
  i + Z.of_nat m <= U32_MAX ->
  exists s', Reassembler.run s (empty_fragment c ty rid ack <$> seqZ i (Z.of_nat m))
               = Some (s', replicate m (Ok None)) /\
    waiting c ty rid ack s' (i + Z.of_nat m).
Proof.
  induction m as [|m IH]; intros i s Hw Hm.
  - exists s. cbn. by rewrite Z.add_0_r.
  - rewrite Nat2Z.inj_succ in *. rewrite seqZ_cons by lia. rewrite Z.pred_succ.
    cbn [fmap list_fmap Reassembler.run replicate].
    destruct (proj1 (empty_step c ty rid ack s i Hw) ltac:(lia)) as (s1 & -> & Hw1). cbn.
    destruct (IH (Z.succ i) s1 Hw1 ltac:(lia)) as (s2 & E & Hw2).
    fold (fmap (M:=list) (empty_fragment c ty rid ack)). rewrite E. cbn. exists s2.
    split; [done|]. by replace (i + Z.succ (Z.of_nat m)) with (Z.succ i + Z.of_nat m) by lia.
Qed.

Lemma empty_frames_wf c ty rid ack n :
  is_known_message_type c ty = true -> uw 16 ty -> uw 64 rid -> 0 < n <= MAX_LOGICAL_MESSAGE ->
  frame_wf (empty_start c ty rid n ack) /\
  forall i, 0 < i <= U32_MAX -> frame_wf (empty_fragment c ty rid ack i).
Proof.
  intros Hk Hty Hrid Hn. destruct (empty_flags ack) as (F1 & F2 & F3 & F4).
  assert (Hm : MAX_LOGICAL_MESSAGE < 2 ^ 32) by done. unfold U32_MAX, uw in *.
  assert (Ht : forall fl i k, uw 16 fl -> 0 <= i < 2 ^ 32 -> 0 <= k < 2 ^ 32 ->
    header_typed (mkHeader c fl ty rid i i 0 k)).
  { intros fl i k Hfl Hi Hk'. constructor; cbn; unfold uw in *; lia. }
  split; [|intros i Hi]; constructor; try done; try (by destruct ack).
  - apply Ht; [by destruct ack|lia..].
  - unfold fragment_ok. cbn [empty_start header flags]. rewrite F1, F2. cbn. lia.
  - apply Ht; [by destruct ack|lia..].
  - unfold fragment_ok. cbn [empty_fragment header flags]. rewrite F3. cbn. unfold MAX_LOGICAL_MESSAGE. lia.
Qed.

Lemma empty_start_accept c ty rid ack n : 0 < n <= MAX_LOGICAL_MESSAGE ->
  exists s, Reassembler.accept Reassembler.default (empty_start c ty rid n ack) = Some (s, Ok None) /\
    waiting c ty rid ack s 1.
Proof.
  intros Hn. unfold Reassembler.accept.
  cbn [empty_start header payload channel request_id flags message_type logical_message_len].
  destruct (empty_flags ack) as (-> & -> & _).
  cbn [andb Reassembler.default partial]. rewrite bool_decide_false by (by intros [??]).
  unfold try_start. rewrite (proj2 (Z.ltb_ge _ _)) by lia.
  replace (at_ch (channel_bytes (accounting Reassembler.default)) c) with 0 by (by destruct c).
  replace (at_ch (channel_count (accounting Reassembler.default)) c) with 0 by (by destruct c).
  unfold checked_add64, MAX_LOGICAL_MESSAGE in *. cbn [Reassembler.default accounting Accounting.default session_bytes].
  rewrite (proj2 (Z.leb_le _ _)) by (unfold U64_MAX; lia).
  replace (count_limit c <=? 0) with false by (by destruct c). cbn [orb].
  rewrite !(proj2 (Z.ltb_ge _ _)) by (unfold MAX_REASSEMBLY_PER_SESSION, MAX_REASSEMBLY_PER_CHANNEL; lia).
  eexists. split; [done|]. eexists. split; [apply lookup_insert_eq|].
  cbn. destruct ack; repeat split; lia.
Qed.

Lemma empty_frames_numbered c ty rid n ack m : 1 < m ->
  (fun f => sequence (header f)) <$>
    ((empty_start c ty rid n ack :: (empty_fragment c ty rid ack <$> seqZ 1 (m - 1)))
       ++ [empty_fragment c ty rid ack m]) = seqZ 0 (m + 1).
Proof.
  intros Hm. cbn [app]. rewrite fmap_cons, fmap_app, <- list_fmap_compose.
  rewrite (seqZ_cons 0) by lia. f_equal.
  replace (Z.pred (m + 1)) with ((m - 1) + 1) by lia.
  rewrite seqZ_app by lia. f_equal; [apply list_fmap_id|].
  rewrite seqZ_cons by lia. cbn. f_equal. lia.
Qed.

Lemma empty_frames_run c ty rid n ack m : 0 < n <= MAX_LOGICAL_MESSAGE ->
  1 + Z.of_nat m = U32_MAX ->
  exists s, Reassembler.run Reassembler.default
      (empty_start c ty rid n ack :: (empty_fragment c ty rid ack <$> seqZ 1 (Z.of_nat m)))
    = Some (s, Ok None :: replicate m (Ok None)) /\
    Reassembler.accept s (empty_fragment c ty rid ack U32_MAX) = None.
Proof.
  intros Hn Hm. destruct (empty_start_accept c ty rid ack n Hn) as (s0 & E0 & H0).
  cbn [Reassembler.run]. rewrite E0. cbn [mbind option_bind].
  destruct (empty_run c ty rid ack m 1 s0 H0) as (s & E & Hw); [lia|].
  rewrite E. exists s. split; [done|].
  apply (empty_step c ty rid ack s); [|done]. by rewrite <- Hm at 1.
Qed.

(** The fragment counter can overflow.  On any channel and for any message type the
    decoder admits, a message that announces at least one byte and continues with empty
    fragments is made of frames the decoder accepts, numbered without a gap; its start
    and the first 2^32 - 2 fragments are accepted, and on the next one, number 2^32 - 1,
    [expected_fragment += 1] leaves the range of a u32. *)
Theorem fragment_counter_overflows c ty rid n ack :
  is_known_message_type c ty = true -> uw 16 ty -> uw 64 rid -> 0 < n <= MAX_LOGICAL_MESSAGE ->
  let sent := empty_start c ty rid n ack :: (empty_fragment c ty rid ack <$> seqZ 1 (U32_MAX - 1)) in
  let last := empty_fragment c ty rid ack U32_MAX in
  Forall frame_wf (sent ++ [last]) /\
  (fun f => sequence (header f)) <$> (sent ++ [last]) = seqZ 0 (U32_MAX + 1) /\
  exists s, Reassembler.run Reassembler.default sent
              = Some (s, Ok None :: replicate (Z.to_nat (U32_MAX - 1)) (Ok None)) /\
    Reassembler.accept s last = None.
Proof.
  intros Hk Hty Hrid Hn sent last.
  destruct (empty_frames_wf c ty rid ack n Hk Hty Hrid Hn) as [Hs Hf].
  assert (Hu : 1 < U32_MAX) by done. split_and!.
  - apply Forall_app_2; [|apply Forall_singleton, Hf; lia]. constructor; [done|].
    apply Forall_fmap, Forall_forall. intros i [Hi1 Hi2]%elem_of_seqZ. apply Hf. lia.
  - by apply empty_frames_numbered.
  - assert (Ho : Z.of_nat (Z.to_nat (U32_MAX - 1)) = U32_MAX - 1) by (apply Z2Nat.id; lia).
    unfold sent, last. revert Ho. generalize (Z.to_nat (U32_MAX - 1)) as m. intros m Ho.
    rewrite <- Ho. apply empty_frames_run; [exact Hn|]. rewrite Ho. apply Zplus_minus.
Qed.

Lemma fragment_counter_overflows_witness :
  exists s, Reassembler.run Reassembler.default
      (empty_start Ch_RemoteBuffer 3 7 80 true ::
       (empty_fragment Ch_RemoteBuffer 3 7 true <$> seqZ 1 (U32_MAX - 1)))
    = Some (s, Ok None :: replicate (Z.to_nat (U32_MAX - 1)) (Ok None)) /\
    Reassembler.accept s (empty_fragment Ch_RemoteBuffer 3 7 true U32_MAX) = None.
Proof.
  refine (proj2 (proj2 (fragment_counter_overflows Ch_RemoteBuffer 3 7 80 true _ _ _ _)));
    [reflexivity|split; [discriminate|reflexivity]..|split; [reflexivity|discriminate]].
Defined.

Lemma sequence_run_from e rs :
  0 <= e <= U64_MAX ->
  (snd (SequenceTracker.run (SequenceTracker.mk e) rs) = true <->
   rs = seqZ e (Z.of_nat (length rs)) /\ e + Z.of_nat (length rs) <= U64_MAX).
Proof.
  revert e. induction rs as [|r rs IH]; intros e He; [simpl; intuition lia|].
  cbn [SequenceTracker.run length]. rewrite Nat2Z.inj_succ.
  rewrite seqZ_cons by lia. rewrite Z.pred_succ.
  unfold SequenceTracker.accept, checked_add64. simpl SequenceTracker.expected.
  destruct (Z.eqb_spec r e) as [->|Hne]; simpl.
  - destruct (Z.leb_spec (e + 1) U64_MAX); simpl; [|intuition (discriminate || lia)].
    rewrite IH by lia. rewrite <- Z.add_1_r. split; intros [H1 H2].
    + split; [by f_equal|lia].
    + injection H1 as H1. split; [done|lia].
  - intuition congruence.
Qed.

(** A fresh [SequenceTracker] accepts exactly the consecutive run 0, 1, 2, ...
    with no gap, no repetition and no reordering, and it stops before the counter
    could wrap at u64::MAX. *)
Lemma sequence_run_exact rs :
  snd (SequenceTracker.run SequenceTracker.new rs) = true <->
  rs = seqZ 0 (Z.of_nat (length rs)) /\ Z.of_nat (length rs) <= U64_MAX.
Proof. apply (sequence_run_from 0 rs). unfold U64_MAX. lia. Qed.
