(* ===== verification/Codec.v ===== *)
(** * The contract of a locked payload codec

    Every C07/C08/C10 message of [pb-pbmux] is a fixed-length payload inside one
    unfragmented frame.  [WireCodec] is the interface of such a payload codec and
    [WireCodecLaws] what it promises; the frame builders and parsers are verified
    against the interface, and each message module discharges it. *)

From Stdlib Require Import ZArith Lia.
From stdpp Require Import base tactics list gmap.
From S2P Require Import Prelude Types Pbmux.

(** Ranges of encoded enumerations. *)
Create HintDb wire.

Class WireCodec (P : Type) : Type := {
  wc_typed : P -> Prop;
  wc_len : nat;
  wc_encode : P -> result (list byte) PbmuxError;
  wc_decode : list byte -> result P PbmuxError;
}.

(** Decoding inverts encoding on well-typed payloads, every accepted byte string
    is canonical, and the encoding has the locked length. *)
Class WireCodecLaws (P : Type) `{WireCodec P} : Prop := {
  wc_bijective b p : wc_decode b = Ok p <-> wc_typed p /\ wc_encode p = Ok b;
  wc_length p b : wc_typed p -> wc_encode p = Ok b -> length b = wc_len;
}.

(** The proof steps every codec shares.  [codec_typed b]: fields read out of [b]
    are in range; [codec_canonical]: re-encoding the fields read out of a buffer
    gives the buffer; [codec_read n]: reading the fields of an [n]-byte encoding. *)
Ltac codec_open H := ok_inv H; apply Ok_inj in H.
Ltac codec_typed b :=
  constructor; simpl; try (apply length_slice; lia); apply (read_uw b); lia.
Ltac codec_canonical :=
  psimpl; f_equal; unfold read_u8, read_u16, read_u32, read_u64; slice_glue;
  by apply slice_all.
Ltac codec_read n :=
  unfold read_u8, read_u16, read_u32, read_u64;
  match goal with |- context [(length ?x =? n)%nat] =>
    let Hl := fresh "Hl" in
    assert (Hl : length x = n) by len_solve; rewrite Hl; clear Hl end;
  rewrite Nat.eqb_refl; change (negb true) with false; cbv zeta iota;
  slice_read; be_read.

(** [FLAG_START | FLAG_END] and [FLAG_START | FLAG_END | FLAG_ACK_REQUIRED] *)
Definition FLAGS_SINGLE : Z := Z.lor FLAG_START FLAG_END.
Definition FLAGS_REQUEST : Z := Z.lor (Z.lor FLAG_START FLAG_END) FLAG_ACK_REQUIRED.

(** The header every single-frame message of a locked profile carries. *)
Definition single_header (c : Channel) (fl ty rid seq n : Z) : Header := {|
  channel := c;
  flags := fl;
  message_type := ty;
  request_id := rid;
  sequence := seq;
  fragment_index := 0;
  payload_len := n;
  logical_message_len := n |}.

(** The locked profile test of the parsers: everything but the request id. *)
Definition single_profile (c : Channel) (fl ty n : Z) (f : Frame) : Prop :=
  header f = single_header c fl ty (request_id (header f)) (sequence (header f)) n /\
  len (payload f) = n.

Lemma single_profile_fields c fl ty n f :
  single_profile c fl ty n f <->
  channel (header f) = c /\ message_type (header f) = ty /\ flags (header f) = fl /\
  fragment_index (header f) = 0 /\ payload_len (header f) = n /\
  logical_message_len (header f) = n /\ len (payload f) = n.
Proof.
  unfold single_profile, single_header. destruct f as [[] p]; simpl. split.
  - intros [H ?]. injection H; intros; subst; auto 10.
  - intros (-> & -> & -> & -> & -> & -> & ?). auto.
Qed.

(** The guard of a parser is the negated profile. *)
Lemma profile_guard c fl ty n (f : Frame) (rid_bad : bool) :
  negb (bool_decide (channel (header f) = c)) || negb (message_type (header f) =? ty)
  || negb (flags (header f) =? fl) || rid_bad
  || negb (fragment_index (header f) =? 0) || negb (payload_len (header f) =? n)
  || negb (logical_message_len (header f) =? n) || negb (len (payload f) =? n) = false <->
  single_profile c fl ty n f /\ rid_bad = false.
Proof.
  rewrite single_profile_fields, !orb_false_iff, !negb_false_iff, bool_decide_eq_true,
    !Z.eqb_eq. tauto.
Qed.

(** [if guard then Err e else k] succeeds exactly when the guard is off. *)
Lemma guarded_ok {T E} (g : bool) (e : E) (k : result T E) v :
  (if g then Err e else k) = Ok v <-> g = false /\ k = Ok v.
Proof. destruct g; intuition discriminate. Qed.

Lemma bind_ok {T U E} (m : result T E) (k : T -> U) v :
  (let? x := m in Ok (k x)) = Ok v <-> exists x, m = Ok x /\ v = k x.
Proof.
  destruct m as [x|]; split; [intros H; exists x; split; congruence|..].
  - intros (? & ? & ->); congruence.
  - discriminate.
  - intros (? & ? & _); discriminate.
Qed.

Section SingleFrame.
Context {P : Type} `{WireCodecLaws P}.

(** A parser that tests the profile and then decodes, against a builder that
    encodes and then fills the profile in, form a bijection on frames. *)
Lemma single_frame_bijective c fl ty f p :
  (single_profile c fl ty (Z.of_nat wc_len) f /\ wc_decode (payload f) = Ok p) <->
  wc_typed p /\ exists b, wc_encode p = Ok b /\
    f = mkFrame (single_header c fl ty (request_id (header f)) (sequence (header f))
                   (Z.of_nat wc_len)) b.
Proof.
  split.
  - intros [[Hh _] Hd]. apply wc_bijective in Hd as [Ht He]. split; [done|].
    exists (payload f). split; [done|]. destruct f as [h b]. simpl in *. by rewrite <- Hh.
  - intros (Ht & b & He & Hf). pose proof (wc_length p b Ht He) as Hl.
    assert (Hp : payload f = b) by (rewrite Hf; done).
    assert (Hh : header f = single_header c fl ty (request_id (header f))
      (sequence (header f)) (Z.of_nat wc_len)) by (rewrite Hf at 1; done).
    split; [split; [done|]|].
    + rewrite Hp. unfold len. by rewrite Hl.
    + rewrite Hp. by apply wc_bijective.
Qed.
End SingleFrame.
