(* ===== verification/Control.v ===== *)
(** * pb-pbmux, C07 messages: COMMAND, COMMAND_ACK and HEARTBEAT

    Models the payload codecs and frame profiles of
    [crates/pb-pbmux/src/lib.rs] for CONTROL/5, CONTROL/6 and METRICS/1. *)

From Stdlib Require Import ZArith Lia.
From stdpp Require Import base tactics list gmap.
From S2P Require Import Prelude Types Pbmux Codec.

Definition bad_command : PbmuxError := logical K_InvalidCommandPayload.

(** [u8] and array equality tests of the sources. *)
Definition is_zeros (n : nat) (l : list byte) : bool := bool_decide (l = zeros n).

(** ** COMMAND *)

Module Command.

Record Payload : Type := mk {
  command_type : Z;
  lease_present : Z;
  lease_id : list byte;
  command_seq : Z;
  trace_id : list byte;
  provider_present : Z;
  provider_id : Z;
  payload_len : Z;
}.

Definition PAYLOAD_LEN : nat := 46.

(** [encode_command_payload] *)
Definition encode (p : Payload) : result (list byte) PbmuxError :=
  if (1 <? lease_present p) || (1 <? provider_present p) then Err bad_command
  else if (lease_present p =? 0) && negb (is_zeros 16 (lease_id p)) then Err bad_command
  else if negb (provider_present p =? 0) then Err bad_command
  else if negb (provider_id p =? 0) then Err bad_command
  else if negb (payload_len p =? 0) then Err bad_command
  else
    let? _ :=
      if command_type p =? 1 then
        if negb (lease_present p =? 0) then Err bad_command
        else if negb (command_seq p =? 0) then Err bad_command
        else Ok tt
      else if command_type p =? 2 then
        if negb (lease_present p =? 1) then Err bad_command
        else if is_zeros 16 (lease_id p) then Err bad_command
        else Ok tt
      else if command_type p =? 3 then
        if negb (lease_present p =? 1) then Err bad_command
        else if is_zeros 16 (lease_id p) then Err bad_command
        else Ok tt
      else Err (logical K_UnsupportedMessage) in
    Ok (to_be 1 (command_type p)
          ++ to_be 1 (lease_present p)
          ++ lease_id p
          ++ to_be 8 (command_seq p)
          ++ trace_id p
          ++ to_be 1 (provider_present p)
          ++ to_be 1 (provider_id p)
          ++ to_be 2 (payload_len p)).

(** [decode_command_payload] *)
Definition decode (bytes : list byte) : result Payload PbmuxError :=
  if negb (length bytes =? PAYLOAD_LEN)%nat then Err bad_command
  else
    let command_type := read_u8 bytes 0 in
    let lease_present := read_u8 bytes 1 in
    let lease_id := slice bytes 2 16 in
    let command_seq := be_val (slice bytes 18 8) in
    let trace_id := slice bytes 26 16 in
    let provider_present := read_u8 bytes 42 in
    let provider_id := read_u8 bytes 43 in
    let payload_len := be_val (slice bytes 44 2) in
    if (1 <? lease_present) || (1 <? provider_present) then Err bad_command
    else if (lease_present =? 0) && negb (is_zeros 16 lease_id) then Err bad_command
    else if negb (provider_present =? 0) then Err bad_command
    else if negb (provider_id =? 0) then Err bad_command
    else if negb (payload_len =? 0) then Err bad_command
    else
      let? _ :=
        if command_type =? 1 then
          if negb (lease_present =? 0) then Err bad_command
          else if negb (command_seq =? 0) then Err bad_command
          else Ok tt
        else if command_type =? 2 then
          if negb (lease_present =? 1) then Err bad_command
          else if is_zeros 16 lease_id then Err bad_command
          else Ok tt
        else if command_type =? 3 then
          if negb (lease_present =? 1) then Err bad_command
          else if is_zeros 16 lease_id then Err bad_command
          else Ok tt
        else Err (logical K_UnsupportedMessage) in
      Ok (mk command_type lease_present lease_id command_seq trace_id
             provider_present provider_id payload_len).

Record typed (p : Payload) : Prop := {
  ty_type : uw 8 (command_type p);
  ty_lease_present : uw 8 (lease_present p);
  ty_lease : length (lease_id p) = 16%nat;
  ty_seq : uw 64 (command_seq p);
  ty_trace : length (trace_id p) = 16%nat;
  ty_provider_present : uw 8 (provider_present p);
  ty_provider : uw 8 (provider_id p);
  ty_payload_len : uw 16 (payload_len p);
}.

#[global] Instance codec : WireCodec Payload := {|
  wc_typed := typed; wc_len := PAYLOAD_LEN; wc_encode := encode; wc_decode := decode |}.

#[global] Instance codec_laws : WireCodecLaws Payload.
Proof.
  split; unfold wc_decode, wc_encode, wc_typed, wc_len; simpl.
  - intros b p. split; [intros H|intros [Ht H]].
    + unfold decode in H. codec_open H. apply negb_false_iff, Nat.eqb_eq in G.
      unfold PAYLOAD_LEN in G. subst p. split; [codec_typed b|].
      unfold encode. psimpl. rewrite G0, G1, G2, G3, G4, G5. codec_canonical.
    + unfold encode in H. codec_open H. subst b. destruct Ht.
      unfold decode, PAYLOAD_LEN. codec_read 46%nat.
      rewrite G, G0, G1, G2, G3, G4. by destruct p.
  - intros p b [] H. unfold encode in H. codec_open H. subst b.
    unfold PAYLOAD_LEN. len_solve.
Qed.

End Command.

(** ** COMMAND_ACK *)

Module Ack.

Record Payload : Type := mk {
  ack_state : Z;
  reason_code : Z;
  command_seq : Z;
  expected_present : Z;
  expected : Z;
  result_ref_present : Z;
  lease_id : list byte;
  worker_incarnation : list byte;
  ttl_remaining_ms : Z;
  next_command_seq : Z;
  digest_present : Z;
  digest : list byte;
}.

Definition PAYLOAD_LEN : nat := 98.

(** [validate_ack_payload] *)
Definition validate (a : Payload) : result unit PbmuxError :=
  if (1 <? expected_present a) || (1 <? result_ref_present a) || (1 <? digest_present a)
  then Err bad_command
  else if (expected_present a =? 0) && negb (expected a =? 0) then Err bad_command
  else if (result_ref_present a =? 0)
          && (negb (is_zeros 16 (lease_id a))
              || negb (is_zeros 16 (worker_incarnation a))
              || negb (ttl_remaining_ms a =? 0)
              || negb (next_command_seq a =? 0))
  then Err bad_command
  else if negb (digest_present a =? 0) || negb (is_zeros 32 (digest a)) then Err bad_command
  else if negb ((ack_state a =? 1) || (ack_state a =? 2) || (ack_state a =? 3)) then
    Err (logical K_UnsupportedMessage)
  else if 5 <? reason_code a then Err (logical K_UnsupportedMessage)
  else if ack_state a =? 1 then
    if negb (reason_code a =? 0) || negb (expected_present a =? 0)
       || negb (result_ref_present a =? 0)
    then Err bad_command else Ok tt
  else if ack_state a =? 2 then
    if negb (reason_code a =? 0) || negb (expected_present a =? 0)
    then Err bad_command else Ok tt
  else if (reason_code a =? 0) || negb (result_ref_present a =? 0) then Err bad_command
  else if reason_code a =? 3 then
    if negb (expected_present a =? 1) then Err bad_command else Ok tt
  else if negb (expected_present a =? 0) then Err bad_command
  else Ok tt.

(** [encode_ack_payload] *)
Definition encode (p : Payload) : result (list byte) PbmuxError :=
  let? _ := validate p in
  Ok (to_be 1 (ack_state p)
        ++ to_be 2 (reason_code p)
        ++ to_be 8 (command_seq p)
        ++ to_be 1 (expected_present p)
        ++ to_be 8 (expected p)
        ++ to_be 1 (result_ref_present p)
        ++ lease_id p
        ++ worker_incarnation p
        ++ to_be 4 (ttl_remaining_ms p)
        ++ to_be 8 (next_command_seq p)
        ++ to_be 1 (digest_present p)
        ++ digest p).

(** [decode_ack_payload] *)
Definition decode (bytes : list byte) : result Payload PbmuxError :=
  if negb (length bytes =? PAYLOAD_LEN)%nat then Err bad_command
  else
    let ack := {|
      ack_state := read_u8 bytes 0;
      reason_code := read_u16 bytes 1;
      command_seq := read_u64 bytes 3;
      expected_present := read_u8 bytes 11;
      expected := read_u64 bytes 12;
      result_ref_present := read_u8 bytes 20;
      lease_id := slice bytes 21 16;
      worker_incarnation := slice bytes 37 16;
      ttl_remaining_ms := read_u32 bytes 53;
      next_command_seq := read_u64 bytes 57;
      digest_present := read_u8 bytes 65;
      digest := slice bytes 66 32 |} in
    let? _ := validate ack in
    Ok ack.

Record typed (p : Payload) : Prop := {
  ty_state : uw 8 (ack_state p);
  ty_reason : uw 16 (reason_code p);
  ty_seq : uw 64 (command_seq p);
  ty_expected_present : uw 8 (expected_present p);
  ty_expected : uw 64 (expected p);
  ty_result_ref_present : uw 8 (result_ref_present p);
  ty_lease : length (lease_id p) = 16%nat;
  ty_incarnation : length (worker_incarnation p) = 16%nat;
  ty_ttl : uw 32 (ttl_remaining_ms p);
  ty_next : uw 64 (next_command_seq p);
  ty_digest_present : uw 8 (digest_present p);
  ty_digest : length (digest p) = 32%nat;
}.

#[global] Instance codec : WireCodec Payload := {|
  wc_typed := typed; wc_len := PAYLOAD_LEN; wc_encode := encode; wc_decode := decode |}.

#[global] Instance codec_laws : WireCodecLaws Payload.
Proof.
  split; unfold wc_decode, wc_encode, wc_typed, wc_len; simpl.
  - intros b p. split; [intros H|intros [Ht H]].
    + unfold decode in H. codec_open H. apply negb_false_iff, Nat.eqb_eq in G.
      unfold PAYLOAD_LEN in G. subst p. split; [codec_typed b|].
      unfold encode. rewrite G0. codec_canonical.
    + unfold encode in H. codec_open H. subst b. destruct Ht.
      unfold decode, PAYLOAD_LEN. codec_read 98%nat.
      destruct p. simpl in *. by rewrite G.
  - intros p b [] H. unfold encode in H. codec_open H. subst b.
    unfold PAYLOAD_LEN. len_solve.
Qed.

End Ack.

(** ** HEARTBEAT *)

Module Heartbeat.

Record Payload : Type := mk {
  peer_id : list byte;
  worker_incarnation : list byte;
  lease_present : Z;
  lease_id : list byte;
  monotonic_ms : Z;
  thermal_status : Z;
  headroom_present : Z;
  headroom_f32_bits : Z;
  battery_pct : Z;
  charging : Z;
  power_save : Z;
  available_bytes : Z;
  safe_budget_bytes : Z;
  reserved_bytes : Z;
  queue_depth : Z;
  provider_count : Z;
  transport_count : Z;
}.

Definition PAYLOAD_LEN : nat := 110.

(** [validate_heartbeat_payload] *)
Definition validate (h : Payload) : result unit PbmuxError :=
  if 1 <? lease_present h then Err bad_command
  else if (lease_present h =? 0) && negb (is_zeros 16 (lease_id h)) then Err bad_command
  else if 6 <? thermal_status h then Err bad_command
  else if 1 <? headroom_present h then Err bad_command
  else if (if headroom_present h =? 0 then negb (headroom_f32_bits h =? 0)
           else
             let exponent := Z.land (Z.shiftr (headroom_f32_bits h) 23) 0xFF in
             negb (Z.land (headroom_f32_bits h) 0x80000000 =? 0) || (exponent =? 0xFF))
  then Err bad_command
  else if 100 <? battery_pct h then Err bad_command
  else if (1 <? charging h) || (1 <? power_save h) then Err bad_command
  else if negb (provider_count h =? 0) || negb (transport_count h =? 0) then Err bad_command
  else Ok tt.

(** [encode_heartbeat_payload] *)
Definition encode (p : Payload) : result (list byte) PbmuxError :=
  let? _ := validate p in
  Ok (peer_id p
        ++ worker_incarnation p
        ++ to_be 1 (lease_present p)
        ++ lease_id p
        ++ to_be 8 (monotonic_ms p)
        ++ to_be 1 (thermal_status p)
        ++ to_be 1 (headroom_present p)
        ++ to_be 4 (headroom_f32_bits p)
        ++ to_be 1 (battery_pct p)
        ++ to_be 1 (charging p)
        ++ to_be 1 (power_save p)
        ++ to_be 8 (available_bytes p)
        ++ to_be 8 (safe_budget_bytes p)
        ++ to_be 8 (reserved_bytes p)
        ++ to_be 2 (queue_depth p)
        ++ to_be 1 (provider_count p)
        ++ to_be 1 (transport_count p)).

(** [decode_heartbeat_payload] *)
Definition decode (bytes : list byte) : result Payload PbmuxError :=
  if negb (length bytes =? PAYLOAD_LEN)%nat then Err bad_command
  else
    let hb := {|
      peer_id := slice bytes 0 32;
      worker_incarnation := slice bytes 32 16;
      lease_present := read_u8 bytes 48;
      lease_id := slice bytes 49 16;
      monotonic_ms := read_u64 bytes 65;
      thermal_status := read_u8 bytes 73;
      headroom_present := read_u8 bytes 74;
      headroom_f32_bits := read_u32 bytes 75;
      battery_pct := read_u8 bytes 79;
      charging := read_u8 bytes 80;
      power_save := read_u8 bytes 81;
      available_bytes := read_u64 bytes 82;
      safe_budget_bytes := read_u64 bytes 90;
      reserved_bytes := read_u64 bytes 98;
      queue_depth := read_u16 bytes 106;
      provider_count := read_u8 bytes 108;
      transport_count := read_u8 bytes 109 |} in
    let? _ := validate hb in
    Ok hb.

Record typed (p : Payload) : Prop := {
  ty_peer : length (peer_id p) = 32%nat;
  ty_incarnation : length (worker_incarnation p) = 16%nat;
  ty_lease_present : uw 8 (lease_present p);
  ty_lease : length (lease_id p) = 16%nat;
  ty_mono : uw 64 (monotonic_ms p);
  ty_thermal : uw 8 (thermal_status p);
  ty_headroom_present : uw 8 (headroom_present p);
  ty_headroom : uw 32 (headroom_f32_bits p);
  ty_battery : uw 8 (battery_pct p);
  ty_charging : uw 8 (charging p);
  ty_power_save : uw 8 (power_save p);
  ty_available : uw 64 (available_bytes p);
  ty_safe : uw 64 (safe_budget_bytes p);
  ty_reserved : uw 64 (reserved_bytes p);
  ty_queue : uw 16 (queue_depth p);
  ty_provider : uw 8 (provider_count p);
  ty_transport : uw 8 (transport_count p);
}.

#[global] Instance codec : WireCodec Payload := {|
  wc_typed := typed; wc_len := PAYLOAD_LEN; wc_encode := encode; wc_decode := decode |}.

#[global] Instance codec_laws : WireCodecLaws Payload.
Proof.
  split; unfold wc_decode, wc_encode, wc_typed, wc_len; simpl.
  - intros b p. split; [intros H|intros [Ht H]].
    + unfold decode in H. codec_open H. apply negb_false_iff, Nat.eqb_eq in G.
      unfold PAYLOAD_LEN in G. subst p. split; [codec_typed b|].
      unfold encode. rewrite G0. codec_canonical.
    + unfold encode in H. codec_open H. subst b. destruct Ht.
      unfold decode, PAYLOAD_LEN. codec_read 110%nat.
      destruct p. simpl in *. by rewrite G.
  - intros p b [] H. unfold encode in H. codec_open H. subst b.
    unfold PAYLOAD_LEN. len_solve.
Qed.

End Heartbeat.

(** ** Frame builders and parsers *)

Definition build_command_frame (payload : Command.Payload) (request_id sequence : Z) :
    result Frame PbmuxError :=
  if request_id =? 0 then Err bad_command
  else
    let? payload := Command.encode payload in
    Ok (mkFrame {|
      channel := Ch_Control;
      flags := Z.lor (Z.lor FLAG_START FLAG_END) FLAG_ACK_REQUIRED;
      message_type := ControlType_as_u16 Ct_Command;
      request_id := request_id;
      sequence := sequence;
      fragment_index := 0;
      payload_len := Z.of_nat Command.PAYLOAD_LEN;
      logical_message_len := Z.of_nat Command.PAYLOAD_LEN |} payload).

Definition parse_command_frame (frame : Frame) : result Command.Payload PbmuxError :=
  let h := header frame in
  if negb (bool_decide (channel h = Ch_Control))
     || negb (message_type h =? ControlType_as_u16 Ct_Command)
     || negb (flags h =? Z.lor (Z.lor FLAG_START FLAG_END) FLAG_ACK_REQUIRED)
     || (request_id h =? 0)
     || negb (fragment_index h =? 0)
     || negb (payload_len h =? Z.of_nat Command.PAYLOAD_LEN)
     || negb (logical_message_len h =? Z.of_nat Command.PAYLOAD_LEN)
     || negb (len (payload frame) =? Z.of_nat Command.PAYLOAD_LEN)
  then Err bad_command
  else Command.decode (payload frame).

Definition build_command_ack_frame (payload : Ack.Payload) (request_id sequence : Z) :
    result Frame PbmuxError :=
  if request_id =? 0 then Err bad_command
  else
    let? payload := Ack.encode payload in
    Ok (mkFrame {|
      channel := Ch_Control;
      flags := Z.lor FLAG_START FLAG_END;
      message_type := ControlType_as_u16 Ct_CommandAck;
      request_id := request_id;
      sequence := sequence;
      fragment_index := 0;
      payload_len := Z.of_nat Ack.PAYLOAD_LEN;
      logical_message_len := Z.of_nat Ack.PAYLOAD_LEN |} payload).

Definition parse_command_ack_frame (frame : Frame) : result Ack.Payload PbmuxError :=
  let h := header frame in
  if negb (bool_decide (channel h = Ch_Control))
     || negb (message_type h =? ControlType_as_u16 Ct_CommandAck)
     || negb (flags h =? Z.lor FLAG_START FLAG_END)
     || (request_id h =? 0)
     || negb (fragment_index h =? 0)
     || negb (payload_len h =? Z.of_nat Ack.PAYLOAD_LEN)
     || negb (logical_message_len h =? Z.of_nat Ack.PAYLOAD_LEN)
     || negb (len (payload frame) =? Z.of_nat Ack.PAYLOAD_LEN)
  then Err bad_command
  else Ack.decode (payload frame).

Definition build_heartbeat_frame (payload : Heartbeat.Payload) (sequence : Z) :
    result Frame PbmuxError :=
  let? payload := Heartbeat.encode payload in
  Ok (mkFrame {|
    channel := Ch_Metrics;
    flags := Z.lor FLAG_START FLAG_END;
    message_type := 1;
    request_id := 0;
    sequence := sequence;
    fragment_index := 0;
    payload_len := Z.of_nat Heartbeat.PAYLOAD_LEN;
    logical_message_len := Z.of_nat Heartbeat.PAYLOAD_LEN |} payload).

Definition parse_heartbeat_frame (frame : Frame) : result Heartbeat.Payload PbmuxError :=
  let h := header frame in
  if negb (bool_decide (channel h = Ch_Metrics))
     || negb (message_type h =? 1)
     || negb (flags h =? Z.lor FLAG_START FLAG_END)
     || negb (request_id h =? 0)
     || negb (fragment_index h =? 0)
     || negb (payload_len h =? Z.of_nat Heartbeat.PAYLOAD_LEN)
     || negb (logical_message_len h =? Z.of_nat Heartbeat.PAYLOAD_LEN)
     || negb (len (payload frame) =? Z.of_nat Heartbeat.PAYLOAD_LEN)
  then Err bad_command
  else Heartbeat.decode (payload frame).

(** ** Theorems *)

(** CONTROL/5 COMMAND.  The parser accepts a frame as a command exactly when
    the builder produces that frame from that command, so a command survives the
    wire unchanged and only canonical frames of the locked profile are accepted. *)
Lemma command_frame_bijective f p :
  parse_command_frame f = Ok p <->
  Command.typed p /\
  build_command_frame p (request_id (header f)) (sequence (header f)) = Ok f.
Proof.
  unfold parse_command_frame, build_command_frame.
  rewrite guarded_ok, profile_guard, guarded_ok, (bind_ok (Command.encode p)).
  pose proof (single_frame_bijective (P := Command.Payload) Ch_Control FLAGS_REQUEST
    (ControlType_as_u16 Ct_Command) f p) as H. simpl in H. tauto.
Qed.

(** CONTROL/6 COMMAND_ACK.  Builder and parser are inverse on every
    acknowledgement the locked rules allow. *)
Lemma command_ack_frame_bijective f p :
  parse_command_ack_frame f = Ok p <->
  Ack.typed p /\
  build_command_ack_frame p (request_id (header f)) (sequence (header f)) = Ok f.
Proof.
  unfold parse_command_ack_frame, build_command_ack_frame.
  rewrite guarded_ok, profile_guard, guarded_ok, (bind_ok (Ack.encode p)).
  pose proof (single_frame_bijective (P := Ack.Payload) Ch_Control FLAGS_SINGLE
    (ControlType_as_u16 Ct_CommandAck) f p) as H. simpl in H. tauto.
Qed.

(** METRICS/1 HEARTBEAT.  Builder and parser are inverse; a heartbeat always
    has request id 0. *)
Lemma heartbeat_frame_bijective f p :
  parse_heartbeat_frame f = Ok p <->
  Heartbeat.typed p /\ build_heartbeat_frame p (sequence (header f)) = Ok f.
Proof.
  unfold parse_heartbeat_frame, build_heartbeat_frame.
  rewrite guarded_ok, profile_guard, (bind_ok (Heartbeat.encode p)).
  pose proof (single_frame_bijective (P := Heartbeat.Payload) Ch_Metrics FLAGS_SINGLE 1 f p)
    as H. simpl in H. rewrite negb_false_iff, Z.eqb_eq.
  split.
  - intros [[H1 H2] H3]. rewrite H2 in H. tauto.
  - intros (H1 & x & H2 & H3). assert (request_id (header f) = 0) as E by (rewrite H3; done).
    rewrite E in H. destruct (proj2 H) as [? ?]; [eauto|]. auto.
Qed.
