(* ===== verification/ResourceWire.v ===== *)
(** * pb-pbmux, C08 messages: RESOURCE requests, results and expiry notices

    Models [crates/pb-pbmux/src/resource.rs]: the 48-byte RESERVE/COMMIT/RELEASE
    requests, the 72-byte results, the 64-byte EXPIRE notification and the
    cross-field rules of [validate_result]. *)

From Stdlib Require Import ZArith Lia.
From stdpp Require Import base tactics list gmap.
From S2P Require Import Prelude Types Pbmux Codec.

Definition RESOURCE_REQUEST_LEN : nat := 48.
Definition RESOURCE_RESULT_LEN : nat := 72.
Definition RESOURCE_EXPIRE_NOTIFY_LEN : nat := 64.
Definition RESOURCE_RESERVATION_TTL_MS : Z := 30000.
Definition RESOURCE_MAX_BYTES : Z := 128 * 1024 * 1024.
Definition NATIVE_OP_SCRATCH_MAX_BYTES : Z := 8 * 1024 * 1024.

Inductive WireResourceClass : Type := Wc_RemoteBufferBytes | Wc_NativeOpScratchBytes.

#[export] Instance WireResourceClass_eq_dec : EqDecision WireResourceClass.
Proof. solve_decision. Defined.

Definition WireResourceClass_as_u8 (c : WireResourceClass) : Z :=
  match c with Wc_RemoteBufferBytes => 1 | Wc_NativeOpScratchBytes => 2 end.

(** [ResourceClass::max_bytes] *)
Definition max_bytes (c : WireResourceClass) : Z :=
  match c with
  | Wc_RemoteBufferBytes => RESOURCE_MAX_BYTES
  | Wc_NativeOpScratchBytes => NATIVE_OP_SCRATCH_MAX_BYTES
  end.

Definition WireResourceClass_try_from (value : Z) : result WireResourceClass unit :=
  if value =? 1 then Ok Wc_RemoteBufferBytes
  else if value =? 2 then Ok Wc_NativeOpScratchBytes
  else Err tt.

Inductive ResourceRequest : Type :=
| Reserve (lease_id worker_incarnation_id : list byte)
    (resource_class : WireResourceClass) (requested_bytes : Z)
| Commit (lease_id worker_incarnation_id reservation_id : list byte)
| Release (lease_id worker_incarnation_id reservation_id : list byte).

#[export] Instance ResourceRequest_eq_dec : EqDecision ResourceRequest.
Proof. solve_decision. Defined.

Definition rr_lease_id (r : ResourceRequest) : list byte :=
  match r with Reserve l _ _ _ | Commit l _ _ | Release l _ _ => l end.
Definition rr_worker_incarnation_id (r : ResourceRequest) : list byte :=
  match r with Reserve _ w _ _ | Commit _ w _ | Release _ w _ => w end.

Inductive ResourceResultState : Type := Rs_Completed | Rs_Failed.

#[export] Instance ResourceResultState_eq_dec : EqDecision ResourceResultState.
Proof. solve_decision. Defined.

Definition ResourceResultState_as_u8 (s : ResourceResultState) : Z :=
  match s with Rs_Completed => 2 | Rs_Failed => 3 end.

Inductive ResourceReason : Type :=
| Rr_None | Rr_StaleControllerLease | Rr_RefusedStaleState | Rr_ResourceExhausted
| Rr_ReservationNotFound | Rr_ReservationNotCommitted | Rr_ReservationExpired
| Rr_ReservationAlreadyConsumed | Rr_CommitRefusedSafety | Rr_RequestIdConflict
| Rr_IdempotenceTableFull | Rr_UnsupportedMessage | Rr_InternalError.

#[export] Instance ResourceReason_eq_dec : EqDecision ResourceReason.
Proof. solve_decision. Defined.

Definition ResourceReason_as_u16 (r : ResourceReason) : Z :=
  match r with
  | Rr_None => 0 | Rr_StaleControllerLease => 1 | Rr_RefusedStaleState => 2
  | Rr_ResourceExhausted => 3 | Rr_ReservationNotFound => 4
  | Rr_ReservationNotCommitted => 5 | Rr_ReservationExpired => 6
  | Rr_ReservationAlreadyConsumed => 7 | Rr_CommitRefusedSafety => 8
  | Rr_RequestIdConflict => 9 | Rr_IdempotenceTableFull => 10
  | Rr_UnsupportedMessage => 11 | Rr_InternalError => 12
  end.

Definition ResourceReason_try_from (value : Z) : result ResourceReason unit :=
  if value =? 0 then Ok Rr_None
  else if value =? 1 then Ok Rr_StaleControllerLease
  else if value =? 2 then Ok Rr_RefusedStaleState
  else if value =? 3 then Ok Rr_ResourceExhausted
  else if value =? 4 then Ok Rr_ReservationNotFound
  else if value =? 5 then Ok Rr_ReservationNotCommitted
  else if value =? 6 then Ok Rr_ReservationExpired
  else if value =? 7 then Ok Rr_ReservationAlreadyConsumed
  else if value =? 8 then Ok Rr_CommitRefusedSafety
  else if value =? 9 then Ok Rr_RequestIdConflict
  else if value =? 10 then Ok Rr_IdempotenceTableFull
  else if value =? 11 then Ok Rr_UnsupportedMessage
  else if value =? 12 then Ok Rr_InternalError
  else Err tt.

Inductive WireReservationState : Type :=
| Wr_Reserved | Wr_Committed | Wr_Consumed | Wr_Released | Wr_Expired
| Wr_RefusedSafety | Wr_ConsumedReleased.

#[export] Instance WireReservationState_eq_dec : EqDecision WireReservationState.
Proof. solve_decision. Defined.

Definition WireReservationState_as_u8 (s : WireReservationState) : Z :=
  match s with
  | Wr_Reserved => 1 | Wr_Committed => 2 | Wr_Consumed => 3 | Wr_Released => 4
  | Wr_Expired => 5 | Wr_RefusedSafety => 6 | Wr_ConsumedReleased => 7
  end.

Definition WireReservationState_try_from (value : Z) : result WireReservationState unit :=
  if value =? 1 then Ok Wr_Reserved
  else if value =? 2 then Ok Wr_Committed
  else if value =? 3 then Ok Wr_Consumed
  else if value =? 4 then Ok Wr_Released
  else if value =? 5 then Ok Wr_Expired
  else if value =? 6 then Ok Wr_RefusedSafety
  else if value =? 7 then Ok Wr_ConsumedReleased
  else Err tt.

Record ReservationResultRef : Type := mkReservationResultRef {
  rf_reservation_id : list byte;
  rf_state : WireReservationState;
  rf_resource_class : WireResourceClass;
  rf_granted_bytes : Z;
  rf_ttl_remaining_ms : Z;
}.

Record ResourceResult : Type := mkResourceResult {
  rs_state : ResourceResultState;
  rs_reason : ResourceReason;
  rs_lease_id : list byte;
  rs_worker_incarnation_id : list byte;
  rs_reservation : option ReservationResultRef;
}.

Inductive ResourceResponseKind : Type := Rk_ReserveAck | Rk_Commit | Rk_Release.

#[export] Instance ResourceResponseKind_eq_dec : EqDecision ResourceResponseKind.
Proof. solve_decision. Defined.

(** [ResourceResponseKind::message_type] *)
Definition resource_message_type (k : ResourceResponseKind) : Z :=
  match k with Rk_ReserveAck => 2 | Rk_Commit => 3 | Rk_Release => 4 end.

Record ExpireNotification : Type := mkExpireNotification {
  en_lease_id : list byte;
  en_worker_incarnation_id : list byte;
  en_reservation_id : list byte;
  en_resource_class : WireResourceClass;
  en_granted_bytes : Z;
}.

(** [invalid()] *)
Definition bad_resource : PbmuxError := logical K_InvalidResourcePayload.

(** ** Requests *)

Definition fixed_request_profile (frame : Frame) : bool :=
  let h := header frame in
  bool_decide (channel h = Ch_Resource)
  && ((message_type h =? 1) || (message_type h =? 3) || (message_type h =? 4))
  && (flags h =? Z.lor (Z.lor FLAG_START FLAG_END) FLAG_ACK_REQUIRED)
  && negb (request_id h =? 0)
  && (fragment_index h =? 0)
  && (payload_len h =? Z.of_nat RESOURCE_REQUEST_LEN)
  && (logical_message_len h =? Z.of_nat RESOURCE_REQUEST_LEN)
  && (len (payload frame) =? Z.of_nat RESOURCE_REQUEST_LEN).

Definition build_resource_request_frame (request : ResourceRequest) (request_id sequence : Z) :
    result Frame PbmuxError :=
  if (request_id =? 0) || negb (nonzero (rr_lease_id request))
     || negb (nonzero (rr_worker_incarnation_id request))
  then Err bad_resource
  else
    let? mp :=
      match request with
      | Reserve lease_id worker_incarnation_id resource_class requested_bytes =>
          if (requested_bytes =? 0) || (max_bytes resource_class <? requested_bytes) then
            Err bad_resource
          else
            Ok (1, lease_id
                     ++ worker_incarnation_id
                     ++ to_be 1 (WireResourceClass_as_u8 resource_class)
                     ++ zeros 3
                     ++ to_be 8 requested_bytes
                     ++ to_be 4 RESOURCE_RESERVATION_TTL_MS)
      | Commit lease_id worker_incarnation_id reservation_id =>
          if negb (nonzero reservation_id) then Err bad_resource
          else Ok (3, lease_id ++ worker_incarnation_id ++ reservation_id)
      | Release lease_id worker_incarnation_id reservation_id =>
          if negb (nonzero reservation_id) then Err bad_resource
          else Ok (4, lease_id ++ worker_incarnation_id ++ reservation_id)
      end in
    Ok (mkFrame {|
      channel := Ch_Resource;
      flags := Z.lor (Z.lor FLAG_START FLAG_END) FLAG_ACK_REQUIRED;
      message_type := fst mp;
      request_id := request_id;
      sequence := sequence;
      fragment_index := 0;
      payload_len := Z.of_nat RESOURCE_REQUEST_LEN;
      logical_message_len := Z.of_nat RESOURCE_REQUEST_LEN |} (snd mp)).

Definition parse_resource_request_frame (frame : Frame) : result ResourceRequest PbmuxError :=
  if negb (fixed_request_profile frame) then Err bad_resource
  else
    let p := payload frame in
    let lease_id := slice p 0 16 in
    let worker_incarnation_id := slice p 16 16 in
    if negb (nonzero lease_id) || negb (nonzero worker_incarnation_id) then Err bad_resource
    else if message_type (header frame) =? 1 then
      match WireResourceClass_try_from (read_u8 p 32) with
      | Err _ => Err bad_resource
      | Ok resource_class =>
          if negb (bool_decide (slice p 33 3 = zeros 3))
             || negb (bool_decide (slice p 44 4 = to_be 4 RESOURCE_RESERVATION_TTL_MS))
          then Err bad_resource
          else
            let requested_bytes := read_u64 p 36 in
            if (requested_bytes =? 0) || (max_bytes resource_class <? requested_bytes) then
              Err bad_resource
            else Ok (Reserve lease_id worker_incarnation_id resource_class requested_bytes)
      end
    else if (message_type (header frame) =? 3) || (message_type (header frame) =? 4) then
      let reservation_id := slice p 32 16 in
      if negb (nonzero reservation_id) then Err bad_resource
      else if message_type (header frame) =? 3 then
        Ok (Commit lease_id worker_incarnation_id reservation_id)
      else Ok (Release lease_id worker_incarnation_id reservation_id)
    else Err bad_resource.

(** ** Expiry notices *)

Definition build_expire_notification_frame (n : ExpireNotification) (sequence : Z) :
    result Frame PbmuxError :=
  if negb (nonzero (en_lease_id n)) || negb (nonzero (en_worker_incarnation_id n))
     || negb (nonzero (en_reservation_id n)) || (en_granted_bytes n =? 0)
     || (max_bytes (en_resource_class n) <? en_granted_bytes n)
  then Err bad_resource
  else
    Ok (mkFrame {|
      channel := Ch_Resource;
      flags := Z.lor FLAG_START FLAG_END;
      message_type := 5;
      request_id := 0;
      sequence := sequence;
      fragment_index := 0;
      payload_len := Z.of_nat RESOURCE_EXPIRE_NOTIFY_LEN;
      logical_message_len := Z.of_nat RESOURCE_EXPIRE_NOTIFY_LEN |}
      (en_lease_id n
         ++ en_worker_incarnation_id n
         ++ en_reservation_id n
         ++ to_be 1 (WireResourceClass_as_u8 (en_resource_class n))
         ++ to_be 1 (WireReservationState_as_u8 Wr_Expired)
         ++ to_be 2 (ResourceReason_as_u16 Rr_ReservationExpired)
         ++ to_be 8 (en_granted_bytes n)
         ++ zeros 4)).

Definition parse_expire_notification_frame (frame : Frame) :
    result ExpireNotification PbmuxError :=
  let h := header frame in
  if negb (bool_decide (channel h = Ch_Resource))
     || negb (message_type h =? 5)
     || negb (flags h =? Z.lor FLAG_START FLAG_END)
     || negb (request_id h =? 0)
     || negb (fragment_index h =? 0)
     || negb (payload_len h =? Z.of_nat RESOURCE_EXPIRE_NOTIFY_LEN)
     || negb (logical_message_len h =? Z.of_nat RESOURCE_EXPIRE_NOTIFY_LEN)
     || negb (len (payload frame) =? Z.of_nat RESOURCE_EXPIRE_NOTIFY_LEN)
  then Err bad_resource
  else
    let bytes := payload frame in
    match WireResourceClass_try_from (read_u8 bytes 48) with
    | Err _ => Err bad_resource
    | Ok resource_class =>
        let n := {|
          en_lease_id := slice bytes 0 16;
          en_worker_incarnation_id := slice bytes 16 16;
          en_reservation_id := slice bytes 32 16;
          en_resource_class := resource_class;
          en_granted_bytes := read_u64 bytes 52 |} in
        if negb (read_u8 bytes 49 =? WireReservationState_as_u8 Wr_Expired)
           || negb (read_u16 bytes 50 =? ResourceReason_as_u16 Rr_ReservationExpired)
           || negb (bool_decide (slice bytes 60 4 = zeros 4))
           || negb (nonzero (en_lease_id n)) || negb (nonzero (en_worker_incarnation_id n))
           || negb (nonzero (en_reservation_id n)) || (en_granted_bytes n =? 0)
           || (max_bytes (en_resource_class n) <? en_granted_bytes n)
        then Err bad_resource
        else Ok n
    end.

(** ** Results *)

(** [validate_result] *)
Definition validate_resource_result (k : ResourceResponseKind) (r : ResourceResult) :
    result unit PbmuxError :=
  if negb (nonzero (rs_lease_id r)) || negb (nonzero (rs_worker_incarnation_id r)) then
    Err bad_resource
  else if negb (Bool.eqb (bool_decide (rs_state r = Rs_Completed))
                         (bool_decide (rs_reason r = Rr_None)))
  then Err bad_resource
  else
    let? _ :=
      match rs_reservation r with
      | None => Ok tt
      | Some reservation =>
          if negb (nonzero (rf_reservation_id reservation))
             || (rf_granted_bytes reservation =? 0)
             || (max_bytes (rf_resource_class reservation) <? rf_granted_bytes reservation)
          then Err bad_resource
          else
            let ttl_valid :=
              match rf_state reservation with
              | Wr_Reserved =>
                  in_range 1 RESOURCE_RESERVATION_TTL_MS (rf_ttl_remaining_ms reservation)
              | _ => rf_ttl_remaining_ms reservation =? 0
              end in
            if negb ttl_valid then Err bad_resource else Ok tt
      end in
    if bool_decide (rs_state r = Rs_Completed) then
      let expected :=
        match k with
        | Rk_ReserveAck => Wr_Reserved
        | Rk_Commit => Wr_Committed
        | Rk_Release => Wr_Released
        end in
      if negb (bool_decide (rf_state <$> rs_reservation r = Some expected)) then
        Err bad_resource
      else Ok tt
    else Ok tt.

(** [encode_result] *)
Definition encode_resource_result (k : ResourceResponseKind) (r : ResourceResult) :
    result (list byte) PbmuxError :=
  let? _ := validate_resource_result k r in
  Ok (to_be 1 (ResourceResultState_as_u8 (rs_state r))
        ++ to_be 1 (u8_of_bool (is_some (rs_reservation r)))
        ++ to_be 2 (ResourceReason_as_u16 (rs_reason r))
        ++ rs_lease_id r
        ++ rs_worker_incarnation_id r
        ++ match rs_reservation r with
           | Some reservation =>
               rf_reservation_id reservation
                 ++ to_be 1 (WireReservationState_as_u8 (rf_state reservation))
                 ++ to_be 1 (WireResourceClass_as_u8 (rf_resource_class reservation))
                 ++ zeros 2
                 ++ to_be 8 (rf_granted_bytes reservation)
                 ++ to_be 4 (rf_ttl_remaining_ms reservation)
           | None => zeros 32
           end
        ++ zeros 4).

Definition build_resource_result_frame (k : ResourceResponseKind) (r : ResourceResult)
    (request_id sequence : Z) : result Frame PbmuxError :=
  if request_id =? 0 then Err bad_resource
  else
    let? payload := encode_resource_result k r in
    Ok (mkFrame {|
      channel := Ch_Resource;
      flags := Z.lor FLAG_START FLAG_END;
      message_type := resource_message_type k;
      request_id := request_id;
      sequence := sequence;
      fragment_index := 0;
      payload_len := Z.of_nat RESOURCE_RESULT_LEN;
      logical_message_len := Z.of_nat RESOURCE_RESULT_LEN |} payload).

(** The body of [parse_resource_result_frame] after the profile test. *)
Definition decode_resource_result (k : ResourceResponseKind) (bytes : list byte) :
    result (ResourceResponseKind * ResourceResult) PbmuxError :=
  if (1 <? read_u8 bytes 1) || negb (bool_decide (slice bytes 54 2 = zeros 2))
     || negb (bool_decide (slice bytes 68 4 = zeros 4))
  then Err bad_resource
  else
    let? state :=
      if read_u8 bytes 0 =? 2 then Ok Rs_Completed
      else if read_u8 bytes 0 =? 3 then Ok Rs_Failed
      else Err bad_resource in
    match ResourceReason_try_from (read_u16 bytes 2) with
    | Err _ => Err bad_resource
    | Ok reason =>
        let? reservation :=
          if read_u8 bytes 1 =? 0 then
            if negb (bool_decide (slice bytes 36 32 = zeros 32)) then Err bad_resource
            else Ok None
          else
            match WireReservationState_try_from (read_u8 bytes 52) with
            | Err _ => Err bad_resource
            | Ok st =>
                match WireResourceClass_try_from (read_u8 bytes 53) with
                | Err _ => Err bad_resource
                | Ok cl =>
                    Ok (Some {|
                      rf_reservation_id := slice bytes 36 16;
                      rf_state := st;
                      rf_resource_class := cl;
                      rf_granted_bytes := read_u64 bytes 56;
                      rf_ttl_remaining_ms := read_u32 bytes 64 |})
                end
            end in
        let r := {|
          rs_state := state;
          rs_reason := reason;
          rs_lease_id := slice bytes 4 16;
          rs_worker_incarnation_id := slice bytes 20 16;
          rs_reservation := reservation |} in
        let? _ := validate_resource_result k r in
        Ok (k, r)
    end.

Definition parse_resource_result_frame (frame : Frame) :
    result (ResourceResponseKind * ResourceResult) PbmuxError :=
  let h := header frame in
  let? k :=
    if message_type h =? 2 then Ok Rk_ReserveAck
    else if message_type h =? 3 then Ok Rk_Commit
    else if message_type h =? 4 then Ok Rk_Release
    else Err bad_resource in
  if negb (bool_decide (channel h = Ch_Resource))
     || negb (flags h =? Z.lor FLAG_START FLAG_END)
     || (request_id h =? 0)
     || negb (fragment_index h =? 0)
     || negb (payload_len h =? Z.of_nat RESOURCE_RESULT_LEN)
     || negb (logical_message_len h =? Z.of_nat RESOURCE_RESULT_LEN)
     || negb (len (payload frame) =? Z.of_nat RESOURCE_RESULT_LEN)
  then Err bad_resource
  else decode_resource_result k (payload frame).

(** ** Typing and inverse laws *)

Lemma class_try_as : forall c, WireResourceClass_try_from (WireResourceClass_as_u8 c) = Ok c.
Proof. enum_from_as. Qed.
Lemma class_as_try v c : WireResourceClass_try_from v = Ok c -> WireResourceClass_as_u8 c = v.
Proof. enum_as_from WireResourceClass_try_from. Qed.
Lemma class_u8 c : uw 8 (WireResourceClass_as_u8 c).
Proof. unfold uw. by destruct c. Qed.

Lemma rreason_try_as : forall r, ResourceReason_try_from (ResourceReason_as_u16 r) = Ok r.
Proof. enum_from_as. Qed.
Lemma rreason_as_try v r : ResourceReason_try_from v = Ok r -> ResourceReason_as_u16 r = v.
Proof. enum_as_from ResourceReason_try_from. Qed.
Lemma rreason_u16 r : uw 16 (ResourceReason_as_u16 r).
Proof. unfold uw. by destruct r. Qed.

Lemma rstate_try_as : forall s, WireReservationState_try_from (WireReservationState_as_u8 s) = Ok s.
Proof. enum_from_as. Qed.
Lemma rstate_as_try v s :
  WireReservationState_try_from v = Ok s -> WireReservationState_as_u8 s = v.
Proof. enum_as_from WireReservationState_try_from. Qed.
Lemma rstate_u8 s : uw 8 (WireReservationState_as_u8 s).
Proof. unfold uw. by destruct s. Qed.

#[export] Hint Resolve class_u8 rreason_u16 rstate_u8 : wire.

Definition rr_typed (r : ResourceRequest) : Prop :=
  match r with
  | Reserve l w _ n => length l = 16%nat /\ length w = 16%nat /\ uw 64 n
  | Commit l w i | Release l w i =>
      length l = 16%nat /\ length w = 16%nat /\ length i = 16%nat
  end.

Definition rf_typed (r : ReservationResultRef) : Prop :=
  length (rf_reservation_id r) = 16%nat /\ uw 64 (rf_granted_bytes r) /\
  uw 32 (rf_ttl_remaining_ms r).

Definition rs_typed (r : ResourceResult) : Prop :=
  length (rs_lease_id r) = 16%nat /\ length (rs_worker_incarnation_id r) = 16%nat /\
  match rs_reservation r with Some f => rf_typed f | None => True end.

Definition en_typed (n : ExpireNotification) : Prop :=
  length (en_lease_id n) = 16%nat /\ length (en_worker_incarnation_id n) = 16%nat /\
  length (en_reservation_id n) = 16%nat /\ uw 64 (en_granted_bytes n).

Lemma fixed_request_profile_iff f :
  fixed_request_profile f = true <->
  (message_type (header f) = 1 \/ message_type (header f) = 3 \/ message_type (header f) = 4) /\
  request_id (header f) <> 0 /\
  single_profile Ch_Resource FLAGS_REQUEST (message_type (header f))
    (Z.of_nat RESOURCE_REQUEST_LEN) f.
Proof.
  unfold fixed_request_profile. rewrite single_profile_fields.
  rewrite !andb_true_iff, !orb_true_iff, bool_decide_eq_true, negb_true_iff, Z.eqb_neq,
    !Z.eqb_eq. unfold FLAGS_REQUEST. tauto.
Qed.

Lemma parse_resource_request_sound f r :
  parse_resource_request_frame f = Ok r ->
  rr_typed r /\
  build_resource_request_frame r (request_id (header f)) (sequence (header f)) = Ok f.
Proof.
  unfold parse_resource_request_frame. intros H. cbn zeta in H.
  destruct (fixed_request_profile f) eqn:Gp; [|discriminate]. cbn [negb] in H.
  apply fixed_request_profile_iff in Gp as (Hty & Hrid & [Hh Hl]).
  assert (Hl' : length (payload f) = 48%nat) by (unfold len, RESOURCE_REQUEST_LEN in Hl; lia).
  assert (Hf : forall b, b = payload f -> mkFrame (single_header Ch_Resource FLAGS_REQUEST
    (message_type (header f)) (request_id (header f)) (sequence (header f))
    (Z.of_nat RESOURCE_REQUEST_LEN)) b = f) by (intros b ->; rewrite <- Hh; by destruct f).
  apply Z.eqb_neq in Hrid. unfold build_resource_request_frame. rewrite Hrid.
  codec_open H; subst r; bool_hyps; cbn [rr_lease_id rr_worker_incarnation_id rr_typed];
    repeat match goal with H : nonzero _ = true |- _ => rewrite H; clear H end; psimpl.
  - split; [split; [|split]; [apply length_slice; lia..|apply (read_uw (payload f)); lia]|].
    rewrite (proj2 (Z.eqb_neq _ _)), (proj2 (Z.ltb_ge _ _)) by done. psimpl. f_equal.
    match goal with H : message_type _ = 1 |- _ => rewrite <- H end. apply Hf.
    match goal with H : WireResourceClass_try_from _ = _ |- _ =>
      rewrite (class_as_try _ _ H) end.
    repeat match goal with H : slice (payload f) _ _ = _ |- _ => rewrite <- H; clear H end.
    unfold read_u8, read_u64. slice_glue. by apply slice_all.
  - split; [repeat split; apply length_slice; lia|]. f_equal.
    match goal with H : message_type _ = 3 |- _ => rewrite <- H end. apply Hf.
    slice_glue. by apply slice_all.
  - split; [repeat split; apply length_slice; lia|]. f_equal.
    assert (message_type (header f) = 4) as <- by lia. apply Hf.
    slice_glue. by apply slice_all.
Qed.

Lemma parse_resource_request_complete f r rid seq :
  rr_typed r -> build_resource_request_frame r rid seq = Ok f ->
  parse_resource_request_frame f = Ok r.
Proof.
  intros Ht H. unfold build_resource_request_frame in H.
  codec_open H; subst f. bool_hyps.
  destruct r as [l w c n|l w i|l w i]; simpl in Ht;
    destruct Ht as (? & ? & ?); codec_open G0; subst; bool_hyps;
    unfold parse_resource_request_frame;
    (rewrite (proj2 (fixed_request_profile_iff _)) by
      (repeat split; cbn [header payload message_type request_id fst snd]; try lia;
       unfold len, RESOURCE_REQUEST_LEN; len_solve));
    cbn [header payload message_type rr_lease_id rr_worker_incarnation_id fst snd] in *;
    unfold read_u8, read_u64; slice_read;
    repeat match goal with H : nonzero _ = true |- _ => rewrite H end; zconst; try done.
  be_read. rewrite (be_val_to_be 1) by apply class_u8. rewrite class_try_as.
  rewrite !bool_decide_true by done. cbn [negb orb].
  rewrite (proj2 (Z.eqb_neq _ _)), (proj2 (Z.ltb_ge _ _)) by done. done.
Qed.

(** RESOURCE/1,3,4 requests.  The parser accepts a frame as a request exactly
    when the builder produces the frame from the request: requests survive the
    wire and only canonical, non-zero-id, in-bound requests are accepted. *)
Lemma resource_request_bijective f r :
  parse_resource_request_frame f = Ok r <->
  rr_typed r /\
  build_resource_request_frame r (request_id (header f)) (sequence (header f)) = Ok f.
Proof.
  split; [apply parse_resource_request_sound|].
  intros [Ht H]. by eapply parse_resource_request_complete.
Qed.

(** ** Results: the payload codec *)

Lemma decode_resource_result_sound k k' b r :
  length b = 72%nat -> decode_resource_result k b = Ok (k', r) ->
  k' = k /\ rs_typed r /\ encode_resource_result k r = Ok b.
Proof.
  intros Hl H. unfold decode_resource_result in H. codec_open H.
  injection H as <- <-. split; [done|]. bool_hyps.
  split; [split; [|split]; simpl; try (apply length_slice; lia)|].
  - clear -G2 Hl. destruct t1 as [f|]; [|done]. ok_inv G2; simplify_eq.
    split; [|split]; simpl; try (apply length_slice; lia); apply (read_uw b); lia.
  - unfold encode_resource_result. rewrite G3. psimpl. f_equal.
    assert (Es : ResourceResultState_as_u8 t = read_u8 b 0)
      by (repeat case_match; simplify_eq; bool_hyps; simpl; congruence).
    rewrite Es, (rreason_as_try _ _ G1).
    match goal with H : slice b 68 4 = _ |- _ => rewrite <- H end.
    destruct (Z.eqb_spec (read_u8 b 1) 0) as [E1|E1] in G2.
    + codec_open G2. subst. bool_hyps. psimpl. rewrite <- E1.
      match goal with H : slice b 36 32 = _ |- _ => rewrite <- H end.
      unfold read_u8, read_u16. slice_glue. by apply slice_all.
    + codec_open G2. subst. psimpl.
      assert (E1' : read_u8 b 1 = 1).
      { pose proof (read_uw b 1 1 ltac:(lia)) as Hr. unfold uw, read_u8 in *. lia. }
      rewrite <- E1'.
      match goal with H : WireReservationState_try_from _ = _ |- _ =>
        rewrite (rstate_as_try _ _ H) end.
      match goal with H : WireResourceClass_try_from _ = _ |- _ =>
        rewrite (class_as_try _ _ H) end.
      match goal with H : slice b 54 2 = _ |- _ => rewrite <- H end.
      unfold read_u8, read_u16, read_u32, read_u64. rewrite <- !app_assoc.
      slice_glue. by apply slice_all.
Qed.

Lemma encode_resource_result_length k r b :
  rs_typed r -> encode_resource_result k r = Ok b -> length b = 72%nat.
Proof.
  intros (Hl & Hw & Hr) H. unfold encode_resource_result in H. codec_open H. subst b.
  destruct (rs_reservation r) as [f|]; [destruct Hr as (? & _)|]; len_solve.
Qed.

Lemma decode_resource_result_complete k r b :
  rs_typed r -> encode_resource_result k r = Ok b ->
  decode_resource_result k b = Ok (k, r).
Proof.
  intros (Hl & Hw & Hr) H. unfold encode_resource_result in H. codec_open H. subst b.
  unfold decode_resource_result, read_u8, read_u16, read_u32, read_u64.
  pose proof (rreason_u16 (rs_reason r)).
  assert (Hs : uw 8 (ResourceResultState_as_u8 (rs_state r))) by (by destruct (rs_state r)).
  destruct r as [st rs l w [f|]]; cbn [rs_state rs_reason rs_lease_id
    rs_worker_incarnation_id rs_reservation is_some u8_of_bool] in *.
  - destruct Hr as (? & ? & ?). pose proof (rstate_u8 (rf_state f)).
    pose proof (class_u8 (rf_resource_class f)).
    psimpl. rewrite <- !app_assoc. slice_read. be_read.
    rewrite rreason_try_as, rstate_try_as, class_try_as.
    rewrite !bool_decide_true by done.
    destruct f, st; psimpl; zconst; by rewrite G.
  - psimpl. slice_read. be_read. rewrite rreason_try_as.
    change (slice (zeros 32 ++ zeros 4) 18 2) with (zeros 2).
    rewrite !bool_decide_true by done. destruct st; psimpl; zconst; by rewrite G.
Qed.

(** RESOURCE/2,3,4 results.  The parser accepts a frame as a result exactly
    when the builder produces the frame from the result, so the worker's answer
    reaches the host unchanged, and both ends enforce the same cross-field rules. *)
Lemma resource_result_bijective f k r :
  parse_resource_result_frame f = Ok (k, r) <->
  rs_typed r /\
  build_resource_result_frame k r (request_id (header f)) (sequence (header f)) = Ok f.
Proof.
  unfold parse_resource_result_frame, build_resource_result_frame. cbn zeta. split.
  - intros H. ok_inv H. bool_hyps.
    assert (Hty : message_type (header f) = resource_message_type t)
      by (repeat case_match; simplify_eq; bool_hyps; done).
    apply decode_resource_result_sound in H as (-> & Ht & He);
      [|unfold len, RESOURCE_RESULT_LEN in *; lia].
    split; [done|]. rewrite (proj2 (Z.eqb_neq _ _)), He by done.
    destruct f as [[] p]; simpl in *. by subst.
  - intros [Ht H]. revert H. generalize (request_id (header f)) (sequence (header f)).
    intros rid sq H. codec_open H. subst f. cbn [header payload channel flags message_type
      request_id fragment_index payload_len logical_message_len].
    rewrite bool_decide_true by done.
    pose proof (encode_resource_result_length k r t Ht G0) as Hl.
    assert (Hlen : len t = 72) by (unfold len; lia). rewrite Hlen.
    rewrite <- (decode_resource_result_complete k r t Ht G0). by destruct k.
Qed.

(** RESOURCE/5 EXPIRE.  Notification builder and parser are inverse. *)
Lemma expire_notification_bijective f n :
  parse_expire_notification_frame f = Ok n <->
  en_typed n /\ build_expire_notification_frame n (sequence (header f)) = Ok f.
Proof.
  unfold parse_expire_notification_frame, build_expire_notification_frame. cbn zeta. split.
  - intros H. ok_inv H. apply profile_guard in G as [[Hh Hl] Hr].
    apply Ok_inj in H. bool_hyps.
    assert (Hl' : length (payload f) = 64%nat)
      by (unfold len, RESOURCE_EXPIRE_NOTIFY_LEN in Hl; lia).
    subst n. cbn [en_lease_id en_worker_incarnation_id en_reservation_id en_resource_class
                  en_granted_bytes] in *.
    split; [split; [|split; [|split]]; simpl; try (apply length_slice; lia);
            apply (read_uw (payload f)); lia|].
    repeat match goal with H : nonzero _ = true |- _ => rewrite H end.
    rewrite (proj2 (Z.eqb_neq _ _)), (proj2 (Z.ltb_ge _ _)) by done. cbn [negb orb].
    f_equal. rewrite (class_as_try _ _ G0).
    match goal with H : read_u8 _ 49 = _ |- _ => rewrite <- H end.
    match goal with H : read_u16 _ 50 = _ |- _ => rewrite <- H end.
    match goal with H : slice _ 60 4 = _ |- _ => rewrite <- H end.
    unfold read_u8, read_u16, read_u64. slice_glue. rewrite slice_all by done.
    rewrite Hr in Hh. destruct f as [h b]. simpl in *. by rewrite Hh.
  - intros [(Hl1 & Hl2 & Hl3 & Hgb) H]. revert H. generalize (sequence (header f)).
    intros sq H.
    codec_open H. subst f. rewrite (proj2 (profile_guard Ch_Resource FLAGS_SINGLE 5
      (Z.of_nat RESOURCE_EXPIRE_NOTIFY_LEN) _ _)).
    2: { split; [|done]. split; [done|].
         cbn [payload]. unfold len, RESOURCE_EXPIRE_NOTIFY_LEN. len_solve. }
    cbn [payload]. unfold read_u8, read_u16, read_u64. slice_read.
    pose proof (class_u8 (en_resource_class n)). be_read. rewrite class_try_as.
    destruct n. cbn [en_lease_id en_worker_incarnation_id en_reservation_id
      en_resource_class en_granted_bytes] in *.
    rewrite bool_decide_true by done. cbn [WireReservationState_as_u8 ResourceReason_as_u16].
    zconst. by rewrite G.
Qed.
