(* ===== verification/ComputeWire.v ===== *)
(** * pb-pbmux, C10 messages: COMPUTE requests and responses

    Models [crates/pb-pbmux/src/compute.rs]: SUBMIT/STATUS/CANCEL requests, the
    56-byte status and 88-byte result payloads and the rules of
    [validate_status] and [validate_result]. *)

From Stdlib Require Import ZArith Lia.
From stdpp Require Import base tactics list gmap.
From S2P Require Import Prelude Types Pbmux Codec.

Definition COMPUTE_SUBMIT_LEN : nat := 84.
Definition COMPUTE_JOB_REQUEST_LEN : nat := 48.
Definition COMPUTE_STATUS_LEN : nat := 56.
Definition COMPUTE_RESULT_LEN : nat := 88.
Definition MAX_COMPUTE_INPUT_BYTES : Z := 128 * 1024 * 1024.
Definition BLAKE3_PROVIDER_ID : Z := 1.
Definition BLAKE3_PROVIDER_VERSION : Z := 1.
Definition REMOTE_BUFFER_INPUT_KIND : Z := 1.

Record ComputeSubmit : Type := mkComputeSubmit {
  cs_lease_id : list byte;
  cs_worker_incarnation_id : list byte;
  cs_reservation_id : list byte;
  cs_provider_id : Z;
  cs_provider_version : Z;
  cs_input_kind : Z;
  cs_buffer_id : list byte;
  cs_input_offset : Z;
  cs_input_length : Z;
}.

#[export] Instance ComputeSubmit_eq_dec : EqDecision ComputeSubmit.
Proof. solve_decision. Defined.

Record ComputeJobRequest : Type := mkComputeJobRequest {
  cj_lease_id : list byte;
  cj_worker_incarnation_id : list byte;
  cj_job_id : list byte;
}.

#[export] Instance ComputeJobRequest_eq_dec : EqDecision ComputeJobRequest.
Proof. solve_decision. Defined.

Inductive ComputeRequest : Type :=
| Cq_Submit (s : ComputeSubmit)
| Cq_Status (j : ComputeJobRequest)
| Cq_Cancel (j : ComputeJobRequest).

Definition cq_lease_id (r : ComputeRequest) : list byte :=
  match r with
  | Cq_Submit s => cs_lease_id s
  | Cq_Status j | Cq_Cancel j => cj_lease_id j
  end.
Definition cq_worker_incarnation_id (r : ComputeRequest) : list byte :=
  match r with
  | Cq_Submit s => cs_worker_incarnation_id s
  | Cq_Status j | Cq_Cancel j => cj_worker_incarnation_id j
  end.

Inductive ComputeJobState : Type :=
| Js_Invalid | Js_Accepted | Js_Running | Js_Completed | Js_Failed | Js_Cancelled.

#[export] Instance ComputeJobState_eq_dec : EqDecision ComputeJobState.
Proof. solve_decision. Defined.

(** [ComputeJobState::is_terminal] *)
Definition job_is_terminal (s : ComputeJobState) : bool :=
  match s with Js_Completed | Js_Failed | Js_Cancelled => true | _ => false end.

Definition ComputeJobState_as_u8 (s : ComputeJobState) : Z :=
  match s with
  | Js_Invalid => 0 | Js_Accepted => 1 | Js_Running => 2
  | Js_Completed => 3 | Js_Failed => 4 | Js_Cancelled => 5
  end.

Definition ComputeJobState_try_from (value : Z) : result ComputeJobState unit :=
  if value =? 0 then Ok Js_Invalid
  else if value =? 1 then Ok Js_Accepted
  else if value =? 2 then Ok Js_Running
  else if value =? 3 then Ok Js_Completed
  else if value =? 4 then Ok Js_Failed
  else if value =? 5 then Ok Js_Cancelled
  else Err tt.

Inductive ComputeReason : Type :=
| Cr_None
| Cr_StaleControllerLease
| Cr_WrongWorkerIncarnation
| Cr_UnsupportedProvider
| Cr_InvalidInput
| Cr_BufferNotFound
| Cr_BufferNotOwned
| Cr_BufferWrongIncarnation
| Cr_BufferInvalidState
| Cr_BufferLost
| Cr_BufferFreed
| Cr_BufferEvicted
| Cr_InputTooLarge
| Cr_ReservationInvalid
| Cr_ResourceExhausted
| Cr_RequestIdConflict
| Cr_IdempotenceTableFull
| Cr_JobNotFound
| Cr_JobNotOwned
| Cr_JobNotCancellable
| Cr_ProviderTimeout
| Cr_ProviderFailed
| Cr_SessionLost
| Cr_UnsupportedMessage
| Cr_InternalError.

#[export] Instance ComputeReason_eq_dec : EqDecision ComputeReason.
Proof. solve_decision. Defined.

Definition ComputeReason_as_u16 (r : ComputeReason) : Z :=
  match r with
  | Cr_None => 0
  | Cr_StaleControllerLease => 1
  | Cr_WrongWorkerIncarnation => 2
  | Cr_UnsupportedProvider => 3
  | Cr_InvalidInput => 4
  | Cr_BufferNotFound => 5
  | Cr_BufferNotOwned => 6
  | Cr_BufferWrongIncarnation => 7
  | Cr_BufferInvalidState => 8
  | Cr_BufferLost => 9
  | Cr_BufferFreed => 10
  | Cr_BufferEvicted => 11
  | Cr_InputTooLarge => 12
  | Cr_ReservationInvalid => 13
  | Cr_ResourceExhausted => 14
  | Cr_RequestIdConflict => 15
  | Cr_IdempotenceTableFull => 16
  | Cr_JobNotFound => 17
  | Cr_JobNotOwned => 18
  | Cr_JobNotCancellable => 19
  | Cr_ProviderTimeout => 20
  | Cr_ProviderFailed => 21
  | Cr_SessionLost => 22
  | Cr_UnsupportedMessage => 23
  | Cr_InternalError => 24
  end.

Definition ComputeReason_try_from (value : Z) : result ComputeReason unit :=
  if value =? 0 then Ok Cr_None
  else if value =? 1 then Ok Cr_StaleControllerLease
  else if value =? 2 then Ok Cr_WrongWorkerIncarnation
  else if value =? 3 then Ok Cr_UnsupportedProvider
  else if value =? 4 then Ok Cr_InvalidInput
  else if value =? 5 then Ok Cr_BufferNotFound
  else if value =? 6 then Ok Cr_BufferNotOwned
  else if value =? 7 then Ok Cr_BufferWrongIncarnation
  else if value =? 8 then Ok Cr_BufferInvalidState
  else if value =? 9 then Ok Cr_BufferLost
  else if value =? 10 then Ok Cr_BufferFreed
  else if value =? 11 then Ok Cr_BufferEvicted
  else if value =? 12 then Ok Cr_InputTooLarge
  else if value =? 13 then Ok Cr_ReservationInvalid
  else if value =? 14 then Ok Cr_ResourceExhausted
  else if value =? 15 then Ok Cr_RequestIdConflict
  else if value =? 16 then Ok Cr_IdempotenceTableFull
  else if value =? 17 then Ok Cr_JobNotFound
  else if value =? 18 then Ok Cr_JobNotOwned
  else if value =? 19 then Ok Cr_JobNotCancellable
  else if value =? 20 then Ok Cr_ProviderTimeout
  else if value =? 21 then Ok Cr_ProviderFailed
  else if value =? 22 then Ok Cr_SessionLost
  else if value =? 23 then Ok Cr_UnsupportedMessage
  else if value =? 24 then Ok Cr_InternalError
  else Err tt.

Record ComputeJobRef : Type := mkComputeJobRef {
  jr_job_id : list byte;
  jr_provider_id : Z;
  jr_provider_version : Z;
}.

Record ComputeStatus : Type := mkComputeStatus {
  st_state : ComputeJobState;
  st_reason : ComputeReason;
  st_lease_id : list byte;
  st_worker_incarnation_id : list byte;
  st_job : option ComputeJobRef;
}.

Record ComputeResult : Type := mkComputeResult {
  cr_state : ComputeJobState;
  cr_reason : ComputeReason;
  cr_lease_id : list byte;
  cr_worker_incarnation_id : list byte;
  cr_job : option ComputeJobRef;
  cr_digest : option (list byte);
}.

Inductive ComputeResponse : Type :=
| Cx_Status (s : ComputeStatus)
| Cx_Result (r : ComputeResult)
| Cx_Cancel (s : ComputeStatus).

(** [invalid()] *)
Definition bad_compute : PbmuxError := logical K_InvalidComputePayload.

(** ** Requests *)

(** [request_profile] *)
Definition compute_request_profile (frame : Frame) (expected_len : nat) : bool :=
  let h := header frame in
  bool_decide (channel h = Ch_Compute)
  && (flags h =? Z.lor (Z.lor FLAG_START FLAG_END) FLAG_ACK_REQUIRED)
  && negb (request_id h =? 0)
  && (fragment_index h =? 0)
  && (payload_len h =? Z.of_nat expected_len)
  && (logical_message_len h =? Z.of_nat expected_len)
  && (len (payload frame) =? Z.of_nat expected_len).

(** [response_profile] *)
Definition compute_response_profile (frame : Frame) (expected_len : nat) : bool :=
  let h := header frame in
  bool_decide (channel h = Ch_Compute)
  && (flags h =? Z.lor FLAG_START FLAG_END)
  && negb (request_id h =? 0)
  && (fragment_index h =? 0)
  && (payload_len h =? Z.of_nat expected_len)
  && (logical_message_len h =? Z.of_nat expected_len)
  && (len (payload frame) =? Z.of_nat expected_len).

Definition build_compute_request_frame (request : ComputeRequest) (request_id sequence : Z) :
    result Frame PbmuxError :=
  if request_id =? 0 then Err bad_compute
  else
    let? mp :=
      match request with
      | Cq_Submit r =>
          if negb (nonzero (cs_lease_id r)) || negb (nonzero (cs_worker_incarnation_id r))
             || negb (nonzero (cs_reservation_id r)) || negb (nonzero (cs_buffer_id r))
          then Err bad_compute
          else
            Ok (1, cs_lease_id r
                     ++ cs_worker_incarnation_id r
                     ++ cs_reservation_id r
                     ++ to_be 1 (cs_provider_id r)
                     ++ to_be 1 (cs_provider_version r)
                     ++ to_be 1 (cs_input_kind r)
                     ++ zeros 1
                     ++ cs_buffer_id r
                     ++ to_be 8 (cs_input_offset r)
                     ++ to_be 8 (cs_input_length r))
      | Cq_Status r =>
          if negb (nonzero (cj_lease_id r)) || negb (nonzero (cj_worker_incarnation_id r))
             || negb (nonzero (cj_job_id r))
          then Err bad_compute
          else Ok (2, cj_lease_id r ++ cj_worker_incarnation_id r ++ cj_job_id r)
      | Cq_Cancel r =>
          if negb (nonzero (cj_lease_id r)) || negb (nonzero (cj_worker_incarnation_id r))
             || negb (nonzero (cj_job_id r))
          then Err bad_compute
          else Ok (4, cj_lease_id r ++ cj_worker_incarnation_id r ++ cj_job_id r)
      end in
    Ok (mkFrame {|
      channel := Ch_Compute;
      flags := Z.lor (Z.lor FLAG_START FLAG_END) FLAG_ACK_REQUIRED;
      message_type := fst mp;
      request_id := request_id;
      sequence := sequence;
      fragment_index := 0;
      payload_len := as_u32 (len (snd mp));
      logical_message_len := as_u32 (len (snd mp)) |} (snd mp)).

Definition parse_compute_request_frame (frame : Frame) : result ComputeRequest PbmuxError :=
  let ty := message_type (header frame) in
  let p := payload frame in
  if ty =? 1 then
    if negb (compute_request_profile frame COMPUTE_SUBMIT_LEN)
       || negb (read_u8 p 51 =? 0)
    then Err bad_compute
    else
      let r := {|
        cs_lease_id := slice p 0 16;
        cs_worker_incarnation_id := slice p 16 16;
        cs_reservation_id := slice p 32 16;
        cs_provider_id := read_u8 p 48;
        cs_provider_version := read_u8 p 49;
        cs_input_kind := read_u8 p 50;
        cs_buffer_id := slice p 52 16;
        cs_input_offset := read_u64 p 68;
        cs_input_length := read_u64 p 76 |} in
      if negb (nonzero (cs_lease_id r)) || negb (nonzero (cs_worker_incarnation_id r))
         || negb (nonzero (cs_reservation_id r)) || negb (nonzero (cs_buffer_id r))
      then Err bad_compute
      else Ok (Cq_Submit r)
  else if (ty =? 2) || (ty =? 4) then
    if negb (compute_request_profile frame COMPUTE_JOB_REQUEST_LEN) then Err bad_compute
    else
      let r := {|
        cj_lease_id := slice p 0 16;
        cj_worker_incarnation_id := slice p 16 16;
        cj_job_id := slice p 32 16 |} in
      if negb (nonzero (cj_lease_id r)) || negb (nonzero (cj_worker_incarnation_id r))
         || negb (nonzero (cj_job_id r))
      then Err bad_compute
      else if ty =? 2 then Ok (Cq_Status r)
      else Ok (Cq_Cancel r)
  else Err bad_compute.

(** ** Responses *)

Definition valid_absent_lookup_reason (r : ComputeReason) : bool :=
  match r with
  | Cr_StaleControllerLease | Cr_WrongWorkerIncarnation | Cr_JobNotFound | Cr_JobNotOwned
  | Cr_UnsupportedMessage | Cr_InternalError => true
  | _ => false
  end.

Definition provider_is_blake3 (job : ComputeJobRef) : bool :=
  (jr_provider_id job =? BLAKE3_PROVIDER_ID)
  && (jr_provider_version job =? BLAKE3_PROVIDER_VERSION).

Definition validate_status (status : ComputeStatus) (cancel : bool) : result unit PbmuxError :=
  if negb (nonzero (st_lease_id status)) || negb (nonzero (st_worker_incarnation_id status))
  then Err bad_compute
  else
    match st_job status with
    | None =>
        if negb (bool_decide (st_state status = Js_Invalid))
           || negb (valid_absent_lookup_reason (st_reason status))
        then Err bad_compute
        else Ok tt
    | Some job =>
        if negb (nonzero (jr_job_id job)) || negb (provider_is_blake3 job) then
          Err bad_compute
        else
          let valid :=
            if cancel then
              (bool_decide (st_state status = Js_Cancelled)
               && bool_decide (st_reason status = Cr_None))
              || (job_is_terminal (st_state status)
                  && bool_decide (st_reason status = Cr_JobNotCancellable))
            else
              match st_state status with Js_Accepted | Js_Running => true | _ => false end
              && bool_decide (st_reason status = Cr_None) in
          if negb valid then Err bad_compute else Ok tt
    end.

Definition valid_admission_reason (r : ComputeReason) : bool :=
  match r with
  | Cr_StaleControllerLease | Cr_WrongWorkerIncarnation | Cr_UnsupportedProvider
  | Cr_InvalidInput | Cr_BufferNotFound | Cr_BufferNotOwned | Cr_BufferWrongIncarnation
  | Cr_BufferInvalidState | Cr_BufferLost | Cr_BufferFreed | Cr_BufferEvicted
  | Cr_InputTooLarge | Cr_ReservationInvalid | Cr_ResourceExhausted | Cr_RequestIdConflict
  | Cr_IdempotenceTableFull | Cr_UnsupportedMessage | Cr_InternalError => true
  | _ => false
  end.

(** [validate_result] *)
Definition validate_compute_result (r : ComputeResult) : result unit PbmuxError :=
  if negb (nonzero (cr_lease_id r)) || negb (nonzero (cr_worker_incarnation_id r)) then
    Err bad_compute
  else
    match cr_job r with
    | None =>
        if negb (bool_decide (cr_state r = Js_Invalid))
           || negb (valid_admission_reason (cr_reason r))
           || is_some (cr_digest r)
        then Err bad_compute
        else Ok tt
    | Some job =>
        if negb (nonzero (jr_job_id job)) || negb (provider_is_blake3 job) then
          Err bad_compute
        else
          let valid :=
            match cr_state r with
            | Js_Completed => bool_decide (cr_reason r = Cr_None) && is_some (cr_digest r)
            | Js_Failed =>
                match cr_reason r with
                | Cr_BufferInvalidState | Cr_BufferLost | Cr_BufferFreed | Cr_BufferEvicted
                | Cr_ResourceExhausted | Cr_ProviderTimeout | Cr_ProviderFailed
                | Cr_SessionLost | Cr_InternalError => true
                | _ => false
                end && negb (is_some (cr_digest r))
            | Js_Cancelled =>
                match cr_reason r with Cr_None | Cr_SessionLost => true | _ => false end
                && negb (is_some (cr_digest r))
            | _ => false
            end in
          if negb valid then Err bad_compute else Ok tt
    end.

Definition encode_status (status : ComputeStatus) (cancel : bool) :
    result (list byte) PbmuxError :=
  let? _ := validate_status status cancel in
  Ok (to_be 1 (ComputeJobState_as_u8 (st_state status))
        ++ to_be 1 (u8_of_bool (is_some (st_job status)))
        ++ to_be 2 (ComputeReason_as_u16 (st_reason status))
        ++ st_lease_id status
        ++ st_worker_incarnation_id status
        ++ match st_job status with
           | Some job =>
               jr_job_id job ++ to_be 1 (jr_provider_id job) ++ to_be 1 (jr_provider_version job)
           | None => zeros 18
           end
        ++ zeros 2).

(** [encode_result] *)
Definition encode_compute_result (r : ComputeResult) : result (list byte) PbmuxError :=
  let? _ := validate_compute_result r in
  Ok (to_be 1 (ComputeJobState_as_u8 (cr_state r))
        ++ to_be 1 (u8_of_bool (is_some (cr_job r)))
        ++ to_be 2 (ComputeReason_as_u16 (cr_reason r))
        ++ to_be 1 (u8_of_bool (is_some (cr_digest r)))
        ++ match cr_job r with
           | Some job => to_be 1 (jr_provider_id job) ++ to_be 1 (jr_provider_version job)
           | None => zeros 2
           end
        ++ zeros 1
        ++ cr_lease_id r
        ++ cr_worker_incarnation_id r
        ++ match cr_job r with Some job => jr_job_id job | None => zeros 16 end
        ++ match cr_digest r with Some d => d | None => zeros 32 end).

Definition build_compute_response_frame (response : ComputeResponse)
    (request_id sequence : Z) : result Frame PbmuxError :=
  if request_id =? 0 then Err bad_compute
  else
    let? mp :=
      match response with
      | Cx_Status status => let? p := encode_status status false in Ok (2, p)
      | Cx_Result r => let? p := encode_compute_result r in Ok (3, p)
      | Cx_Cancel status => let? p := encode_status status true in Ok (4, p)
      end in
    Ok (mkFrame {|
      channel := Ch_Compute;
      flags := Z.lor FLAG_START FLAG_END;
      message_type := fst mp;
      request_id := request_id;
      sequence := sequence;
      fragment_index := 0;
      payload_len := as_u32 (len (snd mp));
      logical_message_len := as_u32 (len (snd mp)) |} (snd mp)).

Definition decode_job_ref (p : list byte) (present : Z) (offset : nat) :
    result (option ComputeJobRef) PbmuxError :=
  if 1 <? present then Err bad_compute
  else
    let job_id := slice p offset 16 in
    let provider_id := read_u8 p (offset + 16) in
    let provider_version := read_u8 p (offset + 17) in
    if present =? 0 then
      if negb (bool_decide (job_id = zeros 16)) || negb (provider_id =? 0)
         || negb (provider_version =? 0)
      then Err bad_compute
      else Ok None
    else Ok (Some (mkComputeJobRef job_id provider_id provider_version)).

(** The [2 | 4] arm of [parse_compute_response_frame] after the profile test. *)
Definition decode_status (p : list byte) (cancel : bool) : result ComputeStatus PbmuxError :=
  match ComputeJobState_try_from (read_u8 p 0) with
  | Err _ => Err bad_compute
  | Ok state =>
      match ComputeReason_try_from (read_u16 p 2) with
      | Err _ => Err bad_compute
      | Ok reason =>
          let? job := decode_job_ref p (read_u8 p 1) 36 in
          let status := {|
            st_state := state;
            st_reason := reason;
            st_lease_id := slice p 4 16;
            st_worker_incarnation_id := slice p 20 16;
            st_job := job |} in
          let? _ := validate_status status cancel in
          Ok status
      end
  end.

(** The [3] arm of [parse_compute_response_frame] after the profile test. *)
Definition decode_compute_result (p : list byte) : result ComputeResult PbmuxError :=
  let job_id := slice p 40 16 in
  let? job :=
    if read_u8 p 1 =? 0 then
      if negb (bool_decide (job_id = zeros 16)) || negb (read_u8 p 5 =? 0)
         || negb (read_u8 p 6 =? 0)
      then Err bad_compute
      else Ok None
    else if read_u8 p 1 =? 1 then
      Ok (Some (mkComputeJobRef job_id (read_u8 p 5) (read_u8 p 6)))
    else Err bad_compute in
  let digest_bytes := slice p 56 32 in
  let? digest :=
    if read_u8 p 4 =? 0 then
      if negb (bool_decide (digest_bytes = zeros 32)) then Err bad_compute else Ok None
    else Ok (Some digest_bytes) in
  match ComputeJobState_try_from (read_u8 p 0) with
  | Err _ => Err bad_compute
  | Ok state =>
      match ComputeReason_try_from (read_u16 p 2) with
      | Err _ => Err bad_compute
      | Ok reason =>
          let r := {|
            cr_state := state;
            cr_reason := reason;
            cr_lease_id := slice p 8 16;
            cr_worker_incarnation_id := slice p 24 16;
            cr_job := job;
            cr_digest := digest |} in
          let? _ := validate_compute_result r in
          Ok r
      end
  end.

Definition parse_compute_response_frame (frame : Frame) : result ComputeResponse PbmuxError :=
  let ty := message_type (header frame) in
  let p := payload frame in
  if (ty =? 2) || (ty =? 4) then
    if negb (compute_response_profile frame COMPUTE_STATUS_LEN)
       || negb (bool_decide (slice p 54 2 = zeros 2))
    then Err bad_compute
    else
      let cancel := ty =? 4 in
      let? status := decode_status p cancel in
      Ok (if cancel then Cx_Cancel status else Cx_Status status)
  else if ty =? 3 then
    if negb (compute_response_profile frame COMPUTE_RESULT_LEN)
       || negb (read_u8 p 7 =? 0) || (1 <? read_u8 p 4)
    then Err bad_compute
    else
      let? r := decode_compute_result p in
      Ok (Cx_Result r)
  else Err bad_compute.

(** ** Typing and inverse laws *)

Lemma jstate_try_as : forall s, ComputeJobState_try_from (ComputeJobState_as_u8 s) = Ok s.
Proof. enum_from_as. Qed.
Lemma jstate_as_try v s : ComputeJobState_try_from v = Ok s -> ComputeJobState_as_u8 s = v.
Proof. enum_as_from ComputeJobState_try_from. Qed.
Lemma jstate_u8 s : uw 8 (ComputeJobState_as_u8 s).
Proof. unfold uw. by destruct s. Qed.

Lemma creason_try_as : forall r, ComputeReason_try_from (ComputeReason_as_u16 r) = Ok r.
Proof. enum_from_as. Qed.
Lemma creason_as_try v r : ComputeReason_try_from v = Ok r -> ComputeReason_as_u16 r = v.
Proof. enum_as_from ComputeReason_try_from. Qed.
Lemma creason_u16 r : uw 16 (ComputeReason_as_u16 r).
Proof. unfold uw. by destruct r. Qed.

Definition cs_typed (s : ComputeSubmit) : Prop :=
  length (cs_lease_id s) = 16%nat /\ length (cs_worker_incarnation_id s) = 16%nat /\
  length (cs_reservation_id s) = 16%nat /\ uw 8 (cs_provider_id s) /\
  uw 8 (cs_provider_version s) /\ uw 8 (cs_input_kind s) /\
  length (cs_buffer_id s) = 16%nat /\ uw 64 (cs_input_offset s) /\ uw 64 (cs_input_length s).

Definition cj_typed (j : ComputeJobRequest) : Prop :=
  length (cj_lease_id j) = 16%nat /\ length (cj_worker_incarnation_id j) = 16%nat /\
  length (cj_job_id j) = 16%nat.

Definition cq_typed (r : ComputeRequest) : Prop :=
  match r with Cq_Submit s => cs_typed s | Cq_Status j | Cq_Cancel j => cj_typed j end.

Definition jr_typed (j : ComputeJobRef) : Prop :=
  length (jr_job_id j) = 16%nat /\ uw 8 (jr_provider_id j) /\ uw 8 (jr_provider_version j).

Definition st_typed (s : ComputeStatus) : Prop :=
  length (st_lease_id s) = 16%nat /\ length (st_worker_incarnation_id s) = 16%nat /\
  match st_job s with Some j => jr_typed j | None => True end.

Definition cr_typed (r : ComputeResult) : Prop :=
  length (cr_lease_id r) = 16%nat /\ length (cr_worker_incarnation_id r) = 16%nat /\
  match cr_job r with Some j => jr_typed j | None => True end /\
  match cr_digest r with Some d => length d = 32%nat | None => True end.

Definition cx_typed (r : ComputeResponse) : Prop :=
  match r with Cx_Status s | Cx_Cancel s => st_typed s | Cx_Result r => cr_typed r end.

Lemma compute_request_profile_iff f n :
  compute_request_profile f n = true <->
  request_id (header f) <> 0 /\
  single_profile Ch_Compute FLAGS_REQUEST (message_type (header f)) (Z.of_nat n) f.
Proof.
  unfold compute_request_profile. rewrite single_profile_fields.
  rewrite !andb_true_iff, bool_decide_eq_true, negb_true_iff, Z.eqb_neq, !Z.eqb_eq.
  unfold FLAGS_REQUEST. tauto.
Qed.

Lemma compute_response_profile_iff f n :
  compute_response_profile f n = true <->
  request_id (header f) <> 0 /\
  single_profile Ch_Compute FLAGS_SINGLE (message_type (header f)) (Z.of_nat n) f.
Proof.
  unfold compute_response_profile. rewrite single_profile_fields.
  rewrite !andb_true_iff, bool_decide_eq_true, negb_true_iff, Z.eqb_neq, !Z.eqb_eq.
  unfold FLAGS_SINGLE. tauto.
Qed.

Lemma as_u32_small z : 0 <= z < 2 ^ 32 -> as_u32 z = z.
Proof. apply Z.mod_small. Qed.

(** A frame of a single-frame profile is rebuilt from its payload; [payload.len()
    as u32] does not truncate. *)
Lemma single_profile_frame c fl ty n f b :
  0 <= n < 2 ^ 32 -> single_profile c fl ty n f -> b = payload f ->
  mkFrame {| channel := c; flags := fl; message_type := ty;
             request_id := request_id (header f); sequence := sequence (header f);
             fragment_index := 0; payload_len := as_u32 (len b);
             logical_message_len := as_u32 (len b) |} b = f.
Proof.
  intros Hn [Hh Hl] ->. rewrite Hl, as_u32_small by done.
  destruct f as [h p]. simpl in *. by rewrite Hh at 3.
Qed.

Lemma single_profile_built c fl ty rid sq b n :
  len b = n -> 0 <= n < 2 ^ 32 ->
  single_profile c fl ty n (mkFrame {| channel := c; flags := fl; message_type := ty;
             request_id := rid; sequence := sq; fragment_index := 0;
             payload_len := as_u32 (len b); logical_message_len := as_u32 (len b) |} b).
Proof. intros Hl Hn. split; cbn; rewrite Hl, ?as_u32_small by done; done. Qed.

Lemma parse_compute_request_sound f r :
  parse_compute_request_frame f = Ok r ->
  cq_typed r /\
  build_compute_request_frame r (request_id (header f)) (sequence (header f)) = Ok f.
Proof.
  unfold parse_compute_request_frame. intros H. cbn zeta in H.
  codec_open H; bool_hyps;
    match goal with H : compute_request_profile _ _ = true |- _ =>
      apply compute_request_profile_iff in H as [Hrid Hp] end;
    pose proof Hp as [_ Hl];
    unfold len, COMPUTE_SUBMIT_LEN, COMPUTE_JOB_REQUEST_LEN in Hl;
    apply Z.eqb_neq in Hrid; unfold build_compute_request_frame; rewrite Hrid; subst r;
    cbn [cs_lease_id cs_worker_incarnation_id cs_reservation_id cs_buffer_id
         cj_lease_id cj_worker_incarnation_id cj_job_id cq_typed] in *;
    repeat match goal with H : nonzero _ = true |- _ => rewrite H; clear H end;
    cbn [negb orb fst snd].
  - split; [unfold cs_typed; repeat split; try (apply length_slice; lia);
            apply (read_uw (payload f)); lia|].
    match goal with H : read_u8 _ 51 = 0 |- _ => apply zero_byte in H; [|lia];
      rewrite <- H end.
    match goal with H : message_type _ = 1 |- _ => rewrite H in Hp end.
    f_equal. eapply single_profile_frame; [|exact Hp|]; [done|].
    psimpl. unfold read_u8, read_u64. slice_glue. apply slice_all. lia.
  - split; [unfold cj_typed; repeat split; apply length_slice; lia|].
    match goal with H : message_type _ = 2 |- _ => rewrite H in Hp end.
    f_equal. eapply single_profile_frame; [|exact Hp|]; [done|].
    slice_glue. apply slice_all. lia.
  - split; [unfold cj_typed; repeat split; apply length_slice; lia|].
    assert (E : message_type (header f) = 4) by lia. rewrite E in Hp.
    f_equal. eapply single_profile_frame; [|exact Hp|]; [done|].
    slice_glue. apply slice_all. lia.
Qed.

Lemma parse_compute_request_complete f r rid seq :
  cq_typed r -> build_compute_request_frame r rid seq = Ok f ->
  parse_compute_request_frame f = Ok r.
Proof.
  intros Ht H. unfold build_compute_request_frame in H. codec_open H; subst f. bool_hyps.
  destruct r as [s|j|j]; unfold cq_typed, cs_typed, cj_typed in Ht;
    [destruct Ht as (? & ? & ? & ? & ? & ? & ? & ? & ?)|destruct Ht as (? & ? & ?)..];
    codec_open G0; subst; bool_hyps; unfold parse_compute_request_frame;
    cbn [header payload message_type fst snd]; zconst;
    (rewrite (proj2 (compute_request_profile_iff _ _)) by
      (split; [done|]; apply single_profile_built; [|done];
       unfold len, COMPUTE_SUBMIT_LEN, COMPUTE_JOB_REQUEST_LEN; len_solve));
    unfold read_u8, read_u64; slice_read; be_read;
    rewrite ?be_val_zeros; zconst;
    cbn [cs_lease_id cs_worker_incarnation_id cs_reservation_id cs_buffer_id
         cj_lease_id cj_worker_incarnation_id cj_job_id];
    repeat match goal with H : nonzero _ = true |- _ => rewrite H end; cbn [negb orb];
    [by destruct s|by destruct j..].
Qed.

(** COMPUTE/1,2,4 requests.  The parser accepts a frame as a SUBMIT, STATUS or
    CANCEL request exactly when the builder produces the frame from the request. *)
Lemma compute_request_bijective f r :
  parse_compute_request_frame f = Ok r <->
  cq_typed r /\
  build_compute_request_frame r (request_id (header f)) (sequence (header f)) = Ok f.
Proof.
  split; [apply parse_compute_request_sound|].
  intros [Ht H]. by eapply parse_compute_request_complete.
Qed.

(** ** Responses: the payload codecs *)

(** Reading back the optional job reference. *)
Lemma decode_job_ref_sound p n job :
  (n + 18 <= length p)%nat -> decode_job_ref p (read_u8 p 1) n = Ok job ->
  match job with Some j => jr_typed j | None => True end /\
  read_u8 p 1 = u8_of_bool (is_some job) /\
  slice p n 18 = match job with
                 | Some j => jr_job_id j ++ to_be 1 (jr_provider_id j)
                               ++ to_be 1 (jr_provider_version j)
                 | None => zeros 18
                 end.
Proof.
  intros Hl H. unfold decode_job_ref in H. codec_open H; subst job; bool_hyps.
  - split; [done|]. split; [done|].
    change (zeros 18) with (zeros 16 ++ zeros 1 ++ zeros 1).
    match goal with H : slice p n 16 = _ |- _ => rewrite <- H end.
    rewrite <- (zero_byte p (n + 16)) at 1 by (done || lia).
    rewrite <- (zero_byte p (n + 17)) by (done || lia).
    rewrite (slice_join p (n + 16) 1 (n + 17) 1) by lia.
    by rewrite (slice_join p n 16 (n + 16) _) by lia.
  - split; [split; [apply length_slice; lia|split; apply (read_uw p); lia]|].
    split; [pose proof (read_uw p 1 1 ltac:(lia)) as Hr; unfold uw, read_u8 in *; simpl; lia|].
    cbn [jr_job_id jr_provider_id jr_provider_version]. unfold read_u8.
    rewrite !to_be_be_val by (apply length_slice; lia).
    rewrite (slice_join p (n + 16) 1 (n + 17) 1) by lia.
    by rewrite (slice_join p n 16 (n + 16) _) by lia.
Qed.

Lemma decode_status_sound p cancel s :
  length p = 56%nat -> slice p 54 2 = zeros 2 -> decode_status p cancel = Ok s ->
  st_typed s /\ encode_status s cancel = Ok p.
Proof.
  intros Hl Hz H. unfold decode_status in H. codec_open H. subst s.
  apply decode_job_ref_sound in G1 as (Hj & Hp & Hs); [|lia].
  split; [split; [|split]; [apply length_slice; lia..|done]|].
  unfold encode_status. rewrite G2.
  cbn [st_state st_reason st_lease_id st_worker_incarnation_id st_job].
  rewrite <- Hs, <- Hp, (jstate_as_try _ _ G), (creason_as_try _ _ G0), <- Hz.
  unfold read_u8, read_u16. f_equal. slice_glue. by apply slice_all.
Qed.

Lemma encode_status_length s cancel b :
  st_typed s -> encode_status s cancel = Ok b -> length b = 56%nat.
Proof.
  intros (Hl & Hw & Hr) H. unfold encode_status in H. codec_open H. subst b.
  destruct (st_job s) as [f|]; [destruct Hr as (? & _)|]; len_solve.
Qed.

Lemma decode_status_complete s cancel b :
  st_typed s -> encode_status s cancel = Ok b ->
  slice b 54 2 = zeros 2 /\ decode_status b cancel = Ok s.
Proof.
  intros (Hl & Hw & Hr) H. unfold encode_status in H. codec_open H. subst b.
  unfold decode_status, decode_job_ref, read_u8, read_u16.
  pose proof (creason_u16 (st_reason s)). pose proof (jstate_u8 (st_state s)).
  destruct s as [st rs l w [j|]]; cbn [st_state st_reason st_lease_id
    st_worker_incarnation_id st_job is_some u8_of_bool] in *.
  - destruct Hr as (? & ? & ?). rewrite <- !app_assoc. cbn [Nat.add]. slice_read. be_read.
    rewrite jstate_try_as, creason_try_as. zconst. destruct j.
    cbn [jr_job_id jr_provider_id jr_provider_version] in *. by rewrite G.
  - cbn [Nat.add]. slice_read. be_read. rewrite jstate_try_as, creason_try_as.
    change (slice (zeros 18 ++ zeros 2) 0 16) with (zeros 16).
    change (slice (zeros 18 ++ zeros 2) 16 1) with (zeros 1).
    change (slice (zeros 18 ++ zeros 2) 17 1) with (zeros 1).
    rewrite be_val_zeros, bool_decide_true by done. zconst. by rewrite G.
Qed.

Lemma decode_compute_result_sound p r :
  length p = 88%nat -> read_u8 p 7 = 0 -> read_u8 p 4 <= 1 ->
  decode_compute_result p = Ok r -> cr_typed r /\ encode_compute_result r = Ok p.
Proof.
  intros Hl Hz Hd H. unfold decode_compute_result in H. codec_open H. subst r.
  apply zero_byte in Hz; [|lia].
  assert (Hj : match t with Some j => jr_typed j | None => True end /\
    read_u8 p 1 = u8_of_bool (is_some t) /\
    slice p 5 2 = match t with
      | Some j => to_be 1 (jr_provider_id j) ++ to_be 1 (jr_provider_version j)
      | None => zeros 2 end /\
    slice p 40 16 = match t with Some j => jr_job_id j | None => zeros 16 end).
  { clear -G Hl. codec_open G; subst t; bool_hyps.
    - split; [done|]. split; [done|]. split; [|done].
      change (zeros 2) with (zeros 1 ++ zeros 1).
      rewrite <- (zero_byte p 5) at 1 by (done || lia).
      rewrite <- (zero_byte p 6) by (done || lia).
      by rewrite (slice_join p 5 1 6 1) by lia.
    - split; [split; [apply length_slice; lia|split; apply (read_uw p); lia]|].
      split; [done|]. split; [|done]. cbn [jr_provider_id jr_provider_version].
      unfold read_u8. rewrite !to_be_be_val by (apply length_slice; lia).
      by rewrite (slice_join p 5 1 6 1) by lia. }
  assert (Hg : match t0 with Some d => length d = 32%nat | None => True end /\
    read_u8 p 4 = u8_of_bool (is_some t0) /\
    slice p 56 32 = match t0 with Some d => d | None => zeros 32 end).
  { clear -G0 Hl Hd. codec_open G0; subst t0; bool_hyps; [done|].
    split; [apply length_slice; lia|]. split; [|done].
    pose proof (read_uw p 4 1 ltac:(lia)) as Hr. unfold uw, read_u8 in *. simpl. lia. }
  destruct Hj as (Hj & Hp & Hs & Hid), Hg as (Hg & Hq & Hdg).
  split; [split; [|split; [|split]]; [apply length_slice; lia..|done|done]|].
  unfold encode_compute_result. rewrite G3.
  cbn [cr_state cr_reason cr_lease_id cr_worker_incarnation_id cr_job cr_digest].
  rewrite <- Hs, <- Hid, <- Hdg, <- Hp, <- Hq, (jstate_as_try _ _ G1),
    (creason_as_try _ _ G2), <- Hz.
  unfold read_u8, read_u16. f_equal. slice_glue. by apply slice_all.
Qed.

Lemma encode_compute_result_length r b :
  cr_typed r -> encode_compute_result r = Ok b -> length b = 88%nat.
Proof.
  intros (Hl & Hw & Hr & Hd) H. unfold encode_compute_result in H. codec_open H. subst b.
  destruct (cr_job r) as [f|]; [destruct Hr as (? & _)|];
    destruct (cr_digest r); len_solve.
Qed.

Lemma decode_compute_result_complete r b :
  cr_typed r -> encode_compute_result r = Ok b ->
  read_u8 b 7 = 0 /\ read_u8 b 4 <= 1 /\ decode_compute_result b = Ok r.
Proof.
  intros (Hl & Hw & Hr & Hd) H. unfold encode_compute_result in H. codec_open H. subst b.
  unfold decode_compute_result, read_u8, read_u16.
  pose proof (creason_u16 (cr_reason r)). pose proof (jstate_u8 (cr_state r)).
  change (zeros 2) with (zeros 1 ++ zeros 1).
  destruct r as [st rs l w [j|] [d|]]; cbn [cr_state cr_reason cr_lease_id
    cr_worker_incarnation_id cr_job cr_digest is_some u8_of_bool] in *;
    try destruct Hr as (? & ? & ?); rewrite <- !app_assoc; slice_read; be_read;
    rewrite ?be_val_zeros, jstate_try_as, creason_try_as; zconst;
    rewrite ?bool_decide_true by done; cbn [negb orb]; try destruct j;
    cbn [jr_job_id jr_provider_id jr_provider_version] in *; rewrite G;
    repeat split; done || lia.
Qed.

Lemma parse_compute_response_sound f r :
  parse_compute_response_frame f = Ok r ->
  cx_typed r /\
  build_compute_response_frame r (request_id (header f)) (sequence (header f)) = Ok f.
Proof.
  unfold parse_compute_response_frame. intros H. cbn zeta in H.
  codec_open H; bool_hyps;
    match goal with H : compute_response_profile _ _ = true |- _ =>
      apply compute_response_profile_iff in H as [Hrid Hp] end;
    pose proof Hp as [_ Hl]; unfold len, COMPUTE_STATUS_LEN, COMPUTE_RESULT_LEN in Hl;
    apply Z.eqb_neq in Hrid; unfold build_compute_response_frame; rewrite Hrid; subst r.
  - match goal with H : decode_status _ _ = _ |- _ =>
      apply decode_status_sound in H as [Ht He]; [|lia|done] end.
    assert (E : message_type (header f) = if message_type (header f) =? 4 then 4 else 2).
    { destruct (Z.eqb_spec (message_type (header f)) 4); [done|].
      destruct G as [G|G]; [by apply Z.eqb_eq in G|congruence]. }
    rewrite E in Hp. destruct (message_type (header f) =? 4); simpl cx_typed;
      (split; [done|]); rewrite He; f_equal;
      (eapply single_profile_frame; [|exact Hp|]); done.
  - match goal with H : decode_compute_result _ = _ |- _ =>
      apply decode_compute_result_sound in H as [Ht He]; [|lia|done|done] end.
    split; [done|]. rewrite He. f_equal.
    match goal with H : message_type _ = 3 |- _ => rewrite H in Hp end.
    eapply single_profile_frame; [|exact Hp|]; done.
Qed.

Lemma parse_compute_response_complete f r rid seq :
  cx_typed r -> build_compute_response_frame r rid seq = Ok f ->
  parse_compute_response_frame f = Ok r.
Proof.
  intros Ht H. unfold build_compute_response_frame in H. codec_open H; subst f. bool_hyps.
  destruct r as [s|s|s]; simpl cx_typed in Ht; codec_open G0; subst;
    unfold parse_compute_response_frame; cbn [header payload message_type fst snd]; zconst;
    first [pose proof (encode_status_length _ _ _ Ht G1) as Hl;
           destruct (decode_status_complete _ _ _ Ht G1) as (Hz & Hd)
          |pose proof (encode_compute_result_length _ _ Ht G1) as Hl;
           destruct (decode_compute_result_complete _ _ Ht G1) as (Hz & Hz' & Hd)];
    rewrite (proj2 (compute_response_profile_iff _ _)) by
      (split; [done|]; apply single_profile_built; [|done];
       unfold len, COMPUTE_STATUS_LEN, COMPUTE_RESULT_LEN; lia).
  1,3: rewrite bool_decide_true, Hd by done; done.
  rewrite Hz, (proj2 (Z.ltb_ge _ _)), Hd by done. done.
Qed.

(** COMPUTE/2,3,4 responses.  The parser accepts a frame as a status, result
    or cancel response exactly when the builder produces the frame from it. *)
Lemma compute_response_bijective f r :
  parse_compute_response_frame f = Ok r <->
  cx_typed r /\
  build_compute_response_frame r (request_id (header f)) (sequence (header f)) = Ok f.
Proof.
  split; [apply parse_compute_response_sound|].
  intros [Ht H]. by eapply parse_compute_response_complete.
Qed.
