(* ===== verification/BufferWire.v ===== *)
(** * pb-pbmux, C09 messages: REMOTE_BUFFER requests and results

    Models [crates/pb-pbmux/src/remote_buffer.rs].  PUT requests and DATA results
    are the only logical messages that may span several frames; the builders cut
    the payload with [chunks(MAX_PBMUX_PAYLOAD)] and the [Reassembler] of the
    other end puts it together again. *)

From Stdlib Require Import ZArith Lia.
From stdpp Require Import base tactics list gmap.
From S2P Require Import Prelude Types Pbmux Reassembly Codec.

Definition REMOTE_BUFFER_ALLOC_LEN : Z := 64.
Definition REMOTE_BUFFER_RANGE_PREFIX_LEN : Z := 64.
Definition REMOTE_BUFFER_HANDLE_LEN : Z := 48.
Definition REMOTE_BUFFER_RESULT_PREFIX_LEN : Z := 100.
Definition MAX_PUT_BODY : Z := MAX_LOGICAL_MESSAGE - REMOTE_BUFFER_RANGE_PREFIX_LEN.
Definition MAX_DATA_BODY : Z := MAX_LOGICAL_MESSAGE - REMOTE_BUFFER_RESULT_PREFIX_LEN.
Definition REMOTE_BUFFER_DEFAULT_TTL_MS : Z := 300000.
Definition REMOTE_BUFFER_MAX_TTL_MS : Z := 1800000.

(** [AllocationFlags] wraps the [u32]; [from_bits] is its only constructor. *)
Definition AllocationFlags : Type := Z.
Definition EVICTABLE : AllocationFlags := 1.
Definition RECONSTRUCTIBLE : AllocationFlags := 2.
Definition SENSITIVE_D3 : AllocationFlags := 4.
Definition NONE : AllocationFlags := 0.

Definition AllocationFlags_from_bits (bits : Z) : option AllocationFlags :=
  if Z.land bits (not32 7) =? 0 then Some bits else None.

Inductive RemoteBufferRequest : Type :=
| Rb_Alloc (lease_id worker_incarnation_id reservation_id : list byte) (size_bytes : Z)
    (allocation_flags : AllocationFlags)
| Rb_Put (lease_id worker_incarnation_id buffer_id : list byte) (offset : Z)
    (data : list byte)
| Rb_Get (lease_id worker_incarnation_id buffer_id : list byte) (offset length : Z)
| Rb_Free (lease_id worker_incarnation_id buffer_id : list byte)
| Rb_Stat (lease_id worker_incarnation_id buffer_id : list byte)
| Rb_Touch (lease_id worker_incarnation_id buffer_id : list byte).

Definition rb_lease_id (r : RemoteBufferRequest) : list byte :=
  match r with
  | Rb_Alloc l _ _ _ _ | Rb_Put l _ _ _ _ | Rb_Get l _ _ _ _
  | Rb_Free l _ _ | Rb_Stat l _ _ | Rb_Touch l _ _ => l
  end.
Definition rb_worker_incarnation_id (r : RemoteBufferRequest) : list byte :=
  match r with
  | Rb_Alloc _ w _ _ _ | Rb_Put _ w _ _ _ | Rb_Get _ w _ _ _
  | Rb_Free _ w _ | Rb_Stat _ w _ | Rb_Touch _ w _ => w
  end.

Inductive BufferReason : Type :=
| Br_None
| Br_StaleControllerLease
| Br_BufferNotFound
| Br_BufferNotOwned
| Br_BufferWrongIncarnation
| Br_BufferInvalidState
| Br_BufferLost
| Br_BufferFreed
| Br_BufferEvicted
| Br_BufferRangeInvalid
| Br_BufferRangeBusy
| Br_PayloadTooLarge
| Br_ResourceExhausted
| Br_ReservationInvalid
| Br_UnsupportedMessage
| Br_InternalError.

#[export] Instance BufferReason_eq_dec : EqDecision BufferReason.
Proof. solve_decision. Defined.

Definition BufferReason_as_u16 (r : BufferReason) : Z :=
  match r with
  | Br_None => 0
  | Br_StaleControllerLease => 1
  | Br_BufferNotFound => 2
  | Br_BufferNotOwned => 3
  | Br_BufferWrongIncarnation => 4
  | Br_BufferInvalidState => 5
  | Br_BufferLost => 6
  | Br_BufferFreed => 7
  | Br_BufferEvicted => 8
  | Br_BufferRangeInvalid => 9
  | Br_BufferRangeBusy => 10
  | Br_PayloadTooLarge => 11
  | Br_ResourceExhausted => 12
  | Br_ReservationInvalid => 13
  | Br_UnsupportedMessage => 14
  | Br_InternalError => 15
  end.

Definition BufferReason_try_from (value : Z) : result BufferReason unit :=
  if value =? 0 then Ok Br_None
  else if value =? 1 then Ok Br_StaleControllerLease
  else if value =? 2 then Ok Br_BufferNotFound
  else if value =? 3 then Ok Br_BufferNotOwned
  else if value =? 4 then Ok Br_BufferWrongIncarnation
  else if value =? 5 then Ok Br_BufferInvalidState
  else if value =? 6 then Ok Br_BufferLost
  else if value =? 7 then Ok Br_BufferFreed
  else if value =? 8 then Ok Br_BufferEvicted
  else if value =? 9 then Ok Br_BufferRangeInvalid
  else if value =? 10 then Ok Br_BufferRangeBusy
  else if value =? 11 then Ok Br_PayloadTooLarge
  else if value =? 12 then Ok Br_ResourceExhausted
  else if value =? 13 then Ok Br_ReservationInvalid
  else if value =? 14 then Ok Br_UnsupportedMessage
  else if value =? 15 then Ok Br_InternalError
  else Err tt.

Inductive BufferState : Type :=
| Bs_Allocated | Bs_Ready | Bs_InUse | Bs_Evicted | Bs_Lost | Bs_Freed.

#[export] Instance BufferState_eq_dec : EqDecision BufferState.
Proof. solve_decision. Defined.

Definition BufferState_as_u8 (s : BufferState) : Z :=
  match s with
  | Bs_Allocated => 1 | Bs_Ready => 2 | Bs_InUse => 3
  | Bs_Evicted => 4 | Bs_Lost => 5 | Bs_Freed => 6
  end.

(** [BufferState::is_terminal] *)
Definition buffer_is_terminal (s : BufferState) : bool :=
  match s with Bs_Evicted | Bs_Lost | Bs_Freed => true | _ => false end.

Definition BufferState_try_from (value : Z) : result BufferState unit :=
  if value =? 1 then Ok Bs_Allocated
  else if value =? 2 then Ok Bs_Ready
  else if value =? 3 then Ok Bs_InUse
  else if value =? 4 then Ok Bs_Evicted
  else if value =? 5 then Ok Bs_Lost
  else if value =? 6 then Ok Bs_Freed
  else Err tt.

Record BufferResultRef : Type := mkBufferResultRef {
  br_buffer_id : list byte;
  br_state : BufferState;
  br_allocation_flags : AllocationFlags;
  br_size_bytes : Z;
  br_ttl_remaining_ms : Z;
}.

Record BufferResult : Type := mkBufferResult {
  bf_completed : bool;
  bf_reason : BufferReason;
  bf_lease_id : list byte;
  bf_worker_incarnation_id : list byte;
  bf_buffer : option BufferResultRef;
  bf_reservation_id : option (list byte);
  bf_offset : Z;
  bf_data_len : Z;
  bf_data : list byte;
}.

Inductive RemoteBufferResponseKind : Type :=
| Bk_AllocAck | Bk_Put | Bk_Data | Bk_Free | Bk_Stat | Bk_Touch.

#[export] Instance RemoteBufferResponseKind_eq_dec : EqDecision RemoteBufferResponseKind.
Proof. solve_decision. Defined.

(** [RemoteBufferResponseKind::message_type] *)
Definition buffer_message_type (k : RemoteBufferResponseKind) : Z :=
  match k with
  | Bk_AllocAck => 2 | Bk_Put => 3 | Bk_Data => 5
  | Bk_Free => 6 | Bk_Stat => 7 | Bk_Touch => 8
  end.

(** [invalid()] *)
Definition bad_buffer : PbmuxError := logical K_InvalidRemoteBufferPayload.

(** ** Fragmentation *)

(** [slice::chunks] and [div_ceil]; [fuel] is the slice's length, enough because
    every step removes at least one byte. *)
Fixpoint chunks_fuel (fuel size : nat) (l : list byte) : list (list byte) :=
  match fuel, l with
  | S fuel', _ :: _ => take size l :: chunks_fuel fuel' size (drop size l)
  | _, _ => []
  end.
Definition chunks (size : nat) (l : list byte) : list (list byte) :=
  chunks_fuel (length l) size l.
Definition div_ceil (a b : Z) : Z := (a + b - 1) / b.

Definition FRAGMENT : nat := Z.to_nat MAX_PBMUX_PAYLOAD.

(** The loop both builders run over [payload.chunks(MAX_PBMUX_PAYLOAD)]. *)
Fixpoint fragment_frames (flags_at : Z -> Z) (message_type request_id first_sequence total : Z)
    (index : nat) (cs : list (list byte)) : result (list Frame) PbmuxError :=
  match cs with
  | [] => Ok []
  | chunk :: rest =>
      match checked_add64 first_sequence (Z.of_nat index) with
      | None => Err bad_buffer
      | Some sequence =>
          let frame := mkFrame {|
            channel := Ch_RemoteBuffer;
            flags := flags_at (Z.of_nat index);
            message_type := message_type;
            request_id := request_id;
            sequence := sequence;
            fragment_index := as_u32 (Z.of_nat index);
            payload_len := as_u32 (len chunk);
            logical_message_len := if (index =? 0)%nat then as_u32 total else 0 |} chunk in
          let? frames := fragment_frames flags_at message_type request_id first_sequence total
                           (S index) rest in
          Ok (frame :: frames)
      end
  end.

(** The flag choice of [build_remote_buffer_request_frames]. *)
Definition request_flags (count index : Z) : Z :=
  if count =? 1 then Z.lor (Z.lor FLAG_START FLAG_END) FLAG_ACK_REQUIRED
  else if index =? 0 then Z.lor FLAG_START FLAG_ACK_REQUIRED
  else if index + 1 =? count then Z.lor FLAG_END FLAG_ACK_REQUIRED
  else FLAG_ACK_REQUIRED.

(** The flag choice of [build_remote_buffer_result_frames]. *)
Definition result_flags (count index : Z) : Z :=
  if count =? 1 then Z.lor FLAG_START FLAG_END
  else if index =? 0 then FLAG_START
  else if index + 1 =? count then FLAG_END
  else 0.

(** ** Requests *)

(** [encode_request] *)
Definition encode_buffer_request (request : RemoteBufferRequest) :
    result (Z * list byte) PbmuxError :=
  let prefix := rb_lease_id request ++ rb_worker_incarnation_id request in
  let? mp :=
    match request with
    | Rb_Alloc _ _ reservation_id size_bytes allocation_flags =>
        if negb (nonzero reservation_id) then Err bad_buffer
        else Ok (1, prefix ++ reservation_id ++ to_be 8 size_bytes
                       ++ to_be 4 allocation_flags ++ zeros 4)
    | Rb_Put _ _ buffer_id offset data =>
        if negb (nonzero buffer_id) || (MAX_PUT_BODY <? len data) then Err bad_buffer
        else Ok (3, prefix ++ buffer_id ++ to_be 8 offset ++ to_be 4 (as_u32 (len data))
                       ++ zeros 4 ++ data)
    | Rb_Get _ _ buffer_id offset length =>
        if negb (nonzero buffer_id) then Err bad_buffer
        else Ok (4, prefix ++ buffer_id ++ to_be 8 offset ++ to_be 4 length ++ zeros 4)
    | Rb_Free _ _ buffer_id =>
        if negb (nonzero buffer_id) then Err bad_buffer else Ok (6, prefix ++ buffer_id)
    | Rb_Stat _ _ buffer_id =>
        if negb (nonzero buffer_id) then Err bad_buffer else Ok (7, prefix ++ buffer_id)
    | Rb_Touch _ _ buffer_id =>
        if negb (nonzero buffer_id) then Err bad_buffer else Ok (8, prefix ++ buffer_id)
    end in
  if MAX_LOGICAL_MESSAGE <? len (snd mp) then Err bad_buffer else Ok mp.

Definition build_remote_buffer_request_frames (request : RemoteBufferRequest)
    (request_id first_sequence : Z) : result (list Frame) PbmuxError :=
  if (request_id =? 0) || negb (nonzero (rb_lease_id request))
     || negb (nonzero (rb_worker_incarnation_id request))
  then Err bad_buffer
  else
    let? mp := encode_buffer_request request in
    let payload := snd mp in
    let count := div_ceil (len payload) MAX_PBMUX_PAYLOAD in
    if (1 <? count) && negb (fst mp =? 3) then Err bad_buffer
    else fragment_frames (request_flags count) (fst mp) request_id first_sequence (len payload)
           0 (chunks FRAGMENT payload).

Definition validate_remote_buffer_request_fragment (frame : Frame) : result unit PbmuxError :=
  let h := header frame in
  if negb (bool_decide (channel h = Ch_RemoteBuffer)) || (request_id h =? 0) then
    Err bad_buffer
  else if negb (message_type h =? 3) then
    let? expected :=
      if (message_type h =? 1) || (message_type h =? 4) then Ok REMOTE_BUFFER_ALLOC_LEN
      else if in_range 6 8 (message_type h) then Ok REMOTE_BUFFER_HANDLE_LEN
      else Err bad_buffer in
    if negb (flags h =? Z.lor (Z.lor FLAG_START FLAG_END) FLAG_ACK_REQUIRED)
       || negb (fragment_index h =? 0)
       || negb (payload_len h =? expected)
       || negb (logical_message_len h =? expected)
       || negb (len (payload frame) =? expected)
    then Err bad_buffer
    else Ok tt
  else
    let start := has_flag (flags h) FLAG_START in
    let end_ := has_flag (flags h) FLAG_END in
    if negb (has_flag (flags h) FLAG_ACK_REQUIRED) then Err bad_buffer
    else if start && end_ then
      if negb (flags h =? Z.lor (Z.lor FLAG_START FLAG_END) FLAG_ACK_REQUIRED)
         || negb (fragment_index h =? 0)
         || negb (logical_message_len h =? payload_len h)
      then Err bad_buffer
      else Ok tt
    else if start then
      if negb (flags h =? Z.lor FLAG_START FLAG_ACK_REQUIRED)
         || negb (fragment_index h =? 0)
         || (MAX_LOGICAL_MESSAGE <? logical_message_len h)
         || (logical_message_len h <=? payload_len h)
      then Err bad_buffer
      else Ok tt
    else if end_ then
      if negb (flags h =? Z.lor FLAG_END FLAG_ACK_REQUIRED)
         || (fragment_index h =? 0)
         || negb (logical_message_len h =? 0)
      then Err bad_buffer
      else Ok tt
    else if negb (flags h =? FLAG_ACK_REQUIRED)
            || (fragment_index h =? 0)
            || negb (logical_message_len h =? 0)
    then Err bad_buffer
    else Ok tt.

Definition parse_remote_buffer_request_payload (message_type : Z) (payload : list byte) :
    result RemoteBufferRequest PbmuxError :=
  let? expected :=
    if (message_type =? 1) || (message_type =? 4) then Ok REMOTE_BUFFER_ALLOC_LEN
    else if message_type =? 3 then
      if (len payload <? REMOTE_BUFFER_RANGE_PREFIX_LEN)
         || (MAX_LOGICAL_MESSAGE <? len payload)
      then Err bad_buffer
      else Ok (len payload)
    else if in_range 6 8 message_type then Ok REMOTE_BUFFER_HANDLE_LEN
    else Err bad_buffer in
  if negb (len payload =? expected) then Err bad_buffer
  else
    let lease_id := slice payload 0 16 in
    let worker_incarnation_id := slice payload 16 16 in
    let object_id := slice payload 32 16 in
    if negb (nonzero lease_id) || negb (nonzero worker_incarnation_id)
       || negb (nonzero object_id)
    then Err bad_buffer
    else if message_type =? 1 then
      if negb (bool_decide (slice payload 60 4 = zeros 4)) then Err bad_buffer
      else
        let? allocation_flags :=
          ok_or (AllocationFlags_from_bits (read_u32 payload 56)) bad_buffer in
        Ok (Rb_Alloc lease_id worker_incarnation_id object_id (read_u64 payload 48)
              allocation_flags)
    else if message_type =? 3 then
      if negb (bool_decide (slice payload 60 4 = zeros 4)) then Err bad_buffer
      else
        let data_len := read_u32 payload 56 in
        if negb (data_len =? len payload - REMOTE_BUFFER_RANGE_PREFIX_LEN)
           || (MAX_PUT_BODY <? data_len)
        then Err bad_buffer
        else Ok (Rb_Put lease_id worker_incarnation_id object_id (read_u64 payload 48)
                   (drop 64 payload))
    else if message_type =? 4 then
      if negb (bool_decide (slice payload 60 4 = zeros 4)) then Err bad_buffer
      else Ok (Rb_Get lease_id worker_incarnation_id object_id (read_u64 payload 48)
                 (read_u32 payload 56))
    else if message_type =? 6 then Ok (Rb_Free lease_id worker_incarnation_id object_id)
    else if message_type =? 7 then Ok (Rb_Stat lease_id worker_incarnation_id object_id)
    else if message_type =? 8 then Ok (Rb_Touch lease_id worker_incarnation_id object_id)
    else Err bad_buffer.

Definition parse_remote_buffer_request_frame (frame : Frame) :
    result RemoteBufferRequest PbmuxError :=
  let? _ := validate_remote_buffer_request_fragment frame in
  if negb (Z.land (flags (header frame)) (Z.lor FLAG_START FLAG_END)
             =? Z.lor FLAG_START FLAG_END)
  then Err bad_buffer
  else parse_remote_buffer_request_payload (message_type (header frame)) (payload frame).

(** ** Results *)

(** [validate_result] *)
Definition validate_buffer_result (k : RemoteBufferResponseKind) (r : BufferResult) :
    result unit PbmuxError :=
  if negb (nonzero (bf_lease_id r)) || negb (nonzero (bf_worker_incarnation_id r)) then
    Err bad_buffer
  else if negb (Bool.eqb (bf_completed r) (bool_decide (bf_reason r = Br_None))) then
    Err bad_buffer
  else
    let? _ :=
      match bf_buffer r with
      | None => Ok tt
      | Some buffer =>
          if negb (nonzero (br_buffer_id buffer)) || (br_size_bytes buffer =? 0) then
            Err bad_buffer
          else if buffer_is_terminal (br_state buffer) then
            if negb (br_ttl_remaining_ms buffer =? 0) then Err bad_buffer else Ok tt
          else if (br_ttl_remaining_ms buffer =? 0)
                  || (REMOTE_BUFFER_MAX_TTL_MS <? br_ttl_remaining_ms buffer)
          then Err bad_buffer
          else Ok tt
      end in
    if match bf_reservation_id r with Some id => negb (nonzero id) | None => false end then
      Err bad_buffer
    else if negb (bf_completed r) then
      if negb (bf_offset r =? 0) || negb (bf_data_len r =? 0)
         || negb (len (bf_data r) =? 0) || is_some (bf_reservation_id r)
      then Err bad_buffer
      else Ok tt
    else
      let? buffer := ok_or (bf_buffer r) bad_buffer in
      let bad :=
        match k with
        | Bk_AllocAck =>
            negb (bool_decide (br_state buffer = Bs_Allocated))
            || negb (is_some (bf_reservation_id r))
            || negb (bf_offset r =? 0)
            || negb (bf_data_len r =? 0)
            || negb (len (bf_data r) =? 0)
            || (REMOTE_BUFFER_DEFAULT_TTL_MS <? br_ttl_remaining_ms buffer)
        | Bk_Put =>
            negb match br_state buffer with Bs_Allocated | Bs_Ready => true | _ => false end
            || is_some (bf_reservation_id r)
            || (bf_data_len r =? 0)
            || negb (len (bf_data r) =? 0)
        | Bk_Data =>
            negb (bool_decide (br_state buffer = Bs_Ready))
            || is_some (bf_reservation_id r)
            || negb (bf_data_len r =? len (bf_data r))
            || (MAX_DATA_BODY <? len (bf_data r))
        | Bk_Free =>
            negb (bool_decide (br_state buffer = Bs_Freed))
            || is_some (bf_reservation_id r)
            || negb (bf_offset r =? 0)
            || negb (bf_data_len r =? 0)
            || negb (len (bf_data r) =? 0)
        | Bk_Stat =>
            buffer_is_terminal (br_state buffer)
            || negb (is_some (bf_reservation_id r))
            || negb (bf_offset r =? 0)
            || negb (bf_data_len r =? 0)
            || negb (len (bf_data r) =? 0)
        | Bk_Touch =>
            buffer_is_terminal (br_state buffer)
            || is_some (bf_reservation_id r)
            || negb (bf_offset r =? 0)
            || negb (bf_data_len r =? 0)
            || negb (len (bf_data r) =? 0)
        end in
      if bad then Err bad_buffer else Ok tt.

(** [encode_result] *)
Definition encode_buffer_result (k : RemoteBufferResponseKind) (r : BufferResult) :
    result (list byte) PbmuxError :=
  let? _ := validate_buffer_result k r in
  Ok (to_be 1 (if bf_completed r then 2 else 3)
        ++ to_be 1 (u8_of_bool (is_some (bf_buffer r)))
        ++ to_be 2 (BufferReason_as_u16 (bf_reason r))
        ++ bf_lease_id r
        ++ bf_worker_incarnation_id r
        ++ match bf_buffer r with Some b => br_buffer_id b | None => zeros 16 end
        ++ to_be 1 (u8_of_bool (is_some (bf_reservation_id r)))
        ++ match bf_reservation_id r with Some id => id | None => zeros 16 end
        ++ to_be 1 match bf_buffer r with
                   | Some b => BufferState_as_u8 (br_state b) | None => 0 end
        ++ zeros 2
        ++ to_be 4 match bf_buffer r with Some b => br_allocation_flags b | None => 0 end
        ++ to_be 8 match bf_buffer r with Some b => br_size_bytes b | None => 0 end
        ++ to_be 8 (bf_offset r)
        ++ to_be 4 (bf_data_len r)
        ++ to_be 4 match bf_buffer r with Some b => br_ttl_remaining_ms b | None => 0 end
        ++ bf_data r).

Definition build_remote_buffer_result_frames (k : RemoteBufferResponseKind) (r : BufferResult)
    (request_id first_sequence : Z) : result (list Frame) PbmuxError :=
  if request_id =? 0 then Err bad_buffer
  else
    let? payload := encode_buffer_result k r in
    if (MAX_LOGICAL_MESSAGE <? len payload)
       || ((MAX_PBMUX_PAYLOAD <? len payload) && negb (bool_decide (k = Bk_Data)))
    then Err bad_buffer
    else
      let count := div_ceil (len payload) MAX_PBMUX_PAYLOAD in
      fragment_frames (result_flags count) (buffer_message_type k) request_id first_sequence
        (len payload) 0 (chunks FRAGMENT payload).

Definition validate_remote_buffer_result_fragment (frame : Frame) : result unit PbmuxError :=
  let h := header frame in
  if negb (bool_decide (channel h = Ch_RemoteBuffer)) || (request_id h =? 0)
     || negb ((message_type h =? 2) || (message_type h =? 3) || in_range 5 8 (message_type h))
  then Err bad_buffer
  else if negb (message_type h =? 5) then
    if negb (flags h =? Z.lor FLAG_START FLAG_END)
       || negb (fragment_index h =? 0)
       || negb (payload_len h =? REMOTE_BUFFER_RESULT_PREFIX_LEN)
       || negb (logical_message_len h =? REMOTE_BUFFER_RESULT_PREFIX_LEN)
       || negb (len (payload frame) =? REMOTE_BUFFER_RESULT_PREFIX_LEN)
    then Err bad_buffer
    else Ok tt
  else
    let start := has_flag (flags h) FLAG_START in
    let end_ := has_flag (flags h) FLAG_END in
    if has_flag (flags h) FLAG_ACK_REQUIRED then Err bad_buffer
    else if start && end_ then
      if negb (flags h =? Z.lor FLAG_START FLAG_END)
         || negb (fragment_index h =? 0)
         || negb (logical_message_len h =? payload_len h)
      then Err bad_buffer
      else Ok tt
    else if start then
      if negb (flags h =? FLAG_START)
         || negb (fragment_index h =? 0)
         || (MAX_LOGICAL_MESSAGE <? logical_message_len h)
         || (logical_message_len h <=? payload_len h)
      then Err bad_buffer
      else Ok tt
    else if end_ then
      if negb (flags h =? FLAG_END) || (fragment_index h =? 0)
         || negb (logical_message_len h =? 0)
      then Err bad_buffer
      else Ok tt
    else if negb (flags h =? 0) || (fragment_index h =? 0)
            || negb (logical_message_len h =? 0)
    then Err bad_buffer
    else Ok tt.

Definition parse_remote_buffer_result_payload (k : RemoteBufferResponseKind)
    (bytes : list byte) : result BufferResult PbmuxError :=
  if (len bytes <? REMOTE_BUFFER_RESULT_PREFIX_LEN)
     || (MAX_LOGICAL_MESSAGE <? len bytes)
     || (1 <? read_u8 bytes 1)
     || (1 <? read_u8 bytes 52)
     || negb (bool_decide (slice bytes 70 2 = zeros 2))
  then Err bad_buffer
  else
    let? completed :=
      if read_u8 bytes 0 =? 2 then Ok true
      else if read_u8 bytes 0 =? 3 then Ok false
      else Err bad_buffer in
    match BufferReason_try_from (read_u16 bytes 2) with
    | Err _ => Err bad_buffer
    | Ok reason =>
        let data_len := read_u32 bytes 92 in
        let body_len := len bytes - REMOTE_BUFFER_RESULT_PREFIX_LEN in
        if (bool_decide (k = Bk_Data) && negb (data_len =? body_len))
           || (negb (bool_decide (k = Bk_Data)) && negb (body_len =? 0))
        then Err bad_buffer
        else
          let? buffer :=
            if read_u8 bytes 1 =? 0 then
              if negb (bool_decide (slice bytes 36 16 = zeros 16))
                 || negb (read_u8 bytes 69 =? 0)
                 || negb (read_u32 bytes 72 =? 0)
                 || negb (read_u64 bytes 76 =? 0)
                 || negb (read_u32 bytes 96 =? 0)
              then Err bad_buffer
              else Ok None
            else
              match BufferState_try_from (read_u8 bytes 69) with
              | Err _ => Err bad_buffer
              | Ok state =>
                  let? allocation_flags :=
                    ok_or (AllocationFlags_from_bits (read_u32 bytes 72)) bad_buffer in
                  Ok (Some {|
                    br_buffer_id := slice bytes 36 16;
                    br_state := state;
                    br_allocation_flags := allocation_flags;
                    br_size_bytes := read_u64 bytes 76;
                    br_ttl_remaining_ms := read_u32 bytes 96 |})
              end in
          let? reservation_id :=
            if read_u8 bytes 52 =? 0 then
              if negb (bool_decide (slice bytes 53 16 = zeros 16)) then Err bad_buffer
              else Ok None
            else Ok (Some (slice bytes 53 16)) in
          let r := {|
            bf_completed := completed;
            bf_reason := reason;
            bf_lease_id := slice bytes 4 16;
            bf_worker_incarnation_id := slice bytes 20 16;
            bf_buffer := buffer;
            bf_reservation_id := reservation_id;
            bf_offset := read_u64 bytes 84;
            bf_data_len := read_u32 bytes 92;
            bf_data := drop 100 bytes |} in
          let? _ := validate_buffer_result k r in
          Ok r
    end.

Definition parse_remote_buffer_result_frame (frame : Frame) :
    result (RemoteBufferResponseKind * BufferResult) PbmuxError :=
  let ty := message_type (header frame) in
  let? k :=
    if ty =? 2 then Ok Bk_AllocAck
    else if ty =? 3 then Ok Bk_Put
    else if ty =? 5 then Ok Bk_Data
    else if ty =? 6 then Ok Bk_Free
    else if ty =? 7 then Ok Bk_Stat
    else if ty =? 8 then Ok Bk_Touch
    else Err bad_buffer in
  let? _ := validate_remote_buffer_result_fragment frame in
  if negb (flags (header frame) =? Z.lor FLAG_START FLAG_END) then Err bad_buffer
  else
    let? r := parse_remote_buffer_result_payload k (payload frame) in
    Ok (k, r).

(** ** Typing and inverse laws *)

Lemma breason_try_as : forall r, BufferReason_try_from (BufferReason_as_u16 r) = Ok r.
Proof. enum_from_as. Qed.
Lemma breason_as_try v r : BufferReason_try_from v = Ok r -> BufferReason_as_u16 r = v.
Proof. enum_as_from BufferReason_try_from. Qed.
Lemma breason_u16 r : uw 16 (BufferReason_as_u16 r).
Proof. unfold uw. by destruct r. Qed.

Lemma bstate_try_as : forall s, BufferState_try_from (BufferState_as_u8 s) = Ok s.
Proof. enum_from_as. Qed.
Lemma bstate_as_try v s : BufferState_try_from v = Ok s -> BufferState_as_u8 s = v.
Proof. enum_as_from BufferState_try_from. Qed.
Lemma bstate_u8 s : uw 8 (BufferState_as_u8 s).
Proof. unfold uw. by destruct s. Qed.

(** A value of type [AllocationFlags]. *)
Definition flags_typed (a : AllocationFlags) : Prop :=
  uw 32 a /\ AllocationFlags_from_bits a = Some a.

Definition rb_typed (r : RemoteBufferRequest) : Prop :=
  length (rb_lease_id r) = 16%nat /\ length (rb_worker_incarnation_id r) = 16%nat /\
  match r with
  | Rb_Alloc _ _ i n a => length i = 16%nat /\ uw 64 n /\ flags_typed a
  | Rb_Put _ _ i o _ => length i = 16%nat /\ uw 64 o
  | Rb_Get _ _ i o n => length i = 16%nat /\ uw 64 o /\ uw 32 n
  | Rb_Free _ _ i | Rb_Stat _ _ i | Rb_Touch _ _ i => length i = 16%nat
  end.

Definition br_typed (b : BufferResultRef) : Prop :=
  length (br_buffer_id b) = 16%nat /\ flags_typed (br_allocation_flags b) /\
  uw 64 (br_size_bytes b) /\ uw 32 (br_ttl_remaining_ms b).

Definition bf_typed (r : BufferResult) : Prop :=
  length (bf_lease_id r) = 16%nat /\ length (bf_worker_incarnation_id r) = 16%nat /\
  match bf_buffer r with Some b => br_typed b | None => True end /\
  match bf_reservation_id r with Some i => length i = 16%nat | None => True end /\
  uw 64 (bf_offset r) /\ uw 32 (bf_data_len r).

(** The ids a peer must set. *)
Definition rb_ids_nonzero (r : RemoteBufferRequest) : bool :=
  nonzero (rb_lease_id r) && nonzero (rb_worker_incarnation_id r).

(** ** Request payloads *)

(** The length the parser demands of a request payload. *)
Lemma length_len (b : list byte) n : len b = Z.of_nat n -> length b = n.
Proof. unfold len. lia. Qed.

Lemma as_u32_id z : 0 <= z < 2 ^ 32 -> as_u32 z = z.
Proof. apply Z.mod_small. Qed.

Lemma parse_buffer_request_sound ty b r :
  parse_remote_buffer_request_payload ty b = Ok r ->
  rb_typed r /\ rb_ids_nonzero r = true /\ encode_buffer_request r = Ok (ty, b).
Proof.
  unfold parse_remote_buffer_request_payload, rb_typed, rb_ids_nonzero,
    encode_buffer_request, REMOTE_BUFFER_ALLOC_LEN, REMOTE_BUFFER_HANDLE_LEN,
    REMOTE_BUFFER_RANGE_PREFIX_LEN. intros H.
  destruct (if (ty =? 1) || (ty =? 4) then _ else _) as [n|] eqn:Gn; [|done].
  assert (Hn : len b = n -> (ty = 3 -> 64 <= len b <= MAX_LOGICAL_MESSAGE) /\
    (ty = 1 \/ ty = 4 -> length b = 64%nat) /\
    (ty = 6 \/ ty = 7 \/ ty = 8 -> length b = 48%nat)).
  { clear H. unfold in_range in Gn. intros Hn. bool_hyps.
    repeat case_match; simplify_eq; bool_hyps; split_and?; intros;
      try lia; apply length_len; lia. }
  clear Gn. codec_open H; bool_hyps; specialize (Hn ltac:(done)) as (Hb3 & Hb14 & Hb678);
    subst r; cbn [rb_lease_id rb_worker_incarnation_id];
    repeat match goal with H : nonzero _ = true |- _ => rewrite H; clear H end;
    cbn [negb orb andb].
  4-6: (specialize (Hb678 ltac:(lia)); split; [split_and!; apply length_slice; lia|];
    split; [done|]; slice_glue; rewrite slice_all by done; psimpl;
    unfold len; rewrite Hb678; subst ty; done).
  - specialize (Hb14 ltac:(lia)). destruct (AllocationFlags_from_bits _) eqn:Ea in *;
      [|done]. cbn [ok_or] in *.
    match goal with H : Ok _ = Ok _ |- _ => apply Ok_inj in H; subst end.
    assert (t = read_u32 b 56) as -> by (unfold AllocationFlags_from_bits in Ea; case_match; congruence).
    split; [split_and!; try (apply length_slice; lia); unfold flags_typed;
      split_and?; try apply (read_uw b); lia || done|]. split; [done|].
    match goal with H : slice b 60 4 = _ |- _ => rewrite <- H end.
    unfold read_u32, read_u64. slice_glue. rewrite slice_all by done. psimpl.
    unfold len. rewrite Hb14. done.
  - specialize (Hb3 ltac:(lia)). split; [split_and!; try (apply length_slice; unfold len in *; lia);
      apply (read_uw b); unfold len in *; lia|]. split; [done|].
    assert (Hd : len (drop 64 b) = len b - 64) by (unfold len in *; rewrite length_drop; lia).
    rewrite Hd, (proj2 (Z.ltb_ge _ _)), as_u32_id by
      (unfold MAX_PUT_BODY, MAX_LOGICAL_MESSAGE, REMOTE_BUFFER_RANGE_PREFIX_LEN in *; lia).
    match goal with H : slice b 60 4 = _ |- _ => rewrite <- H end.
    match goal with H : read_u32 b 56 = _ |- _ => rewrite <- H end.
    unfold read_u32, read_u64. unfold len in Hb3.
    rewrite <- !app_assoc. slice_glue. psimpl. rewrite drop_0.
    rewrite (proj2 (Z.ltb_ge _ _)) by (unfold len; lia). subst ty. done.
  - specialize (Hb14 ltac:(lia)).
    split; [split_and!; try (apply length_slice; lia); apply (read_uw b); lia|].
    split; [done|].
    match goal with H : slice b 60 4 = _ |- _ => rewrite <- H end.
    unfold read_u32, read_u64. slice_glue. rewrite slice_all by done. psimpl.
    unfold len. rewrite Hb14. subst ty. done.
Qed.

(** Read back a 48-byte handle request. *)
Ltac handle_read :=
  cbn [Z.leb Z.compare Pos.compare Pos.compare_cont andb]; cbv iota;
  match goal with |- context [negb (?x =? 48)] =>
    assert (x = 48) as -> by (unfold len; len_solve) end; zconst; slice_read;
  repeat match goal with H : nonzero _ = true |- _ => rewrite H end; done.

Lemma parse_buffer_request_complete ty b r :
  rb_typed r -> rb_ids_nonzero r = true -> encode_buffer_request r = Ok (ty, b) ->
  parse_remote_buffer_request_payload ty b = Ok r.
Proof.
  intros (Hl & Hw & Ht) Hz H. unfold rb_ids_nonzero in Hz. bool_hyps.
  unfold encode_buffer_request in H. codec_open H. subst t. cbn [snd] in *. bool_hyps.
  unfold parse_remote_buffer_request_payload, REMOTE_BUFFER_ALLOC_LEN,
    REMOTE_BUFFER_HANDLE_LEN, REMOTE_BUFFER_RANGE_PREFIX_LEN, in_range.
  destruct r as [l w i n a|l w i o d|l w i o n|l w i|l w i|l w i];
    cbn [rb_lease_id rb_worker_incarnation_id] in *;
    codec_open G; apply pair_equal_spec in G as [<- <-]; bool_hyps; zconst; rewrite <- !app_assoc in *.
  - destruct Ht as (? & ? & [? Ha]).
    match goal with |- context [negb (?x =? 64)] =>
      assert (x = 64) as -> by (unfold len; len_solve) end.
    zconst. unfold read_u32, read_u64. slice_read. be_read.
    repeat match goal with H : nonzero _ = true |- _ => rewrite H end. cbn [negb orb].
    rewrite bool_decide_true, Ha by done. done.
  - destruct Ht as (? & ?). unfold MAX_PUT_BODY, MAX_LOGICAL_MESSAGE,
      REMOTE_BUFFER_RANGE_PREFIX_LEN in *.
    assert (Hlen : len (l ++ w ++ i ++ to_be 8 o ++ to_be 4 (as_u32 (len d)) ++ zeros 4 ++ d)
             = 64 + len d) by (unfold len; len_solve).
    assert (0 <= len d) by (unfold len; lia).
    rewrite Hlen. repeat rewrite (proj2 (Z.ltb_ge _ _)) by lia. cbn [orb].
    rewrite Z.eqb_refl. unfold read_u32, read_u64. rewrite as_u32_id in * by lia.
    cbn [negb]. slice_read. be_read.
    repeat match goal with H : nonzero _ = true |- _ => rewrite H end. cbn [negb orb].
    rewrite bool_decide_true by done. rewrite (proj2 (Z.eqb_eq _ _)) by lia.
    rewrite (proj2 (Z.ltb_ge _ _)) by lia. done.
  - destruct Ht as (? & ? & ?).
    match goal with |- context [negb (?x =? 64)] =>
      assert (x = 64) as -> by (unfold len; len_solve) end.
    zconst. unfold read_u32, read_u64. slice_read. be_read.
    repeat match goal with H : nonzero _ = true |- _ => rewrite H end. cbn [negb orb].
    rewrite bool_decide_true by done. done.
  - handle_read.
  - handle_read.
  - handle_read.
Qed.

(** REMOTE_BUFFER request payloads.  The parser accepts a byte string as a
    request of a message type exactly when the encoder produces it from the
    request: allocation flags, ranges and PUT bodies survive the wire, and the
    declared length is always the length of the body. *)
Lemma buffer_request_payload_bijective ty b r :
  parse_remote_buffer_request_payload ty b = Ok r <->
  rb_typed r /\ rb_ids_nonzero r = true /\ encode_buffer_request r = Ok (ty, b).
Proof.
  split; [apply parse_buffer_request_sound|].
  intros (Ht & Hz & H). by apply parse_buffer_request_complete.
Qed.

(** ** Result payloads *)

Lemma flags_bits b : AllocationFlags_from_bits b = Some b \/ AllocationFlags_from_bits b = None.
Proof. unfold AllocationFlags_from_bits. case_match; auto. Qed.

(** What a parsed buffer reference says about the five fields it is read from. *)
Definition buffer_fields (b : list byte) (o : option BufferResultRef) : Prop :=
  match o with Some r => br_typed r | None => True end /\
  read_u8 b 1 = u8_of_bool (is_some o) /\
  slice b 36 16 = match o with Some r => br_buffer_id r | None => zeros 16 end /\
  read_u8 b 69 = match o with Some r => BufferState_as_u8 (br_state r) | None => 0 end /\
  read_u32 b 72 = match o with Some r => br_allocation_flags r | None => 0 end /\
  read_u64 b 76 = match o with Some r => br_size_bytes r | None => 0 end /\
  read_u32 b 96 = match o with Some r => br_ttl_remaining_ms r | None => 0 end.

Lemma read_u8_bool b k : (k < length b)%nat -> read_u8 b k <= 1 -> read_u8 b k <> 0 ->
  read_u8 b k = 1.
Proof.
  intros Hk H1 H0. pose proof (read_uw b k 1 ltac:(lia)) as Hr.
  unfold uw, read_u8 in *. lia.
Qed.

Lemma validate_data_len k r :
  validate_buffer_result k r = Ok tt ->
  len (bf_data r) <= MAX_DATA_BODY /\
  (k = Bk_Data -> bf_data_len r = len (bf_data r)) /\
  (k <> Bk_Data -> len (bf_data r) = 0).
Proof.
  unfold validate_buffer_result. intros H. assert (0 <= len (bf_data r)) by (unfold len; lia).
  ok_inv H; bool_hyps; destruct k; bool_hyps;
    split_and!; intros; try congruence; try lia;
    unfold MAX_DATA_BODY, MAX_LOGICAL_MESSAGE, REMOTE_BUFFER_RESULT_PREFIX_LEN in *; lia.
Qed.

Lemma parse_buffer_result_sound k b r :
  parse_remote_buffer_result_payload k b = Ok r ->
  bf_typed r /\ encode_buffer_result k r = Ok b.
Proof.
  unfold parse_remote_buffer_result_payload, REMOTE_BUFFER_RESULT_PREFIX_LEN. intros H.
  codec_open H. subst r. bool_hyps.
  assert (Hl : (100 <= length b)%nat) by (unfold len in *; lia).
  match goal with H : read_u8 b 1 <= 1 |- _ => rename H into Hp1 end.
  match goal with H : read_u8 b 52 <= 1 |- _ => rename H into Hp52 end.
  assert (Hb : buffer_fields b t1).
  { clear -G3 Hl Hp1. unfold buffer_fields. codec_open G3; subst t1; bool_hyps.
    - done.
    - destruct (flags_bits (read_u32 b 72)) as [Ha|Ha]; rewrite Ha in *; [|done].
      cbn [ok_or] in *. simplify_eq. split_and!; try done.
      + split; [apply length_slice; lia|]. split; [split; [apply (read_uw b); lia|done]|].
        split; apply (read_uw b); lia.
      + apply read_u8_bool; done || lia.
      + symmetry. exact (bstate_as_try _ _ G0). }
  assert (Hr : match t2 with Some i => length i = 16%nat | None => True end /\
    read_u8 b 52 = u8_of_bool (is_some t2) /\
    slice b 53 16 = match t2 with Some i => i | None => zeros 16 end).
  { clear -G4 Hl Hp52. codec_open G4; subst t2; bool_hyps; [done|]. split_and!; [| |done].
    - apply length_slice; lia.
    - apply read_u8_bool; done || lia. }
  destruct Hb as (Hbt & Hb1 & Hb2 & Hb3 & Hb4 & Hb5 & Hb6), Hr as (Hrt & Hr1 & Hr2).
  split; [unfold bf_typed; split_and!; simpl; try done; try (apply length_slice; lia);
          apply (read_uw b); lia|].
  unfold encode_buffer_result. rewrite G5.
  cbn [bf_completed bf_reason bf_lease_id bf_worker_incarnation_id bf_buffer bf_reservation_id
       bf_offset bf_data_len bf_data].
  assert (Ec : (if t then 2 else 3) = read_u8 b 0)
    by (repeat case_match; simplify_eq; bool_hyps; congruence).
  rewrite Ec, (breason_as_try _ _ G1), <- Hb1, <- Hb2, <- Hb3, <- Hb4, <- Hb5, <- Hb6,
    <- Hr1, <- Hr2.
  match goal with H : slice b 70 2 = _ |- _ => rewrite <- H end.
  unfold read_u8, read_u16, read_u32, read_u64. f_equal. slice_glue. apply drop_0.
Qed.

Lemma encode_buffer_result_len k r b :
  bf_typed r -> encode_buffer_result k r = Ok b -> len b = 100 + len (bf_data r).
Proof.
  intros (Hl & Hw & Hb & Hr & _) H. unfold encode_buffer_result in H. codec_open H. subst b.
  unfold len. destruct (bf_buffer r) as [f|]; [destruct Hb as (? & _)|];
    destruct (bf_reservation_id r); len_solve.
Qed.

Lemma parse_buffer_result_complete k b r :
  bf_typed r -> encode_buffer_result k r = Ok b ->
  parse_remote_buffer_result_payload k b = Ok r.
Proof.
  intros Ht H. pose proof (encode_buffer_result_len k r b Ht H) as Hlen.
  destruct Ht as (Hl & Hw & Hb & Hr & Ho & Hd).
  unfold encode_buffer_result in H. codec_open H.
  destruct t. destruct (validate_data_len k r G) as (Hmax & Hdata & Hnone).
  unfold parse_remote_buffer_result_payload, REMOTE_BUFFER_RESULT_PREFIX_LEN.
  assert (0 <= len (bf_data r)) by (unfold len; lia).
  rewrite Hlen. rewrite (proj2 (Z.ltb_ge _ _)) by lia.
  rewrite (proj2 (Z.ltb_ge MAX_LOGICAL_MESSAGE _)) by
    (unfold MAX_DATA_BODY, REMOTE_BUFFER_RESULT_PREFIX_LEN in Hmax; lia).
  replace (100 + len (bf_data r) - 100) with (len (bf_data r)) by lia.
  assert (Hg : forall x, x = bf_data_len r ->
    bool_decide (k = Bk_Data) && negb (x =? len (bf_data r))
    || negb (bool_decide (k = Bk_Data)) && negb (len (bf_data r) =? 0) = false).
  { intros x ->. case_bool_decide; simpl; rewrite orb_false_iff || idtac;
      [rewrite Hdata, Z.eqb_refl by done|rewrite Hnone by done]; done. }
  pose proof (breason_u16 (bf_reason r)). unfold read_u8, read_u16, read_u32, read_u64.
  subst b. destruct r as [c rs l w [[bi s a n ttl]|] [rid|] o dl d];
    cbn [bf_completed bf_reason bf_lease_id bf_worker_incarnation_id bf_buffer
       bf_reservation_id bf_offset bf_data_len bf_data is_some u8_of_bool br_buffer_id
       br_state br_allocation_flags br_size_bytes br_ttl_remaining_ms] in *;
    try (destruct Hb as (? & [? Ha] & ? & ?));
    cbn [br_buffer_id br_state br_allocation_flags br_size_bytes br_ttl_remaining_ms] in *;
    try pose proof (bstate_u8 s);
    slice_read; be_read; rewrite ?be_val_zeros, breason_try_as, ?bstate_try_as, ?Ha;
    zconst; rewrite (Hg dl) by done; rewrite ?bool_decide_true by done; cbn [negb orb ok_or];
    cbv iota; destruct c; cbv iota; rewrite be_val_to_be by done; zconst; rewrite G; done.
Qed.

(** REMOTE_BUFFER result payloads.  The parser accepts a byte string as a
    result of a kind exactly when the encoder produces it from that result. *)
Lemma buffer_result_payload_bijective k b r :
  parse_remote_buffer_result_payload k b = Ok r <->
  bf_typed r /\ encode_buffer_result k r = Ok b.
Proof.
  split; [apply parse_buffer_result_sound|].
  intros [Ht H]. by apply parse_buffer_result_complete.
Qed.
