(* ===== verification/Delivery.v ===== *)
(** * Delivery of REMOTE_BUFFER messages through fragmentation and reassembly

    Joins the builders of [BufferWire] to the receiver of [Reassembly]: the frames
    a builder emits are well-formed PBMUX frames, pass the per-fragment profile
    test and, fed in order to a [Reassembler] with room, come out as the one
    payload that parses back to the message. *)

From Stdlib Require Import ZArith Lia.
From stdpp Require Import base tactics list gmap.
From S2P Require Import Prelude Types Pbmux Reassembly Codec BufferWire.

(** ** Fragmentation and reassembly *)

Import Accounting Reassembler.

Lemma FRAGMENT_pos : Z.of_nat FRAGMENT = MAX_PBMUX_PAYLOAD.
Proof. unfold FRAGMENT. by rewrite Z2Nat.id. Qed.
#[global] Opaque FRAGMENT.

Lemma chunks_concat fuel n l :
  (0 < n)%nat -> (length l <= fuel)%nat -> concat (chunks_fuel fuel n l) = l.
Proof.
  intros Hn. revert l. induction fuel as [|fuel IH]; intros [|x l] Hl; try done;
    [simpl in Hl; lia|]. cbn [chunks_fuel concat].
  rewrite IH by (rewrite length_drop; simpl in *; lia). apply take_drop.
Qed.

Lemma chunks_bound fuel n l :
  (0 < n)%nat -> Forall (fun c => 0 < length c <= n)%nat (chunks_fuel fuel n l).
Proof.
  intros Hn. revert l. induction fuel as [|fuel IH]; intros [|x l]; cbn [chunks_fuel];
    constructor; [|done]. rewrite length_take. simpl. lia.
Qed.

Lemma chunks_count fuel n l :
  (0 < n)%nat -> (length l <= fuel)%nat ->
  Z.of_nat (length (chunks_fuel fuel n l)) = div_ceil (len l) (Z.of_nat n).
Proof.
  intros Hn. revert l. unfold div_ceil, len.
  induction fuel as [|fuel IH]; intros [|x l] Hl; try (simpl in Hl; lia);
    cbn [chunks_fuel length]; try (rewrite Z.div_small; simpl; lia).
  rewrite Nat2Z.inj_succ, IH by (rewrite length_drop; simpl in *; lia).
  rewrite length_drop. cbn [length].
  destruct (decide (S (length l) <= n)%nat) as [Hle|Hgt].
  - replace (S (length l) - n)%nat with 0%nat by lia.
    rewrite (Z.div_small (Z.of_nat 0 + _ - 1)) by lia.
    apply Z.div_unique with (r := Z.of_nat (S (length l)) - 1); lia.
  - replace (Z.of_nat (S (length l)) + Z.of_nat n - 1)
      with (Z.of_nat (S (length l) - n) + Z.of_nat n - 1 + 1 * Z.of_nat n) by lia.
    rewrite Z.div_add by lia. lia.
Qed.

Section Fragments.
Context (flags_at : Z -> Z) (ty rid first total : Z).

(** The frame the builders emit for chunk number [i]. *)
Definition fragment (i : nat) (c : list byte) : Frame := mkFrame {|
  channel := Ch_RemoteBuffer; flags := flags_at (Z.of_nat i); message_type := ty;
  request_id := rid; sequence := first + Z.of_nat i; fragment_index := Z.of_nat i;
  payload_len := len c;
  logical_message_len := if (i =? 0)%nat then total else 0 |} c.

Fixpoint fragments (i : nat) (cs : list (list byte)) : list Frame :=
  match cs with [] => [] | c :: rest => fragment i c :: fragments (S i) rest end.

Lemma length_fragments cs i : length (fragments i cs) = length cs.
Proof. revert i. induction cs; intros; simpl; congruence. Qed.

Lemma fragment_frames_ok cs i :
  Forall (fun c => 0 <= len c <= MAX_PBMUX_PAYLOAD) cs -> 0 <= total < 2 ^ 32 ->
  Z.of_nat i + Z.of_nat (length cs) < 2 ^ 32 ->
  first + Z.of_nat i + Z.of_nat (length cs) <= 2 ^ 64 ->
  fragment_frames flags_at ty rid first total i cs = Ok (fragments i cs).
Proof.
  intros Hc Ht. revert i. induction Hc as [|c cs [Hc0 Hc] _ IH]; intros i Hi Hs; [done|].
  cbn [fragment_frames fragments length] in *. unfold checked_add64, U64_MAX.
  rewrite (proj2 (Z.leb_le _ _)) by lia. rewrite IH by lia.
  unfold MAX_PBMUX_PAYLOAD in Hc. rewrite !as_u32_id by lia. done.
Qed.

(** What the receiver needs of the flag choice for a message of [count] frames. *)
Record flags_ok (count : Z) (ack : bool) : Prop := {
  fo_start i : 0 <= i < count -> has_flag (flags_at i) FLAG_START = (i =? 0);
  fo_end i : 0 <= i < count -> has_flag (flags_at i) FLAG_END = (i + 1 =? count);
  fo_ack i : 0 <= i < count -> Z.land (flags_at i) FLAG_ACK_REQUIRED = ack_bits ack;
}.

(** The continuation fragments complete the stored partial message. *)
Lemma run_continuation count ack cs i s p acc :
  flags_ok count ack -> cs <> [] -> (0 < i)%nat ->
  Z.of_nat i + Z.of_nat (length cs) = count -> count <= U32_MAX ->
  partial s !! (Ch_RemoteBuffer, rid) = Some p ->
  p_message_type p = ty -> ack_required p = ack -> expected_fragment p = Z.of_nat i ->
  len (p_payload p) + len (concat cs) = expected_len p ->
  finish (accounting s) (ticket p) = Some acc ->
  Reassembler.run s (fragments i cs) =
    Some (Reassembler.mk acc (delete (Ch_RemoteBuffer, rid) (partial s)),
          replicate (length cs - 1) (Ok None) ++ [Ok (Some (p_payload p ++ concat cs))]).
Proof.
  intros Hf. revert i s p. induction cs as [|c cs IH]; [done|].
  intros i s p _ Hi Hcount Hmax Hp Hty Hack Hexp Hlen Hfin.
  cbn [fragments concat length Reassembler.run] in *. unfold Reassembler.accept.
  cbn [fragment header payload channel request_id flags message_type fragment_index].
  rewrite (fo_start _ _ Hf), (fo_end _ _ Hf), (fo_ack _ _ Hf) by lia.
  rewrite (proj2 (Z.eqb_neq (Z.of_nat i) 0)) by lia. cbn [andb]. rewrite Hp, Hty, Hack, Hexp.
  rewrite !Z.eqb_refl. cbn [negb orb].
  assert (Hcat : len (c ++ concat cs) = len c + len (concat cs)) by (unfold len; len_solve).
  assert (0 <= len (concat cs)) by (unfold len; lia).
  rewrite (proj2 (Z.ltb_ge _ _)) by lia.
  rewrite (proj2 (Z.ltb_ge U32_MAX _)) by lia.
  cbn [expected_len ticket p_payload accounting partial].
  destruct cs as [|c' cs].
  - cbn [length] in Hcount. rewrite (proj2 (Z.eqb_eq _ _)) by lia. cbn [negb].
    assert (Hl : len (p_payload p ++ c) = expected_len p).
    { unfold len in *. rewrite length_app. simpl in *. lia. }
    rewrite Hl, Z.eqb_refl. cbn [negb]. rewrite Hfin. simpl.
    by rewrite delete_insert_eq, app_nil_r.
  - rewrite (proj2 (Z.eqb_neq _ _)) by (cbn [length] in Hcount; lia). cbn [negb mbind option_bind].
    set (p' := mkPartial _ _ _ _ _ _).
    set (s' := Reassembler.mk _ _).
    assert (Hp' : partial s' !! (Ch_RemoteBuffer, rid) = Some p') by apply lookup_insert_eq.
    rewrite (IH (S i) s' p'); try done; try (cbn [length] in *; lia).
    + unfold s', p'. cbn [partial p_payload length].
      rewrite delete_insert_eq, <- app_assoc.
      replace (S (S (length cs)) - 1)%nat with (S (S (length cs) - 1)) by lia. done.
    + unfold p'. cbn [expected_fragment]. lia.
    + unfold p', len in *. cbn [p_payload expected_len]. rewrite length_app in *. lia.
Qed.

(** Releasing a ticket right after admitting it restores the accounting. *)
Lemma finish_try_start a c n acc tk :
  length (channel_bytes a) = 6%nat -> length (channel_count a) = 6%nat ->
  0 <= at_ch (channel_bytes a) c -> 0 <= at_ch (channel_count a) c ->
  0 <= session_bytes a -> 0 <= n ->
  try_start a c n = (acc, Ok tk) -> finish acc tk = Some a.
Proof.
  intros Hb Hc H1 H2 H3 Hn H. unfold try_start in H. repeat case_match; simplify_eq.
  unfold checked_add64 in *. repeat case_match; simplify_eq.
  unfold finish. cbn [t_channel t_bytes channel_bytes channel_count session_bytes].
  rewrite !at_ch_insert, !bool_decide_true by done. unfold checked_sub.
  rewrite (proj2 (Z.leb_le _ _)) by lia. cbn [mbind option_bind].
  rewrite (proj2 (Z.leb_le _ _)) by lia. cbn [mbind option_bind].
  rewrite (proj2 (Z.leb_le _ _)) by lia. cbn [mbind option_bind].
  rewrite !list_insert_insert_eq. destruct a as [cb cc sb]. cbn in *. do 2 f_equal.
  - apply list_insert_id. unfold at_ch. rewrite nth_lookup.
    destruct (lookup_lt_is_Some_2 cb (idx c)) as [x Hx]; [rewrite Hb; apply idx_lt|].
    rewrite Hx. simpl. f_equal. lia.
  - apply list_insert_id. unfold at_ch. rewrite nth_lookup.
    destruct (lookup_lt_is_Some_2 cc (idx c)) as [x Hx]; [rewrite Hc; apply idx_lt|].
    rewrite Hx. simpl. f_equal. lia.
  - lia.
Qed.
End Fragments.

(** ** Whole messages *)

(** Room in the reassembler for one more message of any legal size. *)
Definition has_room (s : Reassembler.t) (c : Channel) : Prop :=
  at_ch (channel_count (accounting s)) c < count_limit c /\
  at_ch (channel_bytes (accounting s)) c + MAX_LOGICAL_MESSAGE <= MAX_REASSEMBLY_PER_CHANNEL /\
  session_bytes (accounting s) + MAX_LOGICAL_MESSAGE <= MAX_REASSEMBLY_PER_SESSION.

Lemma inv_accounting_nonneg s c : Inv s ->
  0 <= at_ch (channel_bytes (accounting s)) c /\
  0 <= at_ch (channel_count (accounting s)) c /\ 0 <= session_bytes (accounting s).
Proof.
  intros Hi. rewrite (inv_bytes s Hi), (inv_count s Hi), (inv_session s Hi).
  split_and!; apply msum_nonneg; intros k p Hk; by apply (inv_w_nonneg s k p c Hi Hk).
Qed.

Lemma room_try_start s c n : Inv s -> has_room s c -> 0 <= n <= MAX_LOGICAL_MESSAGE ->
  exists acc, try_start (accounting s) c n = (acc, Ok (mkTicket c n)).
Proof.
  intros Hi (H1 & H2 & H3) Hn. unfold try_start.
  destruct (inv_accounting_nonneg s c Hi) as (? & ? & ?).
  unfold MAX_REASSEMBLY_PER_CHANNEL, MAX_REASSEMBLY_PER_SESSION, MAX_LOGICAL_MESSAGE in *.
  rewrite (proj2 (Z.ltb_ge _ _)) by lia. unfold checked_add64, U64_MAX.
  rewrite !(proj2 (Z.leb_le _ (2 ^ 64 - 1))) by lia.
  rewrite (proj2 (Z.leb_gt _ _)) by lia. rewrite !(proj2 (Z.ltb_ge _ _)) by lia.
  by eexists.
Qed.

(** The fragments of a payload reassemble to it and leave the state unchanged. *)
Lemma run_fragments flags_at ty rid first b ack s :
  let cs := chunks FRAGMENT b in
  flags_ok flags_at (Z.of_nat (length cs)) ack ->
  Inv s -> partial s !! (Ch_RemoteBuffer, rid) = None -> has_room s Ch_RemoteBuffer ->
  0 < len b <= MAX_LOGICAL_MESSAGE ->
  Z.of_nat (length cs) <= U32_MAX ->
  Reassembler.run s (fragments flags_at ty rid first (len b) 0 cs) =
    Some (s, replicate (length cs - 1) (Ok None) ++ [Ok (Some b)]).
Proof.
  intros cs Hf Hi Hk Hroom Hb Hcount.
  pose proof FRAGMENT_pos as HF. unfold MAX_PBMUX_PAYLOAD in HF.
  assert (Hcat : concat cs = b) by (apply chunks_concat; lia).
  clearbody cs. destruct cs as [|c cs]; [rewrite <- Hcat in Hb; unfold len in Hb; simpl in Hb; lia|].
  cbn [fragments Reassembler.run]. unfold Reassembler.accept.
  cbn [fragment header payload channel request_id flags message_type fragment_index
       logical_message_len Nat.eqb].
  assert (H0 : 0 <= Z.of_nat 0 < Z.of_nat (length (c :: cs))) by (cbn [length]; lia).
  rewrite (fo_start _ _ _ Hf), (fo_end _ _ _ Hf) by exact H0.
  change (Z.of_nat 0 =? 0) with true. cbn [andb]. rewrite Hk, bool_decide_false by (by intros []).
  cbn [concat] in Hcat. destruct cs as [|c' cs].
  - cbn [length]. change (Z.of_nat 0 + 1 =? Z.of_nat 1) with true. cbv iota.
    cbn [mbind option_bind Reassembler.run]. simpl in Hcat. rewrite app_nil_r in Hcat.
    by subst c.
  - rewrite (proj2 (Z.eqb_neq _ _)) by (cbn [length]; lia). cbv iota.
    destruct (room_try_start s Ch_RemoteBuffer (len b) Hi Hroom ltac:(lia)) as (acc & Hts).
    rewrite Hts. cbn [mbind option_bind].
    destruct (inv_accounting_nonneg s Ch_RemoteBuffer Hi) as (? & ? & ?).
    set (p := mkPartial _ _ _ _ _ _). set (s1 := Reassembler.mk _ _).
    assert (Hp : partial s1 !! (Ch_RemoteBuffer, rid) = Some p) by apply lookup_insert_eq.
    assert (Hack : ack_required p = ack).
    { unfold p. cbn [ack_required]. unfold has_flag. rewrite (fo_ack _ _ _ Hf) by exact H0.
      by destruct ack. }
    assert (Hlen : len (p_payload p) + len (concat (c' :: cs)) = expected_len p).
    { unfold p. cbn [p_payload expected_len]. rewrite <- Hcat.
      unfold len. rewrite length_app. lia. }
    assert (Hfin : finish (accounting s1) (ticket p) = Some (accounting s)).
    { apply (finish_try_start (accounting s) Ch_RemoteBuffer (len b)); try lia;
        [apply (inv_len_b s Hi)|apply (inv_len_c s Hi)|exact Hts]. }
    rewrite (run_continuation _ _ _ _ _ _ _ (c' :: cs) 1 s1 p (accounting s) Hf
      ltac:(discriminate) ltac:(lia) ltac:(cbn [length]; lia) Hcount Hp eq_refl Hack eq_refl
      Hlen Hfin).
    unfold s1, p. cbn [partial p_payload length]. rewrite delete_insert_id by done.
    rewrite Hcat. replace (S (S (length cs)) - 1)%nat with (S (S (length cs) - 1)) by lia.
    by destruct s.
Qed.

Lemma fragments_forall (P : Frame -> Prop) flags_at ty rid first total cs i :
  (forall j c, cs !! j = Some c -> P (fragment flags_at ty rid first total (i + j) c)) ->
  Forall P (fragments flags_at ty rid first total i cs).
Proof.
  revert i. induction cs as [|c cs IH]; intros i H; [constructor|].
  cbn [fragments]. constructor.
  - specialize (H 0%nat c eq_refl). by rewrite Nat.add_0_r in H.
  - apply IH. intros j c' Hj. specialize (H (S j) c' Hj). by rewrite Nat.add_succ_r in H.
Qed.

(** The shape of the chunks of a legal payload. *)
Record chunked (b : list byte) (cs : list (list byte)) : Prop := {
  ck_count : 1 <= Z.of_nat (length cs) <= 69;
  ck_ceil : Z.of_nat (length cs) = div_ceil (len b) MAX_PBMUX_PAYLOAD;
  ck_bound j c : cs !! j = Some c -> 0 < len c <= MAX_PBMUX_PAYLOAD;
  ck_one c : cs !! 0%nat = Some c -> Z.of_nat (length cs) = 1 -> c = b;
  ck_many c : cs !! 0%nat = Some c -> Z.of_nat (length cs) <> 1 -> len c < len b;
}.

Lemma chunks_chunked b :
  0 < len b <= MAX_LOGICAL_MESSAGE -> chunked b (chunks FRAGMENT b).
Proof.
  intros Hb. pose proof FRAGMENT_pos as HF. unfold MAX_PBMUX_PAYLOAD in HF.
  assert (HF0 : (0 < FRAGMENT)%nat) by lia.
  pose proof (chunks_count (length b) FRAGMENT b HF0 ltac:(lia)) as Hc.
  pose proof (chunks_concat (length b) FRAGMENT b HF0 ltac:(lia)) as Hcat.
  pose proof (chunks_bound (length b) FRAGMENT b HF0) as Hbd. rewrite Forall_lookup in Hbd.
  fold (chunks FRAGMENT b) in *. rewrite HF in *.
  assert (Hb' : forall j c, chunks FRAGMENT b !! j = Some c -> 0 < len c <= 61440).
  { intros j c Hj. specialize (Hbd j c Hj). unfold len. lia. }
  constructor; [|done|exact Hb'|..].
  - rewrite Hc. unfold div_ceil, MAX_LOGICAL_MESSAGE in *. split.
    + apply Z.div_le_lower_bound; lia.
    + assert ((len b + 61440 - 1) / 61440 < 70); [|lia]. apply Z.div_lt_upper_bound; lia.
  - intros c Hc0 H1. clear -Hcat Hc0 H1.
    destruct (chunks FRAGMENT b) as [|c' [|]]; simpl in *; [done| |lia].
    rewrite app_nil_r in Hcat. congruence.
  - intros c Hc0 H1. clear -Hcat Hc0 H1 Hb'.
    destruct (chunks FRAGMENT b) as [|c1 [|c2 cs]]; simpl in *; [done..|].
    specialize (Hb' 1%nat c2 eq_refl). injection Hc0 as ->.
    rewrite <- Hcat. unfold len in *. rewrite !length_app. lia.
Qed.

(** Every flag word a builder uses is known and has the right framing bits. *)
Lemma request_flags_ok count : 1 <= count ->
  flags_ok (request_flags count) count true.
Proof.
  intros Hc. constructor; intros i Hi; unfold request_flags;
    repeat case_match; bool_hyps; try (exfalso; lia);
    destruct (Z.eqb_spec i 0), (Z.eqb_spec (i + 1) count); try lia; reflexivity.
Qed.

Lemma result_flags_ok count : 1 <= count ->
  flags_ok (result_flags count) count false.
Proof.
  intros Hc. constructor; intros i Hi; unfold result_flags;
    repeat case_match; bool_hyps; try (exfalso; lia);
    destruct (Z.eqb_spec i 0), (Z.eqb_spec (i + 1) count); try lia; reflexivity.
Qed.

Lemma fragment_wf flags_at ty rid first b cs ack :
  flags_ok flags_at (Z.of_nat (length cs)) ack ->
  (forall i, uw 16 (flags_at i) /\ Z.land (flags_at i) (not16 KNOWN_FLAGS) = 0) ->
  in_range 1 8 ty = true -> uw 64 rid -> 0 <= first -> first + 69 <= 2 ^ 64 ->
  0 < len b <= MAX_LOGICAL_MESSAGE -> chunked b cs ->
  forall j c, cs !! j = Some c -> frame_wf (fragment flags_at ty rid first (len b) j c).
Proof.
  intros Hf Hk Hty Hrid Hfirst Hseq Hb Hcs j c Hj.
  destruct (ck_bound _ _ Hcs j c Hj) as [Hc0 Hc1]. pose proof (ck_count _ _ Hcs) as Hn.
  pose proof (lookup_lt_Some _ _ _ Hj) as Hlt.
  unfold MAX_LOGICAL_MESSAGE, MAX_PBMUX_PAYLOAD in *. pose proof Hty as Hty'.
  unfold in_range in Hty'. bool_hyps.
  constructor; cbn [fragment header payload payload_len flags channel message_type].
  - constructor; cbn; try apply Hk; unfold uw in *; try lia. case_match; lia.
  - done.
  - unfold MAX_PBMUX_PAYLOAD. lia.
  - apply Hk.
  - exact Hty.
  - unfold fragment_ok. cbn [flags logical_message_len fragment_index payload_len].
    rewrite (fo_start _ _ _ Hf), (fo_end _ _ _ Hf) by lia. unfold MAX_LOGICAL_MESSAGE.
    destruct j as [|j]; cbn [Nat.eqb].
    + change (Z.of_nat 0 =? 0) with true. cbv iota. split; [lia|]. split; [done|].
      destruct (Z.eqb_spec (Z.of_nat 0 + 1) (Z.of_nat (length cs))) as [E|E].
      * f_equal. symmetry. apply (ck_one _ _ Hcs); [done|lia].
      * apply (ck_many _ _ Hcs); [done|lia].
    + rewrite (proj2 (Z.eqb_neq _ _)) by lia. cbv iota. lia.
Qed.

(** ** Requests *)

Lemma encode_request_shape r ty b :
  rb_typed r -> encode_buffer_request r = Ok (ty, b) ->
  48 <= len b <= MAX_LOGICAL_MESSAGE /\
  (ty = 3 \/ (ty = 1 \/ ty = 4) /\ len b = 64 \/ (ty = 6 \/ ty = 7 \/ ty = 8) /\ len b = 48).
Proof.
  intros (Hl & Hw & Ht) H. unfold encode_buffer_request in H. codec_open H. subst.
  cbn [snd] in *. bool_hyps.
  destruct r as [l w i n a|l w i o d|l w i o n|l w i|l w i|l w i];
    cbn [rb_lease_id rb_worker_incarnation_id] in *; codec_open G;
    apply pair_equal_spec in G as [<- <-];
    match type of Ht with length _ = _ => idtac | _ => destruct Ht as [Ht _] end;
    match goal with H : len ?x <= _ |- _ => remember (len x) as n' eqn:E end;
    unfold len in E; rewrite ?length_app, ?length_to_be, ?length_zeros, ?Hl, ?Hw, ?Ht in E;
    lia.
Qed.

Lemma div_ceil_one n : 0 < n <= MAX_PBMUX_PAYLOAD -> div_ceil n MAX_PBMUX_PAYLOAD = 1.
Proof.
  intros H. unfold div_ceil. symmetry. apply Z.div_unique with (r := n - 1); lia.
Qed.

Lemma request_flags_known count i :
  uw 16 (request_flags count i) /\
  Z.land (request_flags count i) (not16 KNOWN_FLAGS) = 0.
Proof. unfold request_flags. repeat case_match; done. Qed.

Lemma request_fragment_valid ty rid first b cs :
  rid <> 0 -> chunked b cs -> len b <= MAX_LOGICAL_MESSAGE ->
  (ty = 3 \/ (ty = 1 \/ ty = 4) /\ len b = 64 \/ (ty = 6 \/ ty = 7 \/ ty = 8) /\ len b = 48) ->
  forall j c, cs !! j = Some c ->
  validate_remote_buffer_request_fragment
    (fragment (request_flags (Z.of_nat (length cs))) ty rid first (len b) j c) = Ok tt.
Proof.
  intros Hrid Hcs Hb Hty j c Hj. unfold validate_remote_buffer_request_fragment.
  cbn [fragment header payload channel request_id message_type flags fragment_index
       payload_len logical_message_len].
  rewrite bool_decide_true by done. rewrite (proj2 (Z.eqb_neq rid 0)) by done. cbn [negb orb].
  pose proof (lookup_lt_Some _ _ _ Hj). pose proof (ck_count _ _ Hcs).
  destruct Hty as [->|Hty].
  - zconst. pose proof (ck_one _ _ Hcs) as H1. pose proof (ck_many _ _ Hcs) as H2.
    unfold request_flags. destruct j as [|j]; cbn [Nat.eqb].
    + change (Z.of_nat 0 =? 0) with true. specialize (H1 c Hj). specialize (H2 c Hj).
      destruct (Z.eqb_spec (Z.of_nat (length cs)) 1) as [E|E];
        cbn -[len Z.ltb Z.leb MAX_LOGICAL_MESSAGE].
      * rewrite (H1 E). by rewrite (Z.eqb_refl (len b)).
      * rewrite (proj2 (Z.leb_gt _ _)) by auto. by rewrite (proj2 (Z.ltb_ge _ _)).
    + rewrite (proj2 (Z.eqb_neq (Z.of_nat (length cs)) 1)) by lia.
      rewrite (proj2 (Z.eqb_neq (Z.of_nat (S j)) 0)) by lia. destruct (Z.of_nat (S j) + 1 =? Z.of_nat (length cs)); reflexivity.
  - assert (E1 : Z.of_nat (length cs) = 1).
    { rewrite (ck_ceil _ _ Hcs). apply div_ceil_one. unfold MAX_PBMUX_PAYLOAD. lia. }
    destruct j as [|j]; [|lia]. rewrite (ck_one _ _ Hcs c Hj E1), E1.
    unfold request_flags, REMOTE_BUFFER_ALLOC_LEN, REMOTE_BUFFER_HANDLE_LEN.
    destruct Hty as [([-> | ->] & ->)|([-> | [-> | ->]] & ->)]; done.
Qed.

(** Delivery of requests.  A well-formed ALLOC, PUT, GET, FREE, STAT or TOUCH
    request always builds; the frames (at most 69) are PBMUX frames that pass the
    request profile; and a receiver with room that sees them in order answers
    nothing until the last one, then hands out one payload that parses back to the
    request, with its reassembly state as before. *)
Lemma buffer_request_delivery r rid first s :
  rb_typed r -> rb_ids_nonzero r = true -> is_ok (encode_buffer_request r) = true ->
  0 < rid < 2 ^ 64 -> 0 <= first -> first + 69 <= 2 ^ 64 ->
  Inv s -> partial s !! (Ch_RemoteBuffer, rid) = None -> has_room s Ch_RemoteBuffer ->
  exists ty b frames,
    build_remote_buffer_request_frames r rid first = Ok frames /\
    (1 <= length frames <= 69)%nat /\
    Forall (fun f => frame_wf f /\ message_type (header f) = ty /\
                     validate_remote_buffer_request_fragment f = Ok tt) frames /\
    Reassembler.run s frames =
      Some (s, replicate (length frames - 1) (Ok None) ++ [Ok (Some b)]) /\
    parse_remote_buffer_request_payload ty b = Ok r.
Proof.
  intros Ht Hz He Hrid Hf Hfs Hi Hk Hroom.
  destruct (encode_buffer_request r) as [[ty b]|] eqn:E; [|done].
  destruct (encode_request_shape r ty b Ht E) as [Hb Hty].
  pose proof (chunks_chunked b ltac:(lia)) as Hcs. pose proof (ck_count _ _ Hcs) as Hn.
  set (fl := request_flags (Z.of_nat (length (chunks FRAGMENT b)))).
  assert (Hfl : flags_ok fl (Z.of_nat (length (chunks FRAGMENT b))) true)
    by (apply request_flags_ok; lia).
  exists ty, b, (fragments fl ty rid first (len b) 0 (chunks FRAGMENT b)).
  rewrite length_fragments. split_and!.
  - unfold build_remote_buffer_request_frames, rb_ids_nonzero in *. bool_hyps.
    rewrite (proj2 (Z.eqb_neq rid 0)) by lia. rewrite H, H0, E. cbn [negb orb fst snd].
    rewrite <- (ck_ceil _ _ Hcs).
    assert ((1 <? Z.of_nat (length (chunks FRAGMENT b))) && negb (ty =? 3) = false) as ->.
    { destruct (Z.eqb_spec ty 3); [by rewrite andb_false_r|].
      rewrite (ck_ceil _ _ Hcs), div_ceil_one by (unfold MAX_PBMUX_PAYLOAD; lia). done. }
    unfold MAX_LOGICAL_MESSAGE in Hb. apply fragment_frames_ok; try lia.
    apply Forall_lookup_2. intros j c Hj. pose proof (ck_bound _ _ Hcs j c Hj). lia.
  - lia.
  - lia.
  - apply fragments_forall. intros j c Hj. rewrite Nat.add_0_l. split_and!; [|done|].
    + eapply fragment_wf; [exact Hfl|apply request_flags_known|..|exact Hj]; try done; try lia.
      * unfold in_range. destruct Hty as [->|[([-> | ->] & _)|([-> | [-> | ->]] & _)]]; done.
      * unfold uw. lia.
    + apply request_fragment_valid; lia || done.
  - eapply run_fragments; [exact Hfl|..]; try done; try lia. unfold U32_MAX. lia.
  - by apply parse_buffer_request_complete.
Qed.

(** A PUT of 70000 bytes, which needs two frames. *)
Definition big_put : RemoteBufferRequest :=
  Rb_Put (replicate 16 Byte.x01) (replicate 16 Byte.x02) (replicate 16 Byte.x03) 0
    (replicate (Z.to_nat 70000) Byte.x5a).

Lemma buffer_request_delivery_witness :
  exists ty b frames,
    build_remote_buffer_request_frames big_put 7 0 = Ok frames /\
    (1 <= length frames <= 69)%nat /\
    Forall (fun f => frame_wf f /\ message_type (header f) = ty /\
                     validate_remote_buffer_request_fragment f = Ok tt) frames /\
    Reassembler.run Reassembler.default frames =
      Some (Reassembler.default,
            replicate (length frames - 1) (Ok None) ++ [Ok (Some b)]) /\
    parse_remote_buffer_request_payload ty b = Ok big_put.
Proof.
  apply (buffer_request_delivery big_put 7 0 Reassembler.default);
    [repeat split; done|vm_compute; reflexivity|vm_compute; reflexivity|lia..
    |apply inv_default|apply lookup_empty|split_and!; vm_compute; reflexivity || discriminate].
Defined.

(** ** Results *)

Lemma encode_result_shape k r b :
  bf_typed r -> encode_buffer_result k r = Ok b ->
  100 <= len b <= MAX_LOGICAL_MESSAGE /\ (k = Bk_Data \/ len b = 100).
Proof.
  intros Ht H. pose proof (encode_buffer_result_len k r b Ht H) as Hl.
  unfold encode_buffer_result in H. codec_open H. match type of G with _ = Ok ?u => destruct u end.
  destruct (validate_data_len k r G) as (Hm & _ & Hn).
  unfold MAX_DATA_BODY, REMOTE_BUFFER_RESULT_PREFIX_LEN in Hm.
  assert (0 <= len (bf_data r)) by (unfold len; lia).
  split; [lia|]. destruct (decide (k = Bk_Data)); [by left|right]. rewrite Hl, Hn by done. lia.
Qed.

Lemma result_flags_known count i :
  uw 16 (result_flags count i) /\ Z.land (result_flags count i) (not16 KNOWN_FLAGS) = 0.
Proof. unfold result_flags. repeat case_match; done. Qed.

Lemma result_fragment_valid k rid first b cs :
  rid <> 0 -> chunked b cs -> len b <= MAX_LOGICAL_MESSAGE -> (k = Bk_Data \/ len b = 100) ->
  forall j c, cs !! j = Some c ->
  validate_remote_buffer_result_fragment
    (fragment (result_flags (Z.of_nat (length cs))) (buffer_message_type k) rid first (len b)
       j c) = Ok tt.
Proof.
  intros Hrid Hcs Hb Hk j c Hj. unfold validate_remote_buffer_result_fragment.
  cbn [fragment header payload channel request_id message_type flags fragment_index
       payload_len logical_message_len].
  rewrite bool_decide_true by done. rewrite (proj2 (Z.eqb_neq rid 0)) by done. cbn [negb orb].
  pose proof (lookup_lt_Some _ _ _ Hj). pose proof (ck_count _ _ Hcs).
  destruct (decide (k = Bk_Data)) as [->|Hne].
  - cbn [buffer_message_type]. pose proof (ck_one _ _ Hcs) as H1.
    pose proof (ck_many _ _ Hcs) as H2. change (in_range 5 8 5) with true. zconst.
    unfold result_flags. destruct j as [|j]; cbn [Nat.eqb].
    + change (Z.of_nat 0 =? 0) with true. specialize (H1 c Hj). specialize (H2 c Hj).
      destruct (Z.eqb_spec (Z.of_nat (length cs)) 1) as [E|E].
      * rewrite (H1 E). by rewrite (Z.eqb_refl (len b)).
      * rewrite (proj2 (Z.leb_gt _ _)) by auto. by rewrite (proj2 (Z.ltb_ge _ _)).
    + rewrite (proj2 (Z.eqb_neq (Z.of_nat (length cs)) 1)) by lia.
      rewrite (proj2 (Z.eqb_neq (Z.of_nat (S j)) 0)) by lia.
      destruct (Z.of_nat (S j) + 1 =? Z.of_nat (length cs)); reflexivity.
  - destruct Hk as [|Hl]; [done|]. assert (E1 : Z.of_nat (length cs) = 1).
    { rewrite (ck_ceil _ _ Hcs). apply div_ceil_one. unfold MAX_PBMUX_PAYLOAD. lia. }
    destruct j as [|j]; [|lia]. rewrite (ck_one _ _ Hcs c Hj E1), E1.
    unfold result_flags, REMOTE_BUFFER_RESULT_PREFIX_LEN. rewrite Hl. by destruct k.
Qed.

(** Delivery of results.  Every result the worker may encode builds; its
    frames are PBMUX frames that pass the result profile, and a receiver with room
    that sees them in order hands out one payload, which parses back to the result
    for its kind. *)
Lemma buffer_result_delivery k r rid first s :
  bf_typed r -> is_ok (encode_buffer_result k r) = true ->
  0 < rid < 2 ^ 64 -> 0 <= first -> first + 69 <= 2 ^ 64 ->
  Inv s -> partial s !! (Ch_RemoteBuffer, rid) = None -> has_room s Ch_RemoteBuffer ->
  exists b frames,
    build_remote_buffer_result_frames k r rid first = Ok frames /\
    (1 <= length frames <= 69)%nat /\
    Forall (fun f => frame_wf f /\ message_type (header f) = buffer_message_type k /\
                     validate_remote_buffer_result_fragment f = Ok tt) frames /\
    Reassembler.run s frames =
      Some (s, replicate (length frames - 1) (Ok None) ++ [Ok (Some b)]) /\
    parse_remote_buffer_result_payload k b = Ok r.
Proof.
  intros Ht He Hrid Hf Hfs Hi Hk Hroom.
  destruct (encode_buffer_result k r) as [b|] eqn:E; [|done].
  destruct (encode_result_shape k r b Ht E) as [Hb Hty].
  pose proof (chunks_chunked b ltac:(lia)) as Hcs. pose proof (ck_count _ _ Hcs) as Hn.
  set (fl := result_flags (Z.of_nat (length (chunks FRAGMENT b)))).
  assert (Hfl : flags_ok fl (Z.of_nat (length (chunks FRAGMENT b))) false)
    by (apply result_flags_ok; lia).
  exists b, (fragments fl (buffer_message_type k) rid first (len b) 0 (chunks FRAGMENT b)).
  rewrite length_fragments. split_and!.
  - unfold build_remote_buffer_result_frames.
    rewrite (proj2 (Z.eqb_neq rid 0)) by lia. rewrite E.
    rewrite (proj2 (Z.ltb_ge _ _)) by lia. cbn [orb].
    assert ((MAX_PBMUX_PAYLOAD <? len b) && negb (bool_decide (k = Bk_Data)) = false) as ->.
    { destruct Hty as [->|Hl]; [by rewrite bool_decide_true, andb_false_r|].
      rewrite (proj2 (Z.ltb_ge _ _)) by (unfold MAX_PBMUX_PAYLOAD; lia). done. }
    rewrite <- (ck_ceil _ _ Hcs). unfold MAX_LOGICAL_MESSAGE in Hb.
    apply fragment_frames_ok; try lia.
    apply Forall_lookup_2. intros j c Hj. pose proof (ck_bound _ _ Hcs j c Hj). lia.
  - lia.
  - lia.
  - apply fragments_forall. intros j c Hj. rewrite Nat.add_0_l. split_and!; [|done|].
    + eapply fragment_wf; [exact Hfl|apply result_flags_known|..|exact Hj]; try done; try lia.
      * by destruct k.
      * unfold uw. lia.
    + apply result_fragment_valid; lia || done.
  - eapply run_fragments; [exact Hfl|..]; try done; try lia. unfold U32_MAX. lia.
  - by apply parse_buffer_result_complete.
Qed.

(** A DATA result that carries 70000 bytes. *)
Definition big_data : BufferResult := {|
  bf_completed := true; bf_reason := Br_None; bf_lease_id := replicate 16 Byte.x01;
  bf_worker_incarnation_id := replicate 16 Byte.x02;
  bf_buffer := Some (mkBufferResultRef (replicate 16 Byte.x03) Bs_Ready NONE 70000 300000);
  bf_reservation_id := None; bf_offset := 0; bf_data_len := 70000;
  bf_data := replicate (Z.to_nat 70000) Byte.x5a |}.

Lemma buffer_result_delivery_witness :
  exists b frames,
    build_remote_buffer_result_frames Bk_Data big_data 7 0 = Ok frames /\
    (1 <= length frames <= 69)%nat /\
    Forall (fun f => frame_wf f /\ message_type (header f) = buffer_message_type Bk_Data /\
                     validate_remote_buffer_result_fragment f = Ok tt) frames /\
    Reassembler.run Reassembler.default frames =
      Some (Reassembler.default,
            replicate (length frames - 1) (Ok None) ++ [Ok (Some b)]) /\
    parse_remote_buffer_result_payload Bk_Data b = Ok big_data.
Proof.
  apply (buffer_result_delivery Bk_Data big_data 7 0 Reassembler.default);
    [repeat split; done|vm_compute; reflexivity|lia..
    |apply inv_default|apply lookup_empty|split_and!; vm_compute; reflexivity || discriminate].
Defined.
