(* ===== verification/Wire.v ===== *)
(** * Every message survives the wire

    The parsers of all application messages against their builders, in one statement:
    what [Control], [ResourceWire], [ComputeWire] and [BufferWire] prove message by
    message. *)

From Stdlib Require Import ZArith.
From stdpp Require Import base tactics list.
From S2P Require Import Prelude Types Pbmux Codec Control ResourceWire ComputeWire BufferWire.

(** A parser that accepts exactly what the builder makes of a message whose fields fit. *)
Definition exactly_built {M} (parsed typed built : M -> Prop) : Prop :=
  forall m, parsed m <-> typed m /\ built m.

(** C33: For each of the ten kinds of application message, the parser accepts a frame (or,
    for the fragmented remote-buffer messages, a reassembled payload) as a message
    exactly when the builder produces it from that message.  So a message survives the
    wire unchanged, only canonical encodings are accepted, and both ends enforce the
    same rules: identifiers, ranges, lengths and cross-field conditions. *)
Theorem messages_bijective f b :
  let rid := request_id (header f) in
  let n := sequence (header f) in
  exactly_built (fun p => parse_command_frame f = Ok p) Command.typed
    (fun p => build_command_frame p rid n = Ok f) /\
  exactly_built (fun p => parse_command_ack_frame f = Ok p) Ack.typed
    (fun p => build_command_ack_frame p rid n = Ok f) /\
  exactly_built (fun p => parse_heartbeat_frame f = Ok p) Heartbeat.typed
    (fun p => build_heartbeat_frame p n = Ok f) /\
  exactly_built (fun r => parse_resource_request_frame f = Ok r) rr_typed
    (fun r => build_resource_request_frame r rid n = Ok f) /\
  (forall k, exactly_built (fun r => parse_resource_result_frame f = Ok (k, r)) rs_typed
     (fun r => build_resource_result_frame k r rid n = Ok f)) /\
  exactly_built (fun m => parse_expire_notification_frame f = Ok m) en_typed
    (fun m => build_expire_notification_frame m n = Ok f) /\
  exactly_built (fun r => parse_compute_request_frame f = Ok r) cq_typed
    (fun r => build_compute_request_frame r rid n = Ok f) /\
  exactly_built (fun r => parse_compute_response_frame f = Ok r) cx_typed
    (fun r => build_compute_response_frame r rid n = Ok f) /\
  (forall ty, exactly_built (fun r => parse_remote_buffer_request_payload ty b = Ok r)
     (fun r => rb_typed r /\ rb_ids_nonzero r = true)
     (fun r => encode_buffer_request r = Ok (ty, b))) /\
  (forall k, exactly_built (fun r => parse_remote_buffer_result_payload k b = Ok r) bf_typed
     (fun r => encode_buffer_result k r = Ok b)).
Proof.
  unfold exactly_built. split_and!; intros;
    [apply command_frame_bijective|apply command_ack_frame_bijective|
     apply heartbeat_frame_bijective|apply resource_request_bijective|
     apply resource_result_bijective|apply expire_notification_bijective|
     apply compute_request_bijective|apply compute_response_bijective|
     rewrite buffer_request_payload_bijective; tauto|apply buffer_result_payload_bijective].
Qed.
