(* ===== verification/Lease.v ===== *)
(** * pb-worker-core, controller lease

    Models [crates/pb-worker-core/src/lease.rs] ([ControllerLeaseManager], the
    single-writer C07 authority) and [random_nonzero_128] of
    [crates/pb-worker-core/src/lib.rs].

    The monotonic clock reading [now_ms] and the entropy of one call are explicit
    arguments.  [VecDeque] is a list with its front at the head, [BTreeSet] a
    [gset].  The operations that exist only under [cfg(test)] are left out.

    The theorems refine the manager, whose memory is a cache of 256 terminal
    results and one released lease, to [LeaseSpec], where a lease carries the
    unbounded log of the results of its commands. *)

From Stdlib Require Import ZArith Lia.
From stdpp Require Import base tactics list gmap.
From S2P Require Import Prelude Types.

(** ** Operating-system entropy *)

(** What [/dev/urandom] does during one call: [None] when it cannot be opened,
    otherwise the outcome of each [read_exact] of 16 bytes. *)
Definition Entropy : Type := option (nat -> option (list byte)).

Definition RANDOM_ID_BYTES : nat := 16.
Definition MAX_ZERO_RETRIES : nat := 8.

(** The loop [for _ in 0..MAX_ZERO_RETRIES]; [k] is the number of the read. *)
Fixpoint draw_nonzero (reads : nat -> option (list byte)) (k fuel : nat) :
    result (list byte) unit :=
  match fuel with
  | O => Err tt
  | S fuel' =>
      match reads k with
      | None => Err tt
      | Some bytes => if nonzero bytes then Ok bytes else draw_nonzero reads (S k) fuel'
      end
  end.

Definition random_nonzero_128 (source : Entropy) : result (list byte) unit :=
  match source with
  | None => Err tt
  | Some reads => draw_nonzero reads 0 MAX_ZERO_RETRIES
  end.

(** Every read fills its 16-byte array. *)
Definition entropy_typed (source : Entropy) : Prop :=
  match source with
  | None => True
  | Some reads => forall k b, reads k = Some b -> length b = RANDOM_ID_BYTES
  end.

Lemma draw_nonzero_spec reads fuel k id :
  (forall k b, reads k = Some b -> length b = RANDOM_ID_BYTES) ->
  draw_nonzero reads k fuel = Ok id -> length id = RANDOM_ID_BYTES /\ nonzero id = true.
Proof.
  intros Ht. revert k. induction fuel as [|fuel IH]; intros k H; [done|].
  cbn [draw_nonzero] in H. destruct (reads k) as [b|] eqn:E; [|done].
  destruct (nonzero b) eqn:Eb; [|eauto]. apply Ok_inj in H. subst. eauto.
Qed.

Lemma random_nonzero_128_spec source id :
  entropy_typed source -> random_nonzero_128 source = Ok id ->
  length id = RANDOM_ID_BYTES /\ nonzero id = true.
Proof. destruct source as [reads|]; [|done]. apply draw_nonzero_spec. Qed.

Definition LEASE_TTL_MS : Z := 60000.
Definition RECOMMENDED_RENEWAL_MS : Z := 20000.
Definition TERMINAL_CACHE_CAPACITY : Z := 256.
Definition PENDING_MUTATION_CAPACITY : Z := 32.

Definition LeaseId : Type := list byte.
Definition PeerId : Type := list byte.
Definition WorkerIncarnationId : Type := list byte.

Inductive LeaseState : Type := Ls_Free | Ls_Active | Ls_Revoking | Ls_Expired.
Inductive LeaseTransition : Type :=
| FreeToActive | ActiveToRevoking | RevokingToFree | ActiveToExpired | ExpiredToFree.
Inductive LeaseError : Type := StaleLease.
Inductive TerminalCode : Type := Tc_Ok.

#[export] Instance TerminalCode_eq_dec : EqDecision TerminalCode.
Proof. solve_decision. Defined.

Inductive CommandAdmission : Type :=
| Ca_ExecuteOnce
| Ca_Replay (code : TerminalCode)
| Ca_DuplicateResultEvicted
| Ca_OutOfOrder (expected : Z)
| Ca_AlreadyPending
| Ca_PendingFull
| Ca_StaleLease
| Ca_SequenceExhausted.

(** The worker's view of a verified session: the peer it proves. *)
Record AuthenticatedSession : Type := mkSession { session_peer_id : PeerId }.

Inductive ControllerCommand : Type :=
| Cc_Acquire
| Cc_Renew (lease_id : LeaseId) (command_seq : Z)
| Cc_Release (lease_id : LeaseId) (command_seq : Z)
| Cc_Unsupported (command_seq : Z).

Inductive ControllerFailureReason : Type :=
| Cf_ControllerBusy
| Cf_StaleControllerLease
| Cf_OutOfOrder
| Cf_DuplicateResultEvicted
| Cf_UnsupportedMessage.

Record ControllerLeaseRef : Type := mkLeaseRef {
  lr_lease_id : LeaseId;
  lr_worker_incarnation_id : WorkerIncarnationId;
  lr_ttl_remaining_ms : Z;
  lr_next_command_seq : Z;
}.

Inductive ControllerCommandResult : Type :=
| Cmd_Completed (command_seq : Z) (lease : option ControllerLeaseRef)
| Cmd_Failed (command_seq : Z) (reason : ControllerFailureReason)
    (expected_next_seq : option Z).

Inductive ControllerCommandError : Type := Ce_EntropyUnavailable | Ce_InternalInvariant.

Record LeaseProof : Type := mkProof {
  pf_lease_id : LeaseId;
  pf_incarnation : WorkerIncarnationId;
  pf_peer_id : PeerId;
}.

Record TerminalEntry : Type := mkTerminal {
  te_sequence : Z;
  te_code : TerminalCode;
  te_lease : option ControllerLeaseRef;
}.

Record ActiveLease : Type := mkActive {
  al_id : LeaseId;
  al_peer_id : PeerId;
  al_incarnation : WorkerIncarnationId;
  al_acquired_at_ms : Z;
  al_expires_at_ms : Z;
  al_next_command_sequence : Z;
  al_pending : gset Z;
  al_terminal : list TerminalEntry;
  al_evicted_through : option Z;
}.

(** ** The manager *)

Module LeaseManager.

Record t : Type := mk {
  incarnation : WorkerIncarnationId;
  active : option ActiveLease;
  state : LeaseState;
  last_transition : option LeaseTransition;
  released : option ActiveLease;
}.

Definition new (incarnation : WorkerIncarnationId) : t :=
  mk incarnation None Ls_Free None None.

(** [find(|entry| entry.sequence == sequence)] *)
Definition find_terminal (l : list TerminalEntry) (sequence : Z) : option TerminalEntry :=
  List.find (fun e => te_sequence e =? sequence) l.

(** [evicted_through.is_some_and(|evicted| sequence <= evicted)] *)
Definition evicted (a : ActiveLease) (sequence : Z) : bool :=
  match al_evicted_through a with Some e => sequence <=? e | None => false end.

(** [lease_ref]; its [debug_assert!] is the invariant [lease_times] below. *)
Definition lease_ref (a : ActiveLease) (now_ms : Z) : ControllerLeaseRef := {|
  lr_lease_id := al_id a;
  lr_worker_incarnation_id := al_incarnation a;
  lr_ttl_remaining_ms := as_u32 (sat_sub (al_expires_at_ms a) now_ms);
  lr_next_command_seq := al_next_command_sequence a |}.

Definition expire_if_needed (m : t) (now_ms : Z) : t * option LeaseId :=
  let expired :=
    match active m with
    | Some a => if al_expires_at_ms a <=? now_ms then Some (al_id a) else None
    | None => None
    end in
  if is_some expired then
    (mk (incarnation m) None Ls_Free (Some ExpiredToFree) (released m), expired)
  else (m, expired).

Definition validate (m : t) (session : AuthenticatedSession) (lease_id : LeaseId)
    (now_ms : Z) : t * result LeaseProof LeaseError :=
  let m := fst (expire_if_needed m now_ms) in
  match active m with
  | None => (m, Err StaleLease)
  | Some a =>
      if negb (bool_decide (al_id a = lease_id))
         || negb (bool_decide (al_peer_id a = session_peer_id session))
         || negb (bool_decide (al_incarnation a = incarnation m))
      then (m, Err StaleLease)
      else (m, Ok (mkProof lease_id (al_incarnation a) (al_peer_id a)))
  end.

Definition set_active (m : t) (a : ActiveLease) : t :=
  mk (incarnation m) (Some a) (state m) (last_transition m) (released m).

Definition begin_mutation_internal (m : t) (session : AuthenticatedSession)
    (lease_id : LeaseId) (sequence now_ms : Z) : t * CommandAdmission :=
  match validate m session lease_id now_ms with
  | (m, Err _) => (m, Ca_StaleLease)
  | (m, Ok _) =>
      match active m with
      | None => (m, Ca_StaleLease)
      | Some a =>
          match find_terminal (al_terminal a) sequence with
          | Some entry => (m, Ca_Replay (te_code entry))
          | None =>
              if evicted a sequence then (m, Ca_DuplicateResultEvicted)
              else if bool_decide (sequence ∈ al_pending a) then (m, Ca_AlreadyPending)
              else if negb (sequence =? al_next_command_sequence a) then
                (m, Ca_OutOfOrder (al_next_command_sequence a))
              else if PENDING_MUTATION_CAPACITY <=? Z.of_nat (size (al_pending a)) then
                (m, Ca_PendingFull)
              else
                match checked_add64 (al_next_command_sequence a) 1 with
                | None => (m, Ca_SequenceExhausted)
                | Some next =>
                    (set_active m {|
                       al_id := al_id a;
                       al_peer_id := al_peer_id a;
                       al_incarnation := al_incarnation a;
                       al_acquired_at_ms := al_acquired_at_ms a;
                       al_expires_at_ms := al_expires_at_ms a;
                       al_next_command_sequence := next;
                       al_pending := {[sequence]} ∪ al_pending a;
                       al_terminal := al_terminal a;
                       al_evicted_through := al_evicted_through a |},
                     Ca_ExecuteOnce)
                end
          end
      end
  end.

Definition trim_terminal_cache (a : ActiveLease) : ActiveLease :=
  match al_terminal a with
  | front :: rest =>
      if TERMINAL_CACHE_CAPACITY <? Z.of_nat (length (al_terminal a)) then {|
        al_id := al_id a;
        al_peer_id := al_peer_id a;
        al_incarnation := al_incarnation a;
        al_acquired_at_ms := al_acquired_at_ms a;
        al_expires_at_ms := al_expires_at_ms a;
        al_next_command_sequence := al_next_command_sequence a;
        al_pending := al_pending a;
        al_terminal := rest;
        al_evicted_through := Some (te_sequence front) |}
      else a
  | [] => a
  end.

Definition complete_active (a : ActiveLease) (sequence : Z)
    (lease : option ControllerLeaseRef) : result ActiveLease ControllerCommandError :=
  if negb (bool_decide (sequence ∈ al_pending a)) then Err Ce_InternalInvariant
  else Ok (trim_terminal_cache {|
    al_id := al_id a;
    al_peer_id := al_peer_id a;
    al_incarnation := al_incarnation a;
    al_acquired_at_ms := al_acquired_at_ms a;
    al_expires_at_ms := al_expires_at_ms a;
    al_next_command_sequence := al_next_command_sequence a;
    al_pending := al_pending a ∖ {[sequence]};
    al_terminal := al_terminal a ++ [mkTerminal sequence Tc_Ok lease];
    al_evicted_through := al_evicted_through a |}).

Definition terminal_result (entry : TerminalEntry) : ControllerCommandResult :=
  match te_code entry with Tc_Ok => Cmd_Completed (te_sequence entry) (te_lease entry) end.

Definition failed_stale (command_seq : Z) : ControllerCommandResult :=
  Cmd_Failed command_seq Cf_StaleControllerLease None.

Definition released_admission (m : t) (session : AuthenticatedSession) (lease_id : LeaseId)
    (command_seq : Z) : ControllerCommandResult :=
  match released m with
  | None => failed_stale command_seq
  | Some r =>
      if bool_decide (al_id r = lease_id)
         && bool_decide (al_peer_id r = session_peer_id session)
         && bool_decide (al_incarnation r = incarnation m)
      then
        match find_terminal (al_terminal r) command_seq with
        | Some entry => terminal_result entry
        | None =>
            if evicted r command_seq then
              Cmd_Failed command_seq Cf_DuplicateResultEvicted None
            else failed_stale command_seq
        end
      else failed_stale command_seq
  end.

Definition result_from_admission (m : t) (admission : CommandAdmission) (command_seq : Z) :
    result ControllerCommandResult ControllerCommandError :=
  match admission with
  | Ca_Replay code =>
      match active m with
      | None => Err Ce_InternalInvariant
      | Some a =>
          match List.find (fun e => (te_sequence e =? command_seq)
                                    && bool_decide (te_code e = code)) (al_terminal a) with
          | None => Err Ce_InternalInvariant
          | Some entry => Ok (terminal_result entry)
          end
      end
  | Ca_DuplicateResultEvicted => Ok (Cmd_Failed command_seq Cf_DuplicateResultEvicted None)
  | Ca_OutOfOrder expected => Ok (Cmd_Failed command_seq Cf_OutOfOrder (Some expected))
  | Ca_StaleLease => Ok (failed_stale command_seq)
  | Ca_AlreadyPending | Ca_PendingFull | Ca_SequenceExhausted | Ca_ExecuteOnce =>
      Err Ce_InternalInvariant
  end.

(** [active.expires_at_ms = now_ms.saturating_add(LEASE_TTL_MS)] *)
Definition extend (a : ActiveLease) (now_ms : Z) : ActiveLease := {|
  al_id := al_id a;
  al_peer_id := al_peer_id a;
  al_incarnation := al_incarnation a;
  al_acquired_at_ms := al_acquired_at_ms a;
  al_expires_at_ms := sat_add64 now_ms LEASE_TTL_MS;
  al_next_command_sequence := al_next_command_sequence a;
  al_pending := al_pending a;
  al_terminal := al_terminal a;
  al_evicted_through := al_evicted_through a |}.

Definition apply_acquire (m : t) (session : AuthenticatedSession) (now_ms : Z)
    (entropy : Entropy) : t * result ControllerCommandResult ControllerCommandError :=
  let m := fst (expire_if_needed m now_ms) in
  match active m with
  | Some a =>
      (m, Ok (if bool_decide (al_peer_id a = session_peer_id session) then
                Cmd_Completed 0 (Some (lease_ref a now_ms))
              else Cmd_Failed 0 Cf_ControllerBusy None))
  | None =>
      match random_nonzero_128 entropy with
      | Err _ => (m, Err Ce_EntropyUnavailable)
      | Ok id =>
          let a := {|
            al_id := id;
            al_peer_id := session_peer_id session;
            al_incarnation := incarnation m;
            al_acquired_at_ms := now_ms;
            al_expires_at_ms := sat_add64 now_ms LEASE_TTL_MS;
            al_next_command_sequence := 0;
            al_pending := ∅;
            al_terminal := [];
            al_evicted_through := None |} in
          (mk (incarnation m) (Some a) Ls_Active (Some FreeToActive) None,
           Ok (Cmd_Completed 0 (Some (lease_ref a now_ms))))
      end
  end.

Definition apply_renew (m : t) (session : AuthenticatedSession) (lease_id : LeaseId)
    (command_seq now_ms : Z) : t * result ControllerCommandResult ControllerCommandError :=
  let m := fst (expire_if_needed m now_ms) in
  match validate m session lease_id now_ms with
  | (m, Err _) => (m, Ok (released_admission m session lease_id command_seq))
  | (m, Ok _) =>
      match begin_mutation_internal m session lease_id command_seq now_ms with
      | (m, Ca_ExecuteOnce) =>
          match active m with
          | None => (m, Err Ce_InternalInvariant)
          | Some a =>
              let a := extend a now_ms in
              let lease := lease_ref a now_ms in
              match complete_active a command_seq (Some lease) with
              | Err e => (set_active m a, Err e)
              | Ok a => (set_active m a, Ok (Cmd_Completed command_seq (Some lease)))
              end
          end
      | (m, admission) => (m, result_from_admission m admission command_seq)
      end
  end.

Definition apply_release (m : t) (session : AuthenticatedSession) (lease_id : LeaseId)
    (command_seq now_ms : Z) : t * result ControllerCommandResult ControllerCommandError :=
  let m := fst (expire_if_needed m now_ms) in
  match validate m session lease_id now_ms with
  | (m, Err _) => (m, Ok (released_admission m session lease_id command_seq))
  | (m, Ok _) =>
      match begin_mutation_internal m session lease_id command_seq now_ms with
      | (m, Ca_ExecuteOnce) =>
          match active m with
          | None => (m, Err Ce_InternalInvariant)
          | Some a =>
              match complete_active a command_seq None with
              | Err e => (m, Err e)
              | Ok a =>
                  (mk (incarnation m) None Ls_Free (Some RevokingToFree) (Some a),
                   Ok (Cmd_Completed command_seq None))
              end
          end
      | (m, admission) => (m, result_from_admission m admission command_seq)
      end
  end.

Definition apply_controller_command (m : t) (session : AuthenticatedSession)
    (command : ControllerCommand) (now_ms : Z) (entropy : Entropy) :
    t * result ControllerCommandResult ControllerCommandError :=
  match command with
  | Cc_Acquire => apply_acquire m session now_ms entropy
  | Cc_Renew lease_id command_seq => apply_renew m session lease_id command_seq now_ms
  | Cc_Release lease_id command_seq => apply_release m session lease_id command_seq now_ms
  | Cc_Unsupported command_seq =>
      (m, Ok (Cmd_Failed command_seq Cf_UnsupportedMessage None))
  end.

Definition current_for_session (m : t) (session : AuthenticatedSession) (now_ms : Z) :
    t * option ControllerLeaseRef :=
  let m := fst (expire_if_needed m now_ms) in
  (m, match active m with
      | Some a =>
          if bool_decide (al_peer_id a = session_peer_id session)
             && bool_decide (al_incarnation a = incarnation m)
          then Some (lease_ref a now_ms)
          else None
      | None => None
      end).

End LeaseManager.

(** ** Specification: a lease is a log

    A lease is its holder, its deadline and the results of all its commands so
    far, in order.  Command number [q] of a lease is executed when it is the next
    one, answered from the log when it is one of the last 256, and refused
    otherwise. *)

Module LeaseSpec.

Record lease : Type := mkLease {
  id : LeaseId;
  peer : PeerId;
  deadline : Z;
  log : list (option ControllerLeaseRef);
}.

Record t : Type := mk {
  incarnation : WorkerIncarnationId;
  holder : option lease;
  past : option lease;
}.

Definition init (incarnation : WorkerIncarnationId) : t := mk incarnation None None.

Definition next (l : lease) : Z := Z.of_nat (length (log l)).

(** What a holder is told about its lease. *)
Definition view (s : t) (l : lease) (now : Z) : ControllerLeaseRef :=
  mkLeaseRef (id l) (incarnation s) (as_u32 (sat_sub (deadline l) now)) (next l).

(** A lease is gone as soon as the clock reaches its deadline. *)
Definition expire (s : t) (now : Z) : t :=
  match holder s with
  | Some l => if deadline l <=? now then mk (incarnation s) None (past s) else s
  | None => s
  end.

Definition held_by (l : lease) (session : AuthenticatedSession) (lease_id : LeaseId) : bool :=
  bool_decide (id l = lease_id) && bool_decide (peer l = session_peer_id session).

(** Answer a command that was executed before: from the log if recent enough. *)
Definition recall (l : lease) (q : Z) : option ControllerCommandResult :=
  if (0 <=? q) && (q <? next l) then
    if next l - TERMINAL_CACHE_CAPACITY <=? q then
      r ← log l !! Z.to_nat q; Some (Cmd_Completed q r)
    else Some (Cmd_Failed q Cf_DuplicateResultEvicted None)
  else None.

Definition stale (q : Z) : ControllerCommandResult :=
  Cmd_Failed q Cf_StaleControllerLease None.

(** A command of a lease that is not (or no longer) held. *)
Definition not_held (s : t) (session : AuthenticatedSession) (lease_id : LeaseId) (q : Z) :
    ControllerCommandResult :=
  match past s with
  | Some l => if held_by l session lease_id then default (stale q) (recall l q) else stale q
  | None => stale q
  end.

Definition append (l : lease) (d : Z) (r : option ControllerLeaseRef) : lease :=
  mkLease (id l) (peer l) d (log l ++ [r]).

(** Renewing puts the deadline 60 s from now; the answer shows the new state. *)
Definition renew (s : t) (l : lease) (now : Z) : t * ControllerCommandResult :=
  let d := sat_add64 now LEASE_TTL_MS in
  let r := mkLeaseRef (id l) (incarnation s) (as_u32 (sat_sub d now)) (next l + 1) in
  (mk (incarnation s) (Some (append l d (Some r))) (past s),
   Cmd_Completed (next l) (Some r)).

Definition release (s : t) (l : lease) : t * ControllerCommandResult :=
  (mk (incarnation s) None (Some (append l (deadline l) None)), Cmd_Completed (next l) None).

Definition mutate (s : t) (session : AuthenticatedSession) (lease_id : LeaseId) (q now : Z)
    (execute : t -> lease -> t * ControllerCommandResult) : t * ControllerCommandResult :=
  let s := expire s now in
  match holder s with
  | Some l =>
      if held_by l session lease_id then
        match recall l q with
        | Some r => (s, r)
        | None =>
            if q =? next l then execute s l
            else (s, Cmd_Failed q Cf_OutOfOrder (Some (next l)))
        end
      else (s, not_held s session lease_id q)
  | None => (s, not_held s session lease_id q)
  end.

Definition acquire (s : t) (session : AuthenticatedSession) (now : Z) (entropy : Entropy) :
    t * result ControllerCommandResult ControllerCommandError :=
  let s := expire s now in
  match holder s with
  | Some l =>
      (s, Ok (if bool_decide (peer l = session_peer_id session) then
                Cmd_Completed 0 (Some (view s l now))
              else Cmd_Failed 0 Cf_ControllerBusy None))
  | None =>
      match random_nonzero_128 entropy with
      | Err _ => (s, Err Ce_EntropyUnavailable)
      | Ok i =>
          let l := mkLease i (session_peer_id session) (sat_add64 now LEASE_TTL_MS) [] in
          (mk (incarnation s) (Some l) None, Ok (Cmd_Completed 0 (Some (view s l now))))
      end
  end.

Definition command (s : t) (session : AuthenticatedSession) (c : ControllerCommand) (now : Z)
    (entropy : Entropy) : t * result ControllerCommandResult ControllerCommandError :=
  match c with
  | Cc_Acquire => acquire s session now entropy
  | Cc_Renew lease_id q =>
      let '(s, r) := mutate s session lease_id q now (fun s l => renew s l now) in (s, Ok r)
  | Cc_Release lease_id q =>
      let '(s, r) := mutate s session lease_id q now release in (s, Ok r)
  | Cc_Unsupported q => (s, Ok (Cmd_Failed q Cf_UnsupportedMessage None))
  end.

Definition validate (s : t) (session : AuthenticatedSession) (lease_id : LeaseId) (now : Z) :
    t * result LeaseProof LeaseError :=
  let s := expire s now in
  (s, match holder s with
      | Some l => if held_by l session lease_id
                  then Ok (mkProof lease_id (incarnation s) (peer l)) else Err StaleLease
      | None => Err StaleLease
      end).

Definition current (s : t) (session : AuthenticatedSession) (now : Z) :
    t * option ControllerLeaseRef :=
  let s := expire s now in
  (s, match holder s with
      | Some l => if bool_decide (peer l = session_peer_id session)
                  then Some (view s l now) else None
      | None => None
      end).

End LeaseSpec.

(** ** Operation sequences *)

(** Everything the worker asks of the manager. *)
Inductive LeaseOp : Type :=
| Lo_Command (session : AuthenticatedSession) (c : ControllerCommand) (now : Z) (e : Entropy)
| Lo_Current (session : AuthenticatedSession) (now : Z)
| Lo_Validate (session : AuthenticatedSession) (lease_id : LeaseId) (now : Z)
| Lo_Expire (now : Z).

Inductive LeaseOut : Type :=
| Lr_Command (r : result ControllerCommandResult ControllerCommandError)
| Lr_Current (r : option ControllerLeaseRef)
| Lr_Validate (r : result LeaseProof LeaseError)
| Lr_Expire.

Definition lm_step (m : LeaseManager.t) (o : LeaseOp) : LeaseManager.t * LeaseOut :=
  match o with
  | Lo_Command session c now e =>
      let '(m, r) := LeaseManager.apply_controller_command m session c now e in
      (m, Lr_Command r)
  | Lo_Current session now =>
      let '(m, r) := LeaseManager.current_for_session m session now in (m, Lr_Current r)
  | Lo_Validate session id now =>
      let '(m, r) := LeaseManager.validate m session id now in (m, Lr_Validate r)
  | Lo_Expire now => (fst (LeaseManager.expire_if_needed m now), Lr_Expire)
  end.

Definition spec_step (s : LeaseSpec.t) (o : LeaseOp) : LeaseSpec.t * LeaseOut :=
  match o with
  | Lo_Command session c now e =>
      let '(s, r) := LeaseSpec.command s session c now e in (s, Lr_Command r)
  | Lo_Current session now =>
      let '(s, r) := LeaseSpec.current s session now in (s, Lr_Current r)
  | Lo_Validate session id now =>
      let '(s, r) := LeaseSpec.validate s session id now in (s, Lr_Validate r)
  | Lo_Expire now => (LeaseSpec.expire s now, Lr_Expire)
  end.

Fixpoint run {S : Type} (step : S -> LeaseOp -> S * LeaseOut) (s : S) (os : list LeaseOp) :
    S * list LeaseOut :=
  match os with
  | [] => (s, [])
  | o :: os =>
      let '(s, r) := step s o in
      let '(s, rs) := run step s os in (s, r :: rs)
  end.

(** Command sequence numbers are [u64]. *)
Definition op_typed (o : LeaseOp) : Prop :=
  match o with
  | Lo_Command _ (Cc_Renew _ q) _ _ | Lo_Command _ (Cc_Release _ q) _ _ => 0 <= q
  | _ => True
  end.

(** ** The simulation relation *)

(** The cache that holds results [k], [k + 1], ... of a log. *)
Fixpoint number (k : Z) (l : list (option ControllerLeaseRef)) : list TerminalEntry :=
  match l with [] => [] | r :: l => mkTerminal k Tc_Ok r :: number (k + 1) l end.

(** How many of the [n] results have left the cache. *)
Definition dropped (n : nat) : nat := n - Z.to_nat TERMINAL_CACHE_CAPACITY.

Record rel_lease (inc : WorkerIncarnationId) (a : ActiveLease) (l : LeaseSpec.lease) : Prop := {
  rl_id : al_id a = LeaseSpec.id l;
  rl_peer : al_peer_id a = LeaseSpec.peer l;
  rl_inc : al_incarnation a = inc;
  rl_deadline : al_expires_at_ms a = LeaseSpec.deadline l;
  rl_next : al_next_command_sequence a = LeaseSpec.next l;
  rl_pending : al_pending a = ∅;
  rl_terminal : al_terminal a =
    number (Z.of_nat (dropped (length (LeaseSpec.log l))))
           (drop (dropped (length (LeaseSpec.log l))) (LeaseSpec.log l));
  rl_evicted : al_evicted_through a =
    if decide (dropped (length (LeaseSpec.log l)) = 0)%nat then None
    else Some (Z.of_nat (dropped (length (LeaseSpec.log l))) - 1);
}.

Definition rel_option (inc : WorkerIncarnationId) (a : option ActiveLease)
    (l : option LeaseSpec.lease) : Prop :=
  match a, l with
  | Some a, Some l => rel_lease inc a l
  | None, None => True
  | _, _ => False
  end.

Record rel (m : LeaseManager.t) (s : LeaseSpec.t) : Prop := {
  r_inc : LeaseManager.incarnation m = LeaseSpec.incarnation s;
  r_active : rel_option (LeaseSpec.incarnation s) (LeaseManager.active m) (LeaseSpec.holder s);
  r_past : rel_option (LeaseSpec.incarnation s) (LeaseManager.released m) (LeaseSpec.past s);
  r_state : LeaseManager.state m =
    if is_some (LeaseManager.active m) then Ls_Active else Ls_Free;
  r_one : LeaseManager.active m <> None -> LeaseManager.released m = None;
}.

Lemma number_app k l l' : number k (l ++ l') = number k l ++ number (k + Z.of_nat (length l)) l'.
Proof.
  revert k. induction l as [|r l IH]; intros k; simpl; [by rewrite Z.add_0_r|].
  rewrite IH. do 3 f_equal. lia.
Qed.

Lemma length_number k l : length (number k l) = length l.
Proof. revert k. induction l; intros; simpl; congruence. Qed.

(** Looking up a cached result by its sequence number. *)
Lemma find_number (f : TerminalEntry -> bool) k l q :
  (forall e, te_code e = Tc_Ok -> f e = (te_sequence e =? q)) -> k <= q ->
  List.find f (number k l) = mkTerminal q Tc_Ok <$> l !! Z.to_nat (q - k).
Proof.
  intros Hf. revert k. induction l as [|r l IH]; intros k Hk; cbn [number List.find]; [done|].
  rewrite Hf by done. cbn [te_sequence]. destruct (Z.eqb_spec k q) as [->|Hne].
  - rewrite Z.sub_diag. done.
  - rewrite IH by lia. replace (Z.to_nat (q - k)) with (S (Z.to_nat (q - (k + 1)))) by lia.
    done.
Qed.

Lemma find_number_below (f : TerminalEntry -> bool) k l q :
  (forall e, te_code e = Tc_Ok -> f e = (te_sequence e =? q)) -> q < k ->
  List.find f (number k l) = None.
Proof.
  intros Hf. revert k. induction l as [|r l IH]; intros k Hk; cbn [number List.find]; [done|].
  rewrite Hf by done. cbn [te_sequence]. rewrite (proj2 (Z.eqb_neq _ _)) by lia.
  apply IH. lia.
Qed.

(** [recall] is what the cache and the eviction mark answer. *)
Lemma recall_cache inc a l q : rel_lease inc a l -> 0 <= q ->
  LeaseSpec.recall l q =
    match LeaseManager.find_terminal (al_terminal a) q with
    | Some e => Some (LeaseManager.terminal_result e)
    | None => if LeaseManager.evicted a q
              then Some (Cmd_Failed q Cf_DuplicateResultEvicted None) else None
    end.
Proof.
  intros Hr Hq. unfold LeaseManager.find_terminal, LeaseManager.evicted.
  rewrite (rl_terminal _ _ _ Hr), (rl_evicted _ _ _ Hr).
  unfold LeaseSpec.recall, LeaseSpec.next. unfold dropped, TERMINAL_CACHE_CAPACITY.
  set (n := length (LeaseSpec.log l)). set (d := (n - Z.to_nat 256)%nat).
  rewrite (proj2 (Z.leb_le _ _)) by lia. cbn [andb].
  destruct (decide (q < Z.of_nat d)) as [Hlt|Hge].
  - rewrite (find_number_below _ _ _ q) by (done || lia). rewrite decide_False by lia.
    rewrite (proj2 (Z.ltb_lt _ _)) by lia. rewrite (proj2 (Z.leb_gt _ _)) by lia.
    by rewrite (proj2 (Z.leb_le _ _)) by lia.
  - rewrite (find_number _ _ _ q) by (done || lia). rewrite lookup_drop.
    replace (d + Z.to_nat (q - Z.of_nat d))%nat with (Z.to_nat q) by lia.
    destruct (Z.ltb_spec q (Z.of_nat n)) as [Hn|Hn].
    + rewrite (proj2 (Z.leb_le _ _)) by lia.
      destruct (lookup_lt_is_Some_2 (LeaseSpec.log l) (Z.to_nat q)) as [r Hr'].
      { change (length (LeaseSpec.log l)) with n. lia. }
      rewrite Hr'. done.
    + rewrite lookup_ge_None_2 by (change (length (LeaseSpec.log l)) with n; lia). simpl.
      destruct (decide (d = 0%nat)); [done|]. by rewrite (proj2 (Z.leb_gt _ _)) by lia.
Qed.

(** The cache window of a log followed by one more result. *)
Lemma number_window_snoc (log : list (option ControllerLeaseRef)) r k :
  (k <= length log)%nat ->
  number (Z.of_nat k) (drop k log) ++ [mkTerminal (Z.of_nat (length log)) Tc_Ok r] =
    number (Z.of_nat k) (drop k (log ++ [r])).
Proof.
  intros Hk. rewrite drop_app_le by lia. rewrite number_app. cbn [number].
  rewrite length_drop. do 3 f_equal. lia.
Qed.

(** Completing a command appends its result to the log. *)
Lemma complete_rel inc a l d r :
  rel_lease inc a l -> LeaseSpec.next l < U64_MAX ->
  exists a',
    LeaseManager.complete_active {|
      al_id := al_id a; al_peer_id := al_peer_id a; al_incarnation := al_incarnation a;
      al_acquired_at_ms := al_acquired_at_ms a; al_expires_at_ms := d;
      al_next_command_sequence := LeaseSpec.next l + 1;
      al_pending := {[LeaseSpec.next l]} ∪ al_pending a; al_terminal := al_terminal a;
      al_evicted_through := al_evicted_through a |} (LeaseSpec.next l) r = Ok a' /\
    rel_lease inc a' (LeaseSpec.append l d r).
Proof.
  intros Hr Hn. unfold LeaseManager.complete_active. cbn [al_pending].
  rewrite bool_decide_true by set_solver. cbn [negb]. eexists. split; [reflexivity|].
  destruct Hr as [H1 H2 H3 H4 H5 H6 H7 H8].
  assert (Hp : ({[LeaseSpec.next l]} ∪ al_pending a) ∖ {[LeaseSpec.next l]} = (∅ : gset Z))
    by (rewrite H6; set_solver).
  unfold LeaseManager.trim_terminal_cache.
  cbn [al_id al_peer_id al_incarnation al_acquired_at_ms al_expires_at_ms
       al_next_command_sequence al_pending al_terminal al_evicted_through].
  rewrite Hp, H7. unfold LeaseSpec.next, dropped, TERMINAL_CACHE_CAPACITY.
  set (n := length (LeaseSpec.log l)).
  pose proof (number_window_snoc (LeaseSpec.log l) r (n - Z.to_nat 256) ltac:(lia)) as Happ.
  fold n in Happ. rewrite Happ. clear Happ.
  assert (Hl2 : length (number (Z.of_nat (n - Z.to_nat 256))
    (drop (n - Z.to_nat 256) (LeaseSpec.log l ++ [r]))) = (S n - (n - Z.to_nat 256))%nat).
  { rewrite length_number, length_drop, length_app. simpl. fold n. lia. }
  destruct (decide (n < 256)%nat) as [Hlt|Hge].
  - replace (n - Z.to_nat 256)%nat with 0%nat in * by lia.
    rewrite Hl2, (proj2 (Z.ltb_ge _ _)) by lia.
    assert (Hsame : forall (x : list TerminalEntry) (y : ActiveLease),
      match x with [] => y | _ :: _ => y end = y) by (by intros []).
    rewrite Hsame.
    assert (Ed : dropped (length (LeaseSpec.log l ++ [r])) = 0%nat)
      by (unfold dropped, TERMINAL_CACHE_CAPACITY; rewrite length_app; simpl; lia).
    constructor; simpl; try done; rewrite ?Ed; try done.
    + unfold LeaseSpec.next. simpl. rewrite length_app. simpl. lia.
    + rewrite H8, decide_True by (unfold dropped, TERMINAL_CACHE_CAPACITY; lia). done.
  - destruct (lookup_lt_is_Some_2 (LeaseSpec.log l ++ [r]) (n - Z.to_nat 256)) as [x Hx];
      [rewrite length_app; change (length (LeaseSpec.log l)) with n; simpl; lia|].
    rewrite (drop_S _ x) in * by done. cbn [number] in *. rewrite Hl2.
    rewrite (proj2 (Z.ltb_lt _ _)) by lia.
    constructor; simpl; try done; unfold LeaseSpec.next, dropped, TERMINAL_CACHE_CAPACITY; simpl;
      rewrite ?length_app; simpl; try lia;
      change (length (LeaseSpec.log l)) with n;
      replace (n + 1 - Z.to_nat 256)%nat with (S (n - Z.to_nat 256)) by lia.
    + f_equal. lia.
    + rewrite decide_False by done. f_equal. lia.
Qed.

Lemma expire_rel m s now : rel m s ->
  rel (fst (LeaseManager.expire_if_needed m now)) (LeaseSpec.expire s now).
Proof.
  intros [Hi Ha Hp Hs Ho]. unfold LeaseManager.expire_if_needed, LeaseSpec.expire.
  destruct (LeaseManager.active m) as [a|] eqn:Ea, (LeaseSpec.holder s) as [l|] eqn:El;
    simpl in Ha; try done.
  - rewrite (rl_deadline _ _ _ Ha). destruct (_ <=? now); simpl;
      (constructor; simpl; rewrite ?Ea, ?El; done).
  - simpl. constructor; rewrite ?Ea, ?El; done.
Qed.

(** Expiry is idempotent at one clock reading. *)
Lemma expire_stable m now :
  fst (LeaseManager.expire_if_needed (fst (LeaseManager.expire_if_needed m now)) now)
  = fst (LeaseManager.expire_if_needed m now).
Proof.
  unfold LeaseManager.expire_if_needed. destruct (LeaseManager.active m) as [a|] eqn:Ea;
    [|simpl; by rewrite Ea]. destruct (_ <=? now) eqn:E; simpl; [done|]. by rewrite Ea, E.
Qed.

Lemma validate_rel m s session lease_id now : rel m s ->
  let '(m', r) := LeaseManager.validate m session lease_id now in
  let '(s', r') := LeaseSpec.validate s session lease_id now in
  rel m' s' /\ r = r' /\ m' = fst (LeaseManager.expire_if_needed m now).
Proof.
  intros Hr. pose proof (expire_rel m s now Hr) as He.
  unfold LeaseManager.validate, LeaseSpec.validate, LeaseSpec.held_by.
  set (m' := fst _) in *. set (s' := LeaseSpec.expire s now) in *.
  pose proof (r_active _ _ He) as Ha. pose proof (r_inc _ _ He) as Hi.
  destruct (LeaseManager.active m') as [a|], (LeaseSpec.holder s') as [l|]; simpl in Ha; try done.
  pose proof (rl_inc _ _ _ Ha) as Hinc.
  rewrite (rl_id _ _ _ Ha), (rl_peer _ _ _ Ha), Hinc, Hi,
    (bool_decide_true (LeaseSpec.incarnation s' = _)) by done.
  repeat case_bool_decide; simpl; auto.
Qed.

Lemma not_held_rel m s session lease_id q : rel m s -> 0 <= q ->
  LeaseManager.released_admission m session lease_id q = LeaseSpec.not_held s session lease_id q.
Proof.
  intros Hr Hq. unfold LeaseManager.released_admission, LeaseSpec.not_held, LeaseSpec.held_by.
  pose proof (r_past _ _ Hr) as Hp. pose proof (r_inc _ _ Hr) as Hi.
  destruct (LeaseManager.released m) as [a|], (LeaseSpec.past s) as [l|]; simpl in Hp; try done.
  rewrite (recall_cache _ _ _ _ Hp Hq). pose proof (rl_inc _ _ _ Hp) as Hinc.
  rewrite (rl_id _ _ _ Hp), (rl_peer _ _ _ Hp), Hinc, Hi,
    (bool_decide_true (LeaseSpec.incarnation s = _)) by done.
  rewrite andb_true_r. case_match; [|done]. by repeat case_match.
Qed.

(** The admission of a mutation against the log. *)
Lemma begin_rel m s session lease_id q now a l :
  rel m s -> 0 <= q -> LeaseSpec.expire s now = s ->
  fst (LeaseManager.expire_if_needed m now) = m ->
  LeaseManager.active m = Some a -> LeaseSpec.holder s = Some l ->
  LeaseSpec.held_by l session lease_id = true -> LeaseSpec.next l < U64_MAX ->
  LeaseManager.begin_mutation_internal m session lease_id q now =
    match LeaseSpec.recall l q with
    | Some (Cmd_Completed _ _) => (m, Ca_Replay Tc_Ok)
    | Some (Cmd_Failed _ _ _) => (m, Ca_DuplicateResultEvicted)
    | None =>
        if q =? LeaseSpec.next l then
          (LeaseManager.set_active m {|
             al_id := al_id a; al_peer_id := al_peer_id a; al_incarnation := al_incarnation a;
             al_acquired_at_ms := al_acquired_at_ms a;
             al_expires_at_ms := al_expires_at_ms a;
             al_next_command_sequence := LeaseSpec.next l + 1;
             al_pending := {[LeaseSpec.next l]} ∪ al_pending a;
             al_terminal := al_terminal a; al_evicted_through := al_evicted_through a |},
           Ca_ExecuteOnce)
        else (m, Ca_OutOfOrder (LeaseSpec.next l))
    end.
Proof.
  intros Hr Hq Hes Hem Ha Hl Hh Hn. unfold LeaseManager.begin_mutation_internal.
  pose proof (validate_rel m s session lease_id now Hr) as Hv.
  destruct (LeaseManager.validate m session lease_id now) as [m' r].
  unfold LeaseSpec.validate in Hv. rewrite Hes, Hl, Hh in Hv.
  destruct Hv as (_ & -> & ->). rewrite Hem, Ha.
  pose proof (r_active _ _ Hr) as Hra. rewrite Ha, Hl in Hra. simpl in Hra.
  rewrite (recall_cache _ _ _ _ Hra Hq).
  destruct (LeaseManager.find_terminal _ _) as [[sq [] le]|]; [done|].
  destruct (LeaseManager.evicted a q); [done|].
  rewrite (rl_pending _ _ _ Hra), bool_decide_false by set_solver.
  rewrite (rl_next _ _ _ Hra). destruct (Z.eqb_spec q (LeaseSpec.next l)) as [->|]; [|done].
  cbn [negb]. rewrite size_empty. unfold checked_add64.
  by rewrite (proj2 (Z.leb_le (LeaseSpec.next l + 1) _)) by lia.
Qed.

Lemma replay_rel inc m a l q r : rel_lease inc a l -> 0 <= q -> LeaseManager.active m = Some a ->
  LeaseSpec.recall l q = Some r ->
  LeaseManager.result_from_admission m
    (match r with Cmd_Completed _ _ => Ca_Replay Tc_Ok | _ => Ca_DuplicateResultEvicted end) q
  = Ok r.
Proof.
  intros Hr Hq Ha He. rewrite (recall_cache _ _ _ _ Hr Hq) in He.
  unfold LeaseManager.find_terminal in He. rewrite (rl_terminal _ _ _ Hr) in He.
  unfold LeaseManager.result_from_admission. rewrite Ha, (rl_terminal _ _ _ Hr).
  set (d := dropped _) in *. destruct (decide (Z.of_nat d <= q)) as [Hd|Hd].
  - rewrite (find_number _ _ _ q) in He by done. destruct (_ !! _) as [x|] eqn:Ex in He; simpl in He.
    + injection He as <-. cbn [LeaseManager.terminal_result te_code].
      rewrite (find_number _ _ _ q) by
        (try lia; intros [? [] ?] _; simpl; by rewrite andb_true_r). by rewrite Ex.
    + case_match; [|done]. by injection He as <-.
  - rewrite (find_number_below _ _ _ q) in He by (done || lia). case_match; [|done].
    by injection He as <-.
Qed.

Lemma spec_expire_stable s now : LeaseSpec.expire (LeaseSpec.expire s now) now = LeaseSpec.expire s now.
Proof.
  unfold LeaseSpec.expire. destruct (LeaseSpec.holder s) as [l|] eqn:El; [|by rewrite El].
  destruct (_ <=? now) eqn:E; simpl; [done|]. by rewrite El, E.
Qed.

(** Room for one more command number. *)
Definition counts (s : LeaseSpec.t) (n : Z) : Prop :=
  match LeaseSpec.holder s with Some l => LeaseSpec.next l <= n | None => True end.

Lemma counts_expire s now n : counts s n -> counts (LeaseSpec.expire s now) n.
Proof.
  unfold counts, LeaseSpec.expire. destruct (LeaseSpec.holder s) eqn:E; [|by rewrite E].
  destruct (_ <=? now); simpl; [done|by rewrite E].
Qed.

Lemma rel_active m s l : rel m s -> LeaseSpec.holder s = Some l ->
  exists a, LeaseManager.active m = Some a /\ rel_lease (LeaseSpec.incarnation s) a l.
Proof.
  intros Hr Hl. pose proof (r_active _ _ Hr) as Ha. rewrite Hl in Ha.
  destruct (LeaseManager.active m); [eauto|done].
Qed.

(** Both mutations agree with the log up to the execution itself. *)
Lemma mutate_rel m s session lease_id q now n exec sexec :
  rel m s -> 0 <= q -> counts s n -> n < U64_MAX ->
  (forall m s a l, rel m s -> LeaseManager.active m = Some a -> LeaseSpec.holder s = Some l ->
     rel_lease (LeaseSpec.incarnation s) a l -> LeaseSpec.next l < U64_MAX ->
     let '(m', r) := exec (LeaseManager.set_active m {|
        al_id := al_id a; al_peer_id := al_peer_id a; al_incarnation := al_incarnation a;
        al_acquired_at_ms := al_acquired_at_ms a;
        al_expires_at_ms := al_expires_at_ms a;
        al_next_command_sequence := LeaseSpec.next l + 1;
        al_pending := {[LeaseSpec.next l]} ∪ al_pending a;
        al_terminal := al_terminal a; al_evicted_through := al_evicted_through a |})
          (LeaseSpec.next l) in
     let '(s', r') := sexec s l in rel m' s' /\ r = Ok r' /\ counts s' (LeaseSpec.next l + 1)) ->
  let '(m', r) :=
    let m := fst (LeaseManager.expire_if_needed m now) in
    match LeaseManager.validate m session lease_id now with
    | (m, Err _) => (m, Ok (LeaseManager.released_admission m session lease_id q))
    | (m, Ok _) =>
        match LeaseManager.begin_mutation_internal m session lease_id q now with
        | (m, Ca_ExecuteOnce) => exec m q
        | (m, admission) => (m, LeaseManager.result_from_admission m admission q)
        end
    end in
  let '(s', r') := LeaseSpec.mutate s session lease_id q now sexec in
  rel m' s' /\ r = Ok r' /\ counts s' (n + 1).
Proof.
  intros Hr Hq Hc Hn Hexec. unfold LeaseSpec.mutate.
  pose proof (expire_rel m s now Hr) as He. pose proof (counts_expire s now n Hc) as Hce.
  pose proof (expire_stable m now) as Hstab. pose proof (spec_expire_stable s now) as Hsstab.
  cbv zeta. set (m1 := fst (LeaseManager.expire_if_needed m now)) in *.
  set (s1 := LeaseSpec.expire s now) in *. clearbody m1 s1.
  assert (Hce' : counts s1 (n + 1)) by (unfold counts in *; case_match; lia || done).
  pose proof (validate_rel m1 s1 session lease_id now He) as Hv.
  destruct (LeaseManager.validate m1 session lease_id now) as [m2 v].
  unfold LeaseSpec.validate in Hv. rewrite Hsstab in Hv. destruct Hv as (_ & -> & ->).
  rewrite Hstab. destruct (LeaseSpec.holder s1) as [l|] eqn:El.
  2: { by rewrite (not_held_rel m1 s1) by done. }
  destruct (LeaseSpec.held_by l session lease_id) eqn:Eh.
  2: { by rewrite (not_held_rel m1 s1) by done. }
  destruct (rel_active m1 s1 l He El) as (a & Ea & Hra).
  assert (Hnl : LeaseSpec.next l <= n) by (unfold counts in Hce; by rewrite El in Hce).
  rewrite (begin_rel m1 s1 session lease_id q now a l) by (done || lia).
  destruct (LeaseSpec.recall l q) as [r|] eqn:Er.
  - pose proof (replay_rel _ m1 a l q r Hra Hq Ea Er) as Hrep.
    destruct r; rewrite Hrep; done.
  - destruct (Z.eqb_spec q (LeaseSpec.next l)) as [->|]; [|done].
    specialize (Hexec m1 s1 a l He Ea El Hra ltac:(lia)).
    destruct (exec _ _) as [m' r], (sexec s1 l) as [s' r'].
    destruct Hexec as (? & ? & Hcs). split_and!; try done.
    unfold counts in Hcs |- *. destruct (LeaseSpec.holder s'); [lia|done].
Qed.

Lemma renew_rel m s session lease_id q now n :
  rel m s -> 0 <= q -> counts s n -> n < U64_MAX ->
  let '(m', r) := LeaseManager.apply_renew m session lease_id q now in
  let '(s', r') := LeaseSpec.mutate s session lease_id q now (fun s l => LeaseSpec.renew s l now) in
  rel m' s' /\ r = Ok r' /\ counts s' (n + 1).
Proof.
  intros Hr Hq Hc Hn.
  refine (mutate_rel m s session lease_id q now n (fun m q =>
    match LeaseManager.active m with
    | None => (m, Err Ce_InternalInvariant)
    | Some a => _ end) _ Hr Hq Hc Hn _).
  clear. intros m s a l Hr Ha Hl Hra Hn. cbn [LeaseManager.set_active LeaseManager.active].
  destruct (complete_rel _ _ _ (sat_add64 now LEASE_TTL_MS) (Some (mkLeaseRef (LeaseSpec.id l)
    (LeaseSpec.incarnation s) (as_u32 (sat_sub (sat_add64 now LEASE_TTL_MS) now))
    (LeaseSpec.next l + 1))) Hra Hn) as (a' & Ec & Hra').
  unfold LeaseManager.extend, LeaseManager.lease_ref. cbv zeta.
  cbn [al_id al_peer_id al_incarnation al_acquired_at_ms al_expires_at_ms
       al_next_command_sequence al_pending al_terminal al_evicted_through].
  rewrite <- (rl_id _ _ _ Hra), <- (rl_inc _ _ _ Hra) in Ec. rewrite Ec.
  unfold LeaseSpec.renew. rewrite <- (rl_id _ _ _ Hra), <- (rl_inc _ _ _ Hra) in Hra' |- *.
  split_and!; [|done|].
  - destruct Hr as [H1 H2 H3 H4 H5]. constructor; cbn; try done.
    + by rewrite (rl_inc _ _ _ Hra).
    + by rewrite (rl_inc _ _ _ Hra).
    + by rewrite H4, Ha.
    + intros _. apply H5. by rewrite Ha.
  - unfold counts. cbn. unfold LeaseSpec.next. cbn. rewrite length_app. cbn. lia.
Qed.

Lemma release_rel m s session lease_id q now n :
  rel m s -> 0 <= q -> counts s n -> n < U64_MAX ->
  let '(m', r) := LeaseManager.apply_release m session lease_id q now in
  let '(s', r') := LeaseSpec.mutate s session lease_id q now LeaseSpec.release in
  rel m' s' /\ r = Ok r' /\ counts s' (n + 1).
Proof.
  intros Hr Hq Hc Hn.
  refine (mutate_rel m s session lease_id q now n (fun m q =>
    match LeaseManager.active m with
    | None => (m, Err Ce_InternalInvariant)
    | Some a => _ end) _ Hr Hq Hc Hn _).
  clear. intros m s a l Hr Ha Hl Hra Hn. cbn [LeaseManager.set_active LeaseManager.active].
  destruct (complete_rel _ _ _ (al_expires_at_ms a) None Hra Hn) as (a' & Ec & Hra').
  rewrite Ec. unfold LeaseSpec.release. rewrite (rl_deadline _ _ _ Hra) in Hra'.
  split_and!; [|done|done]. destruct Hr as [H1 H2 H3 H4 H5]. by constructor; cbn.
Qed.

Lemma acquire_rel m s session now e n :
  rel m s -> counts s n -> 0 <= n ->
  let '(m', r) := LeaseManager.apply_acquire m session now e in
  let '(s', r') := LeaseSpec.acquire s session now e in
  rel m' s' /\ r = r' /\ counts s' n.
Proof.
  intros Hr Hc Hn. unfold LeaseManager.apply_acquire, LeaseSpec.acquire.
  pose proof (expire_rel m s now Hr) as He. pose proof (counts_expire s now n Hc) as Hce.
  set (m1 := fst _) in *. set (s1 := LeaseSpec.expire s now) in *. clearbody m1 s1.
  pose proof (r_active _ _ He) as Ha.
  destruct (LeaseManager.active m1) as [a|] eqn:Ea, (LeaseSpec.holder s1) as [l|] eqn:El;
    simpl in Ha; try done.
  - split_and!; [done| |done]. rewrite (rl_peer _ _ _ Ha). unfold LeaseManager.lease_ref,
      LeaseSpec.view. by rewrite (rl_id _ _ _ Ha), (rl_inc _ _ _ Ha), (rl_deadline _ _ _ Ha),
      (rl_next _ _ _ Ha).
  - destruct (random_nonzero_128 e) as [i|]; [|done]. pose proof (r_inc _ _ He) as Hi.
    split_and!; [|unfold LeaseManager.lease_ref; cbn; by rewrite Hi|exact Hn].
    constructor; cbn; done || by constructor.
Qed.

Lemma current_rel m s session now : rel m s ->
  let '(m', r) := LeaseManager.current_for_session m session now in
  let '(s', r') := LeaseSpec.current s session now in rel m' s' /\ r = r'.
Proof.
  intros Hr. unfold LeaseManager.current_for_session, LeaseSpec.current.
  pose proof (expire_rel m s now Hr) as He. split; [done|].
  set (m1 := fst _) in *. set (s1 := LeaseSpec.expire s now) in *. clearbody m1 s1.
  pose proof (r_active _ _ He) as Ha. pose proof (r_inc _ _ He) as Hi.
  destruct (LeaseManager.active m1) as [a|] eqn:Ea, (LeaseSpec.holder s1) as [l|] eqn:El;
    simpl in Ha; try done.
  unfold LeaseManager.lease_ref, LeaseSpec.view. rewrite Hi, (rl_inc _ _ _ Ha).
  rewrite (bool_decide_true (LeaseSpec.incarnation s1 = _)), andb_true_r by done.
  by rewrite (rl_peer _ _ _ Ha), (rl_id _ _ _ Ha), (rl_deadline _ _ _ Ha), (rl_next _ _ _ Ha).
Qed.

Lemma step_rel m s o n :
  rel m s -> op_typed o -> counts s n -> 0 <= n < U64_MAX ->
  let '(m', r) := lm_step m o in
  let '(s', r') := spec_step s o in rel m' s' /\ r = r' /\ counts s' (n + 1).
Proof.
  intros Hr Ht Hc Hn.
  assert (Hup : forall s, counts s n -> counts s (n + 1))
    by (intros s'; unfold counts; destruct (LeaseSpec.holder s'); [lia|done]).
  destruct o as [session [|i q|i q|q] now e|session now|session i now|now];
    cbn [lm_step spec_step LeaseManager.apply_controller_command LeaseSpec.command op_typed] in *.
  - pose proof (acquire_rel m s session now e n Hr Hc ltac:(lia)) as H.
    destruct (LeaseManager.apply_acquire _ _ _ _), (LeaseSpec.acquire _ _ _ _).
    destruct H as (? & -> & ?). auto.
  - pose proof (renew_rel m s session i q now n Hr Ht Hc ltac:(lia)) as H.
    destruct (LeaseManager.apply_renew _ _ _ _ _), (LeaseSpec.mutate _ _ _ _ _ _).
    destruct H as (? & -> & ?). auto.
  - pose proof (release_rel m s session i q now n Hr Ht Hc ltac:(lia)) as H.
    destruct (LeaseManager.apply_release _ _ _ _ _), (LeaseSpec.mutate _ _ _ _ _ _).
    destruct H as (? & -> & ?). auto.
  - auto.
  - pose proof (current_rel m s session now Hr) as H.
    pose proof (counts_expire s now n Hc). unfold LeaseSpec.current in *.
    destruct (LeaseManager.current_for_session _ _ _). destruct H as (? & ->). auto.
  - pose proof (validate_rel m s session i now Hr) as H.
    pose proof (counts_expire s now n Hc). unfold LeaseSpec.validate in *.
    destruct (LeaseManager.validate _ _ _ _). destruct H as (? & -> & _). auto.
  - split_and!; [by apply expire_rel|done|]. by apply Hup, counts_expire.
Qed.

Lemma run_rel ops m s n :
  rel m s -> Forall op_typed ops -> counts s n -> 0 <= n ->
  n + Z.of_nat (length ops) <= U64_MAX ->
  rel (fst (run lm_step m ops)) (fst (run spec_step s ops)) /\
  snd (run lm_step m ops) = snd (run spec_step s ops).
Proof.
  intros Hr Ht. revert m s n Hr. induction Ht as [|o ops Ho _ IH]; intros m s n Hr Hc Hn Hlen.
  - done.
  - cbn [run length] in *. pose proof (step_rel m s o n Hr Ho Hc ltac:(lia)) as H.
    destruct (lm_step m o) as [m' r], (spec_step s o) as [s' r']. destruct H as (Hr' & -> & Hc').
    specialize (IH m' s' (n + 1) Hr' Hc' ltac:(lia) ltac:(lia)).
    destruct (run lm_step m' ops), (run spec_step s' ops). simpl in *.
    destruct IH as [? ->]. done.
Qed.

Lemma rel_init inc : rel (LeaseManager.new inc) (LeaseSpec.init inc).
Proof. by constructor. Qed.

(** ** Theorems *)

(** C10: refinement of the lease manager.  For every sequence of commands, queries
    and expiries, from any sessions and at any clock readings, the manager with its
    256-entry cache gives exactly the answers of the specification in which a
    lease is a deadline and an unbounded log: in-order execution, replay of recent
    results, explicit eviction, out-of-order, busy and stale answers.  In
    particular no internal-invariant error is ever returned. *)
Theorem lease_refines_log inc ops :
  Forall op_typed ops -> Z.of_nat (length ops) <= U64_MAX ->
  snd (run lm_step (LeaseManager.new inc) ops) = snd (run spec_step (LeaseSpec.init inc) ops).
Proof.
  intros Ht Hl. by apply (run_rel ops _ _ 0).
Qed.

Definition demo_entropy : Entropy := Some (fun _ => Some (replicate 16 Byte.x07)).
Definition demo_peer : AuthenticatedSession := mkSession (replicate 32 Byte.x01).
Definition demo_ops : list LeaseOp :=
  [Lo_Command demo_peer Cc_Acquire 1000 demo_entropy;
   Lo_Command demo_peer (Cc_Renew (replicate 16 Byte.x07) 0) 2000 None;
   Lo_Command demo_peer (Cc_Renew (replicate 16 Byte.x07) 0) 3000 None;
   Lo_Command demo_peer (Cc_Release (replicate 16 Byte.x07) 1) 4000 None].

Lemma lease_refines_log_witness :
  snd (run lm_step (LeaseManager.new (replicate 16 Byte.x02)) demo_ops) =
  snd (run spec_step (LeaseSpec.init (replicate 16 Byte.x02)) demo_ops).
Proof.
  apply lease_refines_log; [|vm_compute; discriminate].
  repeat constructor; vm_compute; discriminate.
Defined.

(** A state the manager can be in. *)
Definition reachable (m : LeaseManager.t) : Prop :=
  exists inc ops, Forall op_typed ops /\ Z.of_nat (length ops) < U64_MAX /\
    m = fst (run lm_step (LeaseManager.new inc) ops).

Lemma reachable_rel m : reachable m -> exists s, rel m s.
Proof.
  intros (inc & ops & Ht & Hl & ->).
  exists (fst (run spec_step (LeaseSpec.init inc) ops)).
  apply (run_rel ops _ _ 0); done || lia || apply rel_init.
Qed.

Lemma live_not_expired m a now :
  LeaseManager.active m = Some a -> now < al_expires_at_ms a ->
  fst (LeaseManager.expire_if_needed m now) = m.
Proof.
  intros Ha Hn. unfold LeaseManager.expire_if_needed. rewrite Ha.
  by rewrite (proj2 (Z.leb_gt _ _)) by lia.
Qed.

(** C39: the lease is exclusive.  While a lease is live, no command, query or
    validation of another peer changes the manager, and none of them completes. *)
Theorem lease_exclusive m a session c now e :
  reachable m -> LeaseManager.active m = Some a -> now < al_expires_at_ms a ->
  al_peer_id a <> session_peer_id session ->
  fst (LeaseManager.apply_controller_command m session c now e) = m /\
  (forall q l, snd (LeaseManager.apply_controller_command m session c now e) <>
               Ok (Cmd_Completed q l)) /\
  (forall id, LeaseManager.validate m session id now = (m, Err StaleLease)) /\
  LeaseManager.current_for_session m session now = (m, None).
Proof.
  intros Hreach Ha Hnow Hp. destruct (reachable_rel m Hreach) as [s Hr].
  pose proof (live_not_expired m a now Ha Hnow) as He.
  assert (Hpast : LeaseManager.released m = None) by (apply (r_one _ _ Hr); by rewrite Ha).
  assert (Hv : forall id, LeaseManager.validate m session id now = (m, Err StaleLease)).
  { intros id. unfold LeaseManager.validate. rewrite He, Ha, (bool_decide_false (al_peer_id a = _))
      by done. by rewrite orb_true_r. }
  assert (Hc : exists q f, LeaseManager.apply_controller_command m session c now e =
    (m, Ok (Cmd_Failed q f None))).
  { destruct c; cbn [LeaseManager.apply_controller_command]; unfold LeaseManager.apply_acquire,
      LeaseManager.apply_renew, LeaseManager.apply_release, LeaseManager.released_admission;
      cbv zeta; rewrite ?He, ?Hv, ?Ha, ?Hpast, ?bool_decide_false by done; by do 2 eexists. }
  destruct Hc as (q & f & ->). split_and!; [done|done|done|].
  - unfold LeaseManager.current_for_session. cbv zeta. rewrite He, Ha.
    by rewrite bool_decide_false by done.
Qed.

(** The state after [demo_peer] acquired its lease. *)
Definition demo_held : LeaseManager.t :=
  fst (run lm_step (LeaseManager.new (replicate 16 Byte.x02)) (take 1 demo_ops)).

Lemma demo_held_reachable : reachable demo_held.
Proof.
  exists (replicate 16 Byte.x02), (take 1 demo_ops).
  split; [repeat constructor|]. split; [vm_compute; reflexivity|reflexivity].
Qed.

Lemma lease_exclusive_witness :
  let other := mkSession (replicate 32 Byte.x09) in
  fst (LeaseManager.apply_controller_command demo_held other Cc_Acquire 60999 None) = demo_held /\
  (forall q l, snd (LeaseManager.apply_controller_command demo_held other Cc_Acquire 60999 None)
               <> Ok (Cmd_Completed q l)) /\
  (forall id, LeaseManager.validate demo_held other id 60999 = (demo_held, Err StaleLease)) /\
  LeaseManager.current_for_session demo_held other 60999 = (demo_held, None).
Proof.
  eapply lease_exclusive; [apply demo_held_reachable|vm_compute; reflexivity
    |vm_compute; reflexivity|vm_compute; discriminate].
Defined.

(** A lease proof exists exactly while its lease does.  [validate] succeeds
    when the named lease is the active one, held by the session's peer under the
    current incarnation, strictly before its deadline: there is no grace period. *)
Lemma lease_validate_exact m session lease_id now pf :
  reachable m ->
  snd (LeaseManager.validate m session lease_id now) = Ok pf <->
  exists a, LeaseManager.active m = Some a /\ now < al_expires_at_ms a /\
    al_id a = lease_id /\ al_peer_id a = session_peer_id session /\
    pf = mkProof lease_id (LeaseManager.incarnation m) (session_peer_id session).
Proof.
  intros Hreach. destruct (reachable_rel m Hreach) as [s Hr].
  unfold LeaseManager.validate, LeaseManager.expire_if_needed.
  pose proof (r_active _ _ Hr) as Ha. pose proof (r_inc _ _ Hr) as Hi.
  destruct (LeaseManager.active m) as [a|] eqn:Ea.
  2: { simpl. rewrite Ea. simpl. split; [done|]. by intros (? & ? & _). }
  destruct (LeaseSpec.holder s) as [l|]; [|done]. simpl in Ha.
  destruct (Z.leb_spec (al_expires_at_ms a) now) as [Hle|Hgt]; simpl.
  - split; [done|]. intros (a' & ? & ? & _). simplify_eq. lia.
  - rewrite Ea, Hi, (rl_inc _ _ _ Ha). split.
    + intros H. repeat case_bool_decide; simpl in H; try done. simplify_eq.
      exists a. split_and!; try done. congruence.
    + intros (a' & ? & _ & <- & <- & ->). simplify_eq.
      by rewrite !bool_decide_true.
Qed.

Lemma lease_validate_exact_witness :
  snd (LeaseManager.validate demo_held demo_peer (replicate 16 Byte.x07) 60999) =
  Ok (mkProof (replicate 16 Byte.x07) (replicate 16 Byte.x02) (replicate 32 Byte.x01)).
Proof.
  apply lease_validate_exact; [apply demo_held_reachable|].
  eexists. split; [vm_compute; reflexivity|]. split; [vm_compute; reflexivity|].
  split; [reflexivity|]. split; reflexivity.
Defined.

(** ** Replay *)

(** A mutation that the log answers changes nothing. *)
Lemma recalled_apply m s session lease_id q now a l r :
  rel m s -> 0 <= q -> LeaseManager.active m = Some a -> LeaseSpec.holder s = Some l ->
  now < al_expires_at_ms a -> LeaseSpec.held_by l session lease_id = true ->
  LeaseSpec.recall l q = Some r -> LeaseSpec.next l < U64_MAX ->
  LeaseManager.apply_renew m session lease_id q now = (m, Ok r) /\
  LeaseManager.apply_release m session lease_id q now = (m, Ok r).
Proof.
  intros Hr Hq Ha Hl Hnow Hh Hrec Hn. pose proof (live_not_expired m a now Ha Hnow) as He.
  pose proof (r_active _ _ Hr) as Hra. rewrite Ha, Hl in Hra. simpl in Hra.
  assert (Hes : LeaseSpec.expire s now = s).
  { unfold LeaseSpec.expire. rewrite Hl, <- (rl_deadline _ _ _ Hra).
    by rewrite (proj2 (Z.leb_gt _ _)) by lia. }
  unfold LeaseManager.apply_renew, LeaseManager.apply_release. cbv zeta. rewrite He.
  pose proof (validate_rel m s session lease_id now Hr) as Hv.
  destruct (LeaseManager.validate m session lease_id now) as [m' v].
  unfold LeaseSpec.validate in Hv. rewrite Hes, Hl, Hh in Hv.
  destruct Hv as (_ & -> & ->). rewrite He.
  rewrite (begin_rel m s session lease_id q now a l) by done. rewrite Hrec.
  pose proof (replay_rel _ m a l q r Hra Hq Ha Hrec) as Hrep.
  by destruct r; rewrite Hrep.
Qed.

Lemma released_apply m s session lease_id q now r :
  rel m s -> 0 <= q -> LeaseManager.active m = None ->
  LeaseSpec.not_held s session lease_id q = r ->
  LeaseManager.apply_renew m session lease_id q now = (m, Ok r) /\
  LeaseManager.apply_release m session lease_id q now = (m, Ok r).
Proof.
  intros Hr Hq Ha <-. unfold LeaseManager.apply_renew, LeaseManager.apply_release,
    LeaseManager.validate, LeaseManager.expire_if_needed.
  rewrite Ha. simpl. rewrite Ha. simpl. rewrite Ha.
  by rewrite (not_held_rel m s session lease_id q).
Qed.

Lemma recall_append l d r q :
  q = LeaseSpec.next l -> LeaseSpec.recall (LeaseSpec.append l d r) q = Some (Cmd_Completed q r).
Proof.
  intros ->. unfold LeaseSpec.recall, LeaseSpec.next, LeaseSpec.append,
    TERMINAL_CACHE_CAPACITY. cbn [LeaseSpec.log].
  rewrite length_app, Nat2Z.id. cbn [length].
  rewrite (proj2 (Z.leb_le _ _)), (proj2 (Z.ltb_lt _ _)), (proj2 (Z.leb_le _ _)) by lia.
  simpl. by rewrite list_lookup_middle.
Qed.

(** A completed mutation is in the log of the lease it belongs to. *)
Lemma mutate_completed m s session lease_id q now exec s' r :
  rel m s ->
  (exec = (fun s l => LeaseSpec.renew s l now) \/ exec = LeaseSpec.release) ->
  LeaseSpec.mutate s session lease_id q now exec = (s', Cmd_Completed q r) ->
  (exists l, LeaseSpec.holder s' = Some l /\ LeaseSpec.held_by l session lease_id = true /\
             LeaseSpec.recall l q = Some (Cmd_Completed q r)) \/
  (LeaseSpec.holder s' = None /\
   LeaseSpec.not_held s' session lease_id q = Cmd_Completed q r).
Proof.
  intros Hr Hexec H. unfold LeaseSpec.mutate in H.
  pose proof (expire_rel m s now Hr) as He. set (s1 := LeaseSpec.expire s now) in *.
  assert (Hone : LeaseSpec.holder s1 <> None -> LeaseSpec.past s1 = None).
  { intros Hh. pose proof (r_past _ _ He) as Hp. pose proof (r_active _ _ He) as Ha.
    pose proof (r_one _ _ He) as Ho. destruct (LeaseSpec.holder s1), (LeaseManager.active _);
      try done. rewrite Ho in Hp by done. simpl in Hp. by destruct (LeaseSpec.past s1). }
  clearbody s1. destruct (LeaseSpec.holder s1) as [l|] eqn:El.
  - destruct (LeaseSpec.held_by l session lease_id) eqn:Eh.
    + destruct (LeaseSpec.recall l q) as [r0|] eqn:Erec.
      * simplify_eq. left. eauto.
      * destruct (Z.eqb_spec q (LeaseSpec.next l)) as [->|]; [|done].
        destruct Hexec as [-> | ->]; unfold LeaseSpec.renew, LeaseSpec.release in H;
          apply pair_equal_spec in H as [<- H]; injection H as <-.
        -- left. eexists. split; [reflexivity|]. split; [done|]. by apply recall_append.
        -- right. split; [done|]. unfold LeaseSpec.not_held. cbn [LeaseSpec.past].
           assert (Hh : LeaseSpec.held_by (LeaseSpec.append l (LeaseSpec.deadline l) None)
             session lease_id = true) by done.
           by rewrite Hh, (recall_append l).
    + unfold LeaseSpec.not_held in H. rewrite Hone in H by done. done.
  - simplify_eq. right. done.
Qed.

(** [Renew] and [Release] of one command number of one lease. *)
Definition is_mutation (c : ControllerCommand) (lease_id : LeaseId) (q : Z) : Prop :=
  c = Cc_Renew lease_id q \/ c = Cc_Release lease_id q.

Lemma reachable_count m : reachable m -> exists s n, rel m s /\ counts s n /\ 0 <= n < U64_MAX.
Proof.
  intros (inc & ops & Ht & Hl & ->).
  assert (Hgen : forall m s n, rel m s -> counts s n -> 0 <= n ->
    n + Z.of_nat (length ops) < U64_MAX ->
    exists s' n', rel (fst (run lm_step m ops)) s' /\ counts s' n' /\ 0 <= n' < U64_MAX).
  { clear Hl. induction Ht as [|o ops Ho _ IH]; intros m s n Hr Hc Hn Hlen.
    - exists s, n. split_and!; try done. cbn [length] in Hlen. lia.
    - cbn [run length] in *. pose proof (step_rel m s o n Hr Ho Hc ltac:(lia)) as H.
      destruct (lm_step m o) as [m' r], (spec_step s o) as [s' r']. destruct H as (Hr' & _ & Hc').
      specialize (IH m' s' (n + 1) Hr' Hc' ltac:(lia) ltac:(lia)).
      by destruct (run lm_step m' ops). }
  apply (Hgen _ (LeaseSpec.init inc) 0); done || lia || apply rel_init.
Qed.

(** At most once.  When a renewal or release of a lease completes, sending
    any command with the same lease and number again, while no other command
    intervenes and the lease has not expired, returns the very same result and
    leaves the manager untouched: a lost acknowledgement never repeats the effect. *)
Lemma lease_replay m session c c' lease_id q now now' e e' m' r :
  reachable m -> 0 <= q -> is_mutation c lease_id q -> is_mutation c' lease_id q ->
  LeaseManager.apply_controller_command m session c now e = (m', Ok (Cmd_Completed q r)) ->
  (forall a, LeaseManager.active m' = Some a ->
     now' < al_expires_at_ms a /\ al_next_command_sequence a < U64_MAX) ->
  LeaseManager.apply_controller_command m' session c' now' e' = (m', Ok (Cmd_Completed q r)).
Proof.
  intros Hreach Hq Hc Hc' Happ Hlive.
  destruct (reachable_count m Hreach) as (s & n & Hr & Hcount & Hn).
  assert (Hsim : exists s', rel m' s' /\
    ((exists l, LeaseSpec.holder s' = Some l /\ LeaseSpec.held_by l session lease_id = true /\
             LeaseSpec.recall l q = Some (Cmd_Completed q r)) \/
    (LeaseSpec.holder s' = None /\
      LeaseSpec.not_held s' session lease_id q = Cmd_Completed q r))).
  { destruct Hc as [-> | ->]; cbn [LeaseManager.apply_controller_command] in Happ.
    - pose proof (renew_rel m s session lease_id q now n Hr Hq Hcount ltac:(lia)) as Hs.
      rewrite Happ in Hs. destruct (LeaseSpec.mutate _ _ _ _ _ _) as [s' r'] eqn:Em.
      destruct Hs as (Hr' & E & _). apply Ok_inj in E. subst r'.
      exists s'. split; [done|]. eapply mutate_completed; [exact Hr| |exact Em]; auto.
    - pose proof (release_rel m s session lease_id q now n Hr Hq Hcount ltac:(lia)) as Hs.
      rewrite Happ in Hs. destruct (LeaseSpec.mutate _ _ _ _ _ _) as [s' r'] eqn:Em.
      destruct Hs as (Hr' & E & _). apply Ok_inj in E. subst r'.
      exists s'. split; [done|]. eapply mutate_completed; [exact Hr| |exact Em]; auto. }
  destruct Hsim as (s' & Hr' & [(l & Hl & Hh & Hrec)|(Hnone & Hnh)]).
  - destruct (rel_active m' s' l Hr' Hl) as (a & Ha & Hra). destruct (Hlive a Ha) as [Hlt Hmax].
    rewrite (rl_next _ _ _ Hra) in Hmax.
    destruct (recalled_apply m' s' session lease_id q now' a l _ Hr' Hq Ha Hl Hlt Hh Hrec Hmax).
    by destruct Hc' as [-> | ->].
  - assert (Ha : LeaseManager.active m' = None).
    { pose proof (r_active _ _ Hr') as Hra. rewrite Hnone in Hra.
      by destruct (LeaseManager.active m'). }
    destruct (released_apply m' s' session lease_id q now' _ Hr' Hq Ha Hnh).
    by destruct Hc' as [-> | ->].
Qed.

Lemma lease_replay_witness :
  let id := replicate 16 Byte.x07 in
  let m' := fst (LeaseManager.apply_controller_command demo_held demo_peer (Cc_Renew id 0)
                   2000 None) in
  exists r, LeaseManager.apply_controller_command m' demo_peer (Cc_Renew id 0) 3000 None =
            (m', Ok (Cmd_Completed 0 r)).
Proof.
  eexists. eapply (lease_replay demo_held demo_peer (Cc_Renew (replicate 16 Byte.x07) 0)
    (Cc_Renew (replicate 16 Byte.x07) 0) (replicate 16 Byte.x07) 0 2000 3000 None None);
    [apply demo_held_reachable|lia|by left|by left|vm_compute; reflexivity|].
  intros a Ha. vm_compute in Ha. injection Ha as <-. split; vm_compute; reflexivity.
Defined.
