(* ===== verification/ResourceGuard.v ===== *)
(** * pb-worker-core, resource guard

    Models [crates/pb-worker-core/src/resource_guard.rs]: the C08 single-writer
    actor that turns health samples into a safety band with hysteresis and hands
    out byte reservations against a budget.

    [BTreeMap]s are [gmap]s.  The loops over a collected snapshot of the map
    ([expire_and_purge], [expire_reserved]) fold over the list of its entries; the
    order does not matter, as the entries are distinct. *)

From Stdlib Require Import ZArith Lia.
From stdpp Require Import base tactics list gmap.
From S2P Require Import Prelude Types ResourceWire Lease.

Definition POC_CAP_BYTES : Z := 128 * 1024 * 1024.
Definition MIN_AVAILABLE_BYTES : Z := 768 * 1024 * 1024.
Definition RECOVERY_AVAILABLE_BYTES : Z := 896 * 1024 * 1024.
Definition MEMORY_MARGIN_BYTES : Z := 512 * 1024 * 1024.
Definition RESERVATION_TTL_MS : Z := 30000.
Definition HEALTH_INTERVAL_MS : Z := 2000.
Definition HEALTH_STALE_AFTER_MS : Z := 6000.
Definition TERMINAL_RETENTION_MS : Z := 5 * 60000.
Definition IDEMPOTENCE_CAPACITY : Z := 1024.

(** ** Health bands *)

Inductive ThermalBand : Type :=
| Th_None | Th_Light | Th_Moderate | Th_Severe | Th_Critical | Th_Emergency | Th_Shutdown
| Th_Unknown.

#[export] Instance ThermalBand_eq_dec : EqDecision ThermalBand.
Proof. solve_decision. Defined.

(** [self as i32], the order of [derive(PartialOrd)]. *)
Definition ThermalBand_as_i32 (b : ThermalBand) : Z :=
  match b with
  | Th_None => 0 | Th_Light => 1 | Th_Moderate => 2 | Th_Severe => 3 | Th_Critical => 4
  | Th_Emergency => 5 | Th_Shutdown => 6 | Th_Unknown => 7
  end.

Definition from_android_code (code : Z) : option ThermalBand :=
  if code =? 0 then Some Th_None
  else if code =? 1 then Some Th_Light
  else if code =? 2 then Some Th_Moderate
  else if code =? 3 then Some Th_Severe
  else if code =? 4 then Some Th_Critical
  else if code =? 5 then Some Th_Emergency
  else if code =? 6 then Some Th_Shutdown
  else None.

Inductive SafetyBand : Type :=
| Sb_Nominal | Sb_Throttle | Sb_RefusedMemoryPressure | Sb_RefusedThermal | Sb_RefusedBattery
| Sb_RefusedStaleState.

#[export] Instance SafetyBand_eq_dec : EqDecision SafetyBand.
Proof. solve_decision. Defined.

Definition is_refused (b : SafetyBand) : bool :=
  match b with
  | Sb_RefusedMemoryPressure | Sb_RefusedThermal | Sb_RefusedBattery
  | Sb_RefusedStaleState => true
  | _ => false
  end.

(** [ThermalBand::safety] *)
Definition thermal_safety (b : ThermalBand) : SafetyBand :=
  match b with
  | Th_None | Th_Light => Sb_Nominal
  | Th_Moderate => Sb_Throttle
  | Th_Severe | Th_Critical | Th_Emergency | Th_Shutdown | Th_Unknown => Sb_RefusedThermal
  end.

Inductive BatteryBand : Type := Bt_Nominal | Bt_Throttle | Bt_Refused | Bt_Unknown.

#[export] Instance BatteryBand_eq_dec : EqDecision BatteryBand.
Proof. solve_decision. Defined.

Definition BatteryBand_as_i32 (b : BatteryBand) : Z :=
  match b with Bt_Nominal => 0 | Bt_Throttle => 1 | Bt_Refused => 2 | Bt_Unknown => 3 end.

Record HealthSample : Type := mkSample {
  hs_available_memory_bytes : Z;
  hs_low_memory : bool;
  hs_thermal : ThermalBand;
  hs_battery_percent : Z;
  hs_charging : bool;
  hs_power_save : bool;
  hs_monotonic_ms : Z;
}.

Record HealthStatus : Type := mkStatus {
  hl_safety : SafetyBand;
  hl_thermal : ThermalBand;
  hl_battery : BatteryBand;
  hl_battery_percent : Z;
  hl_available_memory_bytes : Z;
  hl_low_memory : bool;
  hl_charging : bool;
  hl_power_save : bool;
  hl_sample_age_ms : option Z;
  hl_fresh : bool;
  hl_budget_bytes : Z;
}.

(** [HealthStatus::unavailable] *)
Definition health_unavailable : HealthStatus := {|
  hl_safety := Sb_RefusedStaleState;
  hl_thermal := Th_Unknown;
  hl_battery := Bt_Unknown;
  hl_battery_percent := 0;
  hl_available_memory_bytes := 0;
  hl_low_memory := true;
  hl_charging := false;
  hl_power_save := false;
  hl_sample_age_ms := None;
  hl_fresh := false;
  hl_budget_bytes := 0 |}.

Definition raw_battery_band (percent : Z) (charging : bool) : BatteryBand :=
  if charging || (25 <? percent) then Bt_Nominal
  else if percent <? 15 then Bt_Refused
  else Bt_Throttle.

Definition poc_budget (available_bytes : Z) : Z :=
  let after_margin := sat_sub available_bytes MEMORY_MARGIN_BYTES in
  let quarter := after_margin / 4 in
  if quarter <? POC_CAP_BYTES then quarter else POC_CAP_BYTES.

(** ** Reservations *)

Definition ReservationId : Type := list byte.
Definition RequestId : Type := Z.

Inductive ResourceClass : Type := Rc_RemoteBufferBytes | Rc_NativeOpScratchBytes | Rc_Unknown.

#[export] Instance ResourceClass_eq_dec : EqDecision ResourceClass.
Proof. solve_decision. Defined.

Definition max_request_bytes (c : ResourceClass) : Z :=
  match c with
  | Rc_RemoteBufferBytes => POC_CAP_BYTES
  | Rc_NativeOpScratchBytes => NATIVE_OP_SCRATCH_MAX_BYTES
  | Rc_Unknown => 0
  end.

Record ReserveRequest : Type := mkReserveRequest {
  rq_request_id : RequestId;
  rq_class : ResourceClass;
  rq_bytes : Z;
}.

Inductive ReservationDecision : Type :=
| Rd_Reserved (reservation_id : ReservationId)
| Rd_RefusedSafety
| Rd_RefusedBudget
| Rd_UnknownResourceClass
| Rd_StaleLease
| Rd_IdempotenceConflict
| Rd_IdempotenceTableFull
| Rd_EntropyUnavailable.

Inductive CommitDecision : Type :=
| Cd_Committed | Cd_RefusedSafety | Cd_StaleLease | Cd_UnknownOrExpiredReservation.

Inductive ReleaseDecision : Type :=
| Rl_Released | Rl_AlreadyTerminal | Rl_StaleLease | Rl_UnknownReservation.

Inductive ReservationState : Type :=
| Rv_Reserved | Rv_Committed | Rv_Released | Rv_Expired | Rv_RefusedSafety | Rv_Consumed
| Rv_ConsumedReleased.

#[export] Instance ReservationState_eq_dec : EqDecision ReservationState.
Proof. solve_decision. Defined.

Record Reservation : Type := mkReservation {
  rv_peer_id : PeerId;
  rv_lease_id : LeaseId;
  rv_incarnation : WorkerIncarnationId;
  rv_request_id : RequestId;
  rv_class : ResourceClass;
  rv_bytes : Z;
  rv_expires_at_ms : Z;
  rv_state : ReservationState;
  rv_terminal_at_ms : option Z;
}.

(** [entry.state = state; entry.terminal_at_ms = terminal] *)
Definition set_state (r : Reservation) (state : ReservationState) (terminal : option Z) :
    Reservation :=
  mkReservation (rv_peer_id r) (rv_lease_id r) (rv_incarnation r) (rv_request_id r)
    (rv_class r) (rv_bytes r) (rv_expires_at_ms r) state terminal.

Record IdempotenceEntry : Type := mkIdem {
  id_lease_id : LeaseId;
  id_incarnation : WorkerIncarnationId;
  id_class : ResourceClass;
  id_bytes : Z;
  id_decision : ReservationDecision;
  id_terminal_at_ms : option Z;
}.

Definition set_idem_terminal (e : IdempotenceEntry) (now_ms : Z) : IdempotenceEntry :=
  mkIdem (id_lease_id e) (id_incarnation e) (id_class e) (id_bytes e) (id_decision e)
    (Some now_ms).

Record Recovery (T : Type) : Type := mkRecovery {
  rc_target : T;
  rc_since_ms : Z;
  rc_samples : Z;
}.
Arguments mkRecovery {T} _ _ _.
Arguments rc_target {T} _.
Arguments rc_since_ms {T} _.
Arguments rc_samples {T} _.

Record ReservationSnapshot : Type := mkSnapshot {
  sn_reservation_id : ReservationId;
  sn_class : ResourceClass;
  sn_bytes : Z;
  sn_state : ReservationState;
  sn_ttl_remaining_ms : Z;
}.

(** [ReservationSnapshot::wire_state] *)
Definition wire_state (s : ReservationSnapshot) : WireReservationState :=
  match sn_state s with
  | Rv_Reserved => Wr_Reserved
  | Rv_Committed => Wr_Committed
  | Rv_Released => Wr_Released
  | Rv_Expired => Wr_Expired
  | Rv_RefusedSafety => Wr_RefusedSafety
  | Rv_Consumed => Wr_Consumed
  | Rv_ConsumedReleased => Wr_ConsumedReleased
  end.

Inductive ReservationConsumeError : Type :=
| Cn_NotFound | Cn_InvalidOwnershipOrSize | Cn_NotCommitted | Cn_Expired | Cn_AlreadyConsumed
| Cn_InvalidState.

(** ** The guard *)

Module Guard.

(** The health half of the guard's state. *)
Record Health : Type := mkHealth {
  latest : option HealthSample;
  sample_count : Z;
  memory_blocked : bool;
  memory_recovery_since_ms : option Z;
  effective_thermal : ThermalBand;
  thermal_recovery : option (Recovery ThermalBand);
  effective_battery : BatteryBand;
  battery_recovery : option (Recovery BatteryBand);
}.

Record t : Type := mk {
  health : Health;
  allocated_bytes : Z;
  reservations : gmap ReservationId Reservation;
  idempotence : gmap (LeaseId * RequestId) IdempotenceEntry;
}.

Definition health_new : Health := mkHealth None 0 true None Th_Unknown None Bt_Unknown None.
Definition new : t := mk health_new 0 ∅ ∅.

(** *** Health *)

Definition set_memory (h : Health) (blocked : bool) (since : option Z) : Health :=
  mkHealth (latest h) (sample_count h) blocked since (effective_thermal h)
    (thermal_recovery h) (effective_battery h) (battery_recovery h).
Definition set_thermal (h : Health) (b : ThermalBand) (r : option (Recovery ThermalBand)) :
    Health :=
  mkHealth (latest h) (sample_count h) (memory_blocked h) (memory_recovery_since_ms h) b r
    (effective_battery h) (battery_recovery h).
Definition set_battery (h : Health) (b : BatteryBand) (r : option (Recovery BatteryBand)) :
    Health :=
  mkHealth (latest h) (sample_count h) (memory_blocked h) (memory_recovery_since_ms h)
    (effective_thermal h) (thermal_recovery h) b r.

Definition update_memory (h : Health) (sample : HealthSample) : Health :=
  if hs_low_memory sample || (hs_available_memory_bytes sample <? MIN_AVAILABLE_BYTES) then
    set_memory h true None
  else if memory_blocked h
          && (RECOVERY_AVAILABLE_BYTES <=? hs_available_memory_bytes sample) then
    let since := default (hs_monotonic_ms sample) (memory_recovery_since_ms h) in
    if 10000 <=? sat_sub (hs_monotonic_ms sample) since then set_memory h false None
    else set_memory h (memory_blocked h) (Some since)
  else if memory_blocked h then set_memory h (memory_blocked h) None
  else h.

(** [u8::saturating_add(1)] *)
Definition sat_incr8 (n : Z) : Z := Z.min (n + 1) 255.

Definition update_thermal (h : Health) (sample : HealthSample) : Health :=
  let observed := hs_thermal sample in
  if negb (is_some (latest h))
     || (ThermalBand_as_i32 (effective_thermal h) <? ThermalBand_as_i32 observed)
  then set_thermal h observed None
  else if ThermalBand_as_i32 observed <? ThermalBand_as_i32 (effective_thermal h) then
    let restart :=
      set_thermal h (effective_thermal h)
        (Some (mkRecovery observed (hs_monotonic_ms sample) 1)) in
    match thermal_recovery h with
    | Some recovery =>
        if bool_decide (rc_target recovery = observed) then
          let samples := sat_incr8 (rc_samples recovery) in
          if (2 <=? samples)
             && (10000 <=? sat_sub (hs_monotonic_ms sample) (rc_since_ms recovery))
          then set_thermal h observed None
          else set_thermal h (effective_thermal h)
                 (Some (mkRecovery observed (rc_since_ms recovery) samples))
        else restart
    | None => restart
    end
  else set_thermal h (effective_thermal h) None.

Definition update_battery (h : Health) (sample : HealthSample) : Health :=
  let observed := raw_battery_band (hs_battery_percent sample) (hs_charging sample) in
  if hs_charging sample then set_battery h Bt_Nominal None
  else if negb (is_some (latest h))
          || (BatteryBand_as_i32 (effective_battery h) <? BatteryBand_as_i32 observed)
  then set_battery h observed None
  else if BatteryBand_as_i32 observed <? BatteryBand_as_i32 (effective_battery h) then
    let threshold_met :=
      match effective_battery h with
      | Bt_Refused => 20 <=? hs_battery_percent sample
      | Bt_Throttle => 30 <=? hs_battery_percent sample
      | Bt_Nominal | Bt_Unknown => false
      end in
    if negb threshold_met then set_battery h (effective_battery h) None
    else
      let target :=
        if bool_decide (effective_battery h = Bt_Refused) then Bt_Throttle else Bt_Nominal in
      let restart :=
        set_battery h (effective_battery h)
          (Some (mkRecovery target (hs_monotonic_ms sample) 1)) in
      match battery_recovery h with
      | Some recovery =>
          if bool_decide (rc_target recovery = target) then
            if 30000 <=? sat_sub (hs_monotonic_ms sample) (rc_since_ms recovery) then
              set_battery h target None
            else set_battery h (effective_battery h)
                   (Some (mkRecovery target (rc_since_ms recovery)
                            (sat_incr8 (rc_samples recovery))))
          else restart
      | None => restart
      end
  else set_battery h (effective_battery h) None.

Definition health_status_of (h : Health) (now_ms : Z) : HealthStatus :=
  match latest h with
  | None => health_unavailable
  | Some sample =>
      let age := sat_sub now_ms (hs_monotonic_ms sample) in
      let fresh := (hs_monotonic_ms sample <=? now_ms) && (age <=? HEALTH_STALE_AFTER_MS) in
      let memory_refused :=
        memory_blocked h || hs_low_memory sample
        || (hs_available_memory_bytes sample <? MIN_AVAILABLE_BYTES) in
      let safety :=
        if memory_refused then Sb_RefusedMemoryPressure
        else if is_refused (thermal_safety (effective_thermal h)) then Sb_RefusedThermal
        else if bool_decide (effective_battery h = Bt_Refused) then Sb_RefusedBattery
        else if bool_decide (thermal_safety (effective_thermal h) = Sb_Throttle)
                || bool_decide (effective_battery h = Bt_Throttle)
                || hs_power_save sample
        then Sb_Throttle
        else Sb_Nominal in
      let safety := if negb fresh then Sb_RefusedStaleState else safety in
      {| hl_safety := safety;
         hl_thermal := effective_thermal h;
         hl_battery := effective_battery h;
         hl_battery_percent := hs_battery_percent sample;
         hl_available_memory_bytes := hs_available_memory_bytes sample;
         hl_low_memory := hs_low_memory sample;
         hl_charging := hs_charging sample;
         hl_power_save := hs_power_save sample;
         hl_sample_age_ms := Some age;
         hl_fresh := fresh;
         hl_budget_bytes :=
           if fresh && negb memory_refused then poc_budget (hs_available_memory_bytes sample)
           else 0 |}
  end.

Definition health_status (g : t) (now_ms : Z) : HealthStatus :=
  health_status_of (health g) now_ms.

Definition observe (h : Health) (sample : HealthSample) : Health :=
  let h := update_battery (update_thermal (update_memory h sample) sample) sample in
  mkHealth (Some sample) (sat_add64 (sample_count h) 1) (memory_blocked h)
    (memory_recovery_since_ms h) (effective_thermal h) (thermal_recovery h)
    (effective_battery h) (battery_recovery h).

Definition record_health (g : t) (sample : HealthSample) : t * HealthStatus :=
  let g := mk (observe (health g) sample) (allocated_bytes g) (reservations g)
             (idempotence g) in
  (g, health_status g (hs_monotonic_ms sample)).

(** *** Bookkeeping *)

Definition release_allocation (g : t) (bytes : Z) : t :=
  mk (health g) (sat_sub (allocated_bytes g) bytes) (reservations g) (idempotence g).

Definition mark_idempotence_terminal (g : t) (lease_id : LeaseId) (request_id : RequestId)
    (now_ms : Z) : t :=
  mk (health g) (allocated_bytes g) (reservations g)
    (alter (fun e => set_idem_terminal e now_ms) (lease_id, request_id) (idempotence g)).

(** [self.reservations.get_mut(&id)] and the two assignments that follow it. *)
Definition update_reservation (g : t) (id : ReservationId) (state : ReservationState)
    (terminal : option Z) : t :=
  mk (health g) (allocated_bytes g)
    (alter (fun r => set_state r state terminal) id (reservations g)) (idempotence g).

Definition remove_reservation (g : t) (id : ReservationId) : t :=
  mk (health g) (allocated_bytes g) (delete id (reservations g)) (idempotence g).

Definition expire_one (now_ms : Z) (g : t) (x : ReservationId * Reservation) : t :=
  let '(id, r) := x in
  let g := release_allocation g (rv_bytes r) in
  let g := update_reservation g id Rv_Expired (Some now_ms) in
  mark_idempotence_terminal g (rv_lease_id r) (rv_request_id r) now_ms.

Definition due (now_ms : Z) (r : Reservation) : Prop :=
  rv_state r = Rv_Reserved /\ rv_expires_at_ms r <= now_ms.
#[global] Instance due_dec now_ms r : Decision (due now_ms r).
Proof. unfold due. apply _. Defined.

Definition expire_reserved (g : t) (now_ms : Z) : t :=
  let expired := map_to_list (filter (fun x => due now_ms x.2) (reservations g)) in
  foldl (expire_one now_ms) g expired.

(** [terminal_at_ms.is_none_or(|terminal| now - terminal <= TERMINAL_RETENTION_MS)] *)
Definition retained (now_ms : Z) (terminal : option Z) : Prop :=
  match terminal with
  | None => True
  | Some at_ms => sat_sub now_ms at_ms <= TERMINAL_RETENTION_MS
  end.
#[global] Instance retained_dec now_ms o : Decision (retained now_ms o).
Proof. unfold retained. destruct o; apply _. Defined.

(** [self.reservations.retain(..)] *)
Definition retain_reservations (g : t) (now_ms : Z) : t :=
  mk (health g) (allocated_bytes g)
    (filter (fun x => retained now_ms (rv_terminal_at_ms x.2)) (reservations g))
    (idempotence g).

Definition drop_superseded (g : t) (x : ReservationId * Reservation) : t :=
  let '(id, r) := x in
  let g :=
    match rv_state r with
    | Rv_Reserved | Rv_Committed => release_allocation g (rv_bytes r)
    | _ => g
    end in
  remove_reservation g id.

Definition superseded (lease_id : LeaseId) (incarnation : WorkerIncarnationId)
    (r : Reservation) : Prop :=
  rv_state r <> Rv_Consumed /\ rv_state r <> Rv_ConsumedReleased /\
  (rv_lease_id r <> lease_id \/ rv_incarnation r <> incarnation).
#[global] Instance superseded_dec l i r : Decision (superseded l i r).
Proof. unfold superseded. apply _. Defined.

Definition expire_and_purge (g : t) (now_ms : Z) (active_lease : LeaseId)
    (active_incarnation : WorkerIncarnationId) : t :=
  let gone := map_to_list
    (filter (fun x => superseded active_lease active_incarnation x.2) (reservations g)) in
  let g := foldl drop_superseded g gone in
  let g := expire_reserved g now_ms in
  let g := mk (health g) (allocated_bytes g) (reservations g)
    (filter (fun x => id_lease_id x.2 = active_lease /\
                      id_incarnation x.2 = active_incarnation /\
                      retained now_ms (id_terminal_at_ms x.2)) (idempotence g)) in
  retain_reservations g now_ms.

Definition tick (g : t) (now_ms : Z) : t :=
  let g := expire_reserved g now_ms in
  let g := mk (health g) (allocated_bytes g) (reservations g)
    (filter (fun x => retained now_ms (id_terminal_at_ms x.2)) (idempotence g)) in
  retain_reservations g now_ms.

(** *** Operations *)

(** The decision of [reserve] once the request is known to be new. *)
Definition reserve_fresh (g : t) (proof : LeaseProof) (request : ReserveRequest) (now_ms : Z)
    (entropy : Entropy) : t * ReservationDecision :=
  let status := health_status g now_ms in
  if bool_decide (rq_class request = Rc_Unknown) then (g, Rd_UnknownResourceClass)
  else if (rq_bytes request =? 0) || (max_request_bytes (rq_class request) <? rq_bytes request)
  then (g, Rd_RefusedBudget)
  else if is_refused (hl_safety status) then (g, Rd_RefusedSafety)
  else
    let remaining := sat_sub (hl_budget_bytes status) (allocated_bytes g) in
    if (rq_bytes request =? 0) || (remaining <? rq_bytes request) then (g, Rd_RefusedBudget)
    else
      match random_nonzero_128 entropy with
      | Err _ => (g, Rd_EntropyUnavailable)
      | Ok reservation_id =>
          let r := {|
            rv_peer_id := pf_peer_id proof;
            rv_lease_id := pf_lease_id proof;
            rv_incarnation := pf_incarnation proof;
            rv_request_id := rq_request_id request;
            rv_class := rq_class request;
            rv_bytes := rq_bytes request;
            rv_expires_at_ms := sat_add64 now_ms RESERVATION_TTL_MS;
            rv_state := Rv_Reserved;
            rv_terminal_at_ms := None |} in
          (mk (health g) (sat_add64 (allocated_bytes g) (rq_bytes request))
             (<[reservation_id := r]> (reservations g)) (idempotence g),
           Rd_Reserved reservation_id)
      end.

Definition reserve (g : t) (leases : LeaseManager.t) (session : AuthenticatedSession)
    (lease_id : LeaseId) (request : ReserveRequest) (now_ms : Z) (entropy : Entropy) :
    t * LeaseManager.t * ReservationDecision :=
  match LeaseManager.validate leases session lease_id now_ms with
  | (leases, Err _) => (g, leases, Rd_StaleLease)
  | (leases, Ok proof) =>
      let g := expire_and_purge g now_ms lease_id (pf_incarnation proof) in
      let key := (pf_lease_id proof, rq_request_id request) in
      match idempotence g !! key with
      | Some existing =>
          if negb (bool_decide (id_lease_id existing = pf_lease_id proof))
             || negb (bool_decide (id_incarnation existing = pf_incarnation proof))
          then (g, leases, Rd_IdempotenceConflict)
          else if bool_decide (id_class existing = rq_class request)
                  && (id_bytes existing =? rq_bytes request)
          then (g, leases, id_decision existing)
          else (g, leases, Rd_IdempotenceConflict)
      | None =>
          if IDEMPOTENCE_CAPACITY <=? Z.of_nat (size (idempotence g)) then
            (g, leases, Rd_IdempotenceTableFull)
          else
            let '(g, decision) := reserve_fresh g proof request now_ms entropy in
            let terminal_at_ms :=
              match decision with Rd_Reserved _ => None | _ => Some now_ms end in
            let entry := {|
              id_lease_id := pf_lease_id proof;
              id_incarnation := pf_incarnation proof;
              id_class := rq_class request;
              id_bytes := rq_bytes request;
              id_decision := decision;
              id_terminal_at_ms := terminal_at_ms |} in
            (mk (health g) (allocated_bytes g) (reservations g)
               (<[key := entry]> (idempotence g)), leases, decision)
      end
  end.

Definition commit (g : t) (leases : LeaseManager.t) (session : AuthenticatedSession)
    (lease_id : LeaseId) (reservation_id : ReservationId) (now_ms : Z) :
    t * LeaseManager.t * CommitDecision :=
  match LeaseManager.validate leases session lease_id now_ms with
  | (leases, Err _) => (g, leases, Cd_StaleLease)
  | (leases, Ok proof) =>
      let g := expire_and_purge g now_ms lease_id (pf_incarnation proof) in
      match reservations g !! reservation_id with
      | None => (g, leases, Cd_UnknownOrExpiredReservation)
      | Some r =>
          if negb (bool_decide (rv_lease_id r = pf_lease_id proof))
             || negb (bool_decide (rv_incarnation r = pf_incarnation proof))
          then (g, leases, Cd_StaleLease)
          else
            match rv_state r with
            | Rv_Committed => (g, leases, Cd_Committed)
            | Rv_Reserved =>
                if is_refused (hl_safety (health_status g now_ms)) then
                  let g := release_allocation g (rv_bytes r) in
                  let g := update_reservation g reservation_id Rv_RefusedSafety
                             (Some now_ms) in
                  let g := mark_idempotence_terminal g (rv_lease_id r) (rv_request_id r)
                             now_ms in
                  (g, leases, Cd_RefusedSafety)
                else
                  (mk (health g) (allocated_bytes g)
                     (alter (fun r => set_state r Rv_Committed (rv_terminal_at_ms r))
                        reservation_id (reservations g)) (idempotence g),
                   leases, Cd_Committed)
            | _ => (g, leases, Cd_UnknownOrExpiredReservation)
            end
      end
  end.

Definition release (g : t) (leases : LeaseManager.t) (session : AuthenticatedSession)
    (lease_id : LeaseId) (reservation_id : ReservationId) (now_ms : Z) :
    t * LeaseManager.t * ReleaseDecision :=
  match LeaseManager.validate leases session lease_id now_ms with
  | (leases, Err _) => (g, leases, Rl_StaleLease)
  | (leases, Ok proof) =>
      let g := expire_and_purge g now_ms lease_id (pf_incarnation proof) in
      match reservations g !! reservation_id with
      | None => (g, leases, Rl_UnknownReservation)
      | Some r =>
          if negb (bool_decide (rv_lease_id r = pf_lease_id proof))
             || negb (bool_decide (rv_incarnation r = pf_incarnation proof))
          then (g, leases, Rl_StaleLease)
          else
            match rv_state r with
            | Rv_Reserved | Rv_Committed =>
                let g := release_allocation g (rv_bytes r) in
                let g := update_reservation g reservation_id Rv_Released (Some now_ms) in
                let g := mark_idempotence_terminal g (rv_lease_id r) (rv_request_id r)
                           now_ms in
                (g, leases, Rl_Released)
            | _ => (g, leases, Rl_AlreadyTerminal)
            end
      end
  end.

Definition reservation_snapshot (g : t) (proof : LeaseProof) (reservation_id : ReservationId)
    (now_ms : Z) : t * option ReservationSnapshot :=
  let g := expire_and_purge g now_ms (pf_lease_id proof) (pf_incarnation proof) in
  (g,
   match reservations g !! reservation_id with
   | None => None
   | Some r =>
       if negb (bool_decide (rv_peer_id r = pf_peer_id proof))
          || negb (bool_decide (rv_lease_id r = pf_lease_id proof))
          || negb (bool_decide (rv_incarnation r = pf_incarnation proof))
       then None
       else Some {|
         sn_reservation_id := reservation_id;
         sn_class := rv_class r;
         sn_bytes := rv_bytes r;
         sn_state := rv_state r;
         sn_ttl_remaining_ms :=
           if bool_decide (rv_state r = Rv_Reserved) then
             Z.min (sat_sub (rv_expires_at_ms r) now_ms) U32_MAX
           else 0 |}
   end).

Definition consume (g : t) (proof : LeaseProof) (reservation_id : ReservationId)
    (class : ResourceClass) (exact_bytes : option Z) (now_ms : Z) :
    t * result unit ReservationConsumeError :=
  let g := expire_and_purge g now_ms (pf_lease_id proof) (pf_incarnation proof) in
  match reservations g !! reservation_id with
  | None => (g, Err Cn_NotFound)
  | Some r =>
      if negb (bool_decide (rv_peer_id r = pf_peer_id proof))
         || negb (bool_decide (rv_lease_id r = pf_lease_id proof))
         || negb (bool_decide (rv_incarnation r = pf_incarnation proof))
         || negb (bool_decide (rv_class r = class))
         || match exact_bytes with Some bytes => negb (rv_bytes r =? bytes) | None => false end
      then (g, Err Cn_InvalidOwnershipOrSize)
      else
        match rv_state r with
        | Rv_Committed =>
            (mk (health g) (allocated_bytes g)
               (<[reservation_id := set_state r Rv_Consumed (rv_terminal_at_ms r)]>
                  (reservations g)) (idempotence g), Ok tt)
        | Rv_Reserved => (g, Err Cn_NotCommitted)
        | Rv_Expired => (g, Err Cn_Expired)
        | Rv_Consumed | Rv_ConsumedReleased => (g, Err Cn_AlreadyConsumed)
        | Rv_Released | Rv_RefusedSafety => (g, Err Cn_InvalidState)
        end
  end.

Definition consume_for_buffer (g : t) (proof : LeaseProof) (reservation_id : ReservationId)
    (size_bytes now_ms : Z) : t * result unit ReservationConsumeError :=
  let g := expire_and_purge g now_ms (pf_lease_id proof) (pf_incarnation proof) in
  consume g proof reservation_id Rc_RemoteBufferBytes (Some size_bytes) now_ms.

(** [None] is the panic of [expect("consumed reservation remains present")]. *)
Definition consume_for_compute (g : t) (proof : LeaseProof) (reservation_id : ReservationId)
    (now_ms : Z) : option (t * result Z ReservationConsumeError) :=
  match consume g proof reservation_id Rc_NativeOpScratchBytes None now_ms with
  | (g, Err e) => Some (g, Err e)
  | (g, Ok _) =>
      match reservations g !! reservation_id with
      | Some r => Some (g, Ok (rv_bytes r))
      | None => None
      end
  end.

Definition release_consumed (g : t) (reservation_id : ReservationId) (class : ResourceClass)
    (bytes now_ms : Z) : t :=
  match reservations g !! reservation_id with
  | None => g
  | Some r =>
      if negb (bool_decide (rv_state r = Rv_Consumed))
         || negb (bool_decide (rv_class r = class))
         || negb (rv_bytes r =? bytes)
      then g
      else
        let g := mk (health g) (allocated_bytes g)
          (<[reservation_id := set_state r Rv_ConsumedReleased (Some now_ms)]>
             (reservations g)) (idempotence g) in
        release_allocation g bytes
  end.

Definition release_consumed_buffer (g : t) (id : ReservationId) (bytes now_ms : Z) : t :=
  release_consumed g id Rc_RemoteBufferBytes bytes now_ms.
Definition release_consumed_compute (g : t) (id : ReservationId) (bytes now_ms : Z) : t :=
  release_consumed g id Rc_NativeOpScratchBytes bytes now_ms.

End Guard.
