(* ===== verification/GuardFacts.v ===== *)
(** * The resource guard: accounting, life cycle and health

    The reservations of [ResourceGuard] as a transition system.  [guard_step] has
    a rule per operation of the guard, plus arbitrary changes of the lease
    manager; the theorems are invariants of everything reachable from a fresh
    guard. *)

From Stdlib Require Import ZArith Lia.
From stdpp Require Import base tactics list gmap relations.
From S2P Require Import Prelude Types ResourceWire Lease ResourceGuard.

Import Guard.

(** ** The loops over reservations *)

Lemma alter_insert_some {V} (k : ReservationId) (r : V) (f : V -> V) (m : gmap ReservationId V) :
  m !! k = Some r -> alter f k m = <[k := f r]> m.
Proof.
  intros H. apply map_eq. intros i. destruct (decide (i = k)) as [->|Hne].
  - by rewrite lookup_alter_eq, lookup_insert_eq, H.
  - by rewrite lookup_alter_ne, lookup_insert_ne.
Qed.

Definition expire_res (now : Z) (r : Reservation) : Reservation :=
  if decide (due now r) then set_state r Rv_Expired (Some now) else r.

Section Loops.
Implicit Types (g : Guard.t) (l : list (ReservationId * Reservation)).

Lemma expire_fold_lookup now l g i :
  NoDup l.*1 ->
  reservations (foldl (expire_one now) g l) !! i =
    if decide (i ∈ l.*1) then (fun r => set_state r Rv_Expired (Some now)) <$> reservations g !! i
    else reservations g !! i.
Proof.
  revert g. induction l as [|[k r] l IH]; intros g Hn; cbn [foldl fmap list_fmap fst];
    [by rewrite decide_False by (apply not_elem_of_nil)|].
  apply NoDup_cons in Hn as [Hk Hn]. rewrite IH by done. cbn.
  destruct (decide (i = k)) as [->|Hne].
  - rewrite decide_False, lookup_alter_eq by done. rewrite decide_True; [done|set_solver].
  - rewrite lookup_alter_ne by done. destruct (decide (i ∈ l.*1));
      [rewrite decide_True by set_solver|rewrite decide_False by set_solver]; done.
Qed.

Lemma drop_fold_lookup l g i :
  reservations (foldl drop_superseded g l) !! i =
    if decide (i ∈ l.*1) then None else reservations g !! i.
Proof.
  revert g. induction l as [|[k r] l IH]; intros g; cbn [foldl fmap list_fmap fst];
    [by rewrite decide_False by (apply not_elem_of_nil)|].
  rewrite IH. assert (E : reservations (drop_superseded g (k, r)) = delete k (reservations g))
    by (unfold drop_superseded; by destruct (rv_state r)).
  rewrite E. destruct (decide (i = k)) as [->|Hne].
  - rewrite lookup_delete_eq. case_decide; by rewrite decide_True by set_solver.
  - rewrite lookup_delete_ne by done. destruct (decide (i ∈ l.*1));
      [rewrite decide_True by set_solver|rewrite decide_False by set_solver]; done.
Qed.

Lemma map_keys_NoDup (m : gmap ReservationId Reservation) : NoDup (map_to_list m).*1.
Proof. apply NoDup_fst_map_to_list. Qed.

Lemma elem_of_keys (P : ReservationId * Reservation -> Prop) `{!forall x, Decision (P x)}
    (m : gmap ReservationId Reservation) i :
  i ∈ (map_to_list (filter P m)).*1 <-> exists r, m !! i = Some r /\ P (i, r).
Proof.
  rewrite list_elem_of_fmap. split.
  - intros ([k r] & -> & Hin). apply elem_of_map_to_list, map_lookup_filter_Some in Hin. eauto.
  - intros (r & Hm & HP). exists (i, r). split; [done|].
    apply elem_of_map_to_list, map_lookup_filter_Some. done.
Qed.

Lemma expire_reserved_lookup g now i :
  reservations (expire_reserved g now) !! i = expire_res now <$> reservations g !! i.
Proof.
  unfold expire_reserved. rewrite expire_fold_lookup by apply map_keys_NoDup.
  unfold expire_res. case_decide as Hd.
  - apply (elem_of_keys (fun x => due now x.2)) in Hd as (r & Hr & Hdue). simpl in Hdue. rewrite Hr. simpl.
    by rewrite decide_True.
  - destruct (reservations g !! i) as [r|] eqn:Hr; [|done]. simpl.
    rewrite decide_False; [done|]. intros Hdue. apply Hd.
    apply (elem_of_keys (fun x => due now x.2)). eauto.
Qed.

(** What [expire_and_purge] leaves of a reservation. *)
Definition purge_res (now : Z) (lease : LeaseId) (inc : WorkerIncarnationId) (r : Reservation) :
    option Reservation :=
  if decide (superseded lease inc r) then None
  else if decide (retained now (rv_terminal_at_ms (expire_res now r)))
       then Some (expire_res now r) else None.

Lemma purge_lookup g now lease inc i :
  reservations (expire_and_purge g now lease inc) !! i =
    reservations g !! i ≫= purge_res now lease inc.
Proof.
  unfold expire_and_purge, retain_reservations. cbn [reservations health allocated_bytes idempotence].
  set (g1 := foldl drop_superseded g _).
  assert (H1 : reservations g1 !! i =
    reservations g !! i ≫= fun r => if decide (superseded lease inc r) then None else Some r).
  { unfold g1. rewrite drop_fold_lookup. case_decide as Hd.
    - apply (elem_of_keys (fun x => superseded lease inc x.2)) in Hd as (r & Hr & Hs). rewrite Hr. simpl in *.
      by rewrite decide_True.
    - destruct (reservations g !! i) as [r|] eqn:Hr; [|done]. simpl.
      rewrite decide_False; [done|]. intros Hs. apply Hd.
      apply (elem_of_keys (fun x => superseded lease inc x.2)). eauto. }
  rewrite map_lookup_filter, expire_reserved_lookup, H1.
  destruct (reservations g !! i) as [r|]; [|done]. simpl. unfold purge_res.
  destruct (decide (superseded lease inc r)); [done|]. simpl.
  destruct (decide (retained now _)) as [Hret|Hret]; [by rewrite option_guard_True|
    by rewrite option_guard_False].
Qed.

(** The loops do not touch the health state. *)
Lemma expire_fold_health now l g : health (foldl (expire_one now) g l) = health g.
Proof. revert g. induction l as [|[k r] l IH]; intros g; [done|]. simpl. by rewrite IH. Qed.
Lemma drop_fold_health l g : health (foldl drop_superseded g l) = health g.
Proof.
  revert g. induction l as [|[k r] l IH]; intros g; [done|]. cbn [foldl]. rewrite IH.
  unfold drop_superseded. by destruct (rv_state r).
Qed.
Lemma purge_health g now lease inc : health (expire_and_purge g now lease inc) = health g.
Proof.
  unfold expire_and_purge, expire_reserved. cbn. by rewrite expire_fold_health, drop_fold_health.
Qed.
End Loops.

(** ** The accounting invariant *)

(** The states in which a reservation holds its bytes. *)
Definition live (s : ReservationState) : bool :=
  match s with Rv_Reserved | Rv_Committed | Rv_Consumed => true | _ => false end.

Definition held (_ : ReservationId) (r : Reservation) : Z :=
  if live (rv_state r) then rv_bytes r else 0.

Record GInv (g : Guard.t) : Prop := {
  gi_alloc : allocated_bytes g = msum held (reservations g);
  gi_cap : allocated_bytes g <= POC_CAP_BYTES;
  gi_bytes id r : reservations g !! id = Some r ->
    0 < rv_bytes r <= max_request_bytes (rv_class r);
  gi_terminal id r : reservations g !! id = Some r ->
    live (rv_state r) = true <-> rv_terminal_at_ms r = None;
}.

Lemma max_request_cap c : max_request_bytes c <= POC_CAP_BYTES.
Proof. by destruct c. Qed.

Lemma held_nonneg g id r : GInv g -> reservations g !! id = Some r -> 0 <= held id r.
Proof. intros Hg Hr. destruct (gi_bytes g Hg id r Hr). unfold held. case_match; lia. Qed.

Lemma held_le g id r : GInv g -> reservations g !! id = Some r -> held id r <= allocated_bytes g.
Proof.
  intros Hg Hr. rewrite (gi_alloc g Hg). apply msum_elem_le; [|done].
  intros k v. by apply held_nonneg.
Qed.

Lemma ginv_new : GInv Guard.new.
Proof. by constructor. Qed.

(** Only the reservations and the counter matter. *)
Lemma ginv_fields g h i : GInv g -> GInv (Guard.mk h (allocated_bytes g) (reservations g) i).
Proof. by intros []. Qed.

(** A live reservation ends and gives its bytes back. *)
Lemma ginv_end g id r st now h i :
  GInv g -> reservations g !! id = Some r -> live (rv_state r) = true -> live st = false ->
  GInv (Guard.mk h (sat_sub (allocated_bytes g) (rv_bytes r))
          (<[id := set_state r st (Some now)]> (reservations g)) i).
Proof.
  intros Hg Hr Hl Hs. pose proof (held_le g id r Hg Hr) as Hle. unfold held in Hle.
  rewrite Hl in Hle. destruct (gi_bytes g Hg id r Hr) as [Hb Hb'].
  constructor; cbn [allocated_bytes reservations].
  - rewrite (msum_replace held _ id r) by done. unfold held at 2 3. cbn. rewrite Hl, Hs.
    rewrite <- (gi_alloc g Hg). unfold sat_sub. lia.
  - pose proof (gi_cap g Hg). unfold sat_sub. lia.
  - intros k v H. apply lookup_insert_Some in H as [[<- <-]|[_ H]]; [done|by apply (gi_bytes g Hg k)].
  - intros k v H. apply lookup_insert_Some in H as [[<- <-]|[_ H]]; [|by apply (gi_terminal g Hg k)].
    cbn. rewrite Hs. done.
Qed.

(** A live reservation stays live. *)
Lemma ginv_move g id r st h i :
  GInv g -> reservations g !! id = Some r -> live (rv_state r) = true -> live st = true ->
  GInv (Guard.mk h (allocated_bytes g)
          (<[id := set_state r st (rv_terminal_at_ms r)]> (reservations g)) i).
Proof.
  intros Hg Hr Hl Hs. constructor; cbn [allocated_bytes reservations].
  - rewrite (msum_replace held _ id r) by done. unfold held at 2 3. cbn. rewrite Hl, Hs.
    rewrite <- (gi_alloc g Hg). lia.
  - apply Hg.
  - intros k v H. apply lookup_insert_Some in H as [[<- <-]|[_ H]]; [|by apply (gi_bytes g Hg k)].
    by apply (gi_bytes g Hg id r).
  - intros k v H. apply lookup_insert_Some in H as [[<- <-]|[_ H]]; [|by apply (gi_terminal g Hg k)].
    cbn. rewrite Hs. pose proof (gi_terminal g Hg id r Hr). rewrite Hl in *. done.
Qed.

Lemma ginv_drop g id r h i :
  GInv g -> reservations g !! id = Some r ->
  GInv (Guard.mk h (allocated_bytes g - held id r) (delete id (reservations g)) i).
Proof.
  intros Hg Hr. pose proof (held_nonneg g id r Hg Hr). constructor; cbn.
  - rewrite (gi_alloc g Hg), (msum_delete held _ id r Hr). lia.
  - pose proof (gi_cap g Hg). lia.
  - intros k v H'. apply lookup_delete_Some in H' as [_ H']. by apply (gi_bytes g Hg k).
  - intros k v H'. apply lookup_delete_Some in H' as [_ H']. by apply (gi_terminal g Hg k).
Qed.

(** A list of stored entries, as the snapshot loops see it. *)
Definition stored (g : Guard.t) (l : list (ReservationId * Reservation)) : Prop :=
  NoDup l.*1 /\ Forall (fun x => reservations g !! x.1 = Some x.2) l.

Lemma stored_snapshot (P : ReservationId * Reservation -> Prop) `{!forall x, Decision (P x)} g :
  stored g (map_to_list (filter P (reservations g))).
Proof.
  split; [apply NoDup_fst_map_to_list|]. apply Forall_forall. intros [k r] Hin.
  by apply elem_of_map_to_list, map_lookup_filter_Some in Hin as [? _].
Qed.

(** Changing one entry keeps the rest of the snapshot stored. *)
Lemma stored_tail g g' k r l :
  stored g ((k, r) :: l) ->
  (forall i, i <> k -> reservations g' !! i = reservations g !! i) -> stored g' l.
Proof.
  intros [Hn Hf] Hg. cbn in Hn. apply NoDup_cons in Hn as [Hk Hn].
  apply Forall_cons in Hf as [_ Hf]. split; [done|].
  rewrite Forall_forall in *. intros [i v] Hi. cbn. rewrite Hg; [by apply (Hf (i, v))|].
  intros ->. apply Hk. apply list_elem_of_fmap. by exists (k, v).
Qed.

Lemma expire_fold_inv now l g :
  GInv g -> stored g l -> Forall (fun x => due now x.2) l -> GInv (foldl (expire_one now) g l).
Proof.
  revert g. induction l as [|[k r] l IH]; intros g Hg Hs Hd; [done|].
  apply Forall_cons in Hd as [Hd1 Hd]. cbn [foldl]. cbn in Hd1.
  assert (Hr : reservations g !! k = Some r) by (destruct Hs as [_ Hs]; by apply Forall_cons in Hs as [? _]).
  apply IH; [| |done].
  - unfold expire_one, mark_idempotence_terminal, update_reservation, release_allocation. cbn.
    rewrite (alter_insert_some k r) by done. destruct Hd1 as [E _].
    apply ginv_end; try done. by rewrite E.
  - eapply stored_tail; [exact Hs|]. intros i Hi. cbn. by rewrite lookup_alter_ne.
Qed.

Lemma drop_fold_inv l g : GInv g -> stored g l ->
  Forall (fun x => rv_state x.2 <> Rv_Consumed) l -> GInv (foldl drop_superseded g l).
Proof.
  revert g. induction l as [|[k r] l IH]; intros g Hg Hs Hc; [done|].
  apply Forall_cons in Hc as [Hc1 Hc]. cbn [foldl]. cbn in Hc1.
  assert (Hr : reservations g !! k = Some r) by (destruct Hs as [_ Hs]; by apply Forall_cons in Hs as [? _]).
  pose proof (held_le g k r Hg Hr) as Hle. pose proof (ginv_drop g k r (health g) (idempotence g) Hg Hr) as Hd.
  apply IH; [| |done].
  - unfold drop_superseded, remove_reservation, release_allocation, held, sat_sub in *.
    destruct (rv_state r); cbn in *; try done;
      try (rewrite Z.max_r by lia); try (rewrite Z.sub_0_r in Hd); done.
  - eapply stored_tail; [exact Hs|]. intros i Hi. unfold drop_superseded.
    destruct (rv_state r); cbn; by rewrite lookup_delete_ne.
Qed.

Lemma expire_reserved_inv g now : GInv g -> GInv (expire_reserved g now).
Proof.
  intros Hg. apply expire_fold_inv; [done|apply stored_snapshot|].
  apply Forall_forall. intros [k r] H.
  by apply elem_of_map_to_list, map_lookup_filter_Some in H as [_ ?].
Qed.

Lemma retain_inv g now : GInv g -> GInv (retain_reservations g now).
Proof.
  intros Hg. constructor; cbn.
  - rewrite (gi_alloc g Hg). symmetry. apply msum_filter. cbn. intros k r Hr Hret.
    unfold held. case_match eqn:E; [|done]. apply (gi_terminal g Hg k r Hr) in E.
    by rewrite E in Hret.
  - apply Hg.
  - intros k r H. apply map_lookup_filter_Some in H as [H _]. by apply (gi_bytes g Hg k).
  - intros k r H. apply map_lookup_filter_Some in H as [H _]. by apply (gi_terminal g Hg k).
Qed.

Lemma purge_inv g now lease inc : GInv g -> GInv (expire_and_purge g now lease inc).
Proof.
  intros Hg. unfold expire_and_purge. apply retain_inv, ginv_fields, expire_reserved_inv.
  apply drop_fold_inv; [done|apply stored_snapshot|].
  apply Forall_forall. intros [k r] H.
  by apply elem_of_map_to_list, map_lookup_filter_Some in H as [_ (? & _)].
Qed.

Lemma tick_inv g now : GInv g -> GInv (tick g now).
Proof. intros Hg. by apply retain_inv, ginv_fields, expire_reserved_inv. Qed.

(** ** Every operation keeps the invariant *)

Lemma budget_cap g now : hl_budget_bytes (health_status g now) <= POC_CAP_BYTES.
Proof.
  unfold health_status, health_status_of. destruct (latest (health g)); [|done]. cbn.
  unfold poc_budget. repeat case_match; bool_hyps; unfold POC_CAP_BYTES in *; lia.
Qed.

(** A new reservation gets an identifier that is not in use. *)
Definition fresh_id (g : Guard.t) (e : Entropy) : Prop :=
  forall id : ReservationId, random_nonzero_128 e = Ok id -> reservations g !! id = None.

Lemma fresh_purge g e now lease inc :
  fresh_id g e -> fresh_id (expire_and_purge g now lease inc) e.
Proof. intros Hf id Hid. by rewrite purge_lookup, (Hf id Hid). Qed.

Lemma reserve_fresh_inv g proof rq now e :
  GInv g -> fresh_id g e -> 0 <= rq_bytes rq -> GInv (fst (reserve_fresh g proof rq now e)).
Proof.
  intros Hg Hf Hb. unfold reserve_fresh. pose proof (budget_cap g now) as Hcap.
  repeat case_match; try done. bool_hyps. cbn [fst].
  assert (0 <= allocated_bytes g).
  { rewrite (gi_alloc g Hg). apply msum_nonneg. intros k v. by apply held_nonneg. }
  unfold sat_sub, POC_CAP_BYTES in *.
  assert (Ha : sat_add64 (allocated_bytes g) (rq_bytes rq) = allocated_bytes g + rq_bytes rq)
    by (unfold sat_add64, U64_MAX; lia).
  rewrite Ha. constructor; cbn [allocated_bytes reservations].
  - rewrite msum_insert by eauto. unfold held at 1. cbn. rewrite (gi_alloc g Hg). lia.
  - unfold POC_CAP_BYTES. lia.
  - intros k v Hk. apply lookup_insert_Some in Hk as [[<- <-]|[_ Hk]]; [cbn; lia|].
    by apply (gi_bytes g Hg k).
  - intros k v Hk. apply lookup_insert_Some in Hk as [[<- <-]|[_ Hk]]; [done|].
    by apply (gi_terminal g Hg k).
Qed.

Lemma reserve_inv g m session lease rq now e g' m' d :
  GInv g -> fresh_id g e -> 0 <= rq_bytes rq ->
  reserve g m session lease rq now e = (g', m', d) -> GInv g'.
Proof.
  intros Hg Hf Hb H. unfold reserve in H.
  destruct (LeaseManager.validate _ _ _ _) as [m1 [pf|]]; [|by simplify_eq].
  pose proof (purge_inv g now lease (pf_incarnation pf) Hg) as Hp.
  pose proof (fresh_purge g e now lease (pf_incarnation pf) Hf) as Hfp.
  set (g1 := expire_and_purge g now lease (pf_incarnation pf)) in *. cbv zeta in H. clearbody g1.
  pose proof (reserve_fresh_inv g1 pf rq now e Hp Hfp Hb) as Hr.
  destruct (reserve_fresh g1 pf rq now e) as [g2 d2]. cbn in Hr.
  repeat case_match; simplify_eq; try done; by apply ginv_fields.
Qed.

Lemma commit_inv g m session lease id now g' m' d :
  GInv g -> commit g m session lease id now = (g', m', d) -> GInv g'.
Proof.
  intros Hg H. unfold commit in H.
  destruct (LeaseManager.validate _ _ _ _) as [m1 [pf|]]; [|by simplify_eq].
  pose proof (purge_inv g now lease (pf_incarnation pf) Hg) as Hp.
  set (g1 := expire_and_purge g now lease (pf_incarnation pf)) in *. cbv zeta in H. clearbody g1.
  destruct (reservations g1 !! id) as [r|] eqn:Er; [|by simplify_eq].
  match type of H with (if ?c then _ else _) = _ => destruct c end; [by simplify_eq|].
  destruct (rv_state r) eqn:Es; try by simplify_eq.
  destruct (is_refused _); simplify_eq.
  - unfold mark_idempotence_terminal, update_reservation, release_allocation. cbn.
    rewrite (alter_insert_some id r) by done. apply ginv_end; try done. by rewrite Es.
  - rewrite (alter_insert_some id r) by done. apply ginv_move; try done. by rewrite Es.
Qed.

Lemma release_inv g m session lease id now g' m' d :
  GInv g -> release g m session lease id now = (g', m', d) -> GInv g'.
Proof.
  intros Hg H. unfold release in H.
  destruct (LeaseManager.validate _ _ _ _) as [m1 [pf|]]; [|by simplify_eq].
  pose proof (purge_inv g now lease (pf_incarnation pf) Hg) as Hp.
  set (g1 := expire_and_purge g now lease (pf_incarnation pf)) in *. cbv zeta in H. clearbody g1.
  destruct (reservations g1 !! id) as [r|] eqn:Er; [|by simplify_eq].
  match type of H with (if ?c then _ else _) = _ => destruct c end; [by simplify_eq|].
  destruct (rv_state r) eqn:Es; simplify_eq; try done;
    unfold mark_idempotence_terminal, update_reservation, release_allocation; cbn;
    rewrite (alter_insert_some id r) by done; apply ginv_end; try done; by rewrite Es.
Qed.

Lemma consume_inv g pf id c n now g' r :
  GInv g -> consume g pf id c n now = (g', r) -> GInv g'.
Proof.
  intros Hg H. unfold consume in H.
  pose proof (purge_inv g now (pf_lease_id pf) (pf_incarnation pf) Hg) as Hp.
  set (g1 := expire_and_purge _ _ _ _) in *. cbv zeta in H. clearbody g1.
  destruct (reservations g1 !! id) as [v|] eqn:Er; [|by simplify_eq].
  match type of H with (if ?c then _ else _) = _ => destruct c end; [by simplify_eq|].
  destruct (rv_state v) eqn:Es; simplify_eq; try done. apply ginv_move; try done. by rewrite Es.
Qed.

Lemma release_consumed_inv g id c n now : GInv g -> GInv (release_consumed g id c n now).
Proof.
  intros Hg. unfold release_consumed. destruct (reservations g !! id) as [r|] eqn:Er; [|done].
  match goal with |- GInv (if ?c then _ else _) => destruct c eqn:G end; [done|]. bool_hyps. subst n. unfold release_allocation. cbn.
  match goal with H : rv_state r = _ |- _ => rename H into Es end.
  apply ginv_end; try done. by rewrite Es.
Qed.

(** ** The transition system *)

(** One operation of the guard.  Requests carry [u64] sizes, and the random
    identifier of a new reservation is not that of an existing one. *)
Inductive guard_step : Guard.t -> Guard.t -> Prop :=
| gs_health g sample : guard_step g (fst (record_health g sample))
| gs_reserve g m session lease rq now e g' m' d :
    fresh_id g e -> 0 <= rq_bytes rq ->
    reserve g m session lease rq now e = (g', m', d) -> guard_step g g'
| gs_commit g m session lease id now g' m' d :
    commit g m session lease id now = (g', m', d) -> guard_step g g'
| gs_release g m session lease id now g' m' d :
    release g m session lease id now = (g', m', d) -> guard_step g g'
| gs_snapshot g pf id now : guard_step g (fst (reservation_snapshot g pf id now))
| gs_consume_buffer g pf id n now g' r :
    consume_for_buffer g pf id n now = (g', r) -> guard_step g g'
| gs_consume_compute g pf id now g' r :
    consume_for_compute g pf id now = Some (g', r) -> guard_step g g'
| gs_release_buffer g id n now : guard_step g (release_consumed_buffer g id n now)
| gs_release_compute g id n now : guard_step g (release_consumed_compute g id n now)
| gs_tick g now : guard_step g (tick g now).

Definition guard_reachable (g : Guard.t) : Prop := rtc guard_step Guard.new g.

Lemma guard_step_inv g g' : GInv g -> guard_step g g' -> GInv g'.
Proof.
  intros Hg. destruct 1.
  - by apply ginv_fields.
  - by eapply reserve_inv.
  - by eapply commit_inv.
  - by eapply release_inv.
  - by apply purge_inv.
  - eapply consume_inv; [|exact H]. by apply purge_inv.
  - unfold consume_for_compute in H. destruct (consume _ _ _ _ _ _) as [g1 [u|]] eqn:Ec;
      [|simplify_eq; by eapply consume_inv].
    case_match; simplify_eq. by eapply consume_inv.
  - by apply release_consumed_inv.
  - by apply release_consumed_inv.
  - by apply tick_inv.
Qed.

Lemma guard_reachable_inv g : guard_reachable g -> GInv g.
Proof.
  intros H. unfold guard_reachable in H. remember Guard.new as g0 eqn:E.
  assert (Hg0 : GInv g0) by (subst; apply ginv_new). clear E.
  induction H as [|g1 g2 g3 Hs _ IH]; [done|]. apply IH. by eapply guard_step_inv.
Qed.

(** C9: byte accounting.  After any sequence of operations the counter
    [allocated_bytes] is exactly the sum of the sizes of the reservations that are
    reserved, committed or consumed; it never exceeds the 128 MiB cap, no
    saturating arithmetic ever loses a byte, and a reservation carries a terminal
    time exactly when it holds no bytes. *)
Theorem guard_accounting g :
  guard_reachable g ->
  allocated_bytes g = msum held (reservations g) /\
  0 <= allocated_bytes g <= POC_CAP_BYTES /\
  (forall id r, reservations g !! id = Some r ->
     0 < rv_bytes r <= max_request_bytes (rv_class r) /\
     (live (rv_state r) = true <-> rv_terminal_at_ms r = None)).
Proof.
  intros H. pose proof (guard_reachable_inv g H) as Hg. split_and!.
  - apply Hg.
  - rewrite (gi_alloc g Hg). apply msum_nonneg. intros k v. by apply held_nonneg.
  - apply Hg.
  - intros id r Hr. split; [by apply (gi_bytes g Hg id)|by apply (gi_terminal g Hg id)].
Qed.

(** A sample that lets the guard grant the whole cap at once. *)
Definition good_sample (now : Z) : HealthSample :=
  mkSample (2048 * 1024 * 1024) false Th_None 80 false false now.
Definition warm_guard : Guard.t :=
  fst (record_health (fst (record_health (fst (record_health Guard.new (good_sample 0)))
    (good_sample 5000))) (good_sample 10000)).

Lemma warm_guard_reachable : guard_reachable warm_guard.
Proof.
  unfold guard_reachable, warm_guard.
  do 3 (eapply rtc_r; [|apply gs_health]). apply rtc_refl.
Qed.

Definition demo_reserve : Guard.t * LeaseManager.t * ReservationDecision :=
  reserve warm_guard demo_held demo_peer (replicate 16 Byte.x07)
    (mkReserveRequest 1 Rc_RemoteBufferBytes (1024 * 1024)) 11000
    (Some (fun _ => Some (replicate 16 Byte.x0a))).

Lemma demo_reserve_reachable : guard_reachable (fst (fst demo_reserve)).
Proof.
  eapply rtc_r; [apply warm_guard_reachable|].
  eapply (gs_reserve _ demo_held demo_peer (replicate 16 Byte.x07)
    (mkReserveRequest 1 Rc_RemoteBufferBytes (1024 * 1024)) 11000
    (Some (fun _ => Some (replicate 16 Byte.x0a))) _ (snd (fst demo_reserve))
    (snd demo_reserve)).
  - intros id _. apply lookup_empty.
  - done.
  - fold demo_reserve. by destruct demo_reserve as [[? ?] ?].
Qed.

Lemma guard_accounting_witness :
  allocated_bytes (fst (fst demo_reserve)) = 1024 * 1024 /\
  (allocated_bytes (fst (fst demo_reserve)) = msum held (reservations (fst (fst demo_reserve))) /\
   0 <= allocated_bytes (fst (fst demo_reserve)) <= POC_CAP_BYTES /\
   (forall id r, reservations (fst (fst demo_reserve)) !! id = Some r ->
     0 < rv_bytes r <= max_request_bytes (rv_class r) /\
     (live (rv_state r) = true <-> rv_terminal_at_ms r = None))).
Proof.
  split; [vm_compute; reflexivity|]. apply guard_accounting, demo_reserve_reachable.
Defined.

(** ** Life cycle of a reservation *)

(** The edges of the reservation state machine. *)
Inductive lifecycle : ReservationState -> ReservationState -> Prop :=
| lc_stay s : lifecycle s s
| lc_commit : lifecycle Rv_Reserved Rv_Committed
| lc_refuse : lifecycle Rv_Reserved Rv_RefusedSafety
| lc_expire : lifecycle Rv_Reserved Rv_Expired
| lc_release_reserved : lifecycle Rv_Reserved Rv_Released
| lc_release_committed : lifecycle Rv_Committed Rv_Released
| lc_consume : lifecycle Rv_Committed Rv_Consumed
| lc_free : lifecycle Rv_Consumed Rv_ConsumedReleased.

(** What may happen to a stored reservation in one step: it moves along one edge
    and keeps its owner, class, size and deadline, or it is forgotten, which never
    happens to a consumed reservation that still holds its bytes. *)
Definition evolves (r : Reservation) (o : option Reservation) : Prop :=
  match o with
  | Some r' => lifecycle (rv_state r) (rv_state r') /\
      exists t, r' = set_state r (rv_state r') t
  | None => rv_state r <> Rv_Consumed
  end.

Lemma evolves_refl r : evolves r (Some r).
Proof. split; [constructor|]. exists (rv_terminal_at_ms r). by destruct r. Qed.

Lemma set_state_twice r s t s' t' : set_state (set_state r s t) s' t' = set_state r s' t'.
Proof. done. Qed.

(** One pass of the purge moves a reservation along at most one edge. *)
Lemma purge_evolves g now lease inc id r :
  GInv g -> reservations g !! id = Some r ->
  evolves r (reservations (expire_and_purge g now lease inc) !! id).
Proof.
  intros Hg Hr. rewrite purge_lookup, Hr. cbn. unfold purge_res.
  destruct (decide (superseded lease inc r)) as [Hs|_]; [apply Hs|].
  unfold expire_res. destruct (decide (due now r)) as [[Hst _]|_].
  - rewrite decide_True; [|cbn; unfold sat_sub, TERMINAL_RETENTION_MS; lia].
    cbn. rewrite Hst. split; [constructor|]. by exists (Some now).
  - case_decide as Hret; [apply evolves_refl|]. intros E.
    apply Hret. assert (rv_terminal_at_ms r = None) as ->; [|done].
    apply (gi_terminal g Hg id r Hr). by rewrite E.
Qed.

(** The reservations that survive a purge and are still to be acted on are the
    stored ones, untouched. *)
Lemma purge_active g now lease inc id r' :
  reservations (expire_and_purge g now lease inc) !! id = Some r' ->
  rv_state r' <> Rv_Expired -> reservations g !! id = Some r'.
Proof.
  rewrite purge_lookup. destruct (reservations g !! id) as [r|]; [|done]. cbn.
  unfold purge_res, expire_res. intros H Hne. repeat case_decide; simplify_eq; done.
Qed.

Lemma expire_evolves now r : evolves r (Some (expire_res now r)).
Proof.
  unfold expire_res. case_decide as Hd; [|apply evolves_refl]. destruct Hd as [Hst _].
  cbn. rewrite Hst. split; [constructor|]. by exists (Some now).
Qed.

Lemma tick_evolves g now id r :
  GInv g -> reservations g !! id = Some r -> evolves r (reservations (tick g now) !! id).
Proof.
  intros Hg Hr. unfold tick, retain_reservations. cbn [reservations health allocated_bytes].
  rewrite map_lookup_filter, expire_reserved_lookup, Hr. cbn.
  destruct (decide (retained now (rv_terminal_at_ms (expire_res now r)))) as [H|H].
  - rewrite option_guard_True by done. apply expire_evolves.
  - rewrite option_guard_False by done. intros E. apply H.
    assert (Hx : expire_res now r = r).
    { unfold expire_res. rewrite decide_False; [done|]. unfold due. rewrite E. by intros []. }
    rewrite Hx. assert (rv_terminal_at_ms r = None) as ->; [|done].
    apply (gi_terminal g Hg id r Hr). by rewrite E.
Qed.

(** A change of one reservation after a purge. *)
Lemma update_evolves g now lease inc id r k v st t h n i :
  GInv g -> reservations g !! id = Some r ->
  reservations (expire_and_purge g now lease inc) !! k = Some v ->
  rv_state v <> Rv_Expired -> lifecycle (rv_state v) st ->
  evolves r (reservations (Guard.mk h n (<[k := set_state v st t]>
    (reservations (expire_and_purge g now lease inc))) i) !! id).
Proof.
  intros Hg Hr Hk Hne Hlc. cbn [reservations]. destruct (decide (id = k)) as [->|Hid].
  - rewrite lookup_insert_eq. pose proof (purge_active _ _ _ _ _ _ Hk Hne). simplify_eq.
    split; [done|]. by exists t.
  - rewrite lookup_insert_ne by done. by apply purge_evolves.
Qed.

Lemma purge_res_again now lease inc r r' :
  purge_res now lease inc r = Some r' -> purge_res now lease inc r' = Some r'.
Proof.
  unfold purge_res. destruct (decide (superseded lease inc r)) as [|Hs]; [done|].
  case_decide as Hret; [|done]. intros E. injection E as <-.
  assert (Hx : expire_res now (expire_res now r) = expire_res now r).
  { unfold expire_res. destruct (decide (due now r)); [|by rewrite decide_False].
    rewrite decide_False; [done|]. by intros [? _]. }
  assert (Hs' : ~ superseded lease inc (expire_res now r)).
  { unfold expire_res. destruct (decide (due now r)) as [[Hst _]|_]; [|done].
    unfold superseded in *. cbn. rewrite Hst in Hs. intros (_ & _ & ?). by apply Hs. }
  by rewrite Hx, (decide_True _ _ Hret), (decide_False _ _ Hs').
Qed.

(** Purging twice at one clock reading is purging once. *)
Lemma purge_twice g now lease inc :
  reservations (expire_and_purge (expire_and_purge g now lease inc) now lease inc) =
  reservations (expire_and_purge g now lease inc).
Proof.
  apply map_eq. intros i. rewrite !purge_lookup.
  destruct (reservations g !! i) as [r|]; [|done]. cbn.
  destruct (purge_res now lease inc r) as [r'|] eqn:E; [|done]. cbn. by eapply purge_res_again.
Qed.

Lemma consume_res g pf id c n now g' x :
  consume g pf id c n now = (g', x) ->
  let m := reservations (expire_and_purge g now (pf_lease_id pf) (pf_incarnation pf)) in
  reservations g' = m /\ (x = Ok tt -> False) \/
  exists v, m !! id = Some v /\ rv_state v = Rv_Committed /\ x = Ok tt /\
    rv_class v = c /\ rv_peer_id v = pf_peer_id pf /\
    (forall b, n = Some b -> rv_bytes v = b) /\
    reservations g' = <[id := set_state v Rv_Consumed (rv_terminal_at_ms v)]> m.
Proof.
  intros H. unfold consume in H. cbv zeta in *. set (g1 := expire_and_purge _ _ _ _) in *.
  destruct (reservations g1 !! id) as [v|] eqn:Er; [|left; by simplify_eq].
  match type of H with (if ?c then _ else _) = _ => destruct c eqn:G end;
    [left; by simplify_eq|]. bool_hyps.
  destruct (rv_state v) eqn:Es; simplify_eq; try (left; done).
  right. exists v. split_and!; try done. intros b ->. by bool_hyps.
Qed.

Lemma consume_evolves g pf id c n now g' x k r :
  GInv g -> reservations g !! k = Some r ->
  reservations (expire_and_purge g now (pf_lease_id pf) (pf_incarnation pf)) =
    reservations (expire_and_purge (expire_and_purge g now (pf_lease_id pf) (pf_incarnation pf))
                    now (pf_lease_id pf) (pf_incarnation pf)) ->
  consume g pf id c n now = (g', x) \/
  consume (expire_and_purge g now (pf_lease_id pf) (pf_incarnation pf)) pf id c n now = (g', x) ->
  evolves r (reservations g' !! k).
Proof.
  intros Hg Hr Htwice H.
  assert (Hc : reservations g' =
      reservations (expire_and_purge g now (pf_lease_id pf) (pf_incarnation pf)) \/
    exists v, reservations (expire_and_purge g now (pf_lease_id pf) (pf_incarnation pf)) !! id
        = Some v /\ rv_state v = Rv_Committed /\
      reservations g' = <[id := set_state v Rv_Consumed (rv_terminal_at_ms v)]>
        (reservations (expire_and_purge g now (pf_lease_id pf) (pf_incarnation pf)))).
  { destruct H as [H|H]; apply consume_res in H; cbv zeta in H; rewrite <- ?Htwice in H;
      destruct H as [[? _]|(v & ? & ? & _ & _ & _ & _ & ?)]; eauto. }
  destruct Hc as [->|(v & Hv & Hs & Hm)]; [by apply purge_evolves|].
  pose proof (update_evolves g now (pf_lease_id pf) (pf_incarnation pf) k r id v Rv_Consumed
    (rv_terminal_at_ms v) (health g') (allocated_bytes g') (idempotence g') Hg Hr Hv) as He.
  rewrite Hs in He. cbn [reservations] in He. rewrite Hm. apply He; [done|constructor].
Qed.

Lemma release_consumed_evolves g id c n now k r :
  reservations g !! k = Some r -> evolves r (reservations (release_consumed g id c n now) !! k).
Proof.
  intros Hr. unfold release_consumed.
  destruct (reservations g !! id) as [v|] eqn:Ev; [|rewrite Hr; apply evolves_refl].
  match goal with |- context [if ?c then _ else _] => destruct c eqn:G end;
    [rewrite Hr; apply evolves_refl|]. bool_hyps. cbn [release_allocation reservations].
  destruct (decide (k = id)) as [->|Hne].
  - rewrite lookup_insert_eq. simplify_eq.
    match goal with H : rv_state _ = Rv_Consumed |- _ => rename H into Es end.
    split; [cbn; rewrite Es; constructor|]. by eexists.
  - rewrite lookup_insert_ne, Hr by done. apply evolves_refl.
Qed.

(** What [reserve] does to the stored reservations. *)
Lemma reserve_res g m session lease rq now e g' m' d :
  reserve g m session lease rq now e = (g', m', d) ->
  reservations g' = reservations g \/
  exists inc, let m := reservations (expire_and_purge g now lease inc) in
    reservations g' = m \/
    exists id v, random_nonzero_128 e = Ok id /\ reservations g' = <[id := v]> m.
Proof.
  intros H. unfold reserve in H.
  destruct (LeaseManager.validate _ _ _ _) as [m1 [pf|]]; [|left; by simplify_eq].
  right. exists (pf_incarnation pf). cbv zeta in *. set (g1 := expire_and_purge _ _ _ _) in *.
  assert (Hf : reservations (fst (reserve_fresh g1 pf rq now e)) = reservations g1 \/
    exists id v, random_nonzero_128 e = Ok id /\
      reservations (fst (reserve_fresh g1 pf rq now e)) = <[id := v]> (reservations g1)).
  { unfold reserve_fresh. cbv zeta. repeat case_match; cbn; eauto. }
  destruct (reserve_fresh g1 pf rq now e) as [g2 d2]. cbn [fst] in Hf.
  repeat case_match; simplify_eq; cbn; eauto.
Qed.

Lemma reserve_evolves g m session lease rq now e g' m' d id r :
  GInv g -> fresh_id g e ->
  reserve g m session lease rq now e = (g', m', d) -> reservations g !! id = Some r ->
  evolves r (reservations g' !! id).
Proof.
  intros Hg Hf H Hr. apply reserve_res in H as [->|(inc & [->|(k & v & Hk & ->)])].
  - rewrite Hr. apply evolves_refl.
  - by apply purge_evolves.
  - rewrite lookup_insert_ne; [by apply purge_evolves|]. intros ->.
    by rewrite (Hf _ Hk) in Hr.
Qed.

Lemma commit_evolves g m session lease id now g' m' d k r :
  GInv g -> reservations g !! k = Some r ->
  commit g m session lease id now = (g', m', d) -> evolves r (reservations g' !! k).
Proof.
  intros Hg Hr H. unfold commit in H.
  destruct (LeaseManager.validate _ _ _ _) as [m1 [pf|]];
    [|simplify_eq; rewrite Hr; apply evolves_refl].
  pose proof (purge_evolves g now lease (pf_incarnation pf) k r Hg Hr) as Hp. cbv zeta in H.
  destruct (reservations (expire_and_purge _ _ _ _) !! id) as [v|] eqn:Er; [|by simplify_eq].
  match type of H with (if ?c then _ else _) = _ => destruct c end; [by simplify_eq|].
  destruct (rv_state v) eqn:Es; try (by simplify_eq).
  destruct (is_refused _); simplify_eq; cbn [mark_idempotence_terminal update_reservation
    release_allocation reservations health allocated_bytes idempotence];
    rewrite (alter_insert_some id v) by done;
    (eapply (update_evolves g now lease (pf_incarnation pf) k r id v _ _ (health g) 0 ∅);
     try done; rewrite Es; try done; constructor).
Qed.

Lemma release_evolves g m session lease id now g' m' d k r :
  GInv g -> reservations g !! k = Some r ->
  release g m session lease id now = (g', m', d) -> evolves r (reservations g' !! k).
Proof.
  intros Hg Hr H. unfold release in H.
  destruct (LeaseManager.validate _ _ _ _) as [m1 [pf|]];
    [|simplify_eq; rewrite Hr; apply evolves_refl].
  pose proof (purge_evolves g now lease (pf_incarnation pf) k r Hg Hr) as Hp. cbv zeta in H.
  destruct (reservations (expire_and_purge _ _ _ _) !! id) as [v|] eqn:Er; [|by simplify_eq].
  match type of H with (if ?c then _ else _) = _ => destruct c end; [by simplify_eq|].
  destruct (rv_state v) eqn:Es; simplify_eq; try done; cbn [mark_idempotence_terminal
    update_reservation release_allocation reservations health allocated_bytes idempotence];
    rewrite (alter_insert_some id v) by done;
    (eapply (update_evolves g now lease (pf_incarnation pf) k r id v _ _ (health g) 0 ∅);
     try done; rewrite Es; try done; constructor).
Qed.

(** C35: life cycle.  In one operation a stored reservation moves along at most one
    edge of the state machine (reserve, commit, consume, free; expiry, safety
    refusal and release on the way), keeps its owner, class, size and deadline, and
    a consumed reservation is never forgotten before its bytes are given back. *)
Theorem guard_lifecycle g g' id r :
  guard_reachable g -> guard_step g g' -> reservations g !! id = Some r ->
  evolves r (reservations g' !! id).
Proof.
  intros Hreach Hs Hr. pose proof (guard_reachable_inv g Hreach) as Hg.
  destruct Hs.
  - cbn. rewrite Hr. apply evolves_refl.
  - eapply reserve_evolves; [..|exact H1|exact Hr]; done.
  - by eapply commit_evolves.
  - by eapply release_evolves.
  - by apply purge_evolves.
  - eapply consume_evolves; [exact Hg|exact Hr| |right; exact H]. symmetry. apply purge_twice.
  - unfold consume_for_compute in H. destruct (consume _ _ _ _ _ _) as [g1 [u|]] eqn:Ec;
      [case_match; [|done]|]; simplify_eq;
      (eapply consume_evolves; [exact Hg|exact Hr| |left; exact Ec]; symmetry; apply purge_twice).
  - by apply release_consumed_evolves.
  - by apply release_consumed_evolves.
  - by apply tick_evolves.
Qed.

Lemma guard_lifecycle_witness :
  exists r, reservations (fst (fst demo_reserve)) !! (replicate 16 Byte.x0a) = Some r /\
    evolves r (reservations (tick (fst (fst demo_reserve)) 50000) !! (replicate 16 Byte.x0a)).
Proof.
  eexists. split; [vm_compute; reflexivity|].
  eapply guard_lifecycle; [apply demo_reserve_reachable|apply gs_tick|vm_compute; reflexivity].
Defined.

(** ** What a grant means *)

(** Safety of the health verdict.  When the guard does not refuse, its last
    sample is at most six seconds old and not from the future, the phone has at
    least 768 MiB available and reports no memory pressure, the effective thermal
    band is below severe and the effective battery band is not the refused one;
    and the budget leaves the 512 MiB margin and three quarters of the rest. *)
Lemma health_not_refused_sound g now :
  is_refused (hl_safety (health_status g now)) = false ->
  exists s, latest (health g) = Some s /\
    0 <= now - hs_monotonic_ms s <= HEALTH_STALE_AFTER_MS /\
    hs_low_memory s = false /\ MIN_AVAILABLE_BYTES <= hs_available_memory_bytes s /\
    memory_blocked (health g) = false /\
    ThermalBand_as_i32 (effective_thermal (health g)) <= 2 /\
    effective_battery (health g) <> Bt_Refused /\
    hl_budget_bytes (health_status g now) <= POC_CAP_BYTES /\
    4 * hl_budget_bytes (health_status g now) + MEMORY_MARGIN_BYTES
      <= hs_available_memory_bytes s.
Proof.
  unfold health_status, health_status_of. destruct (latest (health g)) as [s|]; [|done].
  cbv zeta. cbn [hl_safety hl_budget_bytes]. intros H. exists s. split; [done|].
  destruct (_ && _) eqn:Ef; [|done]. cbn [negb andb] in *.
  destruct (memory_blocked (health g) || _ || _) eqn:Em; [done|]. cbn [negb].
  destruct (is_refused (thermal_safety _)) eqn:Et; [done|].
  destruct (bool_decide (effective_battery _ = Bt_Refused)) eqn:Eb; [done|].
  bool_hyps. unfold poc_budget, sat_sub, HEALTH_STALE_AFTER_MS, MIN_AVAILABLE_BYTES,
    MEMORY_MARGIN_BYTES, POC_CAP_BYTES in *.
  pose proof (Z.mul_div_le (Z.max 0 (hs_available_memory_bytes s - 512 * 1024 * 1024)) 4 ltac:(lia)).
  split_and!; try done; try lia.
  - by destruct (effective_thermal (health g)).
  - destruct (Z.ltb_spec (Z.max 0 (hs_available_memory_bytes s - 512 * 1024 * 1024) / 4)
      (128 * 1024 * 1024)); lia.
  - destruct (Z.ltb_spec (Z.max 0 (hs_available_memory_bytes s - 512 * 1024 * 1024) / 4)
      (128 * 1024 * 1024)); lia.
Qed.

Lemma health_not_refused_sound_witness :
  exists s, latest (health warm_guard) = Some s /\
    0 <= 11000 - hs_monotonic_ms s <= HEALTH_STALE_AFTER_MS /\
    hs_low_memory s = false /\ MIN_AVAILABLE_BYTES <= hs_available_memory_bytes s /\
    memory_blocked (health warm_guard) = false /\
    ThermalBand_as_i32 (effective_thermal (health warm_guard)) <= 2 /\
    effective_battery (health warm_guard) <> Bt_Refused /\
    hl_budget_bytes (health_status warm_guard 11000) <= POC_CAP_BYTES /\
    4 * hl_budget_bytes (health_status warm_guard 11000) + MEMORY_MARGIN_BYTES
      <= hs_available_memory_bytes s.
Proof. apply health_not_refused_sound. vm_compute. reflexivity. Defined.

Lemma validate_ok m session lease now m' pf :
  LeaseManager.validate m session lease now = (m', Ok pf) ->
  pf = mkProof lease (LeaseManager.incarnation m) (session_peer_id session) /\
  LeaseManager.incarnation m' = LeaseManager.incarnation m.
Proof.
  unfold LeaseManager.validate. intros H.
  assert (Hi : LeaseManager.incarnation (fst (LeaseManager.expire_if_needed m now))
    = LeaseManager.incarnation m)
    by (unfold LeaseManager.expire_if_needed; cbv zeta; by destruct (is_some _)).
  set (m1 := fst _) in *. cbv zeta in H. destruct (LeaseManager.active m1) as [a|]; [|done].
  match type of H with (if ?c then _ else _) = _ => destruct c eqn:G end; [done|].
  bool_hyps. simplify_eq. split; [|done]. f_equal; congruence.
Qed.

Lemma expire_fold_idem now l g k :
  let e := idempotence (foldl (expire_one now) g l) !! k in
  e = idempotence g !! k \/ e = (fun e => set_idem_terminal e now) <$> idempotence g !! k.
Proof.
  cbv zeta. revert g. induction l as [|[i r] l IH]; intros g; [by left|]. cbn [foldl].
  destruct (IH (expire_one now g (i, r))) as [-> | ->]; cbn [expire_one
    mark_idempotence_terminal update_reservation release_allocation idempotence];
    (destruct (decide (k = (rv_lease_id r, rv_request_id r))) as [->|Hne];
     [rewrite lookup_alter_eq|rewrite lookup_alter_ne by done]); auto.
  right. by destruct (idempotence g !! _).
Qed.

Lemma drop_fold_idem l g : idempotence (foldl drop_superseded g l) = idempotence g.
Proof.
  revert g. induction l as [|[k r] l IH]; intros g; [done|]. cbn [foldl]. rewrite IH.
  unfold drop_superseded. by destruct (rv_state r).
Qed.

(** A purge keeps an idempotence entry of the active lease, or marks it now. *)
Lemma purge_idem g now lease inc k e :
  idempotence g !! k = Some e ->
  id_lease_id e = lease -> id_incarnation e = inc -> retained now (id_terminal_at_ms e) ->
  let e' := idempotence (expire_and_purge g now lease inc) !! k in
  e' = Some e \/ e' = Some (set_idem_terminal e now).
Proof.
  intros He Hl Hi Hr. cbv zeta. unfold expire_and_purge, retain_reservations.
  cbn [idempotence]. rewrite map_lookup_filter. unfold expire_reserved.
  set (g1 := foldl drop_superseded g _).
  assert (H1 : idempotence g1 = idempotence g) by apply drop_fold_idem.
  set (l := map_to_list _).
  destruct (expire_fold_idem now l g1 k) as [E|E]; rewrite E, H1, He; cbn.
  - rewrite option_guard_True by done. by left.
  - rewrite option_guard_True; [by right|]. split_and!; try done.
    cbn. unfold sat_sub, TERMINAL_RETENTION_MS. lia.
Qed.

Lemma purge_idem_None g now lease inc k :
  idempotence g !! k = None -> idempotence (expire_and_purge g now lease inc) !! k = None.
Proof.
  intros He. unfold expire_and_purge, retain_reservations. cbn [idempotence].
  rewrite map_lookup_filter. unfold expire_reserved. set (g1 := foldl drop_superseded g _).
  assert (H1 : idempotence g1 = idempotence g) by apply drop_fold_idem.
  set (l := map_to_list _).
  destruct (expire_fold_idem now l g1 k) as [E|E]; by rewrite E, H1, He.
Qed.

(** C34: grants are sound.  When a request that the idempotence table does not know
    is granted, the caller holds a valid lease, the class is known and the size
    legal, the guard does not refuse, the new total stays within the health budget,
    and the reservation is stored for its owner with a 30-second deadline. *)
Theorem reserve_grant_sound g m session lease rq now e g' m' id :
  guard_reachable g -> 0 <= rq_bytes rq ->
  idempotence g !! (lease, rq_request_id rq) = None ->
  reserve g m session lease rq now e = (g', m', Rd_Reserved id) ->
  is_ok (snd (LeaseManager.validate m session lease now)) = true /\
  is_refused (hl_safety (health_status g now)) = false /\
  0 < rq_bytes rq <= max_request_bytes (rq_class rq) /\
  allocated_bytes g' <= hl_budget_bytes (health_status g now) /\
  reservations g' !! id = Some {|
    rv_peer_id := session_peer_id session; rv_lease_id := lease;
    rv_incarnation := LeaseManager.incarnation m; rv_request_id := rq_request_id rq;
    rv_class := rq_class rq; rv_bytes := rq_bytes rq;
    rv_expires_at_ms := sat_add64 now RESERVATION_TTL_MS;
    rv_state := Rv_Reserved; rv_terminal_at_ms := None |}.
Proof.
  intros Hreach Hb Hnew H. pose proof (guard_reachable_inv g Hreach) as Hg. unfold reserve in H.
  destruct (LeaseManager.validate m session lease now) as [m1 [pf|]] eqn:Ev; [|done].
  destruct (validate_ok _ _ _ _ _ _ Ev) as [-> _]. cbv zeta in H.
  cbn [pf_incarnation pf_lease_id] in H.
  pose proof (purge_idem_None g now lease (LeaseManager.incarnation m) _ Hnew) as Hidem.
  pose proof (purge_health g now lease (LeaseManager.incarnation m)) as Hh.
  pose proof (purge_inv g now lease (LeaseManager.incarnation m) Hg) as Hp.
  set (g1 := expire_and_purge _ _ _ _) in *. clearbody g1. rewrite Hidem in H.
  destruct (IDEMPOTENCE_CAPACITY <=? _); [done|].
  assert (Hs : health_status g1 now = health_status g now) by (unfold health_status; by rewrite Hh).
  destruct (reserve_fresh _ _ _ _ _) as [g2 d] eqn:Ef. unfold reserve_fresh in Ef. rewrite Hs in Ef.
  assert (0 <= allocated_bytes g1).
  { rewrite (gi_alloc g1 Hp). apply msum_nonneg. intros k v. by apply held_nonneg. }
  cbv zeta in Ef. repeat case_match; simplify_eq. bool_hyps.
  split_and!; try done; cbn [allocated_bytes reservations]; try lia.
  - unfold sat_sub, sat_add64 in *. lia.
  - apply lookup_insert_eq.
Qed.

Lemma reserve_grant_sound_witness :
  allocated_bytes (fst (fst demo_reserve)) <= hl_budget_bytes (health_status warm_guard 11000) /\
  is_refused (hl_safety (health_status warm_guard 11000)) = false.
Proof.
  destruct (reserve_grant_sound warm_guard demo_held demo_peer (replicate 16 Byte.x07)
    (mkReserveRequest 1 Rc_RemoteBufferBytes (1024 * 1024)) 11000
    (Some (fun _ => Some (replicate 16 Byte.x0a))) (fst (fst demo_reserve))
    (snd (fst demo_reserve)) (replicate 16 Byte.x0a)) as (_ & H1 & _ & H2 & _).
  - apply warm_guard_reachable.
  - vm_compute. discriminate.
  - vm_compute. reflexivity.
  - vm_compute. reflexivity.
  - exact (conj H2 H1).
Defined.

(** ** Idempotence *)

Lemma expire_fold_alloc now l g :
  Forall (fun x => 0 <= rv_bytes x.2) l -> 0 <= allocated_bytes g ->
  allocated_bytes (foldl (expire_one now) g l) <= allocated_bytes g.
Proof.
  intros Hf. revert g. induction Hf as [|[k r] l Hb _ IH]; intros g Hg; [done|].
  cbn [foldl]. etransitivity; [apply IH|]; cbn in *; unfold sat_sub; lia.
Qed.

Lemma drop_fold_alloc l g :
  Forall (fun x => 0 <= rv_bytes x.2) l -> 0 <= allocated_bytes g ->
  0 <= allocated_bytes (foldl drop_superseded g l) <= allocated_bytes g.
Proof.
  intros Hf. revert g. induction Hf as [|[k r] l Hb _ IH]; intros g Hg; [done|].
  cbn [foldl]. cbn in Hb.
  assert (0 <= allocated_bytes (drop_superseded g (k, r)) <= allocated_bytes g)
    by (unfold drop_superseded, sat_sub; destruct (rv_state r); cbn; unfold sat_sub; lia).
  specialize (IH (drop_superseded g (k, r)) ltac:(lia)). lia.
Qed.

Lemma snapshot_bytes (P : ReservationId * Reservation -> Prop) `{!forall x, Decision (P x)} g :
  (forall id r, reservations g !! id = Some r -> 0 <= rv_bytes r) ->
  Forall (fun x => 0 <= rv_bytes x.2) (map_to_list (filter P (reservations g))).
Proof.
  intros Hb. apply Forall_forall. intros [k r] Hin.
  apply elem_of_map_to_list, map_lookup_filter_Some in Hin as [Hin _]. by apply (Hb k).
Qed.

Lemma purge_alloc_le g now lease inc : GInv g ->
  allocated_bytes (expire_and_purge g now lease inc) <= allocated_bytes g.
Proof.
  intros Hg. unfold expire_and_purge, expire_reserved. cbn.
  assert (Hb : forall id r, reservations g !! id = Some r -> 0 <= rv_bytes r)
    by (intros id r Hr; destruct (gi_bytes g Hg id r Hr); lia).
  assert (H0 : 0 <= allocated_bytes g).
  { rewrite (gi_alloc g Hg). apply msum_nonneg. intros k v. by apply held_nonneg. }
  destruct (drop_fold_alloc _ g (snapshot_bytes (fun x => superseded lease inc x.2) g Hb) H0)
    as [H1 H2].
  etransitivity; [|exact H2]. apply expire_fold_alloc; [|done]. apply snapshot_bytes.
  intros id r Hr. rewrite drop_fold_lookup in Hr. case_decide; [done|]. by apply (Hb id).
Qed.

(** What a new decision leaves in the idempotence table. *)
Lemma reserve_entry g m session lease rq now e g' m' d :
  idempotence g !! (lease, rq_request_id rq) = None ->
  d <> Rd_StaleLease -> d <> Rd_IdempotenceTableFull ->
  reserve g m session lease rq now e = (g', m', d) ->
  LeaseManager.incarnation m' = LeaseManager.incarnation m /\
  idempotence g' !! (lease, rq_request_id rq) = Some {|
    id_lease_id := lease; id_incarnation := LeaseManager.incarnation m;
    id_class := rq_class rq; id_bytes := rq_bytes rq; id_decision := d;
    id_terminal_at_ms := match d with Rd_Reserved _ => None | _ => Some now end |}.
Proof.
  intros Hnew Hd1 Hd2 H. unfold reserve in H.
  destruct (LeaseManager.validate m session lease now) as [m1 [pf|]] eqn:Ev; [|by simplify_eq].
  destruct (validate_ok _ _ _ _ _ _ Ev) as [-> Hi]. cbv zeta in H.
  cbn [pf_incarnation pf_lease_id] in H.
  rewrite (purge_idem_None g now lease _ _ Hnew) in H.
  destruct (IDEMPOTENCE_CAPACITY <=? _); [by simplify_eq|].
  destruct (reserve_fresh _ _ _ _ _) as [g2 d2]. simplify_eq. split; [done|].
  cbn. by rewrite lookup_insert_eq.
Qed.

(** Reservations are idempotent.  Repeating a decided request, with the same
    id, class and size under the same lease, gives the same decision again, holds
    no further bytes and creates no reservation; this lasts as long as the grant
    lives, and five minutes for a refusal. *)
Lemma reserve_idempotent g m session lease rq now e g' m' d now' e' :
  guard_reachable g -> fresh_id g e -> 0 <= rq_bytes rq ->
  idempotence g !! (lease, rq_request_id rq) = None ->
  d <> Rd_StaleLease -> d <> Rd_IdempotenceTableFull ->
  reserve g m session lease rq now e = (g', m', d) ->
  is_ok (snd (LeaseManager.validate m' session lease now')) = true ->
  (exists id, d = Rd_Reserved id) \/ sat_sub now' now <= TERMINAL_RETENTION_MS ->
  exists g'' m'', reserve g' m' session lease rq now' e' = (g'', m'', d) /\
    allocated_bytes g'' <= allocated_bytes g' /\
    (forall id, reservations g' !! id = None -> reservations g'' !! id = None).
Proof.
  intros Hreach Hf Hb Hnew Hd1 Hd2 H Hv Hret.
  assert (Hg' : GInv g').
  { eapply reserve_inv; [|exact Hf|exact Hb|exact H]. by apply guard_reachable_inv. }
  destruct (reserve_entry _ _ _ _ _ _ _ _ _ _ Hnew Hd1 Hd2 H) as [Hi He].
  unfold reserve at 1. destruct (LeaseManager.validate m' session lease now') as [m1 [pf|]] eqn:Ev;
    [|done]. destruct (validate_ok _ _ _ _ _ _ Ev) as [-> _]. cbv zeta.
  cbn [pf_incarnation pf_lease_id]. rewrite Hi.
  eexists (expire_and_purge g' now' lease (LeaseManager.incarnation m)), m1. split_and!.
  - destruct (purge_idem g' now' lease (LeaseManager.incarnation m) _ _ He) as [E|E];
      try done; [cbn; by destruct Hret as [[? ->]|?]; repeat case_match|..];
      rewrite E; cbn; rewrite !bool_decide_true, Z.eqb_refl by done; done.
  - by apply purge_alloc_le.
  - intros id Hid. by rewrite purge_lookup, Hid.
Qed.

Lemma reserve_idempotent_witness :
  exists g'' m'', reserve (fst (fst demo_reserve)) (snd (fst demo_reserve)) demo_peer
      (replicate 16 Byte.x07) (mkReserveRequest 1 Rc_RemoteBufferBytes (1024 * 1024)) 12000 None
      = (g'', m'', snd demo_reserve) /\
    allocated_bytes g'' <= allocated_bytes (fst (fst demo_reserve)) /\
    (forall id, reservations (fst (fst demo_reserve)) !! id = None -> reservations g'' !! id = None).
Proof.
  eapply (reserve_idempotent warm_guard demo_held demo_peer (replicate 16 Byte.x07)
    (mkReserveRequest 1 Rc_RemoteBufferBytes (1024 * 1024)) 11000
    (Some (fun _ => Some (replicate 16 Byte.x0a)))).
  - apply warm_guard_reachable.
  - intros id _. apply lookup_empty.
  - vm_compute. discriminate.
  - vm_compute. reflexivity.
  - vm_compute. discriminate.
  - vm_compute. discriminate.
  - fold demo_reserve. by destruct demo_reserve as [[? ?] ?].
  - vm_compute. reflexivity.
  - left. eexists. vm_compute. reflexivity.
Defined.

(** ** Hysteresis of the health bands *)

(** The bands never understate a sample.  After any sample the effective
    thermal band is at least as hot as the one just observed, and the effective
    battery band at least as low as the raw band of the sample. *)
Lemma bands_conservative h s :
  ThermalBand_as_i32 (hs_thermal s) <= ThermalBand_as_i32 (effective_thermal (observe h s)) /\
  BatteryBand_as_i32 (raw_battery_band (hs_battery_percent s) (hs_charging s))
    <= BatteryBand_as_i32 (effective_battery (observe h s)).
Proof.
  unfold observe. cbv zeta. cbn [effective_thermal effective_battery].
  set (h1 := update_memory h s). split.
  - assert (E : effective_thermal (update_battery (update_thermal h1 s) s) =
                effective_thermal (update_thermal h1 s)).
    { unfold update_battery. cbv zeta. repeat case_match; done. }
    rewrite E. unfold update_thermal. cbv zeta. repeat case_match; cbn; bool_hyps; subst; lia || done.
  - unfold update_battery. cbv zeta.
    destruct (hs_charging s) eqn:Ec; [done|].
    set (h2 := update_thermal h1 s). unfold raw_battery_band. cbn [orb].
    repeat case_match; cbn; bool_hyps; try lia; try done;
      destruct (effective_battery h2); cbn in *; try done; lia.
Qed.

Definition recovered (s : HealthSample) : Prop :=
  hs_low_memory s = false /\ RECOVERY_AVAILABLE_BYTES <= hs_available_memory_bytes s.

Lemma observe_memory h s :
  memory_blocked (observe h s) = memory_blocked (update_memory h s) /\
  memory_recovery_since_ms (observe h s) = memory_recovery_since_ms (update_memory h s).
Proof.
  unfold observe. cbv zeta. cbn [memory_blocked memory_recovery_since_ms].
  set (h1 := update_memory h s).
  assert (E : memory_blocked (update_battery (update_thermal h1 s) s) = memory_blocked h1 /\
    memory_recovery_since_ms (update_battery (update_thermal h1 s) s) = memory_recovery_since_ms h1).
  { unfold update_battery, update_thermal. cbv zeta. repeat case_match; done. }
  exact E.
Qed.

(** The run of good samples that the recovery timer stands for. *)
Lemma memory_history samples :
  let h := foldl observe health_new samples in
  (memory_blocked h = false -> exists pre first mid last post,
     samples = pre ++ first :: mid ++ last :: post /\
     Forall recovered (first :: mid ++ [last]) /\
     10000 <= hs_monotonic_ms last - hs_monotonic_ms first) /\
  (memory_blocked h = true -> forall since, memory_recovery_since_ms h = Some since ->
     exists pre first mid, samples = pre ++ first :: mid /\
       Forall recovered (first :: mid) /\ hs_monotonic_ms first = since).
Proof.
  induction samples as [|s samples [IHf IHt]] using rev_ind; [done|].
  rewrite foldl_snoc. set (h := foldl observe health_new samples) in *.
  destruct (observe_memory h s) as [Eb Es]. cbv zeta. rewrite Eb, Es. clear Eb Es.
  assert (Hmore : memory_blocked h = false -> exists pre first mid last post,
     samples ++ [s] = pre ++ first :: mid ++ last :: post /\
     Forall recovered (first :: mid ++ [last]) /\
     10000 <= hs_monotonic_ms last - hs_monotonic_ms first).
  { intros E. destruct (IHf E) as (pre & first & mid & last & post & -> & ? & ?).
    exists pre, first, mid, last, (post ++ [s]). split_and!; try done.
    by rewrite <- !app_assoc; cbn; rewrite <- app_assoc. }
  unfold update_memory. destruct (hs_low_memory s || _) eqn:El; [done|].
  destruct (memory_blocked h) eqn:Eb; cbn [andb]; cycle 1.
  { cbn. rewrite Eb. split; [done|]. intros ?; congruence. }
  specialize (IHt eq_refl). bool_hyps.
  destruct (RECOVERY_AVAILABLE_BYTES <=? _) eqn:Er; cbn; [|done]. bool_hyps.
  assert (Hs : recovered s) by done.
  destruct (memory_recovery_since_ms h) as [t|]; cbn.
  - destruct (IHt t eq_refl) as (pre & first & mid & Hsam & Hgood & Ht).
    destruct (10000 <=? _) eqn:Et; cbn; split; try done; bool_hyps.
    + intros _. exists pre, first, mid, s, []. rewrite Hsam. split_and!.
      * by rewrite <- app_assoc.
      * apply Forall_cons in Hgood as [? ?]. constructor; [done|].
        apply Forall_app. split; [done|by constructor].
      * unfold sat_sub in Et. lia.
    + intros _ since E. injection E as <-. exists pre, first, (mid ++ [s]).
      rewrite Hsam. split_and!; [by rewrite <- app_assoc| |done].
      apply Forall_cons in Hgood as [? ?]. constructor; [done|].
      apply Forall_app. split; [done|by constructor].
  - destruct (10000 <=? _) eqn:Et; cbn; bool_hyps; [unfold sat_sub in Et; lia|].
    split; [done|]. intros _ since E. injection E as <-. exists samples, s, [].
    split_and!; [done|by constructor|done].
Qed.

(** Memory pressure is left slowly.  Memory stops blocking only after an
    unbroken run of samples with no low-memory flag and at least 896 MiB available
    that spans ten seconds or more. *)
Lemma memory_unblocks_after_recovery samples :
  memory_blocked (foldl observe health_new samples) = false ->
  exists pre first mid last post,
    samples = pre ++ first :: mid ++ last :: post /\
    Forall recovered (first :: mid ++ [last]) /\
    10000 <= hs_monotonic_ms last - hs_monotonic_ms first.
Proof. apply memory_history. Qed.

Lemma memory_unblocks_after_recovery_witness :
  exists pre first mid last post,
    [good_sample 0; good_sample 5000; good_sample 10000] = pre ++ first :: mid ++ last :: post /\
    Forall recovered (first :: mid ++ [last]) /\
    10000 <= hs_monotonic_ms last - hs_monotonic_ms first.
Proof. apply memory_unblocks_after_recovery. vm_compute. reflexivity. Defined.
