(* ===== verification/GuardIdem.v ===== *)
(** * The resource guard: its idempotence table

    The entry of a reservation that is reserved or committed is in the table, without a
    terminal time and with the very decision ([bound_reachable]).  When the reservation
    is consumed, nothing dates its entry any more ([spent]), as long as the lease lives;
    1024 such entries exhaust the table ([consumed_entries_exhaust_table]). *)

From Stdlib Require Import ZArith Lia.
From stdpp Require Import base tactics list gmap relations.
From S2P Require Import Prelude Types ResourceWire Lease ResourceGuard GuardFacts.

Import Guard.

(** A reservation that still can be committed or released. *)
Definition active (r : Reservation) : Prop := rv_state r = Rv_Reserved \/ rv_state r = Rv_Committed.

Definition key_of (r : Reservation) : LeaseId * RequestId := (rv_lease_id r, rv_request_id r).

(** The entry that the grant of reservation [id] left. *)
Record entry_for (e : IdempotenceEntry) (id : ReservationId) (r : Reservation) : Prop := {
  ef_decision : id_decision e = Rd_Reserved id;
  ef_lease : id_lease_id e = rv_lease_id r;
  ef_incarnation : id_incarnation e = rv_incarnation r;
  ef_class : id_class e = rv_class r;
  ef_bytes : id_bytes e = rv_bytes r;
  ef_undated : id_terminal_at_ms e = None;
}.

Lemma entry_for_state e id r st t : entry_for e id (set_state r st t) <-> entry_for e id r.
Proof. split; intros []; by constructor. Qed.

(** ** Active reservations have their entries *)

Definition Bound (g : Guard.t) : Prop := forall id r,
  reservations g !! id = Some r -> active r ->
  exists e, idempotence g !! key_of r = Some e /\ entry_for e id r.

Lemma bound_unique g id1 id2 r1 r2 : Bound g ->
  reservations g !! id1 = Some r1 -> active r1 -> reservations g !! id2 = Some r2 -> active r2 ->
  key_of r1 = key_of r2 -> id1 = id2.
Proof.
  intros Hg H1 A1 H2 A2 Hk. destruct (Hg _ _ H1 A1) as (e1 & E1 & [D1 _ _ _ _ _]).
  destruct (Hg _ _ H2 A2) as (e2 & E2 & [D2 _ _ _ _ _]). rewrite Hk, E2 in E1.
  simplify_eq. congruence.
Qed.

(** Every active reservation of [g'] was one of [g], perhaps in another state, and its
    entry is untouched. *)
Lemma bound_frame g g' : Bound g ->
  (forall id r', reservations g' !! id = Some r' -> active r' ->
     exists r st t, reservations g !! id = Some r /\ active r /\ r' = set_state r st t /\
       idempotence g' !! key_of r = idempotence g !! key_of r) ->
  Bound g'.
Proof.
  intros Hg H id r' Hr' Ha'. destruct (H id r' Hr' Ha') as (r & st & t & Hr & Ha & -> & Hi).
  destruct (Hg id r Hr Ha) as (e & He & Hf). exists e. split; [by rewrite <- He, <- Hi|].
  by apply entry_for_state.
Qed.

Lemma set_state_self r : r = set_state r (rv_state r) (rv_terminal_at_ms r).
Proof. by destruct r. Qed.

(** The reservation [id] ends and its entry is dated. *)
Lemma bound_end g id r st t now h n :
  Bound g -> reservations g !! id = Some r -> active r -> ~ active (set_state r st t) ->
  Bound (Guard.mk h n (<[id := set_state r st t]> (reservations g))
    (alter (fun e => set_idem_terminal e now) (key_of r) (idempotence g))).
Proof.
  intros Hg Hr Ha Hn. apply (bound_frame g); [done|]. intros k x Hx Hax. cbn in *.
  apply lookup_insert_Some in Hx as [[<- <-]|[Hne Hx]]; [done|].
  eexists x, _, _. split_and!; [done|done|apply set_state_self|].
  rewrite lookup_alter_ne; [done|]. intros Hk. apply Hne. by eapply bound_unique.
Qed.

(** The reservation [id] moves on without touching the table. *)
Lemma bound_move g id r st t h n :
  Bound g -> reservations g !! id = Some r -> (active (set_state r st t) -> active r) ->
  Bound (Guard.mk h n (<[id := set_state r st t]> (reservations g)) (idempotence g)).
Proof.
  intros Hg Hr Ha. apply (bound_frame g); [done|]. intros k x Hx Hax. cbn in *.
  apply lookup_insert_Some in Hx as [[<- <-]|[Hne Hx]].
  - eexists r, _, _. split_and!; auto.
  - eexists x, _, _. split_and!; [done|done|apply set_state_self|done].
Qed.

Lemma bound_fields g h n : Bound g -> Bound (Guard.mk h n (reservations g) (idempotence g)).
Proof. done. Qed.

(** *** Expiry and purge *)

(** The loop dates the entries of its list and no other. *)
Lemma expire_fold_other now l g k :
  (forall x, x ∈ l -> key_of x.2 <> k) ->
  idempotence (foldl (expire_one now) g l) !! k = idempotence g !! k.
Proof.
  revert g. induction l as [|[i r] l IH]; intros g Hk; [done|]. cbn [foldl].
  rewrite IH by (intros x Hx; apply Hk; by right).
  cbn [expire_one mark_idempotence_terminal update_reservation release_allocation idempotence].
  apply lookup_alter_ne. apply (Hk (i, r)). by left.
Qed.

Lemma expire_other g now k :
  (forall id r, reservations g !! id = Some r -> due now r -> key_of r <> k) ->
  idempotence (expire_reserved g now) !! k = idempotence g !! k.
Proof.
  intros Hk. unfold expire_reserved. apply expire_fold_other. intros [id r] Hx.
  apply elem_of_map_to_list, map_lookup_filter_Some in Hx as [Hr Hd]. by apply (Hk id).
Qed.

Lemma expire_active g now id r :
  reservations (expire_reserved g now) !! id = Some r -> active r ->
  reservations g !! id = Some r /\ ~ due now r.
Proof.
  rewrite expire_reserved_lookup. destruct (reservations g !! id) as [r0|]; [|done].
  cbn. unfold expire_res. intros [= <-] Ha. case_decide as Hd; [|done]. by destruct Ha.
Qed.

Lemma expire_bound g now : Bound g -> Bound (expire_reserved g now).
Proof.
  intros Hg. apply (bound_frame g); [done|]. intros id r Hr Ha.
  destruct (expire_active g now id r Hr Ha) as [Hr0 Hnd].
  eexists r, _, _. split_and!; [done|done|apply set_state_self|].
  apply expire_other. intros id' r' Hr' Hd' Hk. apply Hnd.
  assert (id' = id) as -> by (eapply bound_unique; try done; by left; apply Hd').
  by simplify_eq.
Qed.

Lemma drop_bound l g : Bound g -> Bound (foldl drop_superseded g l).
Proof.
  intros Hg. apply (bound_frame g); [done|]. intros id r Hr Ha. rewrite drop_fold_lookup in Hr.
  case_decide; [done|]. eexists r, _, _. split_and!; [done|done|apply set_state_self|].
  by rewrite drop_fold_idem.
Qed.

(** Filters that keep the entries of the active reservations they keep. *)
Lemma bound_filter g (P : (LeaseId * RequestId) * IdempotenceEntry -> Prop)
    `{!forall x, Decision (P x)} (Q : ReservationId * Reservation -> Prop)
    `{!forall x, Decision (Q x)} :
  Bound g ->
  (forall id r e, reservations g !! id = Some r -> active r -> Q (id, r) ->
     entry_for e id r -> P (key_of r, e)) ->
  Bound (Guard.mk (health g) (allocated_bytes g) (filter Q (reservations g))
    (filter P (idempotence g))).
Proof.
  intros Hg HP id r Hr Ha. cbn in *. apply map_lookup_filter_Some in Hr as [Hr HQ].
  destruct (Hg id r Hr Ha) as (e & He & Hf). exists e. split; [|done].
  apply map_lookup_filter_Some. split; [done|]. by eapply HP.
Qed.

Lemma active_not_superseded g lease inc id r : active r ->
  reservations (foldl drop_superseded g (map_to_list
    (filter (fun x => superseded lease inc x.2) (reservations g)))) !! id = Some r ->
  rv_lease_id r = lease /\ rv_incarnation r = inc.
Proof.
  intros Ha Hr. rewrite drop_fold_lookup in Hr. case_decide as Hd; [done|].
  assert (Hns : ~ superseded lease inc r).
  { intros Hs. apply Hd. apply (elem_of_keys (fun x => superseded lease inc x.2)). eauto. }
  destruct (decide (rv_lease_id r = lease)) as [|Hl], (decide (rv_incarnation r = inc)) as [|Hi];
    try done; exfalso; apply Hns; (split; [|split]); auto; intros E; destruct Ha; congruence.
Qed.

Lemma purge_bound g now lease inc : Bound g -> Bound (expire_and_purge g now lease inc).
Proof.
  intros Hg. unfold expire_and_purge, retain_reservations.
  cbn [health allocated_bytes reservations idempotence].
  set (g1 := foldl drop_superseded g _). set (g2 := expire_reserved g1 now).
  assert (H2 : Bound g2) by (by apply expire_bound, drop_bound).
  apply (bound_filter g2); [done|]. cbn. intros id r e Hr Ha _ [_ El Ei _ _ Et].
  destruct (expire_active g1 now id r Hr Ha) as [Hr1 _].
  destruct (active_not_superseded g lease inc id r Ha Hr1) as [<- <-].
  split_and!; [done|done|by rewrite Et].
Qed.

Lemma tick_bound g now : Bound g -> Bound (tick g now).
Proof.
  intros Hg. unfold tick, retain_reservations.
  cbn [health allocated_bytes reservations idempotence].
  apply (bound_filter (expire_reserved g now)); [by apply expire_bound|].
  intros id r e _ _ _ [_ _ _ _ _ Et]. cbn. by rewrite Et.
Qed.

(** *** The operations *)

Lemma reserve_bound g m session lease rq now e g' m' d :
  Bound g -> reserve g m session lease rq now e = (g', m', d) -> Bound g'.
Proof.
  intros Hg H. unfold reserve in H.
  destruct (LeaseManager.validate _ _ _ _) as [m1 [pf|]] eqn:Ev; [|by simplify_eq].
  apply validate_ok in Ev as [-> _]. cbv zeta in H. cbn [pf_incarnation pf_lease_id] in H.
  set (inc := LeaseManager.incarnation m) in *.
  pose proof (purge_bound g now lease inc Hg) as Hp. set (g1 := expire_and_purge _ _ _ _) in *.
  destruct (idempotence g1 !! _) as [x|] eqn:Ex; [repeat case_match; by simplify_eq|].
  destruct (_ <=? _); [by simplify_eq|].
  destruct (reserve_fresh g1 _ rq now e) as [g2 d2] eqn:Ef. simplify_eq.
  assert (Hold : forall id r, reservations g1 !! id = Some r -> active r ->
    key_of r <> (lease, rq_request_id rq)).
  { intros id r Hr Ha Hk. destruct (Hp id r Hr Ha) as (x & Hx & _). congruence. }
  assert (Hcase : (reservations g2 = reservations g1 /\ idempotence g2 = idempotence g1) \/
    exists id r, d = Rd_Reserved id /\ reservations g2 = <[id := r]> (reservations g1) /\
      idempotence g2 = idempotence g1 /\ key_of r = (lease, rq_request_id rq) /\
      rv_incarnation r = inc /\ rv_class r = rq_class rq /\ rv_bytes r = rq_bytes rq).
  { unfold reserve_fresh in Ef. cbv zeta in Ef. repeat case_match; simplify_eq; auto.
    right. by eexists _, _. }
  intros id r Hr Ha. cbn in *. destruct Hcase as [[Hr2 Hi2]|(id2 & r2 & -> & Hr2 & Hi2 & Hk & Hinc & Hc & Hb)].
  - rewrite Hr2 in Hr. rewrite Hi2. destruct (Hp id r Hr Ha) as (x & Hx & Hf). exists x.
    split; [|done]. rewrite lookup_insert_ne; [done|]. intros E. by apply (Hold id r Hr Ha).
  - rewrite Hr2 in Hr. rewrite Hi2. apply lookup_insert_Some in Hr as [[<- <-]|[Hne Hr]].
    + rewrite Hk. eexists. split; [apply lookup_insert_eq|]. injection Hk as Hk1 _.
      by constructor.
    + destruct (Hp id r Hr Ha) as (x & Hx & Hf). exists x. split; [|done].
      rewrite lookup_insert_ne; [done|]. intros E. by apply (Hold id r Hr Ha).
Qed.

Lemma commit_bound g m session lease id now g' m' d :
  Bound g -> commit g m session lease id now = (g', m', d) -> Bound g'.
Proof.
  intros Hg H. unfold commit in H.
  destruct (LeaseManager.validate _ _ _ _) as [m1 [pf|]]; [|by simplify_eq]. cbv zeta in H.
  pose proof (purge_bound g now lease (pf_incarnation pf) Hg) as Hp.
  set (g1 := expire_and_purge _ _ _ _) in *.
  destruct (reservations g1 !! id) as [v|] eqn:Er; [|by simplify_eq].
  match type of H with (if ?c then _ else _) = _ => destruct c end; [by simplify_eq|].
  destruct (rv_state v) eqn:Es; try (by simplify_eq).
  destruct (is_refused _); simplify_eq;
    unfold mark_idempotence_terminal, update_reservation, release_allocation;
    cbn [reservations health allocated_bytes idempotence]; rewrite (alter_insert_some id v) by done.
  - apply bound_end; [done|done|by left|by intros []].
  - apply bound_move; [done|done|by left].
Qed.

Lemma release_bound g m session lease id now g' m' d :
  Bound g -> release g m session lease id now = (g', m', d) -> Bound g'.
Proof.
  intros Hg H. unfold release in H.
  destruct (LeaseManager.validate _ _ _ _) as [m1 [pf|]]; [|by simplify_eq]. cbv zeta in H.
  pose proof (purge_bound g now lease (pf_incarnation pf) Hg) as Hp.
  set (g1 := expire_and_purge _ _ _ _) in *.
  destruct (reservations g1 !! id) as [v|] eqn:Er; [|by simplify_eq].
  match type of H with (if ?c then _ else _) = _ => destruct c end; [by simplify_eq|].
  destruct (rv_state v) eqn:Es; simplify_eq; try done;
    unfold mark_idempotence_terminal, update_reservation, release_allocation;
    cbn [reservations health allocated_bytes idempotence]; rewrite (alter_insert_some id v) by done;
    apply bound_end; try done; (by left) || (by right) || (by intros []).
Qed.

Lemma consume_bound g pf id c n now g' x :
  Bound g -> consume g pf id c n now = (g', x) -> Bound g'.
Proof.
  intros Hg H. unfold consume in H. cbv zeta in H.
  pose proof (purge_bound g now (pf_lease_id pf) (pf_incarnation pf) Hg) as Hp.
  set (g1 := expire_and_purge _ _ _ _) in *.
  destruct (reservations g1 !! id) as [v|] eqn:Er; [|by simplify_eq].
  match type of H with (if ?c then _ else _) = _ => destruct c end; [by simplify_eq|].
  destruct (rv_state v) eqn:Es; simplify_eq; try done.
  apply bound_move; [done|done|]. by intros [].
Qed.

Lemma release_consumed_bound g id c n now : Bound g -> Bound (release_consumed g id c n now).
Proof.
  intros Hg. unfold release_consumed. destruct (reservations g !! id) as [v|] eqn:Ev; [|done].
  match goal with |- context [if ?c then _ else _] => destruct c end; [done|].
  apply bound_fields, bound_move; [done|done|]. by intros [].
Qed.

Lemma bound_step g g' : guard_step g g' -> Bound g -> Bound g'.
Proof.
  destruct 1; intros Hg.
  - done.
  - by eapply reserve_bound.
  - by eapply commit_bound.
  - by eapply release_bound.
  - by apply purge_bound.
  - eapply consume_bound; [|exact H]. by apply purge_bound.
  - unfold consume_for_compute in H. destruct (consume _ _ _ _ _ _) as [g1 [u|]] eqn:Ec;
      [|simplify_eq; by eapply consume_bound].
    case_match; simplify_eq. by eapply consume_bound.
  - by apply release_consumed_bound.
  - by apply release_consumed_bound.
  - by apply tick_bound.
Qed.

Lemma bound_reachable g : guard_reachable g -> Bound g.
Proof.
  intros H. unfold guard_reachable in H.
  assert (H0 : Bound Guard.new) by (by intros id r Hr).
  revert H0. induction H as [|g1 g2 g3 Hs _ IH]; [done|]. intros H1. by eapply IH, bound_step.
Qed.

(** ** Repeating a reserve *)

(** A committed reservation of the active lease survives a purge as it is. *)
Lemma purge_committed g now lease inc id r :
  reservations g !! id = Some r -> rv_state r = Rv_Committed -> rv_terminal_at_ms r = None ->
  rv_lease_id r = lease -> rv_incarnation r = inc ->
  reservations (expire_and_purge g now lease inc) !! id = Some r.
Proof.
  intros Hr Hs Ht Hl Hi. rewrite purge_lookup, Hr. cbn.
  assert (Hn : ~ superseded lease inc r) by (intros (_ & _ & [H|H]); by apply H).
  assert (He : expire_res now r = r).
  { unfold expire_res. rewrite decide_False; [done|]. intros [H _]. congruence. }
  unfold purge_res. rewrite decide_False by done. rewrite He, decide_True; [done|]. by rewrite Ht.
Qed.

(** A reserve that repeats the one of a committed reservation is answered with it. *)
Lemma reserve_repeated g m session lease now e id r :
  Bound g -> reservations g !! id = Some r -> rv_state r = Rv_Committed ->
  rv_terminal_at_ms r = None -> rv_lease_id r = lease ->
  rv_incarnation r = LeaseManager.incarnation m ->
  is_ok (snd (LeaseManager.validate m session lease now)) = true ->
  exists g' m', reserve g m session lease (mkReserveRequest (rv_request_id r) (rv_class r) (rv_bytes r))
      now e = (g', m', Rd_Reserved id) /\ reservations g' !! id = Some r.
Proof.
  intros Hg Hr Hs Ht Hl Hi Hv. unfold reserve.
  destruct (LeaseManager.validate m session lease now) as [m1 [pf|]] eqn:Ev; [|done].
  apply validate_ok in Ev as [-> _]. cbv zeta. cbn [pf_incarnation pf_lease_id rq_request_id].
  rewrite <- Hi. set (g1 := expire_and_purge _ _ _ _).
  assert (Hr1 : reservations g1 !! id = Some r) by (by apply purge_committed).
  destruct (purge_bound g now lease (rv_incarnation r) Hg id r Hr1) as (x & Hx & [D L I C B _]);
    [by right|].
  unfold key_of in Hx. rewrite Hl in Hx, L. fold g1 in Hx. rewrite Hx, L, I, C, B, D.
  rewrite !bool_decide_true by done. cbn [negb orb rq_class rq_bytes].
  rewrite Z.eqb_refl. cbn [andb]. by exists g1, m1.
Qed.

(** ** Consumed reservations leave undated entries *)

Section Spent.
Context (lease : LeaseId) (inc : WorkerIncarnationId).

(** Request [rq] of the lease has an undated entry, and no reservation is left whose end
    would date it. *)
Definition spent (g : Guard.t) (rq : RequestId) : Prop :=
  (exists e, idempotence g !! (lease, rq) = Some e /\ id_lease_id e = lease /\
     id_incarnation e = inc /\ id_terminal_at_ms e = None) /\
  forall id r, reservations g !! id = Some r -> active r -> key_of r <> (lease, rq).

Lemma spent_frame g g' rq : spent g rq ->
  idempotence g' !! (lease, rq) = idempotence g !! (lease, rq) ->
  (forall id r', reservations g' !! id = Some r' -> active r' ->
     key_of r' <> (lease, rq) \/
     exists r, reservations g !! id = Some r /\ active r /\ key_of r = key_of r') ->
  spent g' rq.
Proof.
  intros [He Hr] Hi Ha. split; [by rewrite Hi|]. intros id r' Hr' Ha'.
  destruct (Ha id r' Hr' Ha') as [|(r & Hr0 & Ha0 & <-)]; [done|]. by apply (Hr id).
Qed.

Lemma spent_expire g now rq : spent g rq -> spent (expire_reserved g now) rq.
Proof.
  intros Hs. apply (spent_frame g); [done|..].
  - apply expire_other. intros id r Hr [Hd _]. apply Hs with id; [done|by left].
  - intros id r Hr Ha. right. destruct (expire_active g now id r Hr Ha) as [Hr0 _]. by exists r.
Qed.

Lemma spent_filter g (P : (LeaseId * RequestId) * IdempotenceEntry -> Prop)
    `{!forall x, Decision (P x)} (Q : ReservationId * Reservation -> Prop)
    `{!forall x, Decision (Q x)} rq :
  spent g rq ->
  (forall e, id_lease_id e = lease -> id_incarnation e = inc -> id_terminal_at_ms e = None ->
     P ((lease, rq), e)) ->
  spent (Guard.mk (health g) (allocated_bytes g) (filter Q (reservations g))
    (filter P (idempotence g))) rq.
Proof.
  intros [(e & He & Hl & Hi & Ht) Hr] HP. split.
  - exists e. cbn. split; [|done]. apply map_lookup_filter_Some. auto.
  - intros id r Hr' Ha. apply map_lookup_filter_Some in Hr' as [Hr' _]. by apply (Hr id).
Qed.

Lemma spent_purge g now rq : spent g rq -> spent (expire_and_purge g now lease inc) rq.
Proof.
  intros Hs. unfold expire_and_purge, retain_reservations.
  cbn [health allocated_bytes reservations idempotence].
  apply (spent_filter (expire_reserved _ now)).
  - apply spent_expire. apply (spent_frame g); [done|by rewrite drop_fold_idem|].
    intros id r Hr Ha. right. rewrite drop_fold_lookup in Hr. case_decide; [done|]. by exists r.
  - intros e Hl Hi Ht. cbn. by rewrite Ht.
Qed.

Lemma spent_tick g now rq : spent g rq -> spent (tick g now) rq.
Proof.
  intros Hs. unfold tick, retain_reservations.
  cbn [health allocated_bytes reservations idempotence].
  apply (spent_filter (expire_reserved g now)); [by apply spent_expire|].
  intros e _ _ Ht. cbn. by rewrite Ht.
Qed.

(** A reservation moves; when its entry is dated, it was active. *)
Lemma spent_move g rq id r st t dated h n :
  spent g rq -> reservations g !! id = Some r -> (active (set_state r st t) -> active r) ->
  (is_Some dated -> active r) ->
  spent (Guard.mk h n (<[id := set_state r st t]> (reservations g))
    (match dated with
     | Some now => alter (fun e => set_idem_terminal e now) (key_of r) (idempotence g)
     | None => idempotence g
     end)) rq.
Proof.
  intros Hs Hr Ha Hd. apply (spent_frame g); [done|..]; cbn.
  - destruct dated as [now|]; [|done]. apply lookup_alter_ne. apply Hs with id; [done|]. by apply Hd.
  - intros k x Hx Hax. right. apply lookup_insert_Some in Hx as [[<- <-]|[_ Hx]]; [|by exists x].
    exists r. split_and!; auto.
Qed.

(** What the holder of the lease, the stores and the clock do to the guard. *)
Inductive own_step : Guard.t -> Guard.t -> Prop :=
| os_health g sample : own_step g (fst (record_health g sample))
| os_reserve g m session rq now e g' m' d :
    LeaseManager.incarnation m = inc ->
    reserve g m session lease rq now e = (g', m', d) -> own_step g g'
| os_commit g m session id now g' m' d :
    LeaseManager.incarnation m = inc ->
    commit g m session lease id now = (g', m', d) -> own_step g g'
| os_release g m session id now g' m' d :
    LeaseManager.incarnation m = inc ->
    release g m session lease id now = (g', m', d) -> own_step g g'
| os_snapshot g pf id now :
    pf_lease_id pf = lease -> pf_incarnation pf = inc ->
    own_step g (fst (reservation_snapshot g pf id now))
| os_consume g pf id c n now g' r :
    pf_lease_id pf = lease -> pf_incarnation pf = inc ->
    consume g pf id c n now = (g', r) -> own_step g g'
| os_release_consumed g id c n now : own_step g (release_consumed g id c n now)
| os_tick g now : own_step g (tick g now).

Lemma spent_reserve g m session rq0 now e g' m' d rq :
  LeaseManager.incarnation m = inc ->
  reserve g m session lease rq0 now e = (g', m', d) -> spent g rq -> spent g' rq.
Proof.
  intros Hinc H Hs. unfold reserve in H.
  destruct (LeaseManager.validate _ _ _ _) as [m1 [pf|]] eqn:Ev; [|by simplify_eq].
  apply validate_ok in Ev as [-> _]. cbv zeta in H. cbn [pf_incarnation pf_lease_id] in H.
  rewrite Hinc in H. apply (spent_purge g now) in Hs. set (g1 := expire_and_purge _ _ _ _) in *.
  destruct (idempotence g1 !! (lease, rq_request_id rq0)) as [x|] eqn:Ex;
    [repeat case_match; by simplify_eq|].
  destruct (_ <=? _); [by simplify_eq|].
  assert (Hne : rq <> rq_request_id rq0).
  { intros ->. destruct Hs as [(x & Hx & _) _]. congruence. }
  destruct (reserve_fresh g1 _ rq0 now e) as [g2 d2] eqn:Ef. simplify_eq.
  assert (Hi2 : idempotence g2 = idempotence g1).
  { unfold reserve_fresh in Ef. cbv zeta in Ef. repeat case_match; by simplify_eq. }
  apply (spent_frame g1); [done|..]; cbn.
  - rewrite lookup_insert_ne, Hi2; [done|]. congruence.
  - intros id r Hr Ha. unfold reserve_fresh in Ef. cbv zeta in Ef.
    repeat case_match; simplify_eq; cbn in Hr; try (right; by exists r).
    apply lookup_insert_Some in Hr as [[_ <-]|[_ Hr]]; [left|right; by exists r].
    cbn. unfold key_of. cbn. congruence.
Qed.

Lemma spent_step g g' rq : own_step g g' -> spent g rq -> spent g' rq.
Proof.
  destruct 1 as [g sample|g m session rq0 now e g' m' d Hm H|g m session id now g' m' d Hm H
    |g m session id now g' m' d Hm H|g pf id now Hl Hi|g pf id c n now g' x Hl Hi H|g id c n now
    |g now]; intros Hs.
  - done.
  - by eapply spent_reserve.
  - unfold commit in H. destruct (LeaseManager.validate _ _ _ _) as [m1 [pf|]] eqn:Ev; [|by simplify_eq].
    apply validate_ok in Ev as [-> _]. cbv zeta in H. cbn [pf_incarnation pf_lease_id] in H.
    rewrite Hm in H. apply (spent_purge g now) in Hs. set (g1 := expire_and_purge _ _ _ _) in *.
    destruct (reservations g1 !! id) as [v|] eqn:Er; [|by simplify_eq].
    match type of H with (if ?c then _ else _) = _ => destruct c end; [by simplify_eq|].
    destruct (rv_state v) eqn:Es; try (by simplify_eq).
    destruct (is_refused _); simplify_eq;
      unfold mark_idempotence_terminal, update_reservation, release_allocation;
      cbn [reservations health allocated_bytes idempotence]; rewrite (alter_insert_some id v) by done.
    + apply (spent_move g1 rq id v _ _ (Some now)); [done|done|by intros []|by left].
    + apply (spent_move g1 rq id v _ _ None); [done|done|by left|by intros []].
  - unfold release in H. destruct (LeaseManager.validate _ _ _ _) as [m1 [pf|]] eqn:Ev; [|by simplify_eq].
    apply validate_ok in Ev as [-> _]. cbv zeta in H. cbn [pf_incarnation pf_lease_id] in H.
    rewrite Hm in H. apply (spent_purge g now) in Hs. set (g1 := expire_and_purge _ _ _ _) in *.
    destruct (reservations g1 !! id) as [v|] eqn:Er; [|by simplify_eq].
    match type of H with (if ?c then _ else _) = _ => destruct c end; [by simplify_eq|].
    destruct (rv_state v) eqn:Es; simplify_eq; try done;
      unfold mark_idempotence_terminal, update_reservation, release_allocation;
      cbn [reservations health allocated_bytes idempotence]; rewrite (alter_insert_some id v) by done;
      (apply (spent_move g1 rq id v _ _ (Some now)); [done|done|by intros []|by intros _; (by left) || (by right)]).
  - unfold reservation_snapshot. cbn [fst]. rewrite Hl, Hi. by apply spent_purge.
  - unfold consume in H. cbv zeta in H. rewrite Hl, Hi in H. apply (spent_purge g now) in Hs.
    set (g1 := expire_and_purge _ _ _ _) in *.
    destruct (reservations g1 !! id) as [v|] eqn:Er; [|by simplify_eq].
    match type of H with (if ?c then _ else _) = _ => destruct c end; [by simplify_eq|].
    destruct (rv_state v) eqn:Es; simplify_eq; try done.
    apply (spent_move g1 rq id v _ _ None); [done|done|by intros []|by intros []].
  - unfold release_consumed. destruct (reservations g !! id) as [v|] eqn:Ev; [|done].
    match goal with |- context [if ?c then _ else _] => destruct c end; [done|].
    unfold release_allocation. cbn [reservations health allocated_bytes idempotence].
    apply (spent_move g rq id v _ _ None); [done|done|by intros []|by intros []].
  - by apply spent_tick.
Qed.

Lemma bound_own g g' : own_step g g' -> Bound g -> Bound g'.
Proof.
  destruct 1; intros Hg.
  - done.
  - by eapply reserve_bound.
  - by eapply commit_bound.
  - by eapply release_bound.
  - by apply purge_bound.
  - by eapply consume_bound.
  - by apply release_consumed_bound.
  - by apply tick_bound.
Qed.

(** Consuming a reservation spends the request that reserved it, which was not spent
    before. *)
Lemma consume_spends g pf id c n now g' :
  Bound g -> pf_lease_id pf = lease -> pf_incarnation pf = inc ->
  consume g pf id c n now = (g', Ok tt) ->
  exists rq, spent g' rq /\ ~ spent g rq.
Proof.
  intros Hg Hl Hi H. unfold consume in H. cbv zeta in H. rewrite Hl, Hi in H.
  pose proof (purge_bound g now lease inc Hg) as Hp.
  destruct (reservations (expire_and_purge g now lease inc) !! id) as [v|] eqn:Er; [|done].
  match type of H with (if ?c then _ else _) = _ => destruct c eqn:G end; [done|]. bool_hyps.
  destruct (rv_state v) eqn:Es; simplify_eq.
  assert (Hv : active v) by (by right).
  destruct (Hp id v Er Hv) as (e & He & [_ El Ei _ _ Et]).
  assert (Hk : key_of v = (lease, rv_request_id v)) by (unfold key_of; congruence).
  exists (rv_request_id v). split; [split|].
  - exists e. cbn. rewrite <- Hk. split_and!; [done|congruence|congruence|done].
  - intros id' r Hr Ha Hkr. cbn in Hr. apply lookup_insert_Some in Hr as [[_ <-]|[Hne Hr]];
      [by destruct Ha|]. apply Hne. eapply bound_unique; [exact Hp|exact Er|exact Hv|exact Hr|exact Ha|].
    congruence.
  - intros [_ Hno]. apply (Hno id v); [|exact Hv|exact Hk].
    eapply purge_active; [exact Er|]. by rewrite Es.
Qed.

(** [n] successful consumptions among any number of operations under the lease. *)
Inductive cycles : nat -> Guard.t -> Guard.t -> Prop :=
| cy_nil g : cycles 0 g g
| cy_step n g g1 g2 : cycles n g g1 -> own_step g1 g2 -> cycles n g g2
| cy_consume n g g1 g2 pf id c b now :
    cycles n g g1 -> pf_lease_id pf = lease -> pf_incarnation pf = inc ->
    consume g1 pf id c b now = (g2, Ok tt) -> cycles (S n) g g2.

Lemma cycles_spent n g0 g : cycles n g0 g -> Bound g0 ->
  Bound g /\ exists l, NoDup l /\ length l = n /\ Forall (spent g) l.
Proof.
  induction 1 as [g|n g g1 g2 _ IH Hs|n g g1 g2 pf id c b now _ IH Hl Hi Hc]; intros H0.
  - split; [done|]. exists []. split_and!; [constructor|done|constructor].
  - destruct (IH H0) as (Hb & l & Hn & Hlen & Hf). split; [by eapply bound_own|]. exists l.
    split_and!; [done|done|]. eapply Forall_impl; [exact Hf|]. intros rq. by apply spent_step.
  - destruct (IH H0) as (Hb & l & Hn & Hlen & Hf).
    assert (Hs : own_step g1 g2) by (by eapply os_consume).
    split; [by eapply bound_own|].
    destruct (consume_spends g1 pf id c b now g2 Hb Hl Hi Hc) as (rq & Hrq & Hnew).
    exists (rq :: l). split_and!; [constructor; [|done]|by cbn; rewrite Hlen|constructor; [done|]].
    + intros Hin. apply Hnew. rewrite Forall_forall in Hf. by apply Hf.
    + eapply Forall_impl; [exact Hf|]. intros x. by apply spent_step.
Qed.

Lemma spent_size g l : NoDup l -> Forall (spent g) l -> (length l <= size (idempotence g))%nat.
Proof.
  intros Hn Hf. rewrite <- (size_dom (D := gset (LeaseId * RequestId))).
  rewrite <- (length_fmap (pair lease) l).
  rewrite <- (size_list_to_set (C := gset (LeaseId * RequestId)) (pair lease <$> l)).
  - apply subseteq_size. intros k. rewrite elem_of_list_to_set, list_elem_of_fmap.
    intros (rq & -> & Hin). rewrite Forall_forall in Hf. destruct (Hf rq Hin) as [(e & He & _) _].
    apply elem_of_dom. by rewrite He.
  - apply NoDup_fmap_2; [|done]. by intros ?? [=].
Qed.

(** C38: freeing a consumed reservation never dates its idempotence entry, so the table
    fills for good.  Start from any reachable guard and let the holder of one lease, the
    stores and the clock work in any way, with at least 1024 reservations consumed on
    the way, whether or not they were freed since: from then on, at any later time and
    after any further such work, every new request of the lease is refused as table
    full, for as long as the lease lives. *)
Theorem consumed_entries_exhaust_table n g0 g m session rq now e :
  guard_reachable g0 -> cycles n g0 g -> IDEMPOTENCE_CAPACITY <= Z.of_nat n ->
  LeaseManager.incarnation m = inc ->
  is_ok (snd (LeaseManager.validate m session lease now)) = true ->
  idempotence g !! (lease, rq_request_id rq) = None ->
  exists g' m', reserve g m session lease rq now e = (g', m', Rd_IdempotenceTableFull) /\
    cycles n g0 g' /\ idempotence g' !! (lease, rq_request_id rq) = None.
Proof.
  intros H0 Hc Hn Hinc Hv Hnew.
  destruct (cycles_spent n g0 g Hc (bound_reachable g0 H0)) as (_ & l & Hnd & Hlen & Hf).
  destruct (reserve g m session lease rq now e) as [[g' m'] d] eqn:E.
  assert (Hd : d = Rd_IdempotenceTableFull /\ g' = expire_and_purge g now lease inc).
  { unfold reserve in E.
    destruct (LeaseManager.validate m session lease now) as [m1 [pf|]] eqn:Ev; [|done].
    apply validate_ok in Ev as [-> _]. cbv zeta in E. cbn [pf_incarnation pf_lease_id] in E.
    rewrite Hinc, (purge_idem_None g now lease _ _ Hnew) in E.
    assert (Hf' : Forall (spent (expire_and_purge g now lease inc)) l).
    { eapply Forall_impl; [exact Hf|]. intros x. apply spent_purge. }
    pose proof (spent_size _ l Hnd Hf').
    rewrite (proj2 (Z.leb_le _ _)) in E by lia. by simplify_eq. }
  destruct Hd as [-> Hg']. exists g', m'. split_and!; [done| |].
  - eapply cy_step; [exact Hc|]. by eapply os_reserve.
  - rewrite Hg'. by apply purge_idem_None.
Qed.
End Spent.

(** ** A run that exhausts the table *)

Definition demo_lease7 : LeaseId := replicate 16 Byte.x07.
Definition demo_inc : WorkerIncarnationId := replicate 16 Byte.x02.
Definition demo_pf : LeaseProof := mkProof demo_lease7 demo_inc (session_peer_id demo_peer).

(** The [k]-th request, of one byte, and the identifier that its grant draws. *)
Definition demo_rq (k : nat) : ReserveRequest :=
  mkReserveRequest (Z.of_nat k) Rc_RemoteBufferBytes 1.
Definition demo_id (k : nat) : ReservationId := Byte.x0a :: to_be 15 (Z.of_nat k).
Definition demo_draw (k : nat) : Entropy := Some (fun _ => Some (demo_id k)).

(** The guard after [k] requests were reserved, committed, consumed and freed. *)
Record quiet (k : nat) (g : Guard.t) : Prop := {
  q_health : health g = health warm_guard;
  q_alloc : allocated_bytes g = 0;
  q_res : forall id r, reservations g !! id = Some r ->
    rv_state r = Rv_ConsumedReleased /\ rv_terminal_at_ms r = Some 11000;
  q_idem : forall key e, idempotence g !! key = Some e ->
    (exists j, (j < k)%nat /\ key = (demo_lease7, Z.of_nat j)) /\
    id_lease_id e = demo_lease7 /\ id_incarnation e = demo_inc /\ id_terminal_at_ms e = None;
  q_size : size (idempotence g) = k;
}.

(** A purge at 11000 changes nothing when there is nothing to drop, expire or forget. *)
Definition calm (g : Guard.t) : Prop :=
  (forall id r, reservations g !! id = Some r ->
     ~ superseded demo_lease7 demo_inc r /\ ~ due 11000 r /\ retained 11000 (rv_terminal_at_ms r)) /\
  (forall key e, idempotence g !! key = Some e ->
     id_lease_id e = demo_lease7 /\ id_incarnation e = demo_inc /\ id_terminal_at_ms e = None).

Lemma filter_nothing (P : ReservationId * Reservation -> Prop) `{!forall x, Decision (P x)}
    (m : gmap ReservationId Reservation) :
  (forall id r, m !! id = Some r -> ~ P (id, r)) -> filter P m = ∅.
Proof.
  intros Hn. apply map_empty. intros id. apply map_lookup_filter_None. right. by apply Hn.
Qed.

Lemma calm_purge g : calm g -> expire_and_purge g 11000 demo_lease7 demo_inc = g.
Proof.
  intros [Hr Hi]. unfold expire_and_purge, retain_reservations, expire_reserved.
  rewrite filter_nothing by (intros id r E; by apply (Hr id r)).
  rewrite map_to_list_empty. cbn [foldl].
  rewrite filter_nothing by (intros id r E; by apply (Hr id r)).
  rewrite map_to_list_empty. cbn [foldl health allocated_bytes reservations idempotence].
  rewrite (map_filter_id _ (idempotence g)), (map_filter_id _ (reservations g)).
  - by destruct g.
  - intros id r E. by apply (Hr id r).
  - intros key e E. destruct (Hi key e E) as (El & Ei & Et). cbn. by rewrite Et.
Qed.

Lemma quiet_calm k g : quiet k g -> calm g.
Proof.
  intros Q. split.
  - intros id r Hr. destruct (q_res k g Q id r Hr) as [Es Et]. split_and!.
    + by intros (_ & H & _).
    + intros [H _]. congruence.
    + rewrite Et. cbn. unfold sat_sub, TERMINAL_RETENTION_MS. lia.
  - intros key e He. apply (q_idem k g Q key e He).
Qed.

(** The [k]-th reservation in state [st]. *)
Definition demo_rv (k : nat) (st : ReservationState) : Reservation :=
  mkReservation (session_peer_id demo_peer) demo_lease7 demo_inc (Z.of_nat k)
    Rc_RemoteBufferBytes 1 41000 st None.

Definition demo_entry (k : nat) : IdempotenceEntry :=
  mkIdem demo_lease7 demo_inc Rc_RemoteBufferBytes 1 (Rd_Reserved (demo_id k)) None.

(** A quiet guard with the [k]-th reservation in state [st] on top. *)
Definition demo_busy (k : nat) (st : ReservationState) (g : Guard.t) : Guard.t :=
  Guard.mk (health g) 1 (<[demo_id k := demo_rv k st]> (reservations g))
    (<[(demo_lease7, Z.of_nat k) := demo_entry k]> (idempotence g)).

Lemma busy_calm k st g : st = Rv_Reserved \/ st = Rv_Committed \/ st = Rv_Consumed ->
  quiet k g -> calm (demo_busy k st g).
Proof.
  intros Hst Q. destruct (quiet_calm k g Q) as [Hr Hi]. split; cbn.
  - intros id r E. apply lookup_insert_Some in E as [[_ <-]|[_ E]]; [|by apply (Hr id)].
    split_and!; [|intros [_ H]; cbn in H; lia|done].
    intros (H1 & H2 & [H|H]); by apply H.
  - intros key e E. apply lookup_insert_Some in E as [[_ <-]|[_ E]]; [done|by apply (Hi key)].
Qed.

Lemma demo_lease_valid :
  exists m, LeaseManager.validate demo_held demo_peer demo_lease7 11000 = (m, Ok demo_pf).
Proof. eexists. vm_compute. reflexivity. Qed.

Lemma demo_health :
  let st := health_status_of (health warm_guard) 11000 in
  is_refused (hl_safety st) = false /\ (1 <=? hl_budget_bytes st) = true.
Proof. split; vm_compute; reflexivity. Qed.

Lemma demo_draw_ok k : random_nonzero_128 (demo_draw k) = Ok (demo_id k).
Proof. reflexivity. Qed.

Lemma quiet_unused k g : quiet k g ->
  idempotence g !! (demo_lease7, rq_request_id (demo_rq k)) = None.
Proof.
  intros Q. destruct (idempotence g !! _) as [e|] eqn:E; [|done].
  destruct (q_idem k g Q _ e E) as [(j & Hj & [= Hk]) _]. lia.
Qed.

Lemma demo_reserve_runs k g : quiet k g -> (k < 1024)%nat ->
  exists m, reserve g demo_held demo_peer demo_lease7 (demo_rq k) 11000 (demo_draw k) =
    (demo_busy k Rv_Reserved g, m, Rd_Reserved (demo_id k)).
Proof.
  intros Q Hk. destruct demo_lease_valid as [m Hm]. exists m. unfold reserve. rewrite Hm.
  cbv zeta. cbn [pf_incarnation pf_lease_id demo_pf].
  rewrite (calm_purge g) by (by eapply quiet_calm). rewrite (quiet_unused k g Q).
  rewrite (proj2 (Z.leb_gt _ _)) by (rewrite (q_size k g Q); unfold IDEMPOTENCE_CAPACITY; lia).
  unfold reserve_fresh. cbv zeta. unfold health_status. rewrite (q_health k g Q), (q_alloc k g Q).
  destruct demo_health as [Hs Hb]. rewrite Hs. apply Z.leb_le in Hb.
  set (b := hl_budget_bytes _) in *. cbn [rq_class rq_bytes demo_rq].
  rewrite (proj2 (Z.ltb_ge (sat_sub b 0) 1)) by (unfold sat_sub; lia).
  change (max_request_bytes Rc_RemoteBufferBytes <? 1) with false.
  cbn [bool_decide decide_rel orb Z.eqb]. rewrite demo_draw_ok. unfold demo_busy. by rewrite (q_health k g Q).
Qed.

Lemma demo_commit_runs k g : quiet k g ->
  exists m, commit (demo_busy k Rv_Reserved g) demo_held demo_peer demo_lease7 (demo_id k) 11000 =
    (demo_busy k Rv_Committed g, m, Cd_Committed).
Proof.
  intros Q. destruct demo_lease_valid as [m Hm]. exists m. unfold commit. rewrite Hm. cbv zeta.
  cbn [pf_incarnation pf_lease_id demo_pf].
  rewrite (calm_purge (demo_busy _ _ _)) by (apply busy_calm; auto).
  cbn [demo_busy reservations]. rewrite lookup_insert_eq.
  cbn [demo_rv rv_lease_id rv_incarnation rv_state]. rewrite !bool_decide_true by done.
  cbn [negb orb]. unfold health_status. cbn [health demo_busy]. rewrite (q_health k g Q).
  destruct demo_health as [Hs _]. rewrite Hs. unfold demo_busy. cbn [allocated_bytes idempotence].
  rewrite alter_insert_some with (r := demo_rv k Rv_Reserved) by apply lookup_insert_eq.
  by rewrite insert_insert_eq, (q_health k g Q).
Qed.

Lemma demo_consume_runs k g : quiet k g ->
  consume (demo_busy k Rv_Committed g) demo_pf (demo_id k) Rc_RemoteBufferBytes (Some 1) 11000 =
    (demo_busy k Rv_Consumed g, Ok tt).
Proof.
  intros Q. unfold consume. cbv zeta. cbn [pf_lease_id pf_incarnation demo_pf].
  rewrite (calm_purge (demo_busy _ _ _)) by (apply busy_calm; auto).
  cbn [demo_busy reservations]. rewrite lookup_insert_eq.
  cbn [demo_rv rv_lease_id rv_incarnation rv_state rv_peer_id rv_class rv_bytes].
  rewrite !bool_decide_true by done. cbn [negb orb]. unfold demo_busy.
  cbn [health allocated_bytes idempotence]. by rewrite insert_insert_eq.
Qed.

Lemma demo_free_quiet k g : quiet k g ->
  quiet (S k) (release_consumed (demo_busy k Rv_Consumed g) (demo_id k) Rc_RemoteBufferBytes 1 11000).
Proof.
  intros Q. unfold release_consumed. cbn [demo_busy reservations]. rewrite lookup_insert_eq.
  cbn [demo_rv rv_state rv_class rv_bytes]. rewrite !bool_decide_true by done.
  cbn [negb orb Z.eqb Pos.eqb]. unfold release_allocation, demo_busy.
  cbn [health allocated_bytes reservations idempotence]. rewrite insert_insert_eq.
  split; cbn [health allocated_bytes reservations idempotence].
  - apply Q.
  - done.
  - intros id r E. apply lookup_insert_Some in E as [[_ <-]|[_ E]]; [done|].
    by apply (q_res k g Q id).
  - intros key e E. apply lookup_insert_Some in E as [[<- <-]|[_ E]].
    + split; [exists k; split; [lia|done]|done].
    + destruct (q_idem k g Q key e E) as [(j & Hj & ->) Hrest]. split; [|done].
      exists j. split; [lia|done].
  - rewrite map_size_insert_None by (by apply quiet_unused). by rewrite (q_size k g Q).
Qed.

Lemma warm_quiet : quiet 0 warm_guard.
Proof.
  constructor; [reflexivity|reflexivity| | |reflexivity]; intros k x H; exfalso;
    (change (reservations warm_guard) with (∅ : gmap ReservationId Reservation) in H ||
     change (idempotence warm_guard) with (∅ : gmap (LeaseId * RequestId) IdempotenceEntry) in H);
    by rewrite lookup_empty in H.
Qed.

(** [k] requests one after the other. *)
Lemma demo_cycles k : (k <= 1024)%nat ->
  exists g, quiet k g /\ cycles demo_lease7 demo_inc k warm_guard g.
Proof.
  induction k as [|k IH]; intros Hk.
  - exists warm_guard. split; [apply warm_quiet|constructor].
  - destruct IH as (g & Q & Hc); [lia|].
    destruct (demo_reserve_runs k g Q) as [m1 H1]; [lia|].
    destruct (demo_commit_runs k g Q) as [m2 H2]. pose proof (demo_consume_runs k g Q) as H3.
    eexists. split; [by apply demo_free_quiet|].
    eapply cy_step; [|apply os_release_consumed].
    refine (cy_consume _ _ k _ _ _ demo_pf _ _ _ _ _ eq_refl eq_refl H3).
    eapply cy_step; [|by eapply (os_commit _ _ _ demo_held)].
    eapply cy_step; [exact Hc|by eapply (os_reserve _ _ _ demo_held)].
Qed.

(** A worker that served 1024 one-byte requests, all of them freed. *)
Lemma consumed_entries_exhaust_table_witness :
  exists g, cycles demo_lease7 demo_inc 1024 warm_guard g /\ allocated_bytes g = 0 /\
    exists g' m', reserve g demo_held demo_peer demo_lease7 (demo_rq 1024) 20000 None =
        (g', m', Rd_IdempotenceTableFull) /\
      cycles demo_lease7 demo_inc 1024 warm_guard g' /\
      idempotence g' !! (demo_lease7, rq_request_id (demo_rq 1024)) = None.
Proof.
  destruct (demo_cycles 1024 (le_n _)) as (g & Q & Hc). exists g.
  split; [exact Hc|]. split; [apply (q_alloc 1024 g Q)|].
  apply (consumed_entries_exhaust_table demo_lease7 demo_inc 1024 warm_guard g demo_held demo_peer
    (demo_rq 1024) 20000 None).
  - apply warm_guard_reachable.
  - exact Hc.
  - vm_compute. discriminate.
  - reflexivity.
  - vm_compute. reflexivity.
  - apply (quiet_unused 1024 g Q).
Defined.
