(* ===== verification/BufferStore.v ===== *)
(** * pb-worker-core, remote-buffer store

    Models [crates/pb-worker-core/src/remote_buffer.rs]: the C09 single-writer
    authority for buffer contents and life cycles.  Every operation threads the
    store and the resource guard it releases budget to.

    The outcome of the [try_reserve_exact] of one call is the argument [mem_ok],
    the entropy of the draws of [stage_buffer] the argument [entropy].  The loops
    over [values_mut()] fold over the entries of the map; each entry is visited
    once and only its own reservation is released, so the order does not matter.
    [None] is a panic ([expect], slice index out of range). *)

From Stdlib Require Import ZArith Lia.
From stdpp Require Import base tactics list gmap.
From S2P Require Import Prelude Types ResourceWire ComputeWire BufferWire Lease ResourceGuard.

Definition MAX_REMOTE_BUFFER_BYTES : Z := 128 * 1024 * 1024.
Definition MAX_BUFFERS_PER_LEASE : Z := 8.
Definition DEFAULT_BUFFER_TTL_MS : Z := 300000.
Definition MAX_BUFFER_LIFETIME_MS : Z := 1800000.
Definition TOMBSTONE_RETENTION_MS : Z := 300000.

(** [SessionBinding::Production(VerifiedSessionId)]: an opaque session number. *)
Definition SessionBinding : Type := Z.

Record BufferRecord : Type := mkRecord {
  bu_buffer_id : list byte;
  bu_owner_peer_id : PeerId;
  bu_owner_controller_lease_id : LeaseId;
  bu_worker_incarnation_id : WorkerIncarnationId;
  bu_session_id : SessionBinding;
  bu_reservation_id : ReservationId;
  bu_size_bytes : Z;
  bu_state : BufferState;
  bu_created_mono_ms : Z;
  bu_expires_mono_ms : Z;
  bu_last_touch_mono_ms : Z;
  bu_allocation_flags : AllocationFlags;
  bu_initialized_ranges : list (Z * Z);
  bu_backing : option (list byte);
  bu_budget_released : bool;
  bu_terminal_mono_ms : option Z;
}.

(** ** Ranges *)

(** [ranges.sort_unstable_by_key(|range| range.0)]: ranges with equal starts merge
    into the same range in either order. *)
Fixpoint insert_by_start (r : Z * Z) (l : list (Z * Z)) : list (Z * Z) :=
  match l with
  | [] => [r]
  | x :: rest => if r.1 <? x.1 then r :: l else x :: insert_by_start r rest
  end.
Definition sort_by_start (l : list (Z * Z)) : list (Z * Z) :=
  foldl (fun acc r => insert_by_start r acc) [] l.

(** The body of the loop; [merged] is kept with its last element first. *)
Definition merge_step (merged : list (Z * Z)) (r : Z * Z) : list (Z * Z) :=
  match merged with
  | last :: rest =>
      if r.1 <=? last.2 then (last.1, Z.max last.2 r.2) :: rest else r :: merged
  | [] => [r]
  end.

Definition merge_range (ranges : list (Z * Z)) (new_range : Z * Z) : list (Z * Z) :=
  rev (foldl merge_step [] (sort_by_start (ranges ++ [new_range]))).

Module BufferStore.

Record t : Type := mk { buffers : gmap (list byte) BufferRecord }.
Definition new : t := mk ∅.

(** ** Helpers *)

Definition same_owner (record : BufferRecord) (proof : LeaseProof) : bool :=
  bool_decide (bu_owner_peer_id record = pf_peer_id proof)
  && bool_decide (bu_owner_controller_lease_id record = pf_lease_id proof)
  && bool_decide (bu_worker_incarnation_id record = pf_incarnation proof).

Definition owns (record : BufferRecord) (proof : LeaseProof) (session_id : SessionBinding) :
    bool :=
  same_owner record proof && (bu_session_id record =? session_id).

Definition result_ref (record : BufferRecord) (now_ms : Z) : BufferResultRef := {|
  br_buffer_id := bu_buffer_id record;
  br_state := bu_state record;
  br_allocation_flags := bu_allocation_flags record;
  br_size_bytes := bu_size_bytes record;
  br_ttl_remaining_ms :=
    if buffer_is_terminal (bu_state record) then 0
    else Z.min (sat_sub (bu_expires_mono_ms record) now_ms) U32_MAX |}.

Definition failed (lease_id : list byte) (incarnation : WorkerIncarnationId)
    (reason : BufferReason) (buffer : option BufferResultRef) : BufferResult := {|
  bf_completed := false;
  bf_reason := reason;
  bf_lease_id := lease_id;
  bf_worker_incarnation_id := incarnation;
  bf_buffer := buffer;
  bf_reservation_id := None;
  bf_offset := 0;
  bf_data_len := 0;
  bf_data := [] |}.

Definition completed (lease_id : list byte) (incarnation : WorkerIncarnationId)
    (buffer : BufferResultRef) (reservation_id : option (list byte)) (offset data_len : Z)
    (data : list byte) : BufferResult := {|
  bf_completed := true;
  bf_reason := Br_None;
  bf_lease_id := lease_id;
  bf_worker_incarnation_id := incarnation;
  bf_buffer := Some buffer;
  bf_reservation_id := reservation_id;
  bf_offset := offset;
  bf_data_len := data_len;
  bf_data := data |}.

Definition terminal_failure (lease_id : list byte) (incarnation : WorkerIncarnationId)
    (record : BufferRecord) (now_ms : Z) : BufferResult :=
  let reason :=
    match bu_state record with
    | Bs_Lost => Br_BufferLost
    | Bs_Freed => Br_BufferFreed
    | Bs_Evicted => Br_BufferEvicted
    | _ => Br_BufferInvalidState
    end in
  failed lease_id incarnation reason (Some (result_ref record now_ms)).

Definition completed_free (lease_id : list byte) (incarnation : WorkerIncarnationId)
    (record : BufferRecord) : BufferResult :=
  completed lease_id incarnation
    (result_ref record (default 0 (bu_terminal_mono_ms record))) None 0 0 [].

Definition terminalize (record : BufferRecord) (guard : Guard.t) (state : BufferState)
    (now_ms : Z) : BufferRecord * Guard.t :=
  let guard :=
    if negb (bu_budget_released record) then
      Guard.release_consumed_buffer guard (bu_reservation_id record) (bu_size_bytes record)
        now_ms
    else guard in
  ({| bu_buffer_id := bu_buffer_id record;
      bu_owner_peer_id := bu_owner_peer_id record;
      bu_owner_controller_lease_id := bu_owner_controller_lease_id record;
      bu_worker_incarnation_id := bu_worker_incarnation_id record;
      bu_session_id := bu_session_id record;
      bu_reservation_id := bu_reservation_id record;
      bu_size_bytes := bu_size_bytes record;
      bu_state := state;
      bu_created_mono_ms := bu_created_mono_ms record;
      bu_expires_mono_ms := now_ms;
      bu_last_touch_mono_ms := bu_last_touch_mono_ms record;
      bu_allocation_flags := bu_allocation_flags record;
      bu_initialized_ranges := [];
      bu_backing := None;
      bu_budget_released := true;
      bu_terminal_mono_ms := Some (default now_ms (bu_terminal_mono_ms record)) |}, guard).

(** Terminalize the record stored under [id]. *)
Definition end_record (state : BufferState) (now_ms : Z) (sg : t * Guard.t)
    (x : list byte * BufferRecord) : t * Guard.t :=
  let '(r, guard) := terminalize x.2 (snd sg) state now_ms in
  (mk (<[x.1 := r]> (buffers (fst sg))), guard).

(** [for record in self.buffers.values_mut() { if P { terminalize } }] *)
Definition sweep (P : BufferRecord -> bool) (state : BufferState) (s : t) (guard : Guard.t)
    (now_ms : Z) : t * Guard.t :=
  foldl (end_record state now_ms) (s, guard)
    (map_to_list (filter (fun x => P x.2 = true) (buffers s))).

Definition retain_tombstones (s : t) (now_ms : Z) : t :=
  mk (filter (fun x => match bu_terminal_mono_ms x.2 with
                       | None => True
                       | Some terminal => sat_sub now_ms terminal <= TOMBSTONE_RETENTION_MS
                       end) (buffers s)).

Definition expire_and_purge (s : t) (guard : Guard.t) (now_ms : Z) : t * Guard.t :=
  let '(s, guard) :=
    sweep (fun r => negb (buffer_is_terminal (bu_state r)) && (bu_expires_mono_ms r <=? now_ms))
      Bs_Evicted s guard now_ms in
  (retain_tombstones s now_ms, guard).

Definition session_lost (s : t) (guard : Guard.t) (session_id : SessionBinding) (now_ms : Z) :
    t * Guard.t :=
  let '(s, guard) := expire_and_purge s guard now_ms in
  sweep (fun r => (bu_session_id r =? session_id) && negb (buffer_is_terminal (bu_state r)))
    Bs_Lost s guard now_ms.

Definition lease_ended (s : t) (guard : Guard.t) (lease_id : LeaseId) (now_ms : Z) :
    t * Guard.t :=
  let '(s, guard) := expire_and_purge s guard now_ms in
  sweep (fun r => bool_decide (bu_owner_controller_lease_id r = lease_id)
                  && negb (buffer_is_terminal (bu_state r)))
    Bs_Evicted s guard now_ms.

Definition tick (s : t) (guard : Guard.t) (now_ms : Z) : t * Guard.t :=
  expire_and_purge s guard now_ms.

(** ** Allocation *)

(** The loop [for _ in 0..8] of [stage_buffer]; draw number [k]. *)
Fixpoint draw_unused (used : gmap (list byte) BufferRecord) (entropy : nat -> Entropy)
    (k fuel : nat) : result (list byte) unit :=
  match fuel with
  | O => Err tt
  | S fuel' =>
      match random_nonzero_128 (entropy k) with
      | Err _ => Err tt
      | Ok id =>
          match used !! id with
          | None => Ok id
          | Some _ => draw_unused used entropy (S k) fuel'
          end
      end
  end.

(** [usize::try_from] succeeds: sizes are at most 128 MiB here. *)
Definition stage_buffer (s : t) (size_bytes : Z) (mem_ok : bool) (entropy : nat -> Entropy) :
    result (list byte * list byte) unit :=
  if negb mem_ok then Err tt
  else
    let backing := zeros (Z.to_nat size_bytes) in
    match draw_unused (buffers s) entropy 0 8 with
    | Ok id => Ok (id, backing)
    | Err _ => Err tt
    end.

Definition active_count (s : t) (lease_id : LeaseId) : Z :=
  Z.of_nat (size (filter (fun x => bu_owner_controller_lease_id x.2 = lease_id /\
                                   buffer_is_terminal (bu_state x.2) = false) (buffers s))).

(** The fold with [saturating_add] over the records that still hold budget. *)
Definition held_bytes (s : t) : Z :=
  map_fold (fun _ r acc => if bu_budget_released r then acc
                           else sat_add64 acc (bu_size_bytes r)) 0 (buffers s).

Definition alloc (s : t) (guard : Guard.t) (proof : LeaseProof) (session_id : SessionBinding)
    (wire_lease_id wire_reservation_id : list byte) (size_bytes : Z)
    (allocation_flags : AllocationFlags) (now_ms : Z) (mem_ok : bool)
    (entropy : nat -> Entropy) : t * Guard.t * BufferResult :=
  let failed reason := failed wire_lease_id (pf_incarnation proof) reason None in
  if (size_bytes =? 0) || (MAX_REMOTE_BUFFER_BYTES <? size_bytes) then
    (s, guard, failed Br_ResourceExhausted)
  else if (MAX_BUFFERS_PER_LEASE <=? active_count s (pf_lease_id proof))
          || match checked_add64 (held_bytes s) size_bytes with
             | None => true
             | Some total => MAX_REMOTE_BUFFER_BYTES <? total
             end
  then (s, guard, failed Br_ResourceExhausted)
  else
    match Guard.reservation_snapshot guard proof wire_reservation_id now_ms with
    | (guard, None) => (s, guard, failed Br_ReservationInvalid)
    | (guard, Some snapshot) =>
        if negb (bool_decide (sn_class snapshot = Rc_RemoteBufferBytes))
           || negb (sn_bytes snapshot =? size_bytes)
           || negb (bool_decide (wire_state snapshot = Wr_Committed))
        then (s, guard, failed Br_ReservationInvalid)
        else
          match stage_buffer s size_bytes mem_ok entropy with
          | Err _ => (s, guard, failed Br_ResourceExhausted)
          | Ok staged =>
              match Guard.consume_for_buffer guard proof wire_reservation_id size_bytes now_ms with
              | (guard, Err _) => (s, guard, failed Br_ReservationInvalid)
              | (guard, Ok _) =>
                  let buffer_id := fst staged in
                  let record := {|
                    bu_buffer_id := buffer_id;
                    bu_owner_peer_id := pf_peer_id proof;
                    bu_owner_controller_lease_id := pf_lease_id proof;
                    bu_worker_incarnation_id := pf_incarnation proof;
                    bu_session_id := session_id;
                    bu_reservation_id := wire_reservation_id;
                    bu_size_bytes := size_bytes;
                    bu_state := Bs_Allocated;
                    bu_created_mono_ms := now_ms;
                    bu_expires_mono_ms := sat_add64 now_ms DEFAULT_BUFFER_TTL_MS;
                    bu_last_touch_mono_ms := now_ms;
                    bu_allocation_flags := allocation_flags;
                    bu_initialized_ranges := [];
                    bu_backing := Some (snd staged);
                    bu_budget_released := false;
                    bu_terminal_mono_ms := None |} in
                  (mk (<[buffer_id := record]> (buffers s)), guard,
                   completed wire_lease_id (pf_incarnation proof)
                     (mkBufferResultRef buffer_id Bs_Allocated allocation_flags size_bytes
                        (as_u32 DEFAULT_BUFFER_TTL_MS))
                     (Some wire_reservation_id) 0 0 [])
              end
          end
    end.

(** ** Access *)

(** [authorized_record_mut]: a record of another session is lost on contact. *)
Definition authorized_record (s : t) (guard : Guard.t) (proof : LeaseProof)
    (session_id : SessionBinding) (buffer_id : list byte) (now_ms : Z) :
    t * Guard.t * option BufferRecord :=
  match buffers s !! buffer_id with
  | None => (s, guard, None)
  | Some record =>
      let '(record, s, guard) :=
        if negb (bu_session_id record =? session_id)
           && negb (buffer_is_terminal (bu_state record))
        then
          let '(record, guard) := terminalize record guard Bs_Lost now_ms in
          (record, mk (<[buffer_id := record]> (buffers s)), guard)
        else (record, s, guard) in
      (s, guard, if owns record proof session_id then Some record else None)
  end.

Definition authorization_failure (s : t) (proof : LeaseProof) (wire_lease_id : list byte)
    (buffer_id : list byte) (session_id : SessionBinding) (now_ms : Z) : BufferResult :=
  let failed := failed wire_lease_id (pf_incarnation proof) in
  match buffers s !! buffer_id with
  | None => failed Br_BufferNotFound None
  | Some record =>
      if negb (bool_decide (bu_owner_peer_id record = pf_peer_id proof))
         || negb (bool_decide (bu_owner_controller_lease_id record = pf_lease_id proof))
      then failed Br_BufferNotOwned None
      else if negb (bu_session_id record =? session_id)
              || bool_decide (bu_state record = Bs_Lost)
      then failed Br_BufferLost (Some (result_ref record now_ms))
      else failed Br_BufferNotOwned None
  end.

(** [backing[start..end].copy_from_slice(data)] *)
Definition write_bytes (backing : list byte) (start : nat) (data : list byte) :
    option (list byte) :=
  if decide (start + length data <= length backing)%nat then
    Some (take start backing ++ data ++ drop (start + length data) backing)
  else None.

(** [&backing[start..end]] *)
Definition read_bytes (backing : list byte) (start n : nat) : option (list byte) :=
  if decide (start + n <= length backing)%nat then Some (slice backing start n) else None.

(** The contents of a record after a successful put. *)
Definition written (record : BufferRecord) (ranges : list (Z * Z)) (backing : list byte) :
    BufferRecord := {|
  bu_buffer_id := bu_buffer_id record;
  bu_owner_peer_id := bu_owner_peer_id record;
  bu_owner_controller_lease_id := bu_owner_controller_lease_id record;
  bu_worker_incarnation_id := bu_worker_incarnation_id record;
  bu_session_id := bu_session_id record;
  bu_reservation_id := bu_reservation_id record;
  bu_size_bytes := bu_size_bytes record;
  bu_state := if bool_decide (ranges = [(0, bu_size_bytes record)]) then Bs_Ready
              else Bs_Allocated;
  bu_created_mono_ms := bu_created_mono_ms record;
  bu_expires_mono_ms := bu_expires_mono_ms record;
  bu_last_touch_mono_ms := bu_last_touch_mono_ms record;
  bu_allocation_flags := bu_allocation_flags record;
  bu_initialized_ranges := ranges;
  bu_backing := Some backing;
  bu_budget_released := bu_budget_released record;
  bu_terminal_mono_ms := bu_terminal_mono_ms record |}.

Definition put (s : t) (guard : Guard.t) (proof : LeaseProof) (session_id : SessionBinding)
    (wire_lease_id buffer_id : list byte) (offset : Z) (data : list byte) (now_ms : Z)
    (mem_ok : bool) : option (t * Guard.t * BufferResult) :=
  let data_len := as_u32 (len data) in
  match authorized_record s guard proof session_id buffer_id now_ms with
  | (s, guard, None) =>
      Some (s, guard, authorization_failure s proof wire_lease_id buffer_id session_id now_ms)
  | (s, guard, Some record) =>
      let fail reason :=
        Some (s, guard, failed wire_lease_id (pf_incarnation proof) reason
                          (Some (result_ref record now_ms))) in
      if buffer_is_terminal (bu_state record) then
        Some (s, guard, terminal_failure wire_lease_id (pf_incarnation proof) record now_ms)
      else
        match checked_add64 offset (len data) with
        | None => fail Br_BufferRangeInvalid
        | Some end_ =>
            if (len data =? 0) || (bu_size_bytes record <? end_) then
              fail Br_BufferRangeInvalid
            else if negb mem_ok then fail Br_ResourceExhausted
            else
              let staged_ranges :=
                merge_range (bu_initialized_ranges record) (offset, end_) in
              backing ← bu_backing record;
              backing ← write_bytes backing (Z.to_nat offset) data;
              let record := written record staged_ranges backing in
              Some (mk (<[buffer_id := record]> (buffers s)), guard,
                    completed wire_lease_id (pf_incarnation proof)
                      (result_ref record now_ms) None offset data_len [])
        end
  end.

Definition get (s : t) (guard : Guard.t) (proof : LeaseProof) (session_id : SessionBinding)
    (wire_lease_id buffer_id : list byte) (offset length : Z) (now_ms : Z) (mem_ok : bool) :
    option (t * Guard.t * BufferResult) :=
  match authorized_record s guard proof session_id buffer_id now_ms with
  | (s, guard, None) =>
      Some (s, guard, authorization_failure s proof wire_lease_id buffer_id session_id now_ms)
  | (s, guard, Some record) =>
      let fail reason :=
        Some (s, guard, failed wire_lease_id (pf_incarnation proof) reason
                          (Some (result_ref record now_ms))) in
      if buffer_is_terminal (bu_state record) then
        Some (s, guard, terminal_failure wire_lease_id (pf_incarnation proof) record now_ms)
      else if negb (bool_decide (bu_state record = Bs_Ready)) then fail Br_BufferInvalidState
      else if (length =? 0) || (MAX_DATA_BODY <? length) then
        fail (if MAX_DATA_BODY <? length then Br_PayloadTooLarge else Br_BufferRangeInvalid)
      else
        match checked_add64 offset length with
        | None => fail Br_BufferRangeInvalid
        | Some end_ =>
            if bu_size_bytes record <? end_ then fail Br_BufferRangeInvalid
            else if negb mem_ok then fail Br_ResourceExhausted
            else
              backing ← bu_backing record;
              data ← read_bytes backing (Z.to_nat offset) (Z.to_nat length);
              Some (s, guard,
                    completed wire_lease_id (pf_incarnation proof)
                      (result_ref record now_ms) None offset length data)
        end
  end.

Definition stat (s : t) (proof : LeaseProof) (session_id : SessionBinding)
    (wire_lease_id buffer_id : list byte) (now_ms : Z) : BufferResult :=
  let failed := failed wire_lease_id (pf_incarnation proof) in
  match buffers s !! buffer_id with
  | None => failed Br_BufferNotFound None
  | Some record =>
      if negb (same_owner record proof) then failed Br_BufferNotOwned None
      else if buffer_is_terminal (bu_state record) then
        terminal_failure wire_lease_id (pf_incarnation proof) record now_ms
      else if negb (bu_session_id record =? session_id) then failed Br_BufferLost None
      else completed wire_lease_id (pf_incarnation proof) (result_ref record now_ms)
             (Some (bu_reservation_id record)) 0 0 []
  end.

Definition touched (record : BufferRecord) (now_ms : Z) : BufferRecord := {|
  bu_buffer_id := bu_buffer_id record;
  bu_owner_peer_id := bu_owner_peer_id record;
  bu_owner_controller_lease_id := bu_owner_controller_lease_id record;
  bu_worker_incarnation_id := bu_worker_incarnation_id record;
  bu_session_id := bu_session_id record;
  bu_reservation_id := bu_reservation_id record;
  bu_size_bytes := bu_size_bytes record;
  bu_state := bu_state record;
  bu_created_mono_ms := bu_created_mono_ms record;
  bu_expires_mono_ms :=
    Z.min (sat_add64 now_ms DEFAULT_BUFFER_TTL_MS)
          (sat_add64 (bu_created_mono_ms record) MAX_BUFFER_LIFETIME_MS);
  bu_last_touch_mono_ms := now_ms;
  bu_allocation_flags := bu_allocation_flags record;
  bu_initialized_ranges := bu_initialized_ranges record;
  bu_backing := bu_backing record;
  bu_budget_released := bu_budget_released record;
  bu_terminal_mono_ms := bu_terminal_mono_ms record |}.

Definition touch (s : t) (proof : LeaseProof) (session_id : SessionBinding)
    (wire_lease_id buffer_id : list byte) (now_ms : Z) : t * BufferResult :=
  let failed := failed wire_lease_id (pf_incarnation proof) in
  match buffers s !! buffer_id with
  | None => (s, failed Br_BufferNotFound None)
  | Some record =>
      if negb (same_owner record proof) then (s, failed Br_BufferNotOwned None)
      else if buffer_is_terminal (bu_state record) then
        (s, terminal_failure wire_lease_id (pf_incarnation proof) record now_ms)
      else if negb (bu_session_id record =? session_id) then (s, failed Br_BufferLost None)
      else
        let record := touched record now_ms in
        (mk (<[buffer_id := record]> (buffers s)),
         completed wire_lease_id (pf_incarnation proof) (result_ref record now_ms) None 0 0 [])
  end.

Definition free (s : t) (guard : Guard.t) (proof : LeaseProof) (session_id : SessionBinding)
    (wire_lease_id buffer_id : list byte) (now_ms : Z) : t * Guard.t * BufferResult :=
  let failed := failed wire_lease_id (pf_incarnation proof) in
  match buffers s !! buffer_id with
  | None => (s, guard, failed Br_BufferNotFound None)
  | Some record =>
      if negb (same_owner record proof) then (s, guard, failed Br_BufferNotOwned None)
      else if bool_decide (bu_state record = Bs_Freed) then
        (s, guard, completed_free wire_lease_id (pf_incarnation proof) record)
      else if buffer_is_terminal (bu_state record) then
        (s, guard, terminal_failure wire_lease_id (pf_incarnation proof) record now_ms)
      else if negb (bu_session_id record =? session_id) then
        (s, guard, failed Br_BufferLost None)
      else
        let '(record, guard) := terminalize record guard Bs_Freed now_ms in
        (mk (<[buffer_id := record]> (buffers s)), guard,
         completed_free wire_lease_id (pf_incarnation proof) record)
  end.

Definition apply (s : t) (guard : Guard.t) (proof : LeaseProof) (session_id : SessionBinding)
    (request : RemoteBufferRequest) (now_ms : Z) (mem_ok : bool) (entropy : nat -> Entropy) :
    option (t * Guard.t * (RemoteBufferResponseKind * BufferResult)) :=
  let '(s, guard) := expire_and_purge s guard now_ms in
  match request with
  | Rb_Alloc lease_id _ reservation_id size_bytes allocation_flags =>
      let '(s, guard, r) := alloc s guard proof session_id lease_id reservation_id size_bytes
                              allocation_flags now_ms mem_ok entropy in
      Some (s, guard, (Bk_AllocAck, r))
  | Rb_Put lease_id _ buffer_id offset data =>
      '(s, guard, r) ← put s guard proof session_id lease_id buffer_id offset data now_ms mem_ok;
      Some (s, guard, (Bk_Put, r))
  | Rb_Get lease_id _ buffer_id offset length =>
      '(s, guard, r) ← get s guard proof session_id lease_id buffer_id offset length now_ms
                         mem_ok;
      Some (s, guard, (Bk_Data, r))
  | Rb_Free lease_id _ buffer_id =>
      let '(s, guard, r) := free s guard proof session_id lease_id buffer_id now_ms in
      Some (s, guard, (Bk_Free, r))
  | Rb_Stat lease_id _ buffer_id =>
      Some (s, guard, (Bk_Stat, stat s proof session_id lease_id buffer_id now_ms))
  | Rb_Touch lease_id _ buffer_id =>
      let '(s, r) := touch s proof session_id lease_id buffer_id now_ms in
      Some (s, guard, (Bk_Touch, r))
  end.

(** ** Inputs of compute jobs *)

Definition validate_compute_input (s : t) (guard : Guard.t) (proof : LeaseProof)
    (session_id : SessionBinding) (buffer_id : list byte) (offset length now_ms : Z) :
    t * Guard.t * result unit ComputeReason :=
  let '(s, guard) := expire_and_purge s guard now_ms in
  match buffers s !! buffer_id with
  | None => (s, guard, Err Cr_BufferNotFound)
  | Some record =>
      if negb (bool_decide (bu_owner_peer_id record = pf_peer_id proof))
         || negb (bool_decide (bu_owner_controller_lease_id record = pf_lease_id proof))
      then (s, guard, Err Cr_BufferNotOwned)
      else if negb (bool_decide (bu_worker_incarnation_id record = pf_incarnation proof))
      then (s, guard, Err Cr_BufferWrongIncarnation)
      else if negb (bu_session_id record =? session_id) then
        if negb (buffer_is_terminal (bu_state record)) then
          let '(record, guard) := terminalize record guard Bs_Lost now_ms in
          (mk (<[buffer_id := record]> (buffers s)), guard, Err Cr_BufferLost)
        else (s, guard, Err Cr_BufferLost)
      else
        match bu_state record with
        | Bs_Lost => (s, guard, Err Cr_BufferLost)
        | Bs_Freed => (s, guard, Err Cr_BufferFreed)
        | Bs_Evicted => (s, guard, Err Cr_BufferEvicted)
        | Bs_Allocated | Bs_InUse => (s, guard, Err Cr_BufferInvalidState)
        | Bs_Ready =>
            if MAX_COMPUTE_INPUT_BYTES <? length then (s, guard, Err Cr_InputTooLarge)
            else
              match checked_add64 offset length with
              | None => (s, guard, Err Cr_InvalidInput)
              | Some end_ =>
                  if bu_size_bytes record <? end_ then (s, guard, Err Cr_InvalidInput)
                  else (s, guard, Ok tt)
              end
        end
  end.

(** The input slice [with_compute_input] hands to its closure; the outer [None]
    is an index panic. *)
Definition with_compute_input (s : t) (proof : LeaseProof) (session_id : SessionBinding)
    (buffer_id : list byte) (offset length : Z) : option (option (list byte)) :=
  match buffers s !! buffer_id with
  | None => Some None
  | Some record =>
      if negb (owns record proof session_id) || negb (bool_decide (bu_state record = Bs_Ready))
      then Some None
      else
        match checked_add64 offset length with
        | None => Some None
        | Some end_ =>
            if bu_size_bytes record <? end_ then Some None
            else
              match bu_backing record with
              | None => Some None
              | Some backing =>
                  data ← read_bytes backing (Z.to_nat offset) (Z.to_nat length);
                  Some (Some data)
              end
        end
  end.

End BufferStore.
