(* ===== verification/Claims.v ===== *)
(** * Consumed reservations as claims

    The contract between the resource guard and the stores that consume its
    reservations (remote buffers, compute jobs).  The claims of a class are the
    consumed reservations of that class; consuming adds one, the matching release
    deletes it, and no other operation of the guard touches them. *)

From Stdlib Require Import ZArith Lia.
From stdpp Require Import base tactics list gmap.
From S2P Require Import Prelude Types ResourceWire Lease ResourceGuard GuardFacts.

Import Guard.

Definition claim_of (c : ResourceClass) (r : Reservation) : Prop :=
  rv_state r = Rv_Consumed /\ rv_class r = c.
#[global] Instance claim_of_dec c r : Decision (claim_of c r).
Proof. unfold claim_of. apply _. Defined.

Definition as_claim (c : ResourceClass) (r : Reservation) : option Reservation :=
  if decide (claim_of c r) then Some r else None.

Definition claims (c : ResourceClass) (g : Guard.t) : gmap ReservationId Reservation :=
  omap (as_claim c) (reservations g).

Lemma claims_lookup c g (i : ReservationId) :
  claims c g !! i = reservations g !! i ≫= as_claim c.
Proof. apply lookup_omap. Qed.

Lemma claims_lookup_Some c g (i : ReservationId) v :
  claims c g !! i = Some v <->
  reservations g !! i = Some v /\ rv_state v = Rv_Consumed /\ rv_class v = c.
Proof.
  rewrite claims_lookup. destruct (reservations g !! i) as [r|]; cbn; [|by split; [|intros [? _]]].
  unfold as_claim. case_decide as Hd; unfold claim_of in Hd; split;
    [intros [= <-]; tauto|by intros [? _]|done|intros [[= <-] ?]; tauto].
Qed.

Lemma as_claim_not c r : rv_state r <> Rv_Consumed -> as_claim c r = None.
Proof. intros H. unfold as_claim. rewrite decide_False; [done|]. by intros []. Qed.
Lemma as_claim_class c r : rv_class r <> c -> as_claim c r = None.
Proof. intros H. unfold as_claim. rewrite decide_False; [done|]. by intros []. Qed.

(** ** What keeps the claims *)

Lemma claims_same c g g' : reservations g' = reservations g -> claims c g' = claims c g.
Proof. intros H. unfold claims. by rewrite H. Qed.

Lemma claims_replace c g g' (id : ReservationId) v v' :
  reservations g !! id = Some v -> as_claim c v = None -> as_claim c v' = None ->
  reservations g' = <[id := v']> (reservations g) -> claims c g' = claims c g.
Proof.
  intros Hv H1 H2 Hg. apply map_eq. intros i. rewrite !claims_lookup, Hg.
  destruct (decide (i = id)) as [->|Hne]; [|by rewrite lookup_insert_ne].
  by rewrite lookup_insert_eq, Hv; cbn; rewrite H1, H2.
Qed.

Lemma claims_add c g g' (id : ReservationId) v' :
  reservations g !! id = None -> as_claim c v' = None ->
  reservations g' = <[id := v']> (reservations g) -> claims c g' = claims c g.
Proof.
  intros Hv H2 Hg. apply map_eq. intros i. rewrite !claims_lookup, Hg.
  destruct (decide (i = id)) as [->|Hne]; [|by rewrite lookup_insert_ne].
  by rewrite lookup_insert_eq, Hv; cbn; rewrite H2.
Qed.

Lemma expire_res_claim c now r : as_claim c (expire_res now r) = as_claim c r.
Proof.
  unfold expire_res. case_decide as Hd; [|done]. destruct Hd as [Hs _].
  rewrite !as_claim_not; [done|by rewrite Hs|done].
Qed.

(** A claim has no end date, so no retention rule drops it. *)
Lemma retained_claim c g now (id : ReservationId) r :
  GInv g -> reservations g !! id = Some r ->
  (if decide (retained now (rv_terminal_at_ms (expire_res now r)))
   then Some (expire_res now r) else None) ≫= as_claim c = as_claim c r.
Proof.
  intros Hg Hr. destruct (decide (rv_state r = Rv_Consumed)) as [E|E].
  - assert (Hx : expire_res now r = r).
    { unfold expire_res. rewrite decide_False; [done|]. unfold due. rewrite E. by intros []. }
    rewrite Hx. assert (rv_terminal_at_ms r = None) as ->; [|done].
    apply (gi_terminal g Hg id r Hr). by rewrite E.
  - rewrite (as_claim_not c r E). case_decide; [|done]. cbn.
    by rewrite expire_res_claim, as_claim_not.
Qed.

Lemma claims_purge c g now lease inc :
  GInv g -> claims c (expire_and_purge g now lease inc) = claims c g.
Proof.
  intros Hg. apply map_eq. intros i. rewrite !claims_lookup, purge_lookup.
  destruct (reservations g !! i) as [r|] eqn:Er; [|done]. cbn. unfold purge_res.
  destruct (decide (superseded lease inc r)) as [[Hs _]|_]; [by rewrite as_claim_not|].
  by apply (retained_claim c g now i).
Qed.

Lemma claims_tick c g now : GInv g -> claims c (tick g now) = claims c g.
Proof.
  intros Hg. apply map_eq. intros i. rewrite !claims_lookup. unfold tick, retain_reservations.
  cbn [reservations health allocated_bytes]. rewrite map_lookup_filter, expire_reserved_lookup.
  destruct (reservations g !! i) as [r|] eqn:Er; [|done]. cbn.
  rewrite <- (retained_claim c g now i r Hg Er).
  destruct (decide (retained now (rv_terminal_at_ms (expire_res now r)))).
  - by rewrite option_guard_True.
  - by rewrite option_guard_False.
Qed.

Lemma claims_reserve c g m session lease rq now e g' m' d :
  GInv g -> fresh_id g e -> reserve g m session lease rq now e = (g', m', d) ->
  claims c g' = claims c g.
Proof.
  intros Hg Hf H. unfold reserve in H.
  destruct (LeaseManager.validate _ _ _ _) as [m1 [pf|]]; [|by simplify_eq].
  pose proof (fresh_purge g e now lease (pf_incarnation pf) Hf) as Hfp.
  rewrite <- (claims_purge c g now lease (pf_incarnation pf) Hg). cbv zeta in H.
  set (g1 := expire_and_purge _ _ _ _) in *. clearbody g1.
  assert (Hfresh : claims c (fst (reserve_fresh g1 pf rq now e)) = claims c g1).
  { clear H. unfold reserve_fresh. cbv zeta. repeat case_match; cbn [fst]; try done.
    eapply claims_add; [by apply Hfp| |reflexivity]. by apply as_claim_not. }
  destruct (reserve_fresh g1 pf rq now e) as [g2 d2]. cbn [fst] in Hfresh.
  repeat case_match; simplify_eq; try done; by rewrite <- Hfresh.
Qed.

Lemma claims_commit c g m session lease id now g' m' d :
  GInv g -> commit g m session lease id now = (g', m', d) -> claims c g' = claims c g.
Proof.
  intros Hg H. unfold commit in H.
  destruct (LeaseManager.validate _ _ _ _) as [m1 [pf|]]; [|by simplify_eq].
  rewrite <- (claims_purge c g now lease (pf_incarnation pf) Hg). cbv zeta in H.
  set (g1 := expire_and_purge _ _ _ _) in *. clearbody g1.
  destruct (reservations g1 !! id) as [v|] eqn:Er; [|by simplify_eq].
  match type of H with (if ?c then _ else _) = _ => destruct c end; [by simplify_eq|].
  destruct (rv_state v) eqn:Es; try (by simplify_eq).
  destruct (is_refused _); simplify_eq;
    (eapply claims_replace; [exact Er|by apply as_claim_not; rewrite Es| |
      by apply (alter_insert_some id v)]); by apply as_claim_not.
Qed.

Lemma claims_release c g m session lease id now g' m' d :
  GInv g -> release g m session lease id now = (g', m', d) -> claims c g' = claims c g.
Proof.
  intros Hg H. unfold release in H.
  destruct (LeaseManager.validate _ _ _ _) as [m1 [pf|]]; [|by simplify_eq].
  rewrite <- (claims_purge c g now lease (pf_incarnation pf) Hg). cbv zeta in H.
  set (g1 := expire_and_purge _ _ _ _) in *. clearbody g1.
  destruct (reservations g1 !! id) as [v|] eqn:Er; [|by simplify_eq].
  match type of H with (if ?c then _ else _) = _ => destruct c end; [by simplify_eq|].
  destruct (rv_state v) eqn:Es; simplify_eq; try done;
    (eapply claims_replace; [exact Er|by apply as_claim_not; rewrite Es| |
      by apply (alter_insert_some id v)]); by apply as_claim_not.
Qed.

(** ** Consuming and releasing *)

(** A successful consume of class [k] adds one new claim of class [k]. *)
Lemma claims_consume c g pf id k n now g' x :
  GInv g -> consume g pf id k n now = (g', x) ->
  match x with
  | Err _ => claims c g' = claims c g
  | Ok _ => exists v, reservations g' !! id = Some v /\ rv_state v = Rv_Consumed /\
      rv_class v = k /\ (forall b, n = Some b -> rv_bytes v = b) /\ claims k g !! id = None /\
      claims c g' = if decide (k = c) then <[id := v]> (claims c g) else claims c g
  end.
Proof.
  intros Hg H. pose proof (claims_purge c g now (pf_lease_id pf) (pf_incarnation pf) Hg) as Hp.
  pose proof (claims_purge k g now (pf_lease_id pf) (pf_incarnation pf) Hg) as Hk.
  apply consume_res in H. cbv zeta in H. set (g1 := expire_and_purge _ _ _ _) in *. clearbody g1.
  destruct H as [[Hm Hx]|(v & Hv & Hs & -> & Hc & _ & Hb & Hm)].
  - destruct x as [[]|]; [by destruct Hx|]. rewrite <- Hp. by apply claims_same.
  - exists (set_state v Rv_Consumed (rv_terminal_at_ms v)). rewrite Hm, lookup_insert_eq.
    split_and!; try done.
    + rewrite <- Hk, claims_lookup, Hv. cbn. apply as_claim_not. by rewrite Hs.
    + rewrite <- Hp. case_decide as Hkc.
      * subst c. apply map_eq. intros i. rewrite claims_lookup, Hm.
        destruct (decide (i = id)) as [->|Hne]; [|by rewrite !lookup_insert_ne, claims_lookup].
        rewrite !lookup_insert_eq. cbn. unfold as_claim. by rewrite decide_True by (split; congruence || done).
      * eapply claims_replace; [exact Hv|by apply as_claim_not; rewrite Hs| |exact Hm].
        apply as_claim_class. by rewrite <- Hc in Hkc.
Qed.

Lemma claims_release_consumed c g id k n now :
  claims c (release_consumed g id k n now) =
  match claims k g !! id with
  | Some v => if decide (rv_bytes v = n /\ k = c) then delete id (claims c g) else claims c g
  | None => claims c g
  end.
Proof.
  unfold release_consumed. rewrite claims_lookup.
  destruct (reservations g !! id) as [v|] eqn:Ev; [|done]. cbn.
  match goal with |- context [if ?b then g else _] => destruct b eqn:G end.
  - unfold as_claim. destruct (decide (claim_of k v)) as [[? ?]|]; [|done].
    destruct (decide (rv_bytes v = n /\ k = c)) as [[? _]|]; [|done]. bool_hyps.
    destruct G as [[G|G]%orb_true_iff|G]; bool_hyps; congruence.
  - bool_hyps. unfold as_claim. rewrite decide_True by done.
    destruct (decide (rv_bytes v = n /\ k = c)) as [Hd|Hd].
    + destruct Hd as [_ <-]. apply map_eq. intros i. rewrite claims_lookup. cbn [release_allocation reservations].
      destruct (decide (i = id)) as [->|Hne].
      * by rewrite lookup_insert_eq, lookup_delete_eq.
      * by rewrite lookup_insert_ne, lookup_delete_ne, claims_lookup.
    + eapply claims_replace; [exact Ev|apply as_claim_class|apply as_claim_class|done];
        cbn; intros E; apply Hd; split; congruence.
Qed.

Lemma claims_consume_compute c g pf id now g' x :
  GInv g -> consume_for_compute g pf id now = Some (g', x) ->
  match x with
  | Err _ => claims c g' = claims c g
  | Ok b => exists v, reservations g' !! id = Some v /\ rv_bytes v = b /\
      claims Rc_NativeOpScratchBytes g !! id = None /\
      claims c g' = if decide (Rc_NativeOpScratchBytes = c) then <[id := v]> (claims c g)
                    else claims c g
  end.
Proof.
  intros Hg H. unfold consume_for_compute in H.
  destruct (consume _ _ _ _ _ _) as [g1 [u|]] eqn:Ec.
  - pose proof (claims_consume c _ _ _ _ _ _ _ _ Hg Ec) as (v & Hv & _ & _ & _ & Hn & Hc).
    rewrite Hv in H. simplify_eq. eauto.
  - simplify_eq. by apply (claims_consume c) in Ec.
Qed.

(** Consuming never panics: the reservation just consumed is present. *)
Lemma consume_for_compute_total g pf id now : is_Some (consume_for_compute g pf id now).
Proof.
  unfold consume_for_compute. destruct (consume _ _ _ _ _ _) as [g1 [u|]] eqn:Ec; [|done].
  apply consume_res in Ec. cbv zeta in Ec. destruct Ec as [[_ Hx]|(v & _ & _ & _ & _ & _ & _ & ->)].
  - destruct u. by destruct Hx.
  - by rewrite lookup_insert_eq.
Qed.

Lemma claims_consume_buffer c g pf id n now g' x :
  GInv g -> consume_for_buffer g pf id n now = (g', x) ->
  match x with
  | Err _ => claims c g' = claims c g
  | Ok _ => exists v, reservations g' !! id = Some v /\ rv_state v = Rv_Consumed /\
      rv_class v = Rc_RemoteBufferBytes /\ rv_bytes v = n /\
      claims Rc_RemoteBufferBytes g !! id = None /\
      claims c g' = if decide (Rc_RemoteBufferBytes = c) then <[id := v]> (claims c g)
                    else claims c g
  end.
Proof.
  intros Hg H. unfold consume_for_buffer in H. cbv zeta in H.
  pose proof (purge_inv g now (pf_lease_id pf) (pf_incarnation pf) Hg) as Hp.
  rewrite <- (claims_purge c g now (pf_lease_id pf) (pf_incarnation pf) Hg).
  rewrite <- (claims_purge Rc_RemoteBufferBytes g now (pf_lease_id pf) (pf_incarnation pf) Hg).
  apply (claims_consume c) in H; [|done]. destruct x; [|done].
  destruct H as (v & ? & ? & ? & Hb & ? & ?). exists v. split_and!; try done. by apply Hb.
Qed.
