(* ===== verification/BufferFacts.v ===== *)
(** * The remote-buffer store: contents

    The initialised ranges of a buffer and its backing bytes refine a partial
    byte string: a put writes into it, the buffer becomes ready exactly when every
    byte has been written, and a get returns the bytes last written. *)

From Stdlib Require Import ZArith Lia.
From stdpp Require Import base tactics list gmap sorting.
From S2P Require Import Prelude Types ResourceWire ComputeWire BufferWire Lease ResourceGuard.
From S2P Require Import BufferStore.

(** ** Sets of ranges *)

Definition in_ranges (l : list (Z * Z)) (x : Z) : Prop :=
  exists r, r ∈ l /\ r.1 <= x < r.2.

(** Sorted, pairwise separated, non-empty ranges of non-negative numbers. *)
Definition apart (a b : Z * Z) : Prop := a.2 < b.1.
Definition normal (l : list (Z * Z)) : Prop :=
  StronglySorted apart l /\ Forall (fun r => 0 <= r.1 < r.2) l.

Lemma in_ranges_nil x : in_ranges [] x <-> False.
Proof. split; [|done]. intros (r & Hr & _). by apply elem_of_nil in Hr. Qed.

Lemma in_ranges_cons r l x : in_ranges (r :: l) x <-> r.1 <= x < r.2 \/ in_ranges l x.
Proof.
  unfold in_ranges. split.
  - intros (r' & [-> |Hr]%elem_of_cons & Hx); [by left|right; eauto].
  - intros [Hx|(r' & Hr & Hx)]; [exists r|exists r']; split; try done; set_solver.
Qed.

Lemma in_ranges_perm l l' x : l ≡ₚ l' -> in_ranges l x <-> in_ranges l' x.
Proof.
  intros Hp. unfold in_ranges. split; intros (r & Hr & Hx); exists r; split; try done;
    [by rewrite <- Hp|by rewrite Hp].
Qed.

Definition by_start (a b : Z * Z) : Prop := a.1 <= b.1.

Lemma insert_by_start_perm r l : insert_by_start r l ≡ₚ r :: l.
Proof.
  induction l as [|x l IH]; [done|]. cbn [insert_by_start]. case_match; [done|].
  rewrite IH. apply Permutation_swap.
Qed.

Lemma insert_by_start_sorted r l :
  StronglySorted by_start l -> StronglySorted by_start (insert_by_start r l).
Proof.
  induction 1 as [|x l Hl IH Hx]; cbn [insert_by_start]; [by repeat constructor|].
  destruct (Z.ltb_spec r.1 x.1).
  - repeat constructor; try done; [unfold by_start; lia|].
    eapply Forall_impl; [exact Hx|]. intros y. unfold by_start. lia.
  - constructor; [done|]. rewrite insert_by_start_perm. constructor; [unfold by_start; lia|done].
Qed.

Lemma sort_by_start_spec l acc :
  StronglySorted by_start acc ->
  foldl (fun acc r => insert_by_start r acc) acc l ≡ₚ acc ++ l /\
  StronglySorted by_start (foldl (fun acc r => insert_by_start r acc) acc l).
Proof.
  revert acc. induction l as [|r l IH]; intros acc Ha; cbn [foldl]; [by rewrite app_nil_r|].
  destruct (IH (insert_by_start r acc)) as [Hp Hs]; [by apply insert_by_start_sorted|].
  split; [|done]. rewrite Hp, insert_by_start_perm. apply Permutation_middle.
Qed.

(** The merge keeps what is covered and separates the ranges. *)
Lemma merge_fold l : forall acc,
  StronglySorted by_start l -> Forall (fun r => 0 <= r.1 < r.2) l ->
  StronglySorted (flip apart) acc -> Forall (fun r => 0 <= r.1 < r.2) acc ->
  (forall last rest r, acc = last :: rest -> r ∈ l -> last.1 <= r.1) ->
  let m := foldl merge_step acc l in
  StronglySorted (flip apart) m /\ Forall (fun r => 0 <= r.1 < r.2) m /\
  forall x, in_ranges m x <-> in_ranges acc x \/ in_ranges l x.
Proof.
  induction l as [|r l IH]; intros acc Hs Hne Ha Hnea Hle; cbv zeta; cbn [foldl].
  { split_and!; try done. intros x. rewrite in_ranges_nil. tauto. }
  apply StronglySorted_inv in Hs as [Hs Hr]. apply Forall_cons in Hne as [Hr0 Hne].
  rewrite Forall_forall in Hr. unfold by_start in Hr.
  assert (Hstep : StronglySorted (flip apart) (merge_step acc r) /\
    Forall (fun r => 0 <= r.1 < r.2) (merge_step acc r) /\
    (forall x, in_ranges (merge_step acc r) x <-> in_ranges acc x \/ r.1 <= x < r.2) /\
    (forall last rest, merge_step acc r = last :: rest -> last.1 <= r.1)).
  { destruct acc as [|last rest]; cbn [merge_step].
    - split; [constructor; constructor|]. split; [by constructor|]. split.
      + intros x. rewrite in_ranges_cons, in_ranges_nil. tauto.
      + intros ? ? [= <- <-]. lia.
    - apply StronglySorted_inv in Ha as [Ha Hlast]. apply Forall_cons in Hnea as [Hl0 Hnea].
      specialize (Hle last rest r eq_refl ltac:(set_solver)).
      destruct (Z.leb_spec r.1 last.2) as [Hov|Hgap]; split_and!.
      + constructor; [done|]. exact Hlast.
      + constructor; [cbn; lia|done].
      + intros x. rewrite !in_ranges_cons. cbn. split; [|].
        * intros [?|?]; [|tauto]. destruct (decide (x < last.2)); [lia|]. right. lia.
        * intros [[?|?]|?]; [left; lia|by right|]. left. lia.
      + intros ? ? [= <- <-]. cbn. lia.
      + constructor; [by constructor|]. constructor; [unfold flip, apart; lia|].
        eapply Forall_impl; [exact Hlast|]. intros y. unfold flip, apart. lia.
      + by repeat apply Forall_cons_2.
      + intros x. rewrite !in_ranges_cons. tauto.
      + intros ? ? [= <- <-]. lia. }
  destruct Hstep as (H1 & H2 & H3 & H4).
  destruct (IH (merge_step acc r) Hs Hne H1 H2) as (I1 & I2 & I3).
  { intros last rest r' E Hr'. specialize (H4 last rest E). specialize (Hr r' Hr'). lia. }
  split_and!; try done. intros x. rewrite I3, H3, in_ranges_cons. tauto.
Qed.

Lemma flip_sorted_rev (l : list (Z * Z)) :
  StronglySorted (flip apart) l -> StronglySorted apart (rev l).
Proof.
  induction 1 as [|a l _ IH Ha]; [constructor|]. cbn.
  assert (Hsnoc : forall l (a : Z * Z), StronglySorted apart l -> Forall (fun b => apart b a) l ->
    StronglySorted apart (l ++ [a])).
  { clear. intros l a. induction 1 as [|b l Hl IH Hb]; intros Hf; cbn; [by repeat constructor|].
    apply Forall_cons in Hf as [? ?]. constructor; [auto|].
    apply Forall_app. split; [done|by constructor]. }
  apply Hsnoc; [done|]. by apply Forall_rev.
Qed.

Lemma merge_range_normal l r :
  normal l -> 0 <= r.1 < r.2 ->
  normal (merge_range l r) /\
  forall x, in_ranges (merge_range l r) x <-> in_ranges l x \/ r.1 <= x < r.2.
Proof.
  intros [Hs Hne] Hr. unfold merge_range.
  destruct (sort_by_start_spec (l ++ [r]) []) as [Hp Hsort]; [constructor|].
  fold (sort_by_start (l ++ [r])) in *. cbn in Hp.
  assert (Hne' : Forall (fun r => 0 <= r.1 < r.2) (sort_by_start (l ++ [r]))).
  { rewrite Hp. apply Forall_app. split; [done|by constructor]. }
  destruct (merge_fold (sort_by_start (l ++ [r])) [] Hsort Hne') as (H1 & H2 & H3);
    [constructor..|done|].
  split; [split; [by apply flip_sorted_rev|by apply Forall_rev]|].
  intros x. rewrite (in_ranges_perm _ (foldl merge_step [] (sort_by_start (l ++ [r])))) by
    (symmetry; apply Permutation_rev).
  rewrite H3, in_ranges_nil, (in_ranges_perm _ _ x Hp), (in_ranges_perm (l ++ [r]) (r :: l)) by
    (symmetry; apply Permutation_cons_append).
  rewrite in_ranges_cons. tauto.
Qed.

(** Normal ranges inside [0, n) are the full range exactly when they cover it. *)
Lemma normal_full l n :
  0 < n -> normal l -> Forall (fun r => r.2 <= n) l ->
  l = [(0, n)] <-> forall x, 0 <= x < n -> in_ranges l x.
Proof.
  intros Hn [Hs Hne] Hb. split.
  - intros -> x Hx. exists (0, n). split; [set_solver|done].
  - intros Hall. destruct l as [|[s e] rest].
    { specialize (Hall 0 ltac:(lia)). by apply in_ranges_nil in Hall. }
    apply StronglySorted_inv in Hs as [_ Hrest]. apply Forall_cons in Hne as [He Hne].
    apply Forall_cons in Hb as [Hb1 Hb]. cbn in *. rewrite Forall_forall in Hrest, Hne, Hb.
    unfold apart in Hrest. cbn in Hrest.
    assert (Hout : forall x, in_ranges rest x -> e < x).
    { intros x (r & Hr & Hx). specialize (Hrest r Hr). lia. }
    assert (s = 0).
    { specialize (Hall 0 ltac:(lia)). apply in_ranges_cons in Hall as [?|H0]; [cbn in *; lia|].
      apply Hout in H0. lia. }
    assert (e = n).
    { destruct (decide (e = n)); [done|]. specialize (Hall e ltac:(lia)).
      apply in_ranges_cons in Hall as [?|H0]; [cbn in *; lia|]. apply Hout in H0. lia. }
    subst s e. f_equal. destruct rest as [|r rest]; [done|].
    specialize (Hrest r ltac:(set_solver)). specialize (Hb r ltac:(set_solver)).
    specialize (Hne r ltac:(set_solver)). lia.
Qed.

Lemma merge_range_within l a b n :
  normal l -> 0 <= a < b -> b <= n -> Forall (fun r => r.2 <= n) l ->
  Forall (fun r => r.2 <= n) (merge_range l (a, b)).
Proof.
  intros Hl Hab Hb Hn. destruct (merge_range_normal l (a, b) Hl Hab) as [[_ Hne] H2].
  apply Forall_forall. intros r Hr. rewrite Forall_forall in Hne.
  specialize (Hne r Hr). assert (Hx : in_ranges (merge_range l (a, b)) (r.2 - 1)).
  { exists r. split; [done|lia]. }
  apply H2 in Hx as [(r' & Hr' & Hx)|Hx]; [|cbn in Hx; lia].
  rewrite Forall_forall in Hn. specialize (Hn r' Hr'). lia.
Qed.

(** Range merging.  Adding a range to a sorted, separated list of ranges gives
    a sorted, separated list that covers exactly the old positions and the new
    ones; and such a list within a buffer is the single full range if and only if
    every byte of the buffer is covered, which is how the store detects that a
    buffer is completely written. *)
Lemma merge_range_correct l a b n :
  normal l -> 0 <= a < b -> b <= n -> Forall (fun r => r.2 <= n) l ->
  let m := merge_range l (a, b) in
  normal m /\ Forall (fun r => r.2 <= n) m /\
  (forall x, in_ranges m x <-> in_ranges l x \/ a <= x < b) /\
  (m = [(0, n)] <-> forall x, 0 <= x < n -> in_ranges m x).
Proof.
  intros Hl Hab Hb Hn m. destruct (merge_range_normal l (a, b) Hl Hab) as [H1 H2].
  pose proof (merge_range_within l a b n Hl Hab Hb Hn).
  split_and!; try done. apply normal_full; try done. lia.
Qed.

Lemma merge_range_correct_witness :
  let m := merge_range [(0, 10); (20, 30)] (10, 20) in
  normal m /\ Forall (fun r => r.2 <= 30) m /\
  (forall x, in_ranges m x <-> in_ranges [(0, 10); (20, 30)] x \/ 10 <= x < 20) /\
  (m = [(0, 30)] <-> forall x, 0 <= x < 30 -> in_ranges m x).
Proof.
  apply merge_range_correct; try lia.
  - split; [repeat constructor; unfold apart; cbn; lia|repeat constructor; cbn; lia].
  - repeat constructor; cbn; lia.
Defined.

(** ** Partial byte strings *)

(** The abstract contents of a buffer: a byte is known once it has been written. *)
Module Content.
Definition covered (ranges : list (Z * Z)) (x : Z) : bool :=
  existsb (fun r => (r.1 <=? x) && (x <? r.2)) ranges.
Definition bytes_of (ranges : list (Z * Z)) (backing : list byte) : list (option byte) :=
  imap (fun i b => if covered ranges (Z.of_nat i) then Some b else None) backing.

Definition unwritten (n : nat) : list (option byte) := replicate n None.
Definition overwrite (c : list (option byte)) (offset : nat) (data : list byte) :
    list (option byte) :=
  take offset c ++ (Some <$> data) ++ drop (offset + length data) c.
Definition complete (c : list (option byte)) : bool := forallb is_some c.
Definition read (c : list (option byte)) (offset n : nat) : option (list byte) :=
  mapM id (take n (drop offset c)).
End Content.
Import Content.

Lemma covered_spec l x : covered l x = true <-> in_ranges l x.
Proof.
  unfold covered, in_ranges. rewrite existsb_exists. split; intros (r & Hr & H); exists r;
    (split; [by apply list_elem_of_In|]); [bool_hyps; lia|apply andb_true_iff; lia].
Qed.

Lemma covered_eq l l' x :
  (in_ranges l x <-> in_ranges l' x) -> covered l x = covered l' x.
Proof. rewrite <- !covered_spec. intros. by apply eq_true_iff_eq. Qed.

Lemma length_bytes_of l b : length (bytes_of l b) = length b.
Proof. apply length_imap. Qed.

Lemma lookup_bytes_of l b i :
  bytes_of l b !! i = (fun x => if covered l (Z.of_nat i) then Some x else None) <$> b !! i.
Proof. apply list_lookup_imap. Qed.

Lemma bytes_of_nil b : bytes_of [] b = unwritten (length b).
Proof.
  apply list_eq. intros i. rewrite lookup_bytes_of. cbn. unfold unwritten.
  destruct (b !! i) eqn:E; cbn.
  - symmetry. apply lookup_replicate. split; [done|]. by eapply lookup_lt_Some.
  - symmetry. apply lookup_replicate_None. by apply lookup_ge_None.
Qed.

Lemma bytes_of_full b : bytes_of [(0, len b)] b = Some <$> b.
Proof.
  apply list_eq. intros i. rewrite lookup_bytes_of, list_lookup_fmap.
  destruct (b !! i) eqn:E; [|done]. cbn. apply lookup_lt_Some in E.
  rewrite (proj2 (andb_true_iff _ _)); [done|]. unfold len. split; lia.
Qed.

Lemma lookup_splice {A} (l d : list A) k i :
  (k + length d <= length l)%nat ->
  (take k l ++ d ++ drop (k + length d) l) !! i =
    if decide (k <= i < k + length d)%nat then d !! (i - k)%nat else l !! i.
Proof.
  intros H. assert (Hk : length (take k l) = k) by (rewrite length_take; lia).
  case_decide as Hi.
  - rewrite lookup_app_r, Hk, lookup_app_l by lia. done.
  - destruct (decide (i < k)%nat).
    + rewrite lookup_app_l, lookup_take_lt by lia. done.
    + rewrite !lookup_app_r, Hk, lookup_drop by lia. f_equal. lia.
Qed.

Lemma complete_spec c : complete c = true <-> forall i, c !! i <> Some None.
Proof.
  unfold complete. rewrite forallb_forall. split.
  - intros H i Hi. specialize (H None). cbn in H. discriminate H.
    apply list_elem_of_In. by eapply list_elem_of_lookup_2.
  - intros H o Ho. apply list_elem_of_In, list_elem_of_lookup in Ho as [i Hi].
    destruct o; [done|]. by destruct (H i).
Qed.

(** The full range is the same as a complete byte string. *)
Lemma full_complete l b n :
  0 < n -> len b = n -> normal l -> Forall (fun r => r.2 <= n) l ->
  l = [(0, n)] <-> complete (bytes_of l b) = true.
Proof.
  intros Hn Hlen Hl Hb. rewrite (normal_full l n) by done. rewrite complete_spec. split.
  - intros Hall i. rewrite lookup_bytes_of. destruct (b !! i) as [x|] eqn:E; [|done]. cbn.
    rewrite (proj2 (covered_spec _ _)); [done|]. apply Hall. apply lookup_lt_Some in E.
    unfold len in Hlen. lia.
  - intros H x Hx. specialize (H (Z.to_nat x)). rewrite lookup_bytes_of in H.
    destruct (lookup_lt_is_Some_2 b (Z.to_nat x)) as [y Hy]; [unfold len in Hlen; lia|].
    rewrite Hy, Z2Nat.id in H by lia. cbn in H. apply covered_spec.
    destruct (covered l x); [done|]. by destruct H.
Qed.

Lemma mapM_some {A} (l : list A) : mapM id (Some <$> l) = Some l.
Proof. by apply mapM_fmap_Some. Qed.

Lemma read_full b k n : read (bytes_of [(0, len b)] b) k n = Some (slice b k n).
Proof.
  unfold read, slice. rewrite bytes_of_full, <- fmap_drop, <- fmap_take. apply mapM_some.
Qed.

(** Writing bytes and merging the range overwrites the partial byte string. *)
Lemma write_overwrite l b k data b' :
  normal l -> data <> [] -> BufferStore.write_bytes b k data = Some b' ->
  length b' = length b /\
  bytes_of (merge_range l (Z.of_nat k, Z.of_nat k + len data)) b' = overwrite (bytes_of l b) k data.
Proof.
  intros Hl Hd H. unfold BufferStore.write_bytes in H. case_decide as Hle; [|done].
  injection H as <-. assert (Hpos : 0 < len data).
  { destruct data; [done|]. unfold len. cbn. lia. }
  split; [rewrite !length_app, length_take, length_drop; lia|].
  destruct (merge_range_normal l (Z.of_nat k, Z.of_nat k + len data) Hl) as [_ Hm]; [cbn; lia|].
  apply list_eq. intros i. rewrite lookup_bytes_of, lookup_splice by done.
  unfold overwrite. rewrite <- (length_fmap Some data), lookup_splice by
    (rewrite length_fmap, length_bytes_of; lia).
  rewrite length_fmap. specialize (Hm (Z.of_nat i)). cbn [fst snd] in Hm. case_decide as Hi.
  - rewrite list_lookup_fmap. destruct (data !! (i - k)%nat); [|done]. cbn.
    rewrite (proj2 (covered_spec _ _)); [done|]. apply Hm. right. unfold len. lia.
  - rewrite lookup_bytes_of. rewrite (covered_eq _ l); [done|]. rewrite Hm. unfold len.
    split; [intros [?|?]; [done|lia]|by left].
Qed.
