(* ===== verification/BufferInv.v ===== *)
(** * The remote-buffer store: invariant

    Live buffers have their backing bytes and hold exactly the consumed
    remote-buffer reservations of the guard, one each; ended ones hold nothing.
    Ending a buffer, alone or in a sweep, keeps this and releases its claim. *)

From Stdlib Require Import ZArith Lia.
From stdpp Require Import base tactics list gmap.
From S2P Require Import Prelude Types ResourceWire ComputeWire BufferWire Lease ResourceGuard.
From S2P Require Import GuardFacts BufferStore Claims BufferFacts.

Import BufferStore.

Definition alive (r : BufferRecord) : bool := negb (buffer_is_terminal (bu_state r)).

(** Contents of a live buffer. *)
Record ContentOk (size : Z) (state : BufferState) (ranges : list (Z * Z))
    (backing : list byte) : Prop := {
  co_length : len backing = size;
  co_normal : normal ranges;
  co_within : Forall (fun r => r.2 <= size) ranges;
  co_ready : state = Bs_Ready <-> ranges = [(0, size)];
  co_state : state = Bs_Ready \/ state = Bs_Allocated;
}.

Record RInv (k : list byte) (r : BufferRecord) : Prop := {
  ri_key : bu_buffer_id r = k;
  ri_size : 0 < bu_size_bytes r <= MAX_REMOTE_BUFFER_BYTES;
  ri_live : alive r = true ->
    bu_budget_released r = false /\ bu_terminal_mono_ms r = None /\
    exists backing, bu_backing r = Some backing /\
      ContentOk (bu_size_bytes r) (bu_state r) (bu_initialized_ranges r) backing;
  ri_dead : alive r = false ->
    bu_budget_released r = true /\ is_Some (bu_terminal_mono_ms r) /\ bu_backing r = None;
}.

Definition live_bytes (_ : list byte) (r : BufferRecord) : Z :=
  if alive r then bu_size_bytes r else 0.
Definition live_of (lease : LeaseId) (_ : list byte) (r : BufferRecord) : Z :=
  if alive r && bool_decide (bu_owner_controller_lease_id r = lease) then 1 else 0.

Definition buffer_claims (g : Guard.t) : gmap ReservationId Reservation :=
  claims Rc_RemoteBufferBytes g.

Record BInv (s : t) (g : Guard.t) : Prop := {
  bi_guard : GInv g;
  bi_rec k r : buffers s !! k = Some r -> RInv k r;
  bi_claim k r : buffers s !! k = Some r -> alive r = true ->
    exists v, buffer_claims g !! bu_reservation_id r = Some v /\ rv_bytes v = bu_size_bytes r;
  bi_used id v : buffer_claims g !! id = Some v ->
    exists k r, buffers s !! k = Some r /\ alive r = true /\ bu_reservation_id r = id;
  bi_inj k1 k2 r1 r2 : buffers s !! k1 = Some r1 -> buffers s !! k2 = Some r2 ->
    alive r1 = true -> alive r2 = true -> bu_reservation_id r1 = bu_reservation_id r2 -> k1 = k2;
  bi_total : msum live_bytes (buffers s) <= MAX_REMOTE_BUFFER_BYTES;
  bi_count lease : msum (live_of lease) (buffers s) <= MAX_BUFFERS_PER_LEASE;
}.

Lemma binv_new : BInv new Guard.new.
Proof. by constructor. Qed.

(** Guard steps that keep the claims keep the invariant. *)
Lemma binv_guard s g g' :
  BInv s g -> GInv g' -> buffer_claims g' = buffer_claims g -> BInv s g'.
Proof. intros [] Hg Hc. constructor; try done; by rewrite Hc. Qed.

(** ** Replacing one record *)

Section Replace.
Context (s : t) (g : Guard.t) (k : list byte) (r r' : BufferRecord).
Hypothesis Hinv : BInv s g.
Hypothesis Hr : buffers s !! k = Some r.
Hypothesis Hlive : alive r = true.
Hypothesis Hrec : RInv k r'.

Lemma lookup_replaced i x :
  <[k := r']> (buffers s) !! i = Some x ->
  i = k /\ x = r' \/ i <> k /\ buffers s !! i = Some x.
Proof. rewrite lookup_insert_Some. naive_solver. Qed.

Lemma replace_live :
  alive r' = true -> bu_reservation_id r' = bu_reservation_id r ->
  bu_size_bytes r' = bu_size_bytes r ->
  bu_owner_controller_lease_id r' = bu_owner_controller_lease_id r ->
  BInv (mk (<[k := r']> (buffers s))) g.
Proof.
  intros Hl Hres Hsize Hlease. constructor; cbn [buffers].
  - apply Hinv.
  - intros i x [[-> ->]|[_ Hx]]%lookup_replaced; [done|by eapply bi_rec].
  - intros i x [[-> ->]|[_ Hx]]%lookup_replaced Ha; [|by eapply bi_claim].
    rewrite Hres, Hsize. by apply (bi_claim s g Hinv k r).
  - intros id v Hv. destruct (bi_used s g Hinv id v Hv) as (i & x & Hi & Ha & <-).
    destruct (decide (i = k)) as [->|Hne].
    + rewrite Hr in Hi. injection Hi as <-. exists k, r'. by rewrite lookup_insert_eq.
    + exists i, x. by rewrite lookup_insert_ne.
  - intros i1 i2 x1 x2 [[-> ->]|[_ Hx1]]%lookup_replaced [[-> ->]|[_ Hx2]]%lookup_replaced Ha1 Ha2;
      rewrite ?Hres; intros E; [done| | |].
    + by apply (bi_inj s g Hinv k i2 r x2).
    + by apply (bi_inj s g Hinv i1 k x1 r).
    + by apply (bi_inj s g Hinv i1 i2 x1 x2).
  - rewrite (msum_replace live_bytes _ k r) by done. unfold live_bytes at 2 3.
    rewrite Hl, Hlive, Hsize. pose proof (bi_total s g Hinv). lia.
  - intros lease. rewrite (msum_replace (live_of lease) _ k r) by done. unfold live_of at 2 3.
    rewrite Hl, Hlive, Hlease. pose proof (bi_count s g Hinv lease). lia.
Qed.

Lemma replace_dead g' :
  alive r' = false -> GInv g' ->
  buffer_claims g' = delete (bu_reservation_id r) (buffer_claims g) ->
  BInv (mk (<[k := r']> (buffers s))) g'.
Proof.
  intros Hd Hg Hc. constructor; cbn [buffers]; try done.
  - intros i x [[-> ->]|[_ Hx]]%lookup_replaced; [done|by eapply bi_rec].
  - intros i x [[-> ->]|[Hne Hx]]%lookup_replaced Ha; [congruence|].
    destruct (bi_claim s g Hinv i x Hx Ha) as (v & Hv & Hb). exists v. split; [|done].
    rewrite Hc, lookup_delete_ne; [done|]. intros E. apply Hne.
    by apply (bi_inj s g Hinv i k x r).
  - intros id v. rewrite Hc, lookup_delete_Some. intros [Hne Hv].
    destruct (bi_used s g Hinv id v Hv) as (i & x & Hi & Ha & <-). exists i, x.
    rewrite lookup_insert_ne; [done|]. intros ->. by simplify_eq.
  - intros i1 i2 x1 x2 [[-> ->]|[_ Hx1]]%lookup_replaced [[-> ->]|[_ Hx2]]%lookup_replaced Ha1 Ha2 E;
      try congruence. by apply (bi_inj s g Hinv i1 i2 x1 x2).
  - rewrite (msum_replace live_bytes _ k r) by done. unfold live_bytes at 2 3.
    rewrite Hd, Hlive. pose proof (bi_total s g Hinv). pose proof (ri_size k r (bi_rec s g Hinv k r Hr)).
    lia.
  - intros lease. rewrite (msum_replace (live_of lease) _ k r) by done. unfold live_of at 2 3.
    rewrite Hd, Hlive. pose proof (bi_count s g Hinv lease). cbn [andb]. case_match; lia.
Qed.
End Replace.

(** ** Ending a buffer *)

Definition ended (r : BufferRecord) (st : BufferState) (now : Z) : BufferRecord :=
  fst (terminalize r Guard.new st now).

Lemma terminalize_ended r g st now : fst (terminalize r g st now) = ended r st now.
Proof. done. Qed.

Lemma ended_dead k r st now :
  RInv k r -> buffer_is_terminal st = true -> RInv k (ended r st now) /\ alive (ended r st now) = false.
Proof.
  intros [] Hst. assert (Ha : alive (ended r st now) = false) by (unfold alive; cbn; by rewrite Hst).
  split; [|done]. constructor; [done|done|by rewrite Ha|]. intros _. by split_and!; cbn.
Qed.

Lemma terminalize_claim s g k r st now :
  BInv s g -> buffers s !! k = Some r -> alive r = true ->
  GInv (snd (terminalize r g st now)) /\
  buffer_claims (snd (terminalize r g st now)) =
    delete (bu_reservation_id r) (buffer_claims g).
Proof.
  intros Hinv Hr Hl. unfold terminalize. cbn [snd].
  destruct (ri_live k r (bi_rec s g Hinv k r Hr) Hl) as [-> _]. cbn [negb].
  split; [by apply release_consumed_inv, Hinv|].
  unfold Guard.release_consumed_buffer, buffer_claims. rewrite claims_release_consumed.
  destruct (bi_claim s g Hinv k r Hr Hl) as (v & Hv & Hb). unfold buffer_claims in Hv.
  by rewrite Hv, decide_True.
Qed.

Lemma end_record_inv s g k r st now :
  BInv s g -> buffers s !! k = Some r -> alive r = true -> buffer_is_terminal st = true ->
  BInv (mk (<[k := ended r st now]> (buffers s))) (snd (terminalize r g st now)).
Proof.
  intros Hinv Hr Hl Hst. destruct (terminalize_claim s g k r st now Hinv Hr Hl) as [Hg Hc].
  destruct (ended_dead k r st now (bi_rec s g Hinv k r Hr) Hst).
  by eapply (replace_dead s g k r).
Qed.

(** ** Sweeps *)

Definition swept (P : BufferRecord -> bool) (st : BufferState) (now : Z) (r : BufferRecord) :
    BufferRecord :=
  if P r then ended r st now else r.

Lemma end_fold_inv st now l s g :
  BInv s g -> buffer_is_terminal st = true -> NoDup l.*1 ->
  Forall (fun x => buffers s !! x.1 = Some x.2 /\ alive x.2 = true) l ->
  let sg := foldl (end_record st now) (s, g) l in
  BInv (fst sg) (snd sg) /\
  forall i, buffers (fst sg) !! i =
    match (list_to_map l : gmap (list byte) BufferRecord) !! i with Some r => Some (ended r st now) | None => buffers s !! i end.
Proof.
  revert s g. induction l as [|[k r] l IH]; intros s g Hinv Hst Hnd Hl; [done|].
  apply NoDup_cons in Hnd as [Hk Hnd]. apply Forall_cons in Hl as [[Hr Ha] Hl]. cbn in Hr, Ha, Hk.
  cbv zeta. cbn [foldl]. set (s1 := mk (<[k := ended r st now]> (buffers s))).
  set (g1 := snd (terminalize r g st now)).
  change (end_record st now (s, g) (k, r)) with (s1, g1).
  destruct (IH s1 g1) as [H1 H2]; try done.
  - by apply end_record_inv.
  - apply Forall_forall. intros [k' r'] Hin. rewrite Forall_forall in Hl.
    destruct (Hl _ Hin) as [? ?]. split; [|done]. cbn. rewrite lookup_insert_ne; [done|].
    intros ->. apply Hk. by apply (list_elem_of_fmap_2 fst) in Hin.
  - split; [done|]. intros i. rewrite H2. cbn [list_to_map foldr curry fst snd].
    destruct (decide (i = k)) as [->|Hne].
    + rewrite (proj1 (not_elem_of_list_to_map l k) Hk). cbn. by rewrite !lookup_insert_eq.
    + cbn. by rewrite !lookup_insert_ne.
Qed.

Lemma sweep_spec P st s g now :
  BInv s g -> buffer_is_terminal st = true -> (forall r, P r = true -> alive r = true) ->
  let sg := sweep P st s g now in
  BInv (fst sg) (snd sg) /\ buffers (fst sg) = swept P st now <$> buffers s.
Proof.
  intros Hinv Hst HP. cbv zeta. unfold sweep.
  set (l := map_to_list (filter (fun x => P x.2 = true) (buffers s))).
  destruct (end_fold_inv st now l s g) as [H1 H2]; try done.
  - apply NoDup_fst_map_to_list.
  - apply Forall_forall. intros [k r] Hin.
    apply elem_of_map_to_list, map_lookup_filter_Some in Hin as [? ?]. eauto.
  - split; [done|]. apply map_eq. intros i. rewrite H2. unfold l.
    rewrite list_to_map_to_list, map_lookup_filter, lookup_fmap. unfold swept.
    destruct (buffers s !! i) as [r|] eqn:Er; [|done]. cbn.
    destruct (P r) eqn:E.
    + by rewrite option_guard_True.
    + by rewrite option_guard_False.
Qed.
