(* ===== verification/BufferRefine.v ===== *)
(** * The remote-buffer store refines a store of partial byte strings

    [BufferSpec] is what a controller may rely on: a map from buffer names to
    byte strings whose bytes are unknown until written, owned by one lease holder
    and session, with a deadline.  The store with its tombstones, range lists,
    backing vectors and guard reservations implements it, never panics, and keeps
    its invariant. *)

From Stdlib Require Import ZArith Lia.
From stdpp Require Import base tactics list gmap.
From S2P Require Import Prelude Types ResourceWire ComputeWire BufferWire Lease ResourceGuard.
From S2P Require Import GuardFacts BufferStore Claims BufferFacts BufferInv.

Import Content.
Import BufferStore.

(** ** Abstract specification *)

Module BufferSpec.

Record cell : Type := mkCell {
  ce_peer : PeerId;
  ce_lease : LeaseId;
  ce_incarnation : WorkerIncarnationId;
  ce_session : SessionBinding;
  ce_created : Z;
  ce_expires : Z;
  ce_bytes : list (option byte);
}.

Notation state := (gmap (list byte) cell).

Inductive outcome : Type :=
| Done
| Data (data : list byte)
| Refused
| Absent.

Definition owned (c : cell) (proof : LeaseProof) : bool :=
  bool_decide (ce_peer c = pf_peer_id proof)
  && bool_decide (ce_lease c = pf_lease_id proof)
  && bool_decide (ce_incarnation c = pf_incarnation proof).

Definition expire (now : Z) (m : state) : state := filter (fun x => now < ce_expires x.2) m.

(** A read or write from another session loses the buffer. *)
Definition contact (m : state) (session : SessionBinding) (id : list byte) : state :=
  match m !! id with
  | Some c => if ce_session c =? session then m else delete id m
  | None => m
  end.

Definition fresh (proof : LeaseProof) (session : SessionBinding) (now size : Z) : cell :=
  mkCell (pf_peer_id proof) (pf_lease_id proof) (pf_incarnation proof) session now
    (sat_add64 now DEFAULT_BUFFER_TTL_MS) (unwritten (Z.to_nat size)).

Definition set_bytes (c : cell) (bytes : list (option byte)) : cell :=
  mkCell (ce_peer c) (ce_lease c) (ce_incarnation c) (ce_session c) (ce_created c)
    (ce_expires c) bytes.

Definition renew (c : cell) (now : Z) : cell :=
  mkCell (ce_peer c) (ce_lease c) (ce_incarnation c) (ce_session c) (ce_created c)
    (Z.min (sat_add64 now DEFAULT_BUFFER_TTL_MS)
           (sat_add64 (ce_created c) MAX_BUFFER_LIFETIME_MS)) (ce_bytes c).

Definition size_of (c : cell) : Z := Z.of_nat (length (ce_bytes c)).

Section Step.
Context (proof : LeaseProof) (session : SessionBinding) (now : Z) (mem_ok : bool).

Definition put_spec (m : state) (id : list byte) (offset : Z) (data : list byte) : state * outcome :=
  let m := contact m session id in
  match m !! id with
  | None => (m, Refused)
  | Some c =>
      if owned c proof && (0 <? len data) && (offset + len data <=? size_of c) && mem_ok
      then (<[id := set_bytes c (overwrite (ce_bytes c) (Z.to_nat offset) data)]> m, Done)
      else (m, Refused)
  end.

Definition get_spec (m : state) (id : list byte) (offset n : Z) : state * outcome :=
  let m := contact m session id in
  match m !! id with
  | None => (m, Refused)
  | Some c =>
      if owned c proof && complete (ce_bytes c) && (0 <? n) && (n <=? MAX_DATA_BODY)
         && (offset + n <=? size_of c) && mem_ok
      then match read (ce_bytes c) (Z.to_nat offset) (Z.to_nat n) with
           | Some data => (m, Data data)
           | None => (m, Refused)
           end
      else (m, Refused)
  end.

Definition holds (c : cell) : bool := owned c proof && (ce_session c =? session).

Definition free_spec (m : state) (id : list byte) : state * outcome :=
  match m !! id with
  | None => (m, Absent)
  | Some c => if holds c then (delete id m, Done) else (m, Refused)
  end.

Definition stat_spec (m : state) (id : list byte) : state * outcome :=
  match m !! id with
  | None => (m, Refused)
  | Some c => (m, if holds c then Done else Refused)
  end.

Definition touch_spec (m : state) (id : list byte) : state * outcome :=
  match m !! id with
  | None => (m, Refused)
  | Some c => if holds c then (<[id := renew c now]> m, Done) else (m, Refused)
  end.

Definition alloc_spec (m : state) (grant : option (list byte)) (size : Z) : state * outcome :=
  match grant with
  | Some id => (<[id := fresh proof session now size]> m, Done)
  | None => (m, Refused)
  end.

(** One request at time [now]; [grant] is the name of the new buffer when the
    resource guard grants an allocation, [mem_ok] the outcome of the allocator. *)
Definition step (m : state) (grant : option (list byte)) (request : RemoteBufferRequest) :
    state * outcome :=
  let m := expire now m in
  match request with
  | Rb_Alloc _ _ _ size _ => alloc_spec m grant size
  | Rb_Put _ _ id offset data => put_spec m id offset data
  | Rb_Get _ _ id offset n => get_spec m id offset n
  | Rb_Free _ _ id => free_spec m id
  | Rb_Stat _ _ id => stat_spec m id
  | Rb_Touch _ _ id => touch_spec m id
  end.
End Step.

(** How a response answers an outcome.  A name that is not live is refused, or
    its earlier free is acknowledged again. *)
Definition answers (o : outcome) (r : BufferResult) : Prop :=
  match o with
  | Done => bf_completed r = true /\ bf_reason r = Br_None
  | Data data => bf_completed r = true /\ bf_data r = data /\ bf_data_len r = len data
  | Refused => bf_completed r = false /\ bf_reason r <> Br_None /\ bf_data r = []
  | Absent => bf_completed r = true -> exists b, bf_buffer r = Some b /\ br_state b = Bs_Freed
  end.

End BufferSpec.
Import BufferSpec.

(** ** Abstraction *)

Definition abs_record (r : BufferRecord) : option cell :=
  if alive r then
    Some (mkCell (bu_owner_peer_id r) (bu_owner_controller_lease_id r)
            (bu_worker_incarnation_id r) (bu_session_id r) (bu_created_mono_ms r)
            (bu_expires_mono_ms r)
            (bytes_of (bu_initialized_ranges r) (default [] (bu_backing r))))
  else None.

Definition abs (s : t) : state := omap abs_record (buffers s).

(** Requests as the decoder produces them: unsigned fields. *)
Definition typed (request : RemoteBufferRequest) : Prop :=
  match request with
  | Rb_Alloc _ _ _ size _ => 0 <= size
  | Rb_Put _ _ _ offset data => 0 <= offset
  | Rb_Get _ _ _ offset n => 0 <= offset /\ 0 <= n
  | _ => True
  end.

Lemma abs_lookup s i : abs s !! i = buffers s !! i ≫= abs_record.
Proof. apply lookup_omap. Qed.

Lemma abs_insert s k r' :
  abs (mk (<[k := r']> (buffers s))) =
  match abs_record r' with Some c => <[k := c]> (abs s) | None => delete k (abs s) end.
Proof.
  apply map_eq. intros i. rewrite abs_lookup. cbn [buffers].
  destruct (decide (i = k)) as [->|Hne].
  - rewrite lookup_insert_eq. cbn [mbind option_bind]. destruct (abs_record r');
      symmetry; [apply lookup_insert_eq|apply lookup_delete_eq].
  - rewrite lookup_insert_ne by done. destruct (abs_record r');
      rewrite ?lookup_insert_ne, ?lookup_delete_ne by done; by rewrite abs_lookup.
Qed.

(** ** Sweeps and deadlines *)

(** A sweep keeps the live buffers that satisfy [Q]. *)
Lemma sweep_refines P (Q : cell -> Prop) `{!forall c, Decision (Q c)} st s g now :
  BInv s g -> buffer_is_terminal st = true -> (forall r, P r = true -> alive r = true) ->
  (forall r c, abs_record r = Some c -> P r = false <-> Q c) ->
  let sg := sweep P st s g now in
  BInv (fst sg) (snd sg) /\ abs (fst sg) = filter (fun x => Q x.2) (abs s).
Proof.
  intros Hinv Hst HP HQ. cbv zeta. destruct (sweep_spec P st s g now Hinv Hst HP) as [H1 H2].
  split; [done|]. apply map_eq. intros i. rewrite map_lookup_filter, !abs_lookup, H2, lookup_fmap.
  destruct (buffers s !! i) as [r|]; [|done]. cbn. unfold swept.
  destruct (abs_record r) as [c|] eqn:Ec; cbn.
  - destruct (P r) eqn:E.
    + rewrite option_guard_False.
      * unfold abs_record, alive, ended. cbn. by rewrite Hst.
      * rewrite <- (HQ r c Ec). by rewrite E.
    + rewrite option_guard_True; [done|]. by apply (HQ r c Ec).
  - destruct (P r) eqn:E; [|done]. unfold abs_record in Ec. by rewrite (HP r E) in Ec.
Qed.

Lemma retain_tombstones_spec s g now :
  BInv s g -> BInv (retain_tombstones s now) g /\ abs (retain_tombstones s now) = abs s.
Proof.
  intros Hinv.
  assert (Hkeep : forall k r, buffers s !! k = Some r -> alive r = true ->
    buffers (retain_tombstones s now) !! k = Some r).
  { intros k r Hr Ha. cbn. apply map_lookup_filter_Some. split; [done|]. cbn.
    by destruct (ri_live k r (bi_rec s g Hinv k r Hr) Ha) as (_ & -> & _). }
  assert (Hsub : forall k r, buffers (retain_tombstones s now) !! k = Some r ->
    buffers s !! k = Some r) by (cbn; by intros k r [? _]%map_lookup_filter_Some).
  split.
  - constructor.
    + apply Hinv.
    + intros k r Hr. eapply bi_rec; eauto.
    + intros k r Hr. eapply bi_claim; eauto.
    + intros id v Hv. destruct (bi_used s g Hinv id v Hv) as (k & r & Hr & Ha & ?).
      exists k, r. eauto.
    + intros k1 k2 r1 r2 H1 H2. eapply (bi_inj s g Hinv); eauto.
    + cbn. rewrite msum_filter; [apply Hinv|]. intros k r Hr Hn. unfold live_bytes.
      destruct (alive r) eqn:Ha; [|done]. destruct Hn. cbn.
      by destruct (ri_live k r (bi_rec s g Hinv k r Hr) Ha) as (_ & -> & _).
    + intros lease. cbn. rewrite msum_filter; [apply Hinv|]. intros k r Hr Hn. unfold live_of.
      destruct (alive r) eqn:Ha; [|done]. destruct Hn. cbn.
      by destruct (ri_live k r (bi_rec s g Hinv k r Hr) Ha) as (_ & -> & _).
  - apply map_eq. intros i. rewrite !abs_lookup.
    destruct (buffers s !! i) as [r|] eqn:Er; cbn [mbind option_bind].
    + destruct (alive r) eqn:Ha; [by rewrite (Hkeep i r Er Ha)|].
      destruct (buffers (retain_tombstones s now) !! i) as [r'|] eqn:Er';
        [apply Hsub in Er'; by simplify_eq|]. unfold abs_record. by rewrite Ha.
    + destruct (buffers (retain_tombstones s now) !! i) as [r'|] eqn:Er'; [|done].
      apply Hsub in Er'. congruence.
Qed.

Lemma expire_spec s g now :
  BInv s g ->
  let sg := expire_and_purge s g now in
  BInv (fst sg) (snd sg) /\ abs (fst sg) = expire now (abs s).
Proof.
  intros Hinv. cbv zeta. unfold expire_and_purge.
  destruct (sweep_refines (fun r => negb (buffer_is_terminal (bu_state r))
    && (bu_expires_mono_ms r <=? now)) (fun c => now < ce_expires c) Bs_Evicted s g now Hinv)
    as [H1 H2]; [done| | |].
  { by intros r [? _]%andb_true_iff. }
  { intros r c Hc. unfold abs_record in Hc. fold (alive r). destruct (alive r); [|done].
    injection Hc as <-. cbn. lia. }
  destruct (sweep _ Bs_Evicted s g now) as [s1 g1]. cbn [fst snd] in *.
  destruct (retain_tombstones_spec s1 g1 now H1) as [H3 H4]. split; [done|]. by rewrite H4.
Qed.

(** ** Single operations *)

Section Ops.
Context (s : t) (g : Guard.t) (proof : LeaseProof) (session : SessionBinding) (now : Z).
Hypothesis Hinv : BInv s g.

(** The invariant and the abstract state after an operation. *)
Definition refines_to (m : state) (s' : t) (g' : Guard.t) : Prop := BInv s' g' /\ abs s' = m.

Lemma refines_here : refines_to (abs s) s g.
Proof. done. Qed.

Lemma abs_alive id r : buffers s !! id = Some r -> alive r = true ->
  abs s !! id = abs_record r.
Proof. intros Hr _. by rewrite abs_lookup, Hr. Qed.

Lemma abs_dead id r : buffers s !! id = Some r -> alive r = false -> abs s !! id = None.
Proof. intros Hr Ha. rewrite abs_lookup, Hr. cbn. unfold abs_record. by rewrite Ha. Qed.

(** Ending a live buffer deletes it from the abstract state. *)
Lemma end_refines id r st :
  buffers s !! id = Some r -> alive r = true -> buffer_is_terminal st = true ->
  refines_to (delete id (abs s)) (mk (<[id := ended r st now]> (buffers s)))
    (snd (terminalize r g st now)).
Proof.
  intros Hr Ha Hst. split; [by apply end_record_inv|]. rewrite abs_insert.
  unfold abs_record, alive, ended. cbn. by rewrite Hst.
Qed.

Lemma same_owner_owned r c :
  abs_record r = Some c -> same_owner r proof = owned c proof.
Proof. unfold abs_record. destruct (alive r); [|done]. by intros [= <-]. Qed.

Lemma abs_record_alive r : alive r = true -> exists c, abs_record r = Some c /\
  ce_session c = bu_session_id r /\
  (forall k, RInv k r -> size_of c = bu_size_bytes r) .
Proof.
  intros Ha. unfold abs_record. rewrite Ha. eexists. split_and!; [done|done|].
  intros k Hk. unfold size_of. cbn. rewrite length_bytes_of.
  destruct (ri_live k r Hk Ha) as (_ & _ & b & -> & [Hl _ _ _ _]). exact Hl.
Qed.

(** What [authorized_record] leaves behind. *)
Lemma authorized_spec id s1 g1 o :
  authorized_record s g proof session id now = (s1, g1, o) ->
  refines_to (contact (abs s) session id) s1 g1 /\
  match o with
  | Some r => buffers s1 !! id = Some r /\ same_owner r proof = true /\
      bu_session_id r = session
  | None => forall c, abs s1 !! id = Some c -> owned c proof = false
  end.
Proof.
  unfold authorized_record, contact. rewrite abs_lookup.
  destruct (buffers s !! id) as [r|] eqn:Er; cbn [mbind option_bind];
    [|intros [= <- <- <-]; split; [done|]; by rewrite abs_lookup, Er].
  change (negb (buffer_is_terminal (bu_state r))) with (alive r).
  destruct (alive r) eqn:Ha.
  - destruct (abs_record_alive r Ha) as (c & Hc & Hs & _). rewrite Hc, Hs.
    rewrite andb_true_r. destruct (Z.eqb_spec (bu_session_id r) session) as [E|E]; cbn [negb].
    + unfold owns. rewrite E, Z.eqb_refl, andb_true_r. intros [= <- <- <-].
      split; [done|]. destruct (same_owner r proof) eqn:Eo; [done|].
      rewrite abs_lookup, Er. cbn. rewrite Hc. intros ? [= <-].
      by rewrite <- (same_owner_owned r c Hc).
    + change (terminalize r g Bs_Lost now) with
        (ended r Bs_Lost now, snd (terminalize r g Bs_Lost now)). cbv iota beta.
      unfold owns. change (bu_session_id (ended r Bs_Lost now)) with (bu_session_id r).
      rewrite (proj2 (Z.eqb_neq _ _) E), andb_false_r. intros [= <- <- <-].
      destruct (end_refines id r Bs_Lost Er Ha eq_refl) as [H1 H2]. split; [done|].
      rewrite H2, lookup_delete_eq. done.
  - rewrite andb_false_r. intros [= <- <- <-]. split.
    + unfold abs_record. rewrite Ha. done.
    + unfold owns. destruct (same_owner r proof && (bu_session_id r =? session)) eqn:Eo.
      * bool_hyps. done.
      * rewrite (abs_dead id r Er Ha). done.
Qed.

(** Writing into a live record. *)
Lemma written_spec id r c off data :
  buffers s !! id = Some r -> alive r = true -> abs_record r = Some c ->
  0 <= off -> data <> [] -> off + len data <= bu_size_bytes r ->
  exists b b', bu_backing r = Some b /\ write_bytes b (Z.to_nat off) data = Some b' /\
    let r' := written r (merge_range (bu_initialized_ranges r) (off, off + len data)) b' in
    refines_to (<[id := set_bytes c (overwrite (ce_bytes c) (Z.to_nat off) data)]> (abs s))
      (mk (<[id := r']> (buffers s))) g.
Proof.
  intros Hr Ha Hc Hoff Hd Hle. pose proof (bi_rec s g Hinv id r Hr) as Hrec.
  destruct (ri_live id r Hrec Ha) as (Hrel & Hterm & b & Hb & [Hlen Hn Hw _ _]).
  assert (Hpos : 0 < len data) by (destruct data; [done|unfold len; cbn; lia]).
  assert (Hw' : write_bytes b (Z.to_nat off) data =
    Some (take (Z.to_nat off) b ++ data ++ drop (Z.to_nat off + length data) b)).
  { unfold write_bytes. rewrite decide_True; [done|]. unfold len in *. lia. }
  eexists b, _. split_and!; [done|exact Hw'|]. cbv zeta.
  destruct (write_overwrite (bu_initialized_ranges r) b (Z.to_nat off) data _ Hn Hd Hw')
    as [Hlen' Hov]. rewrite Z2Nat.id in Hov by lia.
  destruct (merge_range_normal (bu_initialized_ranges r) (off, off + len data) Hn)
    as [Hmn Hmc]; [cbn; lia|].
  assert (Hmw := merge_range_within (bu_initialized_ranges r) off (off + len data)
    (bu_size_bytes r) Hn ltac:(lia) Hle Hw).
  set (b' := take _ b ++ _) in *. set (m := merge_range _ _) in *.
  assert (Ha' : alive (written r m b') = true).
  { unfold alive, written. cbn. by case_bool_decide. }
  split.
  - eapply replace_live; try done. constructor; [apply Hrec|apply Hrec| |by rewrite Ha'].
    intros _. split_and!; [done|done|]. exists b'. split; [done|]. constructor; try done.
    + unfold len in *. cbn. lia.
    + cbn. by case_bool_decide.
    + cbn. case_bool_decide; auto.
  - rewrite abs_insert. unfold abs_record at 1. rewrite Ha'. cbn -[bytes_of].
    unfold abs_record in Hc. rewrite Ha in Hc. injection Hc as <-. cbn. rewrite Hb. cbn.
    by rewrite Hov.
Qed.

End Ops.

Section Requests.
Context (s : t) (g : Guard.t) (proof : LeaseProof) (session : SessionBinding) (now : Z).
Hypothesis Hinv : BInv s g.

Lemma terminal_refused wire (r : BufferRecord) at_ms :
  answers Refused (terminal_failure wire (pf_incarnation proof) r at_ms).
Proof. unfold terminal_failure. by destruct (bu_state r). Qed.

Lemma authorization_refused s0 wire id :
  answers Refused (authorization_failure s0 proof wire id session now).
Proof. unfold authorization_failure. repeat case_match; done. Qed.

(** A failed request answers [Refused] and changes nothing. *)
Ltac refused_here :=
  eexists _, _, _; (split; [reflexivity|split; [done|]]); first [apply terminal_refused | done].

(** A live record is ready exactly when its contents are complete, and is then read as it is. *)
Lemma live_contents id r c :
  RInv id r -> alive r = true -> abs_record r = Some c ->
  exists b, bu_backing r = Some b /\ len b = bu_size_bytes r /\
    bool_decide (bu_state r = Bs_Ready) = complete (ce_bytes c) /\
    (complete (ce_bytes c) = true -> ce_bytes c = bytes_of [(0, len b)] b).
Proof.
  intros Hrec Ha Hc. pose proof (ri_size id r Hrec).
  destruct (ri_live id r Hrec Ha) as (_ & _ & b & Hb & [Hlen Hnorm Hw Hready _]).
  unfold abs_record in Hc. rewrite Ha, Hb in Hc. injection Hc as <-. cbn [ce_bytes default].
  change (default [] (Some b)) with b. exists b. split_and!; [done|done| |].
  - apply eq_true_iff_eq. rewrite bool_decide_eq_true, Hready. apply full_complete; [lia|done..].
  - intros Hc. apply full_complete with (n := len b) in Hc; [by rewrite Hc|lia|done|done|].
    by rewrite Hlen.
Qed.

Lemma put_refines wire id off data mem_ok :
  0 <= off ->
  exists s' g' r, put s g proof session wire id off data now mem_ok = Some (s', g', r) /\
    refines_to (fst (put_spec proof session mem_ok (abs s) id off data)) s' g' /\
    answers (snd (put_spec proof session mem_ok (abs s) id off data)) r.
Proof.
  intros Hoff. unfold put, put_spec. cbv zeta.
  destruct (authorized_record s g proof session id now) as [[s1 g1] o] eqn:Ea.
  apply authorized_spec in Ea as [[Hi Hm] Ho]; [|done]. rewrite <- Hm. destruct o as [r|].
  - destruct Ho as (Hr & Hown & Hsess).
    destruct (alive r) eqn:Ha; [|].
    2:{ rewrite abs_lookup, Hr. cbn. unfold abs_record. unfold alive in *.
        apply negb_false_iff in Ha. rewrite Ha. cbn. refused_here. }
    destruct (abs_record_alive r Ha) as (c & Hc & _ & Hsz).
    specialize (Hsz id (bi_rec s1 g1 Hi id r Hr)).
    rewrite abs_lookup, Hr. cbn [mbind option_bind]. rewrite Hc.
    rewrite <- (same_owner_owned proof r c Hc), Hown, Hsz. cbn [andb].
    unfold alive in Ha. apply negb_true_iff in Ha. rewrite Ha.
    pose proof (ri_size id r (bi_rec s1 g1 Hi id r Hr)) as Hmax. unfold MAX_REMOTE_BUFFER_BYTES in Hmax.
    assert (0 <= len data) by (unfold len; lia). unfold checked_add64, U64_MAX.
    destruct (Z.leb_spec (off + len data) (2 ^ 64 - 1)); cycle 1.
    { rewrite (proj2 (Z.leb_gt _ _)), andb_false_r by lia. cbn [andb]. refused_here. }
    destruct (Z.eqb_spec (len data) 0) as [E|E]; cbn [orb].
    { rewrite E. cbn [Z.ltb Z.compare andb]. refused_here. }
    rewrite (proj2 (Z.ltb_lt 0 (len data))) by lia. cbn [andb].
    destruct (Z.ltb_spec (bu_size_bytes r) (off + len data)).
    { rewrite (proj2 (Z.leb_gt _ _)) by lia. cbn [andb]. refused_here. }
    rewrite (proj2 (Z.leb_le _ _)) by lia. cbn [andb].
    destruct mem_ok; [|refused_here]. cbn [negb].
    destruct (written_spec s1 g1 Hi id r c off data) as (b & b' & Hb & Hw & Href); try done.
    { unfold alive. by rewrite Ha. } { by intros ->. }
    rewrite Hb. cbn [mbind option_bind]. rewrite Hw. cbn [mbind option_bind].
    eexists _, _, _. split; [reflexivity|]. split; [exact Href|done].
  - destruct (abs s1 !! id) as [c|] eqn:Ec.
    + rewrite (Ho c eq_refl). eexists _, _, _.
      split; [reflexivity|]. split; [done|apply authorization_refused].
    + eexists _, _, _.
      split; [reflexivity|]. split; [done|apply authorization_refused].
Qed.

Lemma get_refines wire id off n mem_ok :
  0 <= off -> 0 <= n ->
  exists s' g' r, get s g proof session wire id off n now mem_ok = Some (s', g', r) /\
    refines_to (fst (get_spec proof session mem_ok (abs s) id off n)) s' g' /\
    answers (snd (get_spec proof session mem_ok (abs s) id off n)) r.
Proof.
  intros Hoff Hn. unfold get, get_spec. cbv zeta.
  destruct (authorized_record s g proof session id now) as [[s1 g1] o] eqn:Ea.
  apply authorized_spec in Ea as [[Hi Hm] Ho]; [|done]. rewrite <- Hm. destruct o as [r|].
  - destruct Ho as (Hr & Hown & Hsess).
    destruct (alive r) eqn:Ha; [|].
    2:{ rewrite abs_lookup, Hr. cbn. unfold abs_record. unfold alive in *.
        apply negb_false_iff in Ha. rewrite Ha. cbn. refused_here. }
    destruct (abs_record_alive r Ha) as (c & Hc & _ & Hsz).
    pose proof (bi_rec s1 g1 Hi id r Hr) as Hrec. specialize (Hsz id Hrec).
    rewrite abs_lookup, Hr. cbn [mbind option_bind]. rewrite Hc.
    rewrite <- (same_owner_owned proof r c Hc), Hown, Hsz. cbn [andb].
    destruct (live_contents id r c Hrec Ha Hc) as (b & Hb & Hlen & Hcomp & Hfull).
    pose proof (ri_size id r Hrec) as Hmax. unfold alive in Ha. apply negb_true_iff in Ha.
    rewrite Ha, Hcomp.
    destruct (complete (ce_bytes c)) eqn:Ecomp; cbn [negb andb]; [|refused_here].
    destruct (Z.eqb_spec n 0) as [->|E]; cbn [orb]; [refused_here|].
    rewrite (proj2 (Z.ltb_lt 0 n)) by lia. cbn [andb].
    destruct (Z.ltb_spec MAX_DATA_BODY n).
    { rewrite (proj2 (Z.leb_gt _ _)) by lia. cbn [andb]. refused_here. }
    rewrite (proj2 (Z.leb_le n _)) by lia. cbn [andb].
    unfold checked_add64, U64_MAX. unfold MAX_REMOTE_BUFFER_BYTES in Hmax.
    destruct (Z.leb_spec (off + n) (2 ^ 64 - 1)); cycle 1.
    { rewrite (proj2 (Z.leb_gt _ _)) by lia. cbn [andb]. refused_here. }
    destruct (Z.ltb_spec (bu_size_bytes r) (off + n)).
    { rewrite (proj2 (Z.leb_gt _ _)) by lia. cbn [andb]. refused_here. }
    rewrite (proj2 (Z.leb_le (off + n) _)) by lia. cbn [andb].
    destruct mem_ok; [|refused_here]. cbn [negb].
    rewrite Hb, (Hfull eq_refl), read_full. cbn [mbind option_bind].
    unfold read_bytes. unfold len in Hlen. rewrite decide_True by lia. cbn [mbind option_bind].
    eexists _, _, _. split; [reflexivity|]. split; [done|]. cbn. split_and!; [done|done|].
    unfold len. rewrite length_slice by lia. lia.
  - destruct (abs s1 !! id) as [c|] eqn:Ec.
    + rewrite (Ho c eq_refl). eexists _, _, _.
      split; [reflexivity|]. split; [done|apply authorization_refused].
    + eexists _, _, _. split; [reflexivity|]. split; [done|apply authorization_refused].
Qed.

(** The common prefix of stat, touch and free on a stored record. *)
Lemma holds_live r c :
  abs_record r = Some c ->
  holds proof session c = same_owner r proof && (bu_session_id r =? session).
Proof.
  intros Hc. unfold holds. rewrite (same_owner_owned proof r c Hc). f_equal.
  unfold abs_record in Hc. destruct (alive r); [|done]. by injection Hc as <-.
Qed.

Lemma stat_refines wire id :
  refines_to (fst (stat_spec proof session (abs s) id)) s g /\
  answers (snd (stat_spec proof session (abs s) id)) (stat s proof session wire id now).
Proof.
  unfold stat, stat_spec. rewrite abs_lookup. cbv zeta.
  destruct (buffers s !! id) as [r|]; [|done]. cbn [mbind option_bind].
  destruct (abs_record r) as [c|] eqn:Ec.
  - rewrite (holds_live r c Ec). unfold abs_record in Ec. destruct (alive r) eqn:Ha; [|done].
    unfold alive in Ha. apply negb_true_iff in Ha. rewrite Ha.
    destruct (same_owner r proof); [|done]. by destruct (bu_session_id r =? session).
  - unfold abs_record in Ec. destruct (alive r) eqn:Ha; [done|].
    unfold alive in Ha. apply negb_false_iff in Ha. rewrite Ha.
    destruct (same_owner r proof); [|done]. split; [done|apply terminal_refused].
Qed.

Lemma touched_spec id r c :
  buffers s !! id = Some r -> abs_record r = Some c ->
  refines_to (<[id := renew c now]> (abs s)) (mk (<[id := touched r now]> (buffers s))) g.
Proof.
  intros Hr Hc. pose proof (bi_rec s g Hinv id r Hr) as Hrec. unfold abs_record in Hc.
  destruct (alive r) eqn:Ha; [|done]. assert (Ha' : alive (touched r now) = true) by done.
  split.
  - eapply replace_live; try done. constructor; try apply Hrec; done.
  - rewrite abs_insert. unfold abs_record. rewrite Ha'. by injection Hc as <-.
Qed.

Lemma touch_refines wire id :
  let '(s', r) := touch s proof session wire id now in
  refines_to (fst (touch_spec proof session now (abs s) id)) s' g /\
  answers (snd (touch_spec proof session now (abs s) id)) r.
Proof.
  unfold touch, touch_spec. rewrite abs_lookup. cbv zeta.
  destruct (buffers s !! id) as [r|] eqn:Er; [|done]. cbn [mbind option_bind].
  destruct (abs_record r) as [c|] eqn:Ec.
  - rewrite (holds_live r c Ec). pose proof (touched_spec id r c Er Ec) as Ht.
    unfold abs_record in Ec. destruct (alive r) eqn:Ha; [|done].
    unfold alive in Ha. apply negb_true_iff in Ha. rewrite Ha.
    destruct (same_owner r proof); [|done]. by destruct (bu_session_id r =? session).
  - unfold abs_record in Ec. destruct (alive r) eqn:Ha; [done|].
    unfold alive in Ha. apply negb_false_iff in Ha. rewrite Ha.
    destruct (same_owner r proof); [|done]. split; [done|apply terminal_refused].
Qed.

Lemma free_refines wire id :
  let '(s', g', r) := free s g proof session wire id now in
  refines_to (fst (free_spec proof session (abs s) id)) s' g' /\
  answers (snd (free_spec proof session (abs s) id)) r.
Proof.
  unfold free, free_spec. rewrite abs_lookup. cbv zeta.
  destruct (buffers s !! id) as [r|] eqn:Er; [|done]. cbn [mbind option_bind].
  destruct (abs_record r) as [c|] eqn:Ec.
  - rewrite (holds_live r c Ec). unfold abs_record in Ec. destruct (alive r) eqn:Ha; [|done].
    pose proof (end_refines s g now Hinv id r Bs_Freed Er Ha eq_refl) as He.
    unfold alive in Ha. apply negb_true_iff in Ha. rewrite Ha.
    destruct (same_owner r proof); [|done]. rewrite bool_decide_eq_false_2; [|by intros E; rewrite E in Ha].
    by destruct (bu_session_id r =? session).
  - unfold abs_record in Ec. destruct (alive r) eqn:Ha; [done|].
    unfold alive in Ha. apply negb_false_iff in Ha. rewrite Ha.
    destruct (same_owner r proof); [|done]. case_bool_decide as Hf.
    + split; [done|]. intros _. eexists. split; [reflexivity|]. exact Hf.
    + split; [done|]. unfold terminal_failure. by destruct (bu_state r).
Qed.
End Requests.

(** ** Allocation *)

Lemma draw_unused_fresh used entropy k fuel id :
  draw_unused used entropy k fuel = Ok id -> used !! id = None.
Proof.
  revert k. induction fuel as [|fuel IH]; intros k; cbn; [done|].
  destruct (random_nonzero_128 _) as [id'|]; [|done].
  destruct (used !! id') eqn:E; [apply IH|]. by intros [= <-].
Qed.

Lemma held_bytes_live s g : BInv s g -> held_bytes s = msum live_bytes (buffers s).
Proof.
  intros Hinv. pose proof (bi_total s g Hinv) as Ht. pose proof (bi_rec s g Hinv) as Hrec.
  assert (Hmax : msum live_bytes (buffers s) <= U64_MAX).
  { unfold MAX_REMOTE_BUFFER_BYTES, U64_MAX in *. lia. }
  clear Ht Hinv. unfold held_bytes. revert Hrec Hmax. generalize (buffers s) as m.
  apply (map_fold_weak_ind (fun acc m => (forall k r, m !! k = Some r -> RInv k r) ->
    msum live_bytes m <= U64_MAX -> acc = msum live_bytes m)); [by rewrite msum_empty|].
  intros k r m acc Hk IH Hrec. rewrite msum_insert by done. intros Hle.
  assert (Hrec' : forall k r, m !! k = Some r -> RInv k r).
  { intros k' r' Hr'. apply Hrec. rewrite lookup_insert_ne; congruence. }
  pose proof (Hrec k r ltac:(apply lookup_insert_eq)) as Hr.
  assert (0 <= msum live_bytes m).
  { apply msum_nonneg. intros k' r' Hr'. unfold live_bytes. case_match; [|done].
    pose proof (ri_size k' r' (Hrec' k' r' Hr')). lia. }
  pose proof (ri_size k r Hr). unfold live_bytes at 1 in Hle. unfold live_bytes at 1.
  destruct (alive r) eqn:Ha.
  - destruct (ri_live k r Hr Ha) as [-> _]. rewrite IH by (done || lia). unfold sat_add64. lia.
  - destruct (ri_dead k r Hr Ha) as [-> _]. rewrite IH by (done || lia). lia.
Qed.

Lemma active_count_live s lease :
  active_count s lease = msum (live_of lease) (buffers s).
Proof.
  unfold active_count. destruct s as [m]. cbn.
  induction m as [|k r m Hk IH] using map_ind; [done|].
  rewrite msum_insert by done. rewrite <- IH. unfold live_of at 1, alive.
  destruct (decide (bu_owner_controller_lease_id r = lease /\
                    buffer_is_terminal (bu_state r) = false)) as [[E1 E2]|E].
  - rewrite map_filter_insert_True by done. rewrite map_size_insert_None;
      [|by apply map_lookup_filter_None_2; left]. rewrite E2, bool_decide_true by done. cbn. lia.
  - rewrite map_filter_insert_False, delete_id by done.
    destruct (buffer_is_terminal _) eqn:E2; cbn; [lia|]. rewrite bool_decide_eq_false_2; [lia|].
    intros E1. by apply E.
Qed.

Section Alloc.
Context (s : t) (g : Guard.t) (proof : LeaseProof) (session : SessionBinding) (now : Z).
Hypothesis Hinv : BInv s g.

(** A new live record with a claim of its own. *)
Lemma add_record id r g' v :
  buffers s !! id = None -> RInv id r -> alive r = true -> GInv g' ->
  buffer_claims g !! bu_reservation_id r = None ->
  buffer_claims g' = <[bu_reservation_id r := v]> (buffer_claims g) ->
  rv_bytes v = bu_size_bytes r ->
  msum live_bytes (buffers s) + bu_size_bytes r <= MAX_REMOTE_BUFFER_BYTES ->
  msum (live_of (bu_owner_controller_lease_id r)) (buffers s) < MAX_BUFFERS_PER_LEASE ->
  BInv (mk (<[id := r]> (buffers s))) g'.
Proof.
  intros Hid Hr Ha Hg' Hnone Hc Hb Ht Hcount.
  assert (Hother : forall k x, buffers s !! k = Some x -> alive x = true ->
    bu_reservation_id x <> bu_reservation_id r).
  { intros k x Hx Hax E. destruct (bi_claim s g Hinv k x Hx Hax) as (v' & Hv' & _). congruence. }
  assert (Hlk : forall i x, <[id := r]> (buffers s) !! i = Some x ->
    i = id /\ x = r \/ i <> id /\ buffers s !! i = Some x).
  { intros i x. rewrite lookup_insert_Some. naive_solver. }
  constructor; cbn [buffers].
  - done.
  - intros i x [[-> ->]|[_ Hx]]%Hlk; [done|by eapply bi_rec].
  - intros i x [[-> ->]|[_ Hx]]%Hlk Hax; rewrite Hc.
    + exists v. by rewrite lookup_insert_eq.
    + destruct (bi_claim s g Hinv i x Hx Hax) as (v' & Hv' & ?). exists v'.
      rewrite lookup_insert_ne; [done|]. symmetry. by eapply Hother.
  - intros k v'. rewrite Hc, lookup_insert_Some. intros [[<- _]|[_ Hv']].
    + exists id, r. by rewrite lookup_insert_eq.
    + destruct (bi_used s g Hinv k v' Hv') as (i & x & Hx & ?). exists i, x.
      rewrite lookup_insert_ne; [done|]. congruence.
  - intros i1 i2 x1 x2 [[-> ->]|[_ H1]]%Hlk [[-> ->]|[_ H2]]%Hlk Ha1 Ha2 E; [done| | |].
    + by destruct (Hother i2 x2 H2 Ha2).
    + by destruct (Hother i1 x1 H1 Ha1).
    + by apply (bi_inj s g Hinv i1 i2 x1 x2).
  - rewrite msum_insert by done. unfold live_bytes at 1. rewrite Ha. lia.
  - intros lease. rewrite msum_insert by done. unfold live_of at 1. rewrite Ha. cbn [andb].
    pose proof (bi_count s g Hinv lease). case_bool_decide as E; [subst lease|]; lia.
Qed.

(** A record that [alloc] has just made: live, zero-filled, nothing written yet. *)
Lemma new_record_inv id r :
  bu_buffer_id r = id -> 0 < bu_size_bytes r <= MAX_REMOTE_BUFFER_BYTES ->
  bu_state r = Bs_Allocated -> bu_initialized_ranges r = [] ->
  bu_backing r = Some (zeros (Z.to_nat (bu_size_bytes r))) ->
  bu_budget_released r = false -> bu_terminal_mono_ms r = None -> RInv id r.
Proof.
  intros Hid Hsz Hst Hr Hb Hrel Ht. assert (Ha : alive r = true) by (unfold alive; by rewrite Hst).
  constructor; [done|done| |by rewrite Ha]. intros _. split_and!; [done|done|].
  eexists. split; [exact Hb|]. constructor; rewrite ?Hr, ?Hst; [|split; constructor|constructor|done|by right].
  unfold len. rewrite length_zeros. lia.
Qed.

(** A refused allocation: no grant, and the guard keeps the claims of the store. *)
Lemma alloc_refused wire size g' reason :
  GInv g' -> buffer_claims g' = buffer_claims g -> reason <> Br_None ->
  let r := failed wire (pf_incarnation proof) reason None in
  exists grant,
    (forall id, grant = Some id -> buffers s !! id = None /\
       exists b, bf_buffer r = Some b /\ br_buffer_id b = id) /\
    refines_to (fst (alloc_spec proof session now (abs s) grant size)) s g' /\
    answers (snd (alloc_spec proof session now (abs s) grant size)) r.
Proof.
  intros Hg' Hc Hne. exists None. split; [done|]. split; [|done].
  split; [|done]. by eapply binv_guard.
Qed.

Lemma alloc_refines wire rid size flags mem_ok entropy :
  0 <= size ->
  let '(s', g', r) := alloc s g proof session wire rid size flags now mem_ok entropy in
  exists grant,
    (forall id, grant = Some id -> buffers s !! id = None /\
       exists b, bf_buffer r = Some b /\ br_buffer_id b = id) /\
    refines_to (fst (alloc_spec proof session now (abs s) grant size)) s' g' /\
    answers (snd (alloc_spec proof session now (abs s) grant size)) r.
Proof.
  intros Hsize. unfold alloc. cbv zeta. unfold Guard.reservation_snapshot. cbv zeta.
  pose proof (alloc_refused wire size) as Hfail. cbv zeta in Hfail.
  pose proof (bi_guard s g Hinv) as Hg.
  destruct (Z.eqb_spec size 0); [by apply Hfail|]. cbn [orb].
  destruct (Z.ltb_spec MAX_REMOTE_BUFFER_BYTES size); [by apply Hfail|].
  rewrite (held_bytes_live s g Hinv), active_count_live.
  destruct (Z.leb_spec MAX_BUFFERS_PER_LEASE (msum (live_of (pf_lease_id proof)) (buffers s)));
    [by apply Hfail|]. cbn [orb].
  destruct (checked_add64 _ _) as [total|] eqn:Et; [|by apply Hfail].
  destruct (Z.ltb_spec MAX_REMOTE_BUFFER_BYTES total); [by apply Hfail|].
  assert (Htot : msum live_bytes (buffers s) + size <= MAX_REMOTE_BUFFER_BYTES).
  { unfold checked_add64 in Et. case_match; simplify_eq. lia. }
  pose proof (purge_inv g now (pf_lease_id proof) (pf_incarnation proof) Hg) as Hg1.
  pose proof (claims_purge Rc_RemoteBufferBytes g now (pf_lease_id proof)
    (pf_incarnation proof) Hg) as Hc1.
  set (g1 := Guard.expire_and_purge _ _ _ _) in *. clearbody g1.
  fold (buffer_claims g1) (buffer_claims g) in Hc1.
  match goal with |- context [match ?o with Some snapshot => _ | None => _ end] =>
    destruct o as [sn|] end; [|by apply Hfail].
  match goal with |- context [if ?c then _ else _] => destruct c end; [by apply Hfail|].
  unfold stage_buffer. destruct mem_ok; [|by apply Hfail]. cbn [negb].
  destruct (draw_unused (buffers s) entropy 0 8) as [id|] eqn:Ed; [|by apply Hfail].
  apply draw_unused_fresh in Ed. cbn [fst snd].
  destruct (Guard.consume_for_buffer _ _ _ _ _) as [g2 [u|e]] eqn:Ec.
  - pose proof (claims_consume_buffer Rc_RemoteBufferBytes _ _ _ _ _ _ _ Hg1 Ec) as
      (v & Hv & Hst & Hcl & Hb & Hnone & Hc2).
    assert (Hg2 : GInv g2) by (eapply (guard_step_inv g1); [done|by eapply gs_consume_buffer]).
    rewrite decide_True in Hc2 by done. exists (Some id).
    split; [intros ? [= <-]; split; [done|by eexists]|]. split; [|done]. split.
    + eapply add_record with (v := v); cbn; try done.
      * apply new_record_inv; try done. cbn. lia.
      * by rewrite <- Hc1.
      * by rewrite <- Hc1.
    + rewrite abs_insert. unfold abs_record, fresh. cbn -[bytes_of]. rewrite bytes_of_nil.
      by rewrite length_zeros.
  - apply Hfail; [| |done].
    + eapply (guard_step_inv g1); [done|by eapply gs_consume_buffer].
    + rewrite <- Hc1. by apply (claims_consume_buffer Rc_RemoteBufferBytes) in Ec.
Qed.
End Alloc.

(** ** Requests *)

Lemma apply_refines s g proof session req now mem_ok entropy :
  BInv s g -> typed req ->
  exists s' g' kind r grant,
    apply s g proof session req now mem_ok entropy = Some (s', g', (kind, r)) /\
    BInv s' g' /\
    abs s' = fst (step proof session now mem_ok (abs s) grant req) /\
    answers (snd (step proof session now mem_ok (abs s) grant req)) r /\
    (forall id, grant = Some id -> expire now (abs s) !! id = None).
Proof.
  intros Hinv Ht. unfold apply, step. destruct (expire_spec s g now Hinv) as [H1 H2].
  destruct (expire_and_purge s g now) as [s1 g1]. cbn [fst snd] in *. rewrite <- H2.
  destruct req as [lease inc rid size flags|lease inc id off data|lease inc id off n|lease inc id
    |lease inc id|lease inc id]; cbn [typed] in Ht.
  - pose proof (alloc_refines s1 g1 proof session now H1 lease rid size flags mem_ok entropy Ht)
      as Ha. destruct (alloc _ _ _ _ _ _ _ _ _ _ _) as [[s2 g2] r].
    destruct Ha as (grant & Hg & [Hi He] & Hans). exists s2, g2, Bk_AllocAck, r, grant.
    split_and!; try done. intros id Hid. destruct (Hg id Hid) as [Hn _].
    by rewrite abs_lookup, Hn.
  - destruct (put_refines s1 g1 proof session now H1 lease id off data mem_ok Ht)
      as (s2 & g2 & r & -> & [Hi He] & Hans). cbn [mbind option_bind].
    by exists s2, g2, Bk_Put, r, None.
  - destruct Ht. destruct (get_refines s1 g1 proof session now H1 lease id off n mem_ok)
      as (s2 & g2 & r & -> & [Hi He] & Hans); [done..|]. cbn [mbind option_bind].
    by exists s2, g2, Bk_Data, r, None.
  - pose proof (free_refines s1 g1 proof session now H1 lease id) as Ha.
    destruct (free _ _ _ _ _ _ _) as [[s2 g2] r]. destruct Ha as [[Hi He] Hans].
    by exists s2, g2, Bk_Free, r, None.
  - destruct (stat_refines s1 g1 proof session now H1 lease id) as [[Hi He] Hans].
    by eexists s1, g1, Bk_Stat, _, None.
  - pose proof (touch_refines s1 g1 proof session now H1 lease id) as Ha.
    destruct (touch _ _ _ _ _ _) as [s2 r]. destruct Ha as [[Hi He] Hans].
    by exists s2, g1, Bk_Touch, r, None.
Qed.

(** ** The life-cycle events *)

Lemma session_lost_spec s g session now :
  BInv s g ->
  let sg := session_lost s g session now in
  BInv (fst sg) (snd sg) /\
  abs (fst sg) = filter (fun x => ce_session x.2 <> session) (expire now (abs s)).
Proof.
  intros Hinv. cbv zeta. unfold session_lost. destruct (expire_spec s g now Hinv) as [H1 <-].
  destruct (expire_and_purge s g now) as [s1 g1]. cbn [fst snd] in *.
  pose proof (sweep_refines (fun r => (bu_session_id r =? session)
    && negb (buffer_is_terminal (bu_state r))) (fun c => ce_session c <> session)
    Bs_Lost s1 g1 now H1 eq_refl) as Hs. apply Hs.
  - by intros r [_ ?]%andb_true_iff.
  - intros r c Hc. unfold abs_record in Hc. fold (alive r). destruct (alive r); [|done].
    injection Hc as <-. cbn. rewrite andb_true_r. apply Z.eqb_neq.
Qed.

Lemma lease_ended_spec s g lease now :
  BInv s g ->
  let sg := lease_ended s g lease now in
  BInv (fst sg) (snd sg) /\
  abs (fst sg) = filter (fun x => ce_lease x.2 <> lease) (expire now (abs s)).
Proof.
  intros Hinv. cbv zeta. unfold lease_ended. destruct (expire_spec s g now Hinv) as [H1 <-].
  destruct (expire_and_purge s g now) as [s1 g1]. cbn [fst snd] in *.
  pose proof (sweep_refines (fun r => bool_decide (bu_owner_controller_lease_id r = lease)
    && negb (buffer_is_terminal (bu_state r))) (fun c => ce_lease c <> lease)
    Bs_Evicted s1 g1 now H1 eq_refl) as Hs. apply Hs.
  - by intros r [_ ?]%andb_true_iff.
  - intros r c Hc. unfold abs_record in Hc. fold (alive r). destruct (alive r); [|done].
    injection Hc as <-. cbn. rewrite andb_true_r. apply bool_decide_eq_false.
Qed.

(** What a compute job may read. *)
Lemma compute_input_spec s g proof session id off n now s' g' x :
  BInv s g -> validate_compute_input s g proof session id off n now = (s', g', x) ->
  BInv s' g' /\
  (x = Ok tt -> exists c, abs s' = expire now (abs s) /\ abs s' !! id = Some c /\
    holds proof session c = true /\ complete (ce_bytes c) = true /\ off + n <= size_of c /\
    n <= MAX_COMPUTE_INPUT_BYTES).
Proof.
  intros Hinv. unfold validate_compute_input. destruct (expire_spec s g now Hinv) as [H1 H2].
  destruct (expire_and_purge s g now) as [s1 g1]. cbn [fst snd] in *.
  destruct (buffers s1 !! id) as [r|] eqn:Er; [|by intros [= <- <- <-]].
  match goal with |- context [if ?c then _ else _] => destruct c eqn:G1 end;
    [by intros [= <- <- <-]|].
  match goal with |- context [if ?c then _ else _] => destruct c eqn:G2 end;
    [by intros [= <- <- <-]|].
  fold (alive r). destruct (Z.eqb_spec (bu_session_id r) session) as [Es|Es]; cbn [negb].
  2:{ destruct (alive r) eqn:Ha; [|by intros [= <- <- <-]].
      change (terminalize r g1 Bs_Lost now) with
        (ended r Bs_Lost now, snd (terminalize r g1 Bs_Lost now)). cbv iota beta.
      intros [= <- <- <-]. split; [|done]. by apply end_record_inv. }
  destruct (bu_state r) eqn:Est; try (by intros [= <- <- <-]).
  destruct (Z.ltb_spec MAX_COMPUTE_INPUT_BYTES n); [by intros [= <- <- <-]|].
  destruct (checked_add64 off n) as [end_|] eqn:Ee; [|by intros [= <- <- <-]].
  destruct (Z.ltb_spec (bu_size_bytes r) end_); [by intros [= <- <- <-]|].
  intros [= <- <- <-]. split; [done|]. intros _.
  assert (Ha : alive r = true) by (unfold alive; by rewrite Est).
  destruct (abs_record_alive r Ha) as (c & Hc & Hs & Hsz). exists c.
  pose proof (bi_rec s1 g1 H1 id r Er) as Hrec. rewrite (Hsz id Hrec).
  destruct (ri_live id r Hrec Ha) as (_ & _ & b & Hb & [Hlen Hnorm Hw Hready _]).
  split_and!; [done|by rewrite abs_lookup, Er| | | |done].
  - rewrite (holds_live proof session r c Hc). unfold same_owner. bool_hyps.
    rewrite !bool_decide_true by done. rewrite Es. apply Z.eqb_refl.
  - unfold abs_record in Hc. rewrite Ha, Hb in Hc. injection Hc as <-. cbn -[bytes_of].
    apply (full_complete _ _ (bu_size_bytes r)); try done; [apply (ri_size id r Hrec)|].
    by apply Hready.
  - unfold checked_add64 in Ee. case_match; simplify_eq. lia.
Qed.
