(* ===== verification/BufferSystem.v ===== *)
(** * Buffers and guard as one system

    The store and the guard run side by side: buffer requests and life-cycle
    events on one, resource commands, compute jobs and ticks on the other.  The
    theorems hold in every state such a run can reach. *)

From Stdlib Require Import ZArith Lia.
From stdpp Require Import base tactics list gmap relations.
From S2P Require Import Prelude Types ResourceWire ComputeWire BufferWire Lease ResourceGuard.
From S2P Require Import GuardFacts BufferStore Claims BufferFacts BufferInv BufferRefine.

Import Content BufferSpec.

(** One step of the guard on behalf of a client other than the buffer store. *)
Inductive client_step : Guard.t -> Guard.t -> Prop :=
| cs_health g sample : client_step g (fst (Guard.record_health g sample))
| cs_reserve g m session lease rq now e g' m' d :
    fresh_id g e -> 0 <= rq_bytes rq ->
    Guard.reserve g m session lease rq now e = (g', m', d) -> client_step g g'
| cs_commit g m session lease id now g' m' d :
    Guard.commit g m session lease id now = (g', m', d) -> client_step g g'
| cs_release g m session lease id now g' m' d :
    Guard.release g m session lease id now = (g', m', d) -> client_step g g'
| cs_snapshot g pf id now : client_step g (fst (Guard.reservation_snapshot g pf id now))
| cs_consume_compute g pf id now g' r :
    Guard.consume_for_compute g pf id now = Some (g', r) -> client_step g g'
| cs_release_compute g id n now : client_step g (Guard.release_consumed_compute g id n now)
| cs_tick g now : client_step g (Guard.tick g now).

Lemma client_guard_step g g' : client_step g g' -> guard_step g g'.
Proof.
  destruct 1; [apply gs_health|by eapply gs_reserve|by eapply gs_commit|by eapply gs_release
    |apply gs_snapshot|by eapply gs_consume_compute|apply gs_release_compute|apply gs_tick].
Qed.

Lemma client_claims g g' :
  GInv g -> client_step g g' -> buffer_claims g' = buffer_claims g.
Proof.
  intros Hg. unfold buffer_claims. destruct 1.
  - done.
  - by eapply claims_reserve.
  - by eapply claims_commit.
  - by eapply claims_release.
  - by apply claims_purge.
  - apply (claims_consume_compute Rc_RemoteBufferBytes) in H; [|done]. destruct r; [|done].
    by destruct H as (v & _ & _ & _ & ->).
  - unfold Guard.release_consumed_compute. rewrite claims_release_consumed.
    destruct (claims _ g !! id); [|done]. rewrite decide_False; [done|]. by intros [].
  - by apply claims_tick.
Qed.

Definition system : Type := BufferStore.t * Guard.t.

Inductive system_step : system -> system -> Prop :=
| sy_request s g pf session req now mem_ok e s' g' r :
    typed req ->
    BufferStore.apply s g pf session req now mem_ok e = Some (s', g', r) ->
    system_step (s, g) (s', g')
| sy_input s g pf session id off n now s' g' x :
    BufferStore.validate_compute_input s g pf session id off n now = (s', g', x) ->
    system_step (s, g) (s', g')
| sy_session_lost s g session now :
    system_step (s, g) (BufferStore.session_lost s g session now)
| sy_lease_ended s g lease now :
    system_step (s, g) (BufferStore.lease_ended s g lease now)
| sy_tick s g now : system_step (s, g) (BufferStore.tick s g now)
| sy_client s g g' : client_step g g' -> system_step (s, g) (s, g').

Definition system_reachable (x : system) : Prop :=
  rtc system_step (BufferStore.new, Guard.new) x.

Lemma system_step_inv x y : BInv (fst x) (snd x) -> system_step x y -> BInv (fst y) (snd y).
Proof.
  intros Hinv. destruct 1; cbn [fst snd] in *.
  - destruct (apply_refines s g pf session req now mem_ok e Hinv H)
      as (s1 & g1 & k & r1 & gr & E & Hi & _). by simplify_eq.
  - by eapply compute_input_spec.
  - by apply session_lost_spec.
  - by apply lease_ended_spec.
  - by apply expire_spec.
  - eapply binv_guard; [done| |].
    + eapply guard_step_inv; [apply Hinv|by apply client_guard_step].
    + apply client_claims; [apply Hinv|done].
Qed.

Lemma system_run_inv x y :
  rtc system_step x y -> BInv (fst x) (snd x) -> BInv (fst y) (snd y).
Proof. induction 1; eauto using system_step_inv. Qed.

Lemma system_reachable_inv s g : system_reachable (s, g) -> BInv s g.
Proof. intros H. apply (system_run_inv _ _ H), binv_new. Qed.

(** C3: buffer contents.  In every reachable state each buffer request returns a
    response without panicking, and the store with its range lists, tombstones,
    backing vectors and reservations behaves as the map of partial byte strings of
    [BufferSpec]: expired buffers are gone, a put overwrites exactly the bytes it
    names, a get is answered only for a completely written buffer and returns the
    bytes last written, only the lease holder in the owning session is served, and
    an allocation creates a new unwritten buffer under an unused name. *)
Theorem buffer_store_refines s g pf session req now mem_ok e :
  system_reachable (s, g) -> typed req ->
  exists s' g' kind r grant,
    BufferStore.apply s g pf session req now mem_ok e = Some (s', g', (kind, r)) /\
    abs s' = fst (step pf session now mem_ok (abs s) grant req) /\
    answers (snd (step pf session now mem_ok (abs s) grant req)) r /\
    (forall id, grant = Some id -> expire now (abs s) !! id = None).
Proof.
  intros Hr Ht. apply system_reachable_inv in Hr.
  destruct (apply_refines s g pf session req now mem_ok e Hr Ht)
    as (s' & g' & k & r & gr & ? & _ & ? & ? & ?). eauto 10.
Qed.

(** C7: buffer memory and budget.  In every reachable state each live buffer owns a
    backing vector of its size and one consumed reservation of that size, different
    buffers own different reservations, every consumed remote-buffer reservation is
    owned by a live buffer (no budget leaks), an ended buffer owns no bytes, the
    live buffers hold at most 128 MiB together and a lease at most eight. *)
Theorem buffer_budget_exact s g :
  system_reachable (s, g) ->
  (forall k r, BufferStore.buffers s !! k = Some r -> alive r = true ->
    (exists b, bu_backing r = Some b /\ len b = bu_size_bytes r) /\
    exists v, Guard.reservations g !! bu_reservation_id r = Some v /\
      rv_state v = Rv_Consumed /\ rv_class v = Rc_RemoteBufferBytes /\
      rv_bytes v = bu_size_bytes r) /\
  (forall k1 k2 r1 r2, BufferStore.buffers s !! k1 = Some r1 ->
    BufferStore.buffers s !! k2 = Some r2 -> alive r1 = true -> alive r2 = true ->
    bu_reservation_id r1 = bu_reservation_id r2 -> k1 = k2) /\
  (forall id v, Guard.reservations g !! id = Some v -> rv_state v = Rv_Consumed ->
    rv_class v = Rc_RemoteBufferBytes ->
    exists k r, BufferStore.buffers s !! k = Some r /\ alive r = true /\
      bu_reservation_id r = id) /\
  (forall k r, BufferStore.buffers s !! k = Some r -> alive r = false -> bu_backing r = None) /\
  BufferStore.held_bytes s <= MAX_REMOTE_BUFFER_BYTES /\
  (forall lease, BufferStore.active_count s lease <= MAX_BUFFERS_PER_LEASE).
Proof.
  intros Hr. apply system_reachable_inv in Hr. split_and!.
  - intros k r Hk Ha. split.
    + destruct (ri_live k r (bi_rec s g Hr k r Hk) Ha) as (_ & _ & b & ? & []). eauto.
    + destruct (bi_claim s g Hr k r Hk Ha) as (v & Hv & ?).
      apply claims_lookup_Some in Hv as (? & ? & ?). eauto.
  - apply Hr.
  - intros id v Hv Hs Hc. apply (bi_used s g Hr id v). by apply claims_lookup_Some.
  - intros k r Hk Ha. apply (ri_dead k r (bi_rec s g Hr k r Hk) Ha).
  - rewrite (held_bytes_live s g Hr). apply Hr.
  - intros lease. rewrite active_count_live. apply Hr.
Qed.

(** Isolation of life-cycle events.  The loss of a session removes exactly the
    buffers of that session, the end of a lease exactly those of that lease,
    besides the expired ones; every other buffer keeps its bytes. *)
Lemma buffer_events_exact s g session lease now :
  system_reachable (s, g) ->
  abs (fst (BufferStore.session_lost s g session now)) =
    filter (fun x => ce_session x.2 <> session) (expire now (abs s)) /\
  abs (fst (BufferStore.lease_ended s g lease now)) =
    filter (fun x => ce_lease x.2 <> lease) (expire now (abs s)) /\
  abs (fst (BufferStore.tick s g now)) = expire now (abs s).
Proof.
  intros Hr. apply system_reachable_inv in Hr. split_and!.
  - by apply session_lost_spec.
  - by apply lease_ended_spec.
  - by apply expire_spec.
Qed.

(** A get of completely written bytes returns them. *)
Lemma compute_slice s g pf session id off n c :
  BInv s g -> 0 <= off -> 0 <= n -> abs s !! id = Some c -> holds pf session c = true ->
  complete (ce_bytes c) = true -> off + n <= size_of c ->
  exists data, BufferStore.with_compute_input s pf session id off n = Some (Some data) /\
    read (ce_bytes c) (Z.to_nat off) (Z.to_nat n) = Some data /\ len data = n.
Proof.
  intros Hinv Hoff Hn Hc Hh Hcomp Hle. unfold BufferStore.with_compute_input.
  rewrite abs_lookup in Hc. destruct (BufferStore.buffers s !! id) as [r|] eqn:Er; [|done].
  cbn in Hc. pose proof (bi_rec s g Hinv id r Er) as Hrec.
  assert (Ha : alive r = true) by (unfold abs_record in Hc; by destruct (alive r)).
  rewrite (holds_live pf session r c Hc) in Hh. unfold BufferStore.owns. rewrite Hh.
  destruct (abs_record_alive r Ha) as (c' & Hc' & _ & Hsz). rewrite Hc in Hc'.
  injection Hc' as <-. rewrite (Hsz id Hrec) in Hle.
  destruct (ri_live id r Hrec Ha) as (_ & _ & b & Hb & [Hlen Hnorm Hw Hready _]).
  unfold abs_record in Hc. rewrite Ha, Hb in Hc. injection Hc as <-. cbn -[bytes_of] in *.
  pose proof (ri_size id r Hrec) as Hmax.
  apply (full_complete _ _ (bu_size_bytes r)) in Hcomp; [|lia|done..].
  rewrite bool_decide_true by (by apply Hready). cbn [negb orb].
  unfold checked_add64, U64_MAX. unfold MAX_REMOTE_BUFFER_BYTES in Hmax.
  rewrite (proj2 (Z.leb_le _ _)) by lia. rewrite (proj2 (Z.ltb_ge _ _)) by lia. rewrite Hb.
  unfold BufferStore.read_bytes. unfold len in Hlen. rewrite decide_True by lia. cbn.
  exists (slice b (Z.to_nat off) (Z.to_nat n)). split; [done|]. split.
  - rewrite Hcomp, <- Hlen. apply read_full.
  - unfold len. rewrite length_slice by lia. lia.
Qed.

(** Compute inputs.  When the store accepts a buffer range as the input of a
    job, the job then reads exactly the last-written bytes of that range: the
    lookup cannot fail or panic, and the buffer is owned, complete, unexpired and
    large enough. *)
Lemma compute_input_sound s g pf session id off n now s' g' :
  system_reachable (s, g) -> 0 <= off -> 0 <= n ->
  BufferStore.validate_compute_input s g pf session id off n now = (s', g', Ok tt) ->
  exists c data, expire now (abs s) !! id = Some c /\ holds pf session c = true /\
    BufferStore.with_compute_input s' pf session id off n = Some (Some data) /\
    read (ce_bytes c) (Z.to_nat off) (Z.to_nat n) = Some data /\
    len data = n /\ n <= MAX_COMPUTE_INPUT_BYTES.
Proof.
  intros Hr Hoff Hn H. apply system_reachable_inv in Hr.
  destruct (compute_input_spec s g pf session id off n now s' g' (Ok tt) Hr H) as [Hi Hx].
  destruct (Hx eq_refl) as (c & Ha & Hc & Hh & Hcomp & Hle & Hmax).
  destruct (compute_slice s' g' pf session id off n c) as (data & ? & ? & ?); try done.
  rewrite Ha in Hc. eauto 10.
Qed.

(** A completed put reports the record it stored. *)
Lemma put_result s g pf session lease id off data now mem_ok s' g' r :
  BufferStore.put s g pf session lease id off data now mem_ok = Some (s', g', r) ->
  bf_completed r = true ->
  exists r', BufferStore.buffers s' !! id = Some r' /\ alive r' = true /\
    bf_buffer r = Some (BufferStore.result_ref r' now).
Proof.
  unfold BufferStore.put. cbv zeta.
  destruct (BufferStore.authorized_record _ _ _ _ _ _) as [[s1 g1] [r0|]].
  2:{ intros [= <- <- <-] Hc. exfalso. revert Hc. unfold BufferStore.authorization_failure.
      repeat case_match; done. }
  destruct (buffer_is_terminal (bu_state r0)) eqn:Et.
  { intros [= <- <- <-] Hc. exfalso. revert Hc. unfold BufferStore.terminal_failure.
    by destruct (bu_state r0). }
  destruct (checked_add64 _ _) as [end_|]; [|by intros [= <- <- <-]].
  match goal with |- context [if ?c then _ else _] => destruct c end; [by intros [= <- <- <-]|].
  destruct mem_ok; cbn [negb]; [|by intros [= <- <- <-]].
  destruct (bu_backing r0) as [b|]; [|done]. cbn [mbind option_bind].
  destruct (BufferStore.write_bytes _ _ _) as [b'|]; [|done]. cbn [mbind option_bind].
  intros [= <- <- <-] _. eexists. cbn [BufferStore.buffers]. rewrite lookup_insert_eq.
  split_and!; [done| |done]. unfold alive. cbn. by case_bool_decide.
Qed.

Lemma overwrite_read c k data :
  (k + length data <= length c)%nat ->
  read (overwrite c k data) k (length data) = Some data.
Proof.
  intros H. unfold read, overwrite. rewrite drop_app_ge by (rewrite length_take; lia).
  rewrite length_take, Nat.min_l, Nat.sub_diag, drop_0 by lia.
  rewrite take_app_ge by (rewrite length_fmap; lia).
  rewrite length_fmap, Nat.sub_diag, take_0, app_nil_r. apply mapM_some.
Qed.

(** A put the specification performs. *)
Lemma put_spec_done pf session mem_ok m id off data r :
  answers (snd (put_spec pf session mem_ok m id off data)) r -> bf_completed r = true ->
  exists c, m !! id = Some c /\ ce_session c = session /\ owned c pf = true /\
    0 < len data /\ off + len data <= size_of c /\
    fst (put_spec pf session mem_ok m id off data) !! id =
      Some (set_bytes c (overwrite (ce_bytes c) (Z.to_nat off) data)).
Proof.
  unfold put_spec, contact. cbv zeta. intros Hans Hdone.
  destruct (m !! id) as [c|] eqn:Ec; [|rewrite Ec in Hans; destruct Hans as [Hf _]; congruence].
  destruct (Z.eqb_spec (ce_session c) session) as [Hs|_];
    [|rewrite lookup_delete_eq in Hans; destruct Hans as [Hf _]; congruence].
  rewrite Ec in *. match type of Hans with context [if ?c then _ else _] => destruct c eqn:Eg end;
    [|destruct Hans as [Hf _]; congruence].
  bool_hyps. exists c. split_and!; try done; try lia. apply lookup_insert_eq.
Qed.

(** A get the specification answers. *)
Lemma get_spec_data pf session now m gr lease inc id off n c data :
  expire now m !! id = Some c -> ce_session c = session -> owned c pf = true ->
  complete (ce_bytes c) = true -> 0 < n <= MAX_DATA_BODY -> off + n <= size_of c ->
  read (ce_bytes c) (Z.to_nat off) (Z.to_nat n) = Some data ->
  snd (step pf session now true m gr (Rb_Get lease inc id off n)) = Data data.
Proof.
  intros Hc Hs Ho Hcomp Hn Hle Hread. unfold step, get_spec, contact. cbv zeta.
  rewrite Hc, Hs, Z.eqb_refl, Hc, Ho, Hcomp, Hread.
  rewrite (proj2 (Z.ltb_lt 0 n)), (proj2 (Z.leb_le n _)), (proj2 (Z.leb_le (off + n) _)) by lia.
  done.
Qed.

Lemma get_kind s g pf session lease inc id off n now mem_ok e s' g' k r :
  BufferStore.apply s g pf session (Rb_Get lease inc id off n) now mem_ok e
    = Some (s', g', (k, r)) -> k = Bk_Data.
Proof.
  unfold BufferStore.apply. destruct (BufferStore.expire_and_purge s g now).
  destruct (BufferStore.get _ _ _ _ _ _ _ _ _ _) as [[[? ?] ?]|]; [|done]. cbn. congruence.
Qed.

Lemma put_apply_result s g pf session lease inc id off data now mem_ok e s' g' k r b :
  BufferStore.apply s g pf session (Rb_Put lease inc id off data) now mem_ok e
    = Some (s', g', (k, r)) -> bf_completed r = true -> bf_buffer r = Some b ->
  exists r', BufferStore.buffers s' !! id = Some r' /\ alive r' = true /\
    b = BufferStore.result_ref r' now.
Proof.
  unfold BufferStore.apply. destruct (BufferStore.expire_and_purge s g now) as [s0 g0].
  destruct (BufferStore.put _ _ _ _ _ _ _ _ _ _) as [[[s2 g2] r2]|] eqn:Ep; [|done].
  cbn. intros [= <- <- <- <-] Hdone Hb.
  destruct (put_result _ _ _ _ _ _ _ _ _ _ _ _ _ Ep Hdone) as (r' & ? & ? & Hb').
  exists r'. split_and!; congruence.
Qed.

(** A ready record stands for a complete cell with the same deadline. *)
Lemma ready_complete s g id r c :
  BInv s g -> BufferStore.buffers s !! id = Some r -> bu_state r = Bs_Ready ->
  abs s !! id = Some c -> complete (ce_bytes c) = true /\ ce_expires c = bu_expires_mono_ms r.
Proof.
  intros Hinv Hr Hs. rewrite abs_lookup, Hr. cbn. pose proof (bi_rec s g Hinv id r Hr) as Hrec.
  assert (Ha : alive r = true) by (unfold alive; by rewrite Hs).
  destruct (ri_live id r Hrec Ha) as (_ & _ & bk & Hbk & [Hl Hn Hw Hrd _]).
  unfold abs_record. rewrite Ha, Hbk. intros [= <-]. cbn -[bytes_of]. split; [|done].
  apply (full_complete _ _ (bu_size_bytes r)); try done; [apply (ri_size id r Hrec)|].
  by apply Hrd.
Qed.

(** Write, then read.  When a put completes and its answer says that the buffer
    is ready, a get of the same range by the same holder and session within the
    reported time to live is answered with the bytes of the put. *)
Lemma put_get_roundtrip s g pf session lease inc id off data now now' mem_ok e e' s1 g1 kind
    r1 b :
  system_reachable (s, g) -> 0 <= off -> len data <= MAX_DATA_BODY ->
  BufferStore.apply s g pf session (Rb_Put lease inc id off data) now mem_ok e
    = Some (s1, g1, (kind, r1)) ->
  bf_completed r1 = true -> bf_buffer r1 = Some b -> br_state b = Bs_Ready ->
  now' < now + br_ttl_remaining_ms b ->
  exists s2 g2 r2,
    BufferStore.apply s1 g1 pf session (Rb_Get lease inc id off (len data)) now' true e'
      = Some (s2, g2, (Bk_Data, r2)) /\
    bf_completed r2 = true /\ bf_data r2 = data.
Proof.
  intros Hr Hoff Hlen Hput Hdone Hb Hready Hnow. apply system_reachable_inv in Hr.
  destruct (apply_refines s g pf session (Rb_Put lease inc id off data) now mem_ok e Hr Hoff)
    as (s' & g' & k & r & gr & E & Hi & Habs & Hans & _).
  rewrite Hput in E. injection E as <- <- <- <-.
  destruct (put_apply_result _ _ _ _ _ _ _ _ _ _ _ _ _ _ _ _ _ Hput Hdone Hb)
    as (r' & Hr' & Ha' & ->).
  destruct (put_spec_done _ _ _ _ _ _ _ _ Hans Hdone) as (c & Hc & Hsess & Hown & Hpos & Hle & Hc1).
  unfold step in Habs. rewrite <- Habs in Hc1.
  destruct (ready_complete s1 g1 id r' _ Hi Hr' Hready Hc1) as [Hcomp Hexp].
  destruct (apply_refines s1 g1 pf session (Rb_Get lease inc id off (len data)) now' true e' Hi)
    as (s2 & g2 & k & r & gr' & E & _ & _ & Hans2 & _); [split; [done|unfold len; lia]|].
  pose proof (get_kind _ _ _ _ _ _ _ _ _ _ _ _ _ _ _ _ E) as ->.
  exists s2, g2, r. split; [done|].
  unfold size_of in Hle. erewrite get_spec_data in Hans2; [by destruct Hans2 as (? & ? & _)|..].
  - unfold expire. apply map_lookup_filter_Some. split; [exact Hc1|]. cbn [snd]. rewrite Hexp.
    unfold expire in Hc. apply map_lookup_filter_Some in Hc as [_ Hc]. cbn in Hc, Hnow, Hexp.
    unfold alive in Ha'. apply negb_true_iff in Ha'. rewrite Ha' in Hnow.
    unfold sat_sub in Hnow. lia.
  - done.
  - done.
  - done.
  - lia.
  - unfold size_of. cbn [set_bytes ce_bytes]. unfold overwrite.
    rewrite !length_app, length_take, length_fmap, length_drop. unfold len in *. lia.
  - cbn [set_bytes ce_bytes]. replace (Z.to_nat (len data)) with (length data) by
      (unfold len; lia). apply overwrite_read. unfold len in *. lia.
Qed.

(** ** A concrete run *)

Definition demo_lease : LeaseId := replicate 16 Byte.x07.
Definition demo_inc : WorkerIncarnationId := replicate 16 Byte.x02.
Definition demo_proof : LeaseProof := mkProof demo_lease demo_inc (replicate 32 Byte.x01).
Definition demo_res : ReservationId := replicate 16 Byte.x0a.
Definition demo_buf : list byte := replicate 16 Byte.x0b.
Definition demo_text : list byte := [Byte.x70; Byte.x68; Byte.x6f; Byte.x6e; Byte.x65].

Definition demo_granted : Guard.t * LeaseManager.t * ReservationDecision :=
  Guard.reserve warm_guard demo_held demo_peer demo_lease
    (mkReserveRequest 1 Rc_RemoteBufferBytes 5) 11000 (Some (fun _ => Some demo_res)).
Definition demo_committed : Guard.t * LeaseManager.t * CommitDecision :=
  Guard.commit (fst (fst demo_granted)) (snd (fst demo_granted)) demo_peer demo_lease demo_res
    11000.

Definition request (x : system) (req : RemoteBufferRequest) (now : Z) : system :=
  match BufferStore.apply (fst x) (snd x) demo_proof 7 req now true
          (fun _ => Some (fun _ => Some demo_buf)) with
  | Some (s', g', _) => (s', g')
  | None => x
  end.

Lemma request_reachable x req now :
  system_reachable x -> typed req -> system_reachable (request x req now).
Proof.
  intros Hx Ht. unfold request. destruct x as [s g]. cbn [fst snd].
  destruct (BufferStore.apply _ _ _ _ _ _ _ _) as [[[s' g'] r]|] eqn:E; [|done].
  eapply rtc_r; [exact Hx|]. by eapply sy_request.
Qed.

Definition demo_start : system := (BufferStore.new, fst (fst demo_committed)).

Lemma demo_start_reachable : system_reachable demo_start.
Proof.
  unfold demo_start.
  eapply rtc_r with (y := (BufferStore.new, fst (fst demo_granted)));
    [eapply rtc_r with (y := (BufferStore.new, warm_guard))|].
  - unfold warm_guard. do 3 (eapply rtc_r; [|apply sy_client, cs_health]). apply rtc_refl.
  - apply sy_client. eapply (cs_reserve _ demo_held demo_peer demo_lease
      (mkReserveRequest 1 Rc_RemoteBufferBytes 5) 11000 (Some (fun _ => Some demo_res)) _
      (snd (fst demo_granted)) (snd demo_granted)).
    + intros id _. apply lookup_empty.
    + done.
    + fold demo_granted. by destruct demo_granted as [[? ?] ?].
  - apply sy_client. eapply (cs_commit _ (snd (fst demo_granted)) demo_peer demo_lease demo_res
      11000 _ (snd (fst demo_committed)) (snd demo_committed)).
    fold demo_committed. by destruct demo_committed as [[? ?] ?].
Qed.

Definition demo_allocated : system :=
  request demo_start (Rb_Alloc demo_lease demo_inc demo_res 5 0) 12000.
Definition demo_written : system :=
  request demo_allocated (Rb_Put demo_lease demo_inc demo_buf 0 demo_text) 13000.

Lemma demo_allocated_reachable : system_reachable demo_allocated.
Proof. apply request_reachable; [apply demo_start_reachable|done]. Qed.
Lemma demo_written_reachable : system_reachable demo_written.
Proof. apply request_reachable; [apply demo_allocated_reachable|done]. Qed.

Lemma buffer_store_refines_witness :
  exists s' g' kind r grant,
    BufferStore.apply (fst demo_allocated) (snd demo_allocated) demo_proof 7
      (Rb_Put demo_lease demo_inc demo_buf 0 demo_text) 13000 true (fun _ => None)
      = Some (s', g', (kind, r)) /\
    abs s' = fst (step demo_proof 7 13000 true (abs (fst demo_allocated)) grant
      (Rb_Put demo_lease demo_inc demo_buf 0 demo_text)) /\
    answers (snd (step demo_proof 7 13000 true (abs (fst demo_allocated)) grant
      (Rb_Put demo_lease demo_inc demo_buf 0 demo_text))) r /\
    (forall id, grant = Some id -> expire 13000 (abs (fst demo_allocated)) !! id = None).
Proof.
  apply (buffer_store_refines (fst demo_allocated) (snd demo_allocated)); [|done].
  rewrite <- surjective_pairing. apply demo_allocated_reachable.
Defined.

Lemma buffer_budget_exact_witness :
  exists r, BufferStore.buffers (fst demo_written) !! demo_buf = Some r /\ alive r = true /\
    exists v, Guard.reservations (snd demo_written) !! demo_res = Some v /\ rv_bytes v = 5.
Proof.
  destruct (buffer_budget_exact (fst demo_written) (snd demo_written)) as [H _].
  { rewrite <- surjective_pairing. apply demo_written_reachable. }
  eexists. split; [vm_compute; reflexivity|]. split; [vm_compute; reflexivity|].
  destruct (H demo_buf _ ltac:(vm_compute; reflexivity) ltac:(vm_compute; reflexivity))
    as [_ (v & Hv & _ & _ & Hb)]. exists v. split; [exact Hv|exact Hb].
Defined.

Lemma buffer_events_exact_witness :
  abs (fst (BufferStore.session_lost (fst demo_written) (snd demo_written) 7 14000)) = ∅ /\
  abs (fst (BufferStore.lease_ended (fst demo_written) (snd demo_written) demo_lease 14000)) =
    filter (fun x => ce_lease x.2 <> demo_lease) (expire 14000 (abs (fst demo_written))).
Proof.
  destruct (buffer_events_exact (fst demo_written) (snd demo_written) 7 demo_lease 14000)
    as (H1 & H2 & _).
  { rewrite <- surjective_pairing. apply demo_written_reachable. }
  split; [|exact H2]. rewrite H1. vm_compute. reflexivity.
Defined.

Lemma put_get_roundtrip_witness :
  exists s2 g2 r2,
    BufferStore.apply (fst demo_written) (snd demo_written) demo_proof 7
      (Rb_Get demo_lease demo_inc demo_buf 0 5) 14000 true (fun _ => None)
      = Some (s2, g2, (Bk_Data, r2)) /\
    bf_completed r2 = true /\ bf_data r2 = demo_text.
Proof.
  eapply (put_get_roundtrip (fst demo_allocated) (snd demo_allocated) demo_proof 7 demo_lease
    demo_inc demo_buf 0 demo_text 13000 14000 true (fun _ => None)).
  - rewrite <- surjective_pairing. apply demo_allocated_reachable.
  - done.
  - done.
  - vm_compute. reflexivity.
  - reflexivity.
  - reflexivity.
  - reflexivity.
  - reflexivity.
Defined.

Lemma compute_input_sound_witness :
  exists c data, expire 14000 (abs (fst demo_written)) !! demo_buf = Some c /\
    holds demo_proof 7 c = true /\
    BufferStore.with_compute_input (fst demo_written) demo_proof 7 demo_buf 1 3
      = Some (Some data) /\
    read (ce_bytes c) 1 3 = Some data /\ len data = 3 /\ 3 <= MAX_COMPUTE_INPUT_BYTES.
Proof.
  eapply (compute_input_sound (fst demo_written) (snd demo_written) demo_proof 7 demo_buf 1 3
    14000).
  - rewrite <- surjective_pairing. apply demo_written_reachable.
  - done.
  - done.
  - vm_compute. reflexivity.
Defined.
