(* ===== verification/ComputeStore.v ===== *)
(** * pb-worker-core, compute job store

    Models [crates/pb-worker-core/src/compute.rs]: the C10 single-writer authority
    for jobs, with the idempotence caches of submits and cancels.  Operations that
    end a job thread the resource guard its scratch reservation is released to.

    The BLAKE3 hasher of the [blake3] crate is a parameter; the clock and the
    session-liveness closure that [blake3_digest_bounded] polls are functions of the
    number of the poll. *)

From Stdlib Require Import ZArith Lia.
From stdpp Require Import base tactics list gmap.
From S2P Require Import Prelude Types ResourceWire ComputeWire Lease ResourceGuard BufferStore.

Definition COMPUTE_IDEMPOTENCE_CAPACITY_PER_LEASE : Z := 256.
Definition COMPUTE_TERMINAL_RETENTION_MS : Z := 5 * 60000.
Definition PROVIDER_TIMEOUT_MS : Z := 30000.
Definition HASH_CHUNK_BYTES : Z := 1024 * 1024.

Record InputReference : Type := mkInput {
  in_buffer_id : list byte;
  in_offset : Z;
  in_length : Z;
}.

Record JobRecord : Type := mkJob {
  jb_job_id : list byte;
  jb_owner_peer_id : PeerId;
  jb_controller_lease_id : LeaseId;
  jb_worker_incarnation_id : WorkerIncarnationId;
  jb_session_id : SessionBinding;
  jb_provider_id : Z;
  jb_provider_version : Z;
  jb_input : InputReference;
  jb_scratch_reservation_id : ReservationId;
  jb_scratch_bytes : Z;
  jb_state : ComputeJobState;
  jb_reason : ComputeReason;
  jb_created_mono_ms : Z;
  jb_started_mono_ms : option Z;
  jb_terminal_mono_ms : option Z;
  jb_digest : option (list byte);
  jb_submit_request_id : Z;
  jb_scratch_released : bool;
}.

Definition job_ref (r : JobRecord) : ComputeJobRef :=
  mkComputeJobRef (jb_job_id r) (jb_provider_id r) (jb_provider_version r).

(** [JobRecord::result] *)
Definition job_result (r : JobRecord) : ComputeResponse :=
  Cx_Result {|
    cr_state := jb_state r;
    cr_reason := jb_reason r;
    cr_lease_id := jb_controller_lease_id r;
    cr_worker_incarnation_id := jb_worker_incarnation_id r;
    cr_job := Some (job_ref r);
    cr_digest := jb_digest r |}.

Record SubmitCacheEntry : Type := mkSubmitEntry {
  se_session_id : SessionBinding;
  se_request : ComputeSubmit;
  se_response : ComputeResponse;
  se_terminal_mono_ms : option Z;
}.

Record CancelCacheEntry : Type := mkCancelEntry {
  ca_session_id : SessionBinding;
  ca_request : ComputeJobRequest;
  ca_response : ComputeResponse;
  ca_terminal_mono_ms : Z;
}.

Inductive SubmitLookup : Type :=
| Sl_Vacant
| Sl_Replay (response : ComputeResponse)
| Sl_Conflict
| Sl_Full.

(** ** Responses without a job *)

Definition absent_result (submit : ComputeSubmit) (incarnation : WorkerIncarnationId)
    (reason : ComputeReason) : ComputeResponse :=
  Cx_Result {|
    cr_state := Js_Invalid;
    cr_reason := reason;
    cr_lease_id := cs_lease_id submit;
    cr_worker_incarnation_id := incarnation;
    cr_job := None;
    cr_digest := None |}.

Definition absent_status (request : ComputeJobRequest) (incarnation : WorkerIncarnationId)
    (reason : ComputeReason) : ComputeResponse :=
  Cx_Status {|
    st_state := Js_Invalid;
    st_reason := reason;
    st_lease_id := cj_lease_id request;
    st_worker_incarnation_id := incarnation;
    st_job := None |}.

Definition absent_cancel (request : ComputeJobRequest) (incarnation : WorkerIncarnationId)
    (reason : ComputeReason) : ComputeResponse :=
  Cx_Cancel {|
    st_state := Js_Invalid;
    st_reason := reason;
    st_lease_id := cj_lease_id request;
    st_worker_incarnation_id := incarnation;
    st_job := None |}.

(** ** Bounded hashing *)

Section Blake3.
Context {Hasher : Type} (hasher_new : Hasher) (hasher_update : Hasher -> list byte -> Hasher)
  (hasher_finalize : Hasher -> list byte).

(** The two checks before poll [k]; both closures are called once per check that
    is reached. *)
Definition poll (started_ms : Z) (now_ms : nat -> Z) (session_is_live : nat -> bool) (k : nat) :
    result unit ComputeReason :=
  if negb (session_is_live k) then Err Cr_SessionLost
  else if PROVIDER_TIMEOUT_MS <? sat_sub (now_ms k) started_ms then Err Cr_ProviderTimeout
  else Ok tt.

(** The loop over [input.chunks(HASH_CHUNK_BYTES)], then the last check. *)
Fixpoint hash_chunks (hasher : Hasher) (chunks : list (list byte)) (started_ms : Z)
    (now_ms : nat -> Z) (session_is_live : nat -> bool) (k : nat) :
    result (list byte) ComputeReason :=
  let? _ := poll started_ms now_ms session_is_live k in
  match chunks with
  | [] => Ok (hasher_finalize hasher)
  | chunk :: rest =>
      hash_chunks (hasher_update hasher chunk) rest started_ms now_ms session_is_live (S k)
  end.

(** [slice::chunks]; the fuel is the length of the slice. *)
Fixpoint slice_chunks (fuel : nat) (n : nat) (input : list byte) : list (list byte) :=
  match fuel with
  | O => []
  | S fuel' =>
      match input with
      | [] => []
      | _ :: _ => take n input :: slice_chunks fuel' n (drop n input)
      end
  end.

Definition blake3_digest_bounded (input : list byte) (started_ms : Z) (now_ms : nat -> Z)
    (session_is_live : nat -> bool) : result (list byte) ComputeReason :=
  hash_chunks hasher_new (slice_chunks (length input) (Z.to_nat HASH_CHUNK_BYTES) input)
    started_ms now_ms session_is_live 0.
End Blake3.

Module JobStore.

Record t : Type := mk {
  jobs : gmap (list byte) JobRecord;
  submits : gmap (LeaseId * Z) SubmitCacheEntry;
  cancels : gmap (LeaseId * Z) CancelCacheEntry;
}.
Definition new : t := mk ∅ ∅ ∅.

Definition kept (now_ms : Z) (terminal : option Z) : Prop :=
  match terminal with
  | None => True
  | Some at_ms => sat_sub now_ms at_ms <= COMPUTE_TERMINAL_RETENTION_MS
  end.
#[global] Instance kept_dec now_ms o : Decision (kept now_ms o).
Proof. unfold kept. destruct o; apply _. Defined.

Definition purge (s : t) (now_ms : Z) : t :=
  mk (filter (fun x => kept now_ms (jb_terminal_mono_ms x.2)) (jobs s))
     (filter (fun x => kept now_ms (se_terminal_mono_ms x.2)) (submits s))
     (filter (fun x => kept now_ms (Some (ca_terminal_mono_ms x.2))) (cancels s)).

(** ** Submitting *)

Definition check_submit (s : t) (lease_id : LeaseId) (request_id : Z)
    (session_id : SessionBinding) (request : ComputeSubmit) (now_ms : Z) : t * SubmitLookup :=
  let s := purge s now_ms in
  let key := (lease_id, request_id) in
  let s :=
    match submits s !! key with
    | Some entry => if negb (se_session_id entry =? session_id)
                    then mk (jobs s) (delete key (submits s)) (cancels s) else s
    | None => s
    end in
  match submits s !! key with
  | Some entry =>
      if bool_decide (se_request entry = request) then (s, Sl_Replay (se_response entry))
      else (s, Sl_Conflict)
  | None =>
      if COMPUTE_IDEMPOTENCE_CAPACITY_PER_LEASE
         <=? Z.of_nat (size (filter (fun x => x.1.1 = lease_id) (submits s)))
      then (s, Sl_Full) else (s, Sl_Vacant)
  end.

Definition cache_refusal (s : t) (lease_id : LeaseId) (request_id : Z)
    (session_id : SessionBinding) (request : ComputeSubmit) (response : ComputeResponse)
    (now_ms : Z) : t :=
  mk (jobs s)
     (<[(lease_id, request_id) := mkSubmitEntry session_id request response (Some now_ms)]>
        (submits s)) (cancels s).

(** The loop [for _ in 0..8] of [stage]. *)
Fixpoint draw_job_id (used : gmap (list byte) JobRecord) (entropy : nat -> Entropy)
    (k fuel : nat) : result (list byte) unit :=
  match fuel with
  | O => Err tt
  | S fuel' =>
      match random_nonzero_128 (entropy k) with
      | Err _ => Err tt
      | Ok id =>
          match used !! id with
          | None => Ok id
          | Some _ => draw_job_id used entropy (S k) fuel'
          end
      end
  end.

(** The staged record is [StagedJob]. *)
Definition stage (s : t) (proof : LeaseProof) (session_id : SessionBinding) (request_id : Z)
    (request : ComputeSubmit) (scratch_bytes now_ms : Z) (entropy : nat -> Entropy) :
    result JobRecord unit :=
  match draw_job_id (jobs s) entropy 0 8 with
  | Err _ => Err tt
  | Ok job_id => Ok {|
      jb_job_id := job_id;
      jb_owner_peer_id := pf_peer_id proof;
      jb_controller_lease_id := pf_lease_id proof;
      jb_worker_incarnation_id := pf_incarnation proof;
      jb_session_id := session_id;
      jb_provider_id := cs_provider_id request;
      jb_provider_version := cs_provider_version request;
      jb_input := mkInput (cs_buffer_id request) (cs_input_offset request)
                    (cs_input_length request);
      jb_scratch_reservation_id := cs_reservation_id request;
      jb_scratch_bytes := scratch_bytes;
      jb_state := Js_Accepted;
      jb_reason := Cr_None;
      jb_created_mono_ms := now_ms;
      jb_started_mono_ms := None;
      jb_terminal_mono_ms := None;
      jb_digest := None;
      jb_submit_request_id := request_id;
      jb_scratch_released := false |}
  end.

(** [state], [started_mono_ms] of a record. *)
Definition started (r : JobRecord) (now_ms : Z) : JobRecord :=
  mkJob (jb_job_id r) (jb_owner_peer_id r) (jb_controller_lease_id r)
    (jb_worker_incarnation_id r) (jb_session_id r) (jb_provider_id r) (jb_provider_version r)
    (jb_input r) (jb_scratch_reservation_id r) (jb_scratch_bytes r) Js_Running (jb_reason r)
    (jb_created_mono_ms r) (Some now_ms) (jb_terminal_mono_ms r) (jb_digest r)
    (jb_submit_request_id r) (jb_scratch_released r).

Definition publish_running (s : t) (staged : JobRecord) (request : ComputeSubmit)
    (now_ms : Z) : t * list byte :=
  let record := started staged now_ms in
  let job_id := jb_job_id record in
  let response := Cx_Status {|
    st_state := Js_Running;
    st_reason := Cr_None;
    st_lease_id := jb_controller_lease_id record;
    st_worker_incarnation_id := jb_worker_incarnation_id record;
    st_job := Some (job_ref record) |} in
  (mk (<[job_id := record]> (jobs s))
      (<[(jb_controller_lease_id record, jb_submit_request_id record) :=
          mkSubmitEntry (jb_session_id record) request response None]> (submits s))
      (cancels s), job_id).

(** ** Ending a job *)

Definition owns (r : JobRecord) (proof : LeaseProof) (session_id : SessionBinding) : bool :=
  bool_decide (jb_owner_peer_id r = pf_peer_id proof)
  && bool_decide (jb_controller_lease_id r = pf_lease_id proof)
  && bool_decide (jb_worker_incarnation_id r = pf_incarnation proof)
  && (jb_session_id r =? session_id).

Definition finish_record (r : JobRecord) (guard : Guard.t) (state : ComputeJobState)
    (reason : ComputeReason) (digest : option (list byte)) (now_ms : Z) :
    JobRecord * Guard.t :=
  if job_is_terminal (jb_state r) then (r, guard)
  else
    let guard :=
      if negb (jb_scratch_released r) then
        Guard.release_consumed_compute guard (jb_scratch_reservation_id r) (jb_scratch_bytes r)
          now_ms
      else guard in
    (mkJob (jb_job_id r) (jb_owner_peer_id r) (jb_controller_lease_id r)
       (jb_worker_incarnation_id r) (jb_session_id r) (jb_provider_id r) (jb_provider_version r)
       (jb_input r) (jb_scratch_reservation_id r) (jb_scratch_bytes r) state reason
       (jb_created_mono_ms r) (jb_started_mono_ms r) (Some now_ms) digest
       (jb_submit_request_id r) true, guard).

(** [if let Some(entry) = self.submits.get_mut(..) { .. }] *)
Definition settle_submit (m : gmap (LeaseId * Z) SubmitCacheEntry) (r : JobRecord)
    (now_ms : Z) : gmap (LeaseId * Z) SubmitCacheEntry :=
  alter (fun e => mkSubmitEntry (se_session_id e) (se_request e) (job_result r) (Some now_ms))
    (jb_controller_lease_id r, jb_submit_request_id r) m.

(** [None] is the panic of [expect("published job exists")]. *)
Definition terminalize (s : t) (guard : Guard.t) (job_id : list byte)
    (session_id : SessionBinding) (outcome : result (list byte) ComputeReason) (now_ms : Z) :
    option (t * Guard.t * ComputeResponse) :=
  record ← jobs s !! job_id;
  if job_is_terminal (jb_state record) then Some (s, guard, job_result record)
  else
    let '(record, guard) :=
      if negb (jb_session_id record =? session_id) then
        finish_record record guard Js_Failed Cr_SessionLost None now_ms
      else if PROVIDER_TIMEOUT_MS
              <? sat_sub now_ms (default (jb_created_mono_ms record) (jb_started_mono_ms record))
      then finish_record record guard Js_Failed Cr_ProviderTimeout None now_ms
      else
        match outcome with
        | Ok digest => finish_record record guard Js_Completed Cr_None (Some digest) now_ms
        | Err reason => finish_record record guard Js_Failed reason None now_ms
        end in
    Some (mk (<[job_id := record]> (jobs s)) (settle_submit (submits s) record now_ms)
             (cancels s), guard, job_result record).

(** ** Queries and cancellation *)

Definition status (s : t) (proof : LeaseProof) (session_id : SessionBinding)
    (request : ComputeJobRequest) (now_ms : Z) : t * ComputeResponse :=
  let s := purge s now_ms in
  (s,
   match jobs s !! cj_job_id request with
   | None => absent_status request (pf_incarnation proof) Cr_JobNotFound
   | Some record =>
       if negb (owns record proof session_id) then
         absent_status request (pf_incarnation proof) Cr_JobNotOwned
       else if job_is_terminal (jb_state record) then job_result record
       else Cx_Status {|
         st_state := jb_state record;
         st_reason := Cr_None;
         st_lease_id := cj_lease_id request;
         st_worker_incarnation_id := pf_incarnation proof;
         st_job := Some (job_ref record) |}
   end).

Definition cancel_status (proof : LeaseProof) (request : ComputeJobRequest)
    (state : ComputeJobState) (reason : ComputeReason) (record : JobRecord) : ComputeResponse :=
  Cx_Cancel {|
    st_state := state;
    st_reason := reason;
    st_lease_id := cj_lease_id request;
    st_worker_incarnation_id := pf_incarnation proof;
    st_job := Some (job_ref record) |}.

Definition cancel (s : t) (guard : Guard.t) (proof : LeaseProof) (session_id : SessionBinding)
    (request_id : Z) (request : ComputeJobRequest) (now_ms : Z) :
    t * Guard.t * ComputeResponse :=
  let s := purge s now_ms in
  let key := (pf_lease_id proof, request_id) in
  match cancels s !! key with
  | Some entry =>
      if (ca_session_id entry =? session_id) && bool_decide (ca_request entry = request)
      then (s, guard, ca_response entry)
      else (s, guard, absent_cancel request (pf_incarnation proof) Cr_InternalError)
  | None =>
      let '(s, guard, response) :=
        match jobs s !! cj_job_id request with
        | None => (s, guard, absent_cancel request (pf_incarnation proof) Cr_JobNotFound)
        | Some record =>
            if negb (owns record proof session_id) then
              (s, guard, absent_cancel request (pf_incarnation proof) Cr_JobNotOwned)
            else if job_is_terminal (jb_state record) then
              (s, guard, cancel_status proof request (jb_state record) Cr_JobNotCancellable
                           record)
            else
              let '(record, guard) :=
                finish_record record guard Js_Cancelled Cr_None None now_ms in
              (mk (<[cj_job_id request := record]> (jobs s))
                  (settle_submit (submits s) record now_ms) (cancels s), guard,
               cancel_status proof request Js_Cancelled Cr_None record)
        end in
      (mk (jobs s) (submits s)
          (<[key := mkCancelEntry session_id request response now_ms]> (cancels s)),
       guard, response)
  end.

(** ** Life-cycle events *)

Definition end_job (state : ComputeJobState) (reason : ComputeReason) (now_ms : Z)
    (sg : gmap (list byte) JobRecord * Guard.t) (x : list byte * JobRecord) :
    gmap (list byte) JobRecord * Guard.t :=
  let '(r, guard) := finish_record x.2 (snd sg) state reason None now_ms in
  (<[x.1 := r]> (fst sg), guard).

(** [for record in self.jobs.values_mut() { if P { finish_record } }] *)
Definition sweep (P : JobRecord -> bool) (state : ComputeJobState) (reason : ComputeReason)
    (m : gmap (list byte) JobRecord) (guard : Guard.t) (now_ms : Z) :
    gmap (list byte) JobRecord * Guard.t :=
  foldl (end_job state reason now_ms) (m, guard)
    (map_to_list (filter (fun x => P x.2 = true) m)).

Definition session_lost (s : t) (guard : Guard.t) (session_id : SessionBinding) (now_ms : Z) :
    t * Guard.t :=
  let '(m, guard) :=
    sweep (fun r => (jb_session_id r =? session_id) && negb (job_is_terminal (jb_state r)))
      Js_Failed Cr_SessionLost (jobs s) guard now_ms in
  (mk m (filter (fun x => se_session_id x.2 <> session_id) (submits s))
        (filter (fun x => ca_session_id x.2 <> session_id) (cancels s)), guard).

Definition lease_ended (s : t) (guard : Guard.t) (lease_id : LeaseId) (now_ms : Z) :
    t * Guard.t :=
  let '(m, guard) :=
    sweep (fun r => bool_decide (jb_controller_lease_id r = lease_id)
                    && negb (job_is_terminal (jb_state r)))
      Js_Cancelled Cr_None (jobs s) guard now_ms in
  (mk m (filter (fun x => x.1.1 <> lease_id) (submits s))
        (filter (fun x => x.1.1 <> lease_id) (cancels s)), guard).

Definition job_input (s : t) (job_id : list byte) : option (list byte * Z * Z) :=
  (fun r => (in_buffer_id (jb_input r), in_offset (jb_input r), in_length (jb_input r)))
    <$> jobs s !! job_id.

End JobStore.
