(* ===== verification/WorkerCore.v ===== *)
(** * pb-worker-core, the worker

    Models [WorkerCore] of [crates/pb-worker-core/src/lib.rs]: the composition of
    lease manager, resource guard, buffer store and job store behind the entry
    points that the secure runtime calls.

    What a call reads from its environment is the argument [env]: the clock at
    entry, at each poll of the hasher and at the end of a job, the session-liveness
    polls, entropy, and the outcome of fallible allocations.  [None] is a panic. *)

From Stdlib Require Import ZArith Lia.
From stdpp Require Import base tactics list gmap.
From S2P Require Import Prelude Types Pbmux Codec Control ResourceWire ComputeWire BufferWire.
From S2P Require Import Lease ResourceGuard BufferStore ComputeStore.

(** [VerifiedPeerSession]: the authenticated peer and the session number. *)
Record VerifiedSession : Type := mkVerified {
  vs_peer_id : PeerId;
  vs_session_id : SessionBinding;
}.

Definition from_verified (v : VerifiedSession) : AuthenticatedSession :=
  mkSession (vs_peer_id v).

Record Env : Type := mkEnv {
  ev_now_ms : Z;
  ev_entropy : Entropy;
  ev_draws : nat -> Entropy;
  ev_mem_ok : bool;
  ev_poll_ms : nat -> Z;
  ev_live : nat -> bool;
  ev_finished_ms : Z;
}.

Inductive WorkerState : Type := Ws_ColdStart | Ws_PairingRequired.

Record ResourceRequestCacheEntry : Type := mkResourceEntry {
  rc_request : ResourceRequest;
  rc_kind : ResourceResponseKind;
  rc_result : ResourceResult;
  rc_terminal_at_ms : Z;
}.

(** ** Responses *)

Definition resource_response_kind (request : ResourceRequest) : ResourceResponseKind :=
  match request with
  | Reserve _ _ _ _ => Rk_ReserveAck
  | Commit _ _ _ => Rk_Commit
  | Release _ _ _ => Rk_Release
  end.

(** The reservation part of a result; [None] is the [unreachable!]. *)
Definition snapshot_ref (snapshot : ReservationSnapshot) : option ReservationResultRef :=
  match sn_class snapshot with
  | Rc_Unknown => None
  | class => Some {|
      rf_reservation_id := sn_reservation_id snapshot;
      rf_state := wire_state snapshot;
      rf_resource_class :=
        match class with
        | Rc_RemoteBufferBytes => Wc_RemoteBufferBytes
        | _ => Wc_NativeOpScratchBytes
        end;
      rf_granted_bytes := sn_bytes snapshot;
      rf_ttl_remaining_ms := sn_ttl_remaining_ms snapshot |}
  end.

Definition resource_success (lease_id : list byte) (incarnation : WorkerIncarnationId)
    (snapshot : ReservationSnapshot) : option ResourceResult :=
  r ← snapshot_ref snapshot;
  Some (mkResourceResult Rs_Completed Rr_None lease_id incarnation (Some r)).

Definition resource_failure_with_snapshot (lease_id : list byte)
    (incarnation : WorkerIncarnationId) (reason : ResourceReason)
    (snapshot : option ReservationSnapshot) : option ResourceResult :=
  match snapshot with
  | None => Some (mkResourceResult Rs_Failed reason lease_id incarnation None)
  | Some snapshot =>
      r ← snapshot_ref snapshot;
      Some (mkResourceResult Rs_Failed reason lease_id incarnation (Some r))
  end.

Definition resource_failure (lease_id : list byte) (incarnation : WorkerIncarnationId)
    (reason : ResourceReason) : ResourceResult :=
  mkResourceResult Rs_Failed reason lease_id incarnation None.

Definition remote_buffer_response_kind (request : RemoteBufferRequest) :
    RemoteBufferResponseKind :=
  match request with
  | Rb_Alloc _ _ _ _ _ => Bk_AllocAck
  | Rb_Put _ _ _ _ _ => Bk_Put
  | Rb_Get _ _ _ _ _ => Bk_Data
  | Rb_Free _ _ _ => Bk_Free
  | Rb_Stat _ _ _ => Bk_Stat
  | Rb_Touch _ _ _ => Bk_Touch
  end.

Definition remote_buffer_failure (lease_id : list byte) (incarnation : WorkerIncarnationId)
    (reason : BufferReason) : BufferResult := {|
  bf_completed := false;
  bf_reason := reason;
  bf_lease_id := lease_id;
  bf_worker_incarnation_id := incarnation;
  bf_buffer := None;
  bf_reservation_id := None;
  bf_offset := 0;
  bf_data_len := 0;
  bf_data := [] |}.

Definition compute_request_failure (request : ComputeRequest)
    (incarnation : WorkerIncarnationId) (reason : ComputeReason) : ComputeResponse :=
  match request with
  | Cq_Submit submit => absent_result submit incarnation reason
  | Cq_Status status => absent_status status incarnation reason
  | Cq_Cancel cancel => absent_cancel cancel incarnation reason
  end.

Definition guard_class (c : WireResourceClass) : ResourceClass :=
  match c with
  | Wc_RemoteBufferBytes => Rc_RemoteBufferBytes
  | Wc_NativeOpScratchBytes => Rc_NativeOpScratchBytes
  end.

Module Worker.

Record t : Type := mk {
  incarnation : WorkerIncarnationId;
  state : WorkerState;
  lease_manager : LeaseManager.t;
  resource_guard : Guard.t;
  remote_buffers : BufferStore.t;
  compute_jobs : JobStore.t;
  resource_requests : gmap (LeaseId * Z) ResourceRequestCacheEntry;
}.

Definition with_leases (w : t) (m : LeaseManager.t) : t :=
  mk (incarnation w) (state w) m (resource_guard w) (remote_buffers w) (compute_jobs w)
    (resource_requests w).
Definition with_guard (w : t) (g : Guard.t) : t :=
  mk (incarnation w) (state w) (lease_manager w) g (remote_buffers w) (compute_jobs w)
    (resource_requests w).
Definition with_buffers (w : t) (s : BufferStore.t) (g : Guard.t) : t :=
  mk (incarnation w) (state w) (lease_manager w) g s (compute_jobs w) (resource_requests w).
Definition with_jobs (w : t) (j : JobStore.t) (g : Guard.t) : t :=
  mk (incarnation w) (state w) (lease_manager w) g (remote_buffers w) j (resource_requests w).
Definition with_requests (w : t) (r : gmap (LeaseId * Z) ResourceRequestCacheEntry) : t :=
  mk (incarnation w) (state w) (lease_manager w) (resource_guard w) (remote_buffers w)
    (compute_jobs w) r.

(** [Err] is [WorkerStartError::EntropyUnavailable]. *)
Definition cold_start (entropy : Entropy) : result t unit :=
  match random_nonzero_128 entropy with
  | Err _ => Err tt
  | Ok incarnation =>
      Ok (mk incarnation Ws_PairingRequired (LeaseManager.new incarnation) Guard.new
            BufferStore.new JobStore.new ∅)
  end.

(** ** Life-cycle events *)

(** The two calls that follow the end of a lease. *)
Definition end_lease (w : t) (lease_id : LeaseId) (now_ms : Z) : t :=
  let '(j, g) := JobStore.lease_ended (compute_jobs w) (resource_guard w) lease_id now_ms in
  let w := with_jobs w j g in
  let '(b, g) := BufferStore.lease_ended (remote_buffers w) (resource_guard w) lease_id now_ms in
  with_buffers w b g.

Definition reconcile_expired_controller_lease (w : t) (now_ms : Z) : t :=
  let '(m, expired) := LeaseManager.expire_if_needed (lease_manager w) now_ms in
  let w := with_leases w m in
  match expired with
  | None => w
  | Some lease_id => end_lease w lease_id now_ms
  end.

Definition authenticated_session_ended (w : t) (v : VerifiedSession) (env : Env) : t :=
  let now_ms := ev_now_ms env in
  let '(j, g) :=
    JobStore.session_lost (compute_jobs w) (resource_guard w) (vs_session_id v) now_ms in
  let w := with_jobs w j g in
  let '(b, g) :=
    BufferStore.session_lost (remote_buffers w) (resource_guard w) (vs_session_id v) now_ms in
  with_buffers w b g.

Definition record_local_health (w : t) (sample : HealthSample) (env : Env) :
    t * HealthStatus :=
  let now_ms := ev_now_ms env in
  let w := reconcile_expired_controller_lease w now_ms in
  let sample := mkSample (hs_available_memory_bytes sample) (hs_low_memory sample)
    (hs_thermal sample) (hs_battery_percent sample) (hs_charging sample)
    (hs_power_save sample) now_ms in
  let '(g, status) := Guard.record_health (resource_guard w) sample in
  let g := Guard.tick g now_ms in
  let '(b, g) := BufferStore.tick (remote_buffers w) g now_ms in
  (with_buffers w b g, status).

Definition heartbeat_payload (w : t) (v : VerifiedSession) (env : Env) :
    t * option Heartbeat.Payload :=
  let now_ms := ev_now_ms env in
  let w := reconcile_expired_controller_lease w now_ms in
  let '(m, current) :=
    LeaseManager.current_for_session (lease_manager w) (from_verified v) now_ms in
  let w := with_leases w m in
  (w,
   lease ← current;
   let health := Guard.health_status (resource_guard w) now_ms in
   if negb (hl_fresh health) || bool_decide (hl_thermal health = Th_Unknown) then None
   else Some {|
     Heartbeat.peer_id := zeros 32;
     Heartbeat.worker_incarnation := lr_worker_incarnation_id lease;
     Heartbeat.lease_present := 1;
     Heartbeat.lease_id := lr_lease_id lease;
     Heartbeat.monotonic_ms := now_ms;
     Heartbeat.thermal_status := ThermalBand_as_i32 (hl_thermal health) mod 256;
     Heartbeat.headroom_present := 0;
     Heartbeat.headroom_f32_bits := 0;
     Heartbeat.battery_pct := hl_battery_percent health;
     Heartbeat.charging := u8_of_bool (hl_charging health);
     Heartbeat.power_save := u8_of_bool (hl_power_save health);
     Heartbeat.available_bytes := hl_available_memory_bytes health;
     Heartbeat.safe_budget_bytes := hl_budget_bytes health;
     Heartbeat.reserved_bytes := Guard.allocated_bytes (resource_guard w);
     Heartbeat.queue_depth := 0;
     Heartbeat.provider_count := 0;
     Heartbeat.transport_count := 0 |}).

Definition apply_controller_command (w : t) (v : VerifiedSession) (command : ControllerCommand)
    (env : Env) : t * result ControllerCommandResult ControllerCommandError :=
  let now_ms := ev_now_ms env in
  let w := reconcile_expired_controller_lease w now_ms in
  let released_lease :=
    match command with Cc_Release lease_id _ => Some lease_id | _ => None end in
  let '(m, r) :=
    LeaseManager.apply_controller_command (lease_manager w) (from_verified v) command now_ms
      (ev_entropy env) in
  let w := with_leases w m in
  match r with
  | Err e => (w, Err e)
  | Ok result =>
      match result, released_lease with
      | Cmd_Completed _ None, Some lease_id => (end_lease w lease_id now_ms, Ok result)
      | _, _ => (w, Ok result)
      end
  end.

(** ** Resource requests *)

(** The reason a failed commit reports. *)
Definition commit_reason (snapshot : option ReservationSnapshot) : ResourceReason :=
  match snapshot with
  | None => Rr_ReservationNotFound
  | Some value =>
      match wire_state value with
      | Wr_Expired => Rr_ReservationExpired
      | Wr_Consumed | Wr_ConsumedReleased => Rr_ReservationAlreadyConsumed
      | _ => Rr_ReservationNotCommitted
      end
  end.

(** The arm [ResourceRequest::Reserve]; the flag says whether the result is cached
    (false on the early return). *)
Definition apply_reserve (w : t) (proof : LeaseProof) (session : AuthenticatedSession)
    (lease_id : LeaseId) (request_id : Z) (class : WireResourceClass) (bytes : Z) (env : Env) :
    option (t * ResourceResult * bool) :=
  let now_ms := ev_now_ms env in
  let inc := incarnation w in
  let '(g, m, decision) :=
    Guard.reserve (resource_guard w) (lease_manager w) session lease_id
      (mkReserveRequest request_id (guard_class class) bytes) now_ms (ev_entropy env) in
  let w := with_leases (with_guard w g) m in
  let fail reason := Some (w, resource_failure lease_id inc reason, true) in
  match decision with
  | Rd_Reserved reservation_id =>
      let '(g, snapshot) :=
        Guard.reservation_snapshot (resource_guard w) proof reservation_id now_ms in
      let w := with_guard w g in
      match snapshot with
      | Some snapshot => r ← resource_success lease_id inc snapshot; Some (w, r, true)
      | None => Some (w, resource_failure lease_id inc Rr_InternalError, false)
      end
  | Rd_RefusedSafety =>
      fail (if bool_decide (hl_safety (Guard.health_status (resource_guard w) now_ms)
                              = Sb_RefusedStaleState)
            then Rr_RefusedStaleState else Rr_ResourceExhausted)
  | Rd_RefusedBudget => fail Rr_ResourceExhausted
  | Rd_UnknownResourceClass => fail Rr_UnsupportedMessage
  | Rd_StaleLease => fail Rr_StaleControllerLease
  | Rd_IdempotenceConflict => fail Rr_RequestIdConflict
  | Rd_IdempotenceTableFull => fail Rr_IdempotenceTableFull
  | Rd_EntropyUnavailable => fail Rr_InternalError
  end.

Definition apply_commit (w : t) (proof : LeaseProof) (session : AuthenticatedSession)
    (lease_id : LeaseId) (reservation_id : ReservationId) (env : Env) :
    option (t * ResourceResult * bool) :=
  let now_ms := ev_now_ms env in
  let inc := incarnation w in
  let '(g, m, decision) :=
    Guard.commit (resource_guard w) (lease_manager w) session lease_id reservation_id now_ms in
  let '(g, snapshot) := Guard.reservation_snapshot g proof reservation_id now_ms in
  let w := with_leases (with_guard w g) m in
  r ← match decision with
      | Cd_Committed =>
          match snapshot with
          | Some snapshot => resource_success lease_id inc snapshot
          | None => Some (resource_failure lease_id inc Rr_InternalError)
          end
      | Cd_RefusedSafety =>
          resource_failure_with_snapshot lease_id inc Rr_CommitRefusedSafety snapshot
      | Cd_StaleLease => Some (resource_failure lease_id inc Rr_StaleControllerLease)
      | Cd_UnknownOrExpiredReservation =>
          resource_failure_with_snapshot lease_id inc (commit_reason snapshot) snapshot
      end;
  Some (w, r, true).

Definition apply_release (w : t) (proof : LeaseProof) (session : AuthenticatedSession)
    (lease_id : LeaseId) (reservation_id : ReservationId) (env : Env) :
    option (t * ResourceResult * bool) :=
  let now_ms := ev_now_ms env in
  let inc := incarnation w in
  let '(g, m, decision) :=
    Guard.release (resource_guard w) (lease_manager w) session lease_id reservation_id now_ms in
  let '(g, snapshot) := Guard.reservation_snapshot g proof reservation_id now_ms in
  let w := with_leases (with_guard w g) m in
  let done r := r ← r; Some (w, r, true) in
  match decision with
  | Rl_Released =>
      done (match snapshot with
            | Some snapshot => resource_success lease_id inc snapshot
            | None => Some (resource_failure lease_id inc Rr_InternalError)
            end)
  | Rl_AlreadyTerminal =>
      match snapshot with
      | None => Some (w, resource_failure lease_id inc Rr_ReservationNotFound, false)
      | Some value =>
          done (match wire_state value with
                | Wr_Released => resource_success lease_id inc value
                | Wr_Consumed | Wr_ConsumedReleased =>
                    resource_failure_with_snapshot lease_id inc Rr_ReservationAlreadyConsumed
                      (Some value)
                | Wr_Expired =>
                    resource_failure_with_snapshot lease_id inc Rr_ReservationExpired
                      (Some value)
                | _ =>
                    resource_failure_with_snapshot lease_id inc Rr_ReservationNotCommitted
                      (Some value)
                end)
      end
  | Rl_StaleLease => done (Some (resource_failure lease_id inc Rr_StaleControllerLease))
  | Rl_UnknownReservation => done (Some (resource_failure lease_id inc Rr_ReservationNotFound))
  end.

(** The table [resource_requests] around the three arms. *)
Definition RESOURCE_REQUEST_CAPACITY : Z := 1024.

Definition apply_resource_request (w : t) (v : VerifiedSession) (request_id : Z)
    (request : ResourceRequest) (env : Env) :
    option (t * (ResourceResponseKind * ResourceResult)) :=
  let now_ms := ev_now_ms env in
  let w := reconcile_expired_controller_lease w now_ms in
  let kind := resource_response_kind request in
  let lease_id := rr_lease_id request in
  let session := from_verified v in
  let inc := incarnation w in
  let '(w, proof) :=
    if (request_id =? 0) || negb (bool_decide (rr_worker_incarnation_id request = inc))
    then (w, None)
    else
      let '(m, r) := LeaseManager.validate (lease_manager w) session lease_id now_ms in
      (with_leases w m, match r with Ok proof => Some proof | Err _ => None end) in
  match proof with
  | None => Some (w, (kind, resource_failure lease_id inc Rr_StaleControllerLease))
  | Some proof =>
      let w := with_requests w
        (filter (fun x => x.1.1 = lease_id /\
                          sat_sub now_ms (rc_terminal_at_ms x.2) <= TERMINAL_RETENTION_MS)
           (resource_requests w)) in
      let key := (lease_id, request_id) in
      match resource_requests w !! key with
      | Some entry =>
          if bool_decide (rc_request entry = request)
          then Some (w, (rc_kind entry, rc_result entry))
          else Some (w, (kind, resource_failure lease_id inc Rr_RequestIdConflict))
      | None =>
          if RESOURCE_REQUEST_CAPACITY
             <=? Z.of_nat (size (filter (fun x => x.1.1 = lease_id) (resource_requests w)))
          then Some (w, (kind, resource_failure lease_id inc Rr_IdempotenceTableFull))
          else
            '(w, result, cached) ←
              match request with
              | Reserve _ _ class bytes =>
                  apply_reserve w proof session lease_id request_id class bytes env
              | Commit _ _ reservation_id =>
                  apply_commit w proof session lease_id reservation_id env
              | Release _ _ reservation_id =>
                  apply_release w proof session lease_id reservation_id env
              end;
            Some (if cached : bool
                  then with_requests w
                         (<[key := mkResourceEntry request kind result now_ms]>
                            (resource_requests w))
                  else w, (kind, result))
      end
  end.

(** ** Buffer requests *)

Definition apply_remote_buffer_request (w : t) (v : VerifiedSession)
    (request : RemoteBufferRequest) (env : Env) :
    option (t * (RemoteBufferResponseKind * BufferResult)) :=
  let now_ms := ev_now_ms env in
  let w := reconcile_expired_controller_lease w now_ms in
  let kind := remote_buffer_response_kind request in
  let lease_id := rb_lease_id request in
  if negb (bool_decide (rb_worker_incarnation_id request = incarnation w)) then
    Some (w, (kind, remote_buffer_failure lease_id (incarnation w) Br_BufferWrongIncarnation))
  else
    match LeaseManager.validate (lease_manager w) (from_verified v) lease_id now_ms with
    | (m, Err _) =>
        let w := with_leases w m in
        Some (w, (kind, remote_buffer_failure lease_id (incarnation w) Br_StaleControllerLease))
    | (m, Ok proof) =>
        let w := with_leases w m in
        '(b, g, r) ← BufferStore.apply (remote_buffers w) (resource_guard w) proof
                       (vs_session_id v) request now_ms (ev_mem_ok env) (ev_draws env);
        Some (with_buffers w b g, r)
    end.

(** ** Compute requests *)

Section Compute.
Context {Hasher : Type} (hasher_new : Hasher) (hasher_update : Hasher -> list byte -> Hasher)
  (hasher_finalize : Hasher -> list byte).

Definition cache_compute_refusal (w : t) (lease_id : LeaseId) (session_id : SessionBinding)
    (request_id : Z) (submit : ComputeSubmit) (reason : ComputeReason) (now_ms : Z) :
    t * ComputeResponse :=
  let response := absent_result submit (incarnation w) reason in
  (with_jobs w (JobStore.cache_refusal (compute_jobs w) lease_id request_id session_id submit
                  response now_ms) (resource_guard w), response).

(** The admission checks that come before the reservation is looked at. *)
Definition compute_refusal (w : t) (proof : LeaseProof) (session_id : SessionBinding)
    (submit : ComputeSubmit) (now_ms : Z) : t * option ComputeReason :=
  if negb ((cs_provider_id submit =? BLAKE3_PROVIDER_ID)
           && (cs_provider_version submit =? BLAKE3_PROVIDER_VERSION))
  then (w, Some Cr_UnsupportedProvider)
  else if negb (cs_input_kind submit =? REMOTE_BUFFER_INPUT_KIND) then (w, Some Cr_InvalidInput)
  else if (MAX_COMPUTE_INPUT_BYTES <? cs_input_length submit)
          || negb (is_some (checked_add64 (cs_input_offset submit) (cs_input_length submit)))
  then (w, Some Cr_InputTooLarge)
  else
    let '(b, g, r) :=
      BufferStore.validate_compute_input (remote_buffers w) (resource_guard w) proof session_id
        (cs_buffer_id submit) (cs_input_offset submit) (cs_input_length submit) now_ms in
    (with_buffers w b g, match r with Ok _ => None | Err reason => Some reason end).

(** The bytes of the scratch reservation, when it is fit for a job. *)
Definition scratch_of (snapshot : option ReservationSnapshot) : option Z :=
  match snapshot with
  | Some s =>
      if bool_decide (sn_class s = Rc_NativeOpScratchBytes) && (0 <? sn_bytes s)
         && (sn_bytes s <=? NATIVE_OP_SCRATCH_MAX_BYTES)
         && bool_decide (wire_state s = Wr_Committed)
      then Some (sn_bytes s) else None
  | None => None
  end.

(** From the published job to its result. *)
Definition run_job (w : t) (proof : LeaseProof) (session_id : SessionBinding)
    (job_id : list byte) (env : Env) : option (t * ComputeResponse) :=
  '(buffer_id, offset, length) ← JobStore.job_input (compute_jobs w) job_id;
  input ← BufferStore.with_compute_input (remote_buffers w) proof session_id buffer_id offset
            length;
  let outcome :=
    match input with
    | Some input =>
        blake3_digest_bounded hasher_new hasher_update hasher_finalize input (ev_now_ms env)
          (ev_poll_ms env) (ev_live env)
    | None => Err Cr_InternalError
    end in
  '(j, g, response) ← JobStore.terminalize (compute_jobs w) (resource_guard w) job_id session_id
                        outcome (ev_finished_ms env);
  Some (with_jobs w j g, response).

Definition apply_compute_submit (w : t) (proof : LeaseProof) (session_id : SessionBinding)
    (request_id : Z) (submit : ComputeSubmit) (env : Env) : option (t * ComputeResponse) :=
  let now_ms := ev_now_ms env in
  let '(j, lookup) :=
    JobStore.check_submit (compute_jobs w) (pf_lease_id proof) request_id session_id submit
      now_ms in
  let w := with_jobs w j (resource_guard w) in
  match lookup with
  | Sl_Replay response => Some (w, response)
  | Sl_Conflict => Some (w, absent_result submit (incarnation w) Cr_RequestIdConflict)
  | Sl_Full => Some (w, absent_result submit (incarnation w) Cr_IdempotenceTableFull)
  | Sl_Vacant =>
      let refuse w reason :=
        Some (cache_compute_refusal w (pf_lease_id proof) session_id request_id submit reason
                now_ms) in
      let '(w, refusal) := compute_refusal w proof session_id submit now_ms in
      match refusal with
      | Some reason => refuse w reason
      | None =>
          let '(g, snapshot) :=
            Guard.reservation_snapshot (resource_guard w) proof (cs_reservation_id submit)
              now_ms in
          let w := with_guard w g in
          match scratch_of snapshot with
          | None => refuse w Cr_ReservationInvalid
          | Some scratch_bytes =>
              match JobStore.stage (compute_jobs w) proof session_id request_id submit
                      scratch_bytes now_ms (ev_draws env) with
              | Err _ => refuse w Cr_InternalError
              | Ok staged =>
                  '(g, consumed) ← Guard.consume_for_compute (resource_guard w) proof
                                     (cs_reservation_id submit) now_ms;
                  let w := with_guard w g in
                  match consumed with
                  | Err _ => refuse w Cr_ReservationInvalid
                  | Ok _ =>
                      let '(j, job_id) :=
                        JobStore.publish_running (compute_jobs w) staged submit now_ms in
                      run_job (with_jobs w j (resource_guard w)) proof session_id job_id env
                  end
              end
          end
      end
  end.

Definition apply_compute_request (w : t) (v : VerifiedSession) (request_id : Z)
    (request : ComputeRequest) (env : Env) : option (t * ComputeResponse) :=
  let now_ms := ev_now_ms env in
  let w := reconcile_expired_controller_lease w now_ms in
  if negb (bool_decide (cq_worker_incarnation_id request = incarnation w)) then
    Some (w, compute_request_failure request (incarnation w) Cr_WrongWorkerIncarnation)
  else
    let '(m, r) :=
      LeaseManager.validate (lease_manager w) (from_verified v) (cq_lease_id request) now_ms in
    let w := with_leases w m in
    let stale :=
      Some (w, compute_request_failure request (incarnation w) Cr_StaleControllerLease) in
    match r with
    | Err _ => stale
    | Ok proof =>
        if request_id =? 0 then stale
        else
          match request with
          | Cq_Submit submit =>
              apply_compute_submit w proof (vs_session_id v) request_id submit env
          | Cq_Status status =>
              let '(j, response) :=
                JobStore.status (compute_jobs w) proof (vs_session_id v) status now_ms in
              Some (with_jobs w j (resource_guard w), response)
          | Cq_Cancel cancel =>
              let '(j, g, response) :=
                JobStore.cancel (compute_jobs w) (resource_guard w) proof (vs_session_id v)
                  request_id cancel now_ms in
              Some (with_jobs w j g, response)
          end
    end.
End Compute.

End Worker.
