(* ===== verification/WorkerFacts.v ===== *)
(** * The worker: invariant

    Every entry point of the worker keeps the store and guard invariants, leaves
    no job running and no scratch reservation held, and caches only responses that
    the wire format can carry. *)

From Stdlib Require Import ZArith Lia.
From stdpp Require Import base tactics list gmap relations.
From S2P Require Import Prelude Types Pbmux Codec Control ResourceWire ComputeWire BufferWire.
From S2P Require Import Lease ResourceGuard GuardFacts BufferStore Claims BufferFacts BufferInv.
From S2P Require Import BufferRefine ComputeStore WorkerCore.

(** ** The guard as the buffer store uses it *)

Inductive buffer_guard_step : Guard.t -> Guard.t -> Prop :=
| bg_release g id n now : buffer_guard_step g (Guard.release_consumed_buffer g id n now)
| bg_consume g pf id n now : buffer_guard_step g (fst (Guard.consume_for_buffer g pf id n now))
| bg_snapshot g pf id now : buffer_guard_step g (fst (Guard.reservation_snapshot g pf id now)).

Definition buffer_guard : Guard.t -> Guard.t -> Prop := rtc buffer_guard_step.

Definition scratch_claims (g : Guard.t) : gmap ReservationId Reservation :=
  claims Rc_NativeOpScratchBytes g.

Lemma buffer_guard_claims g g' :
  buffer_guard g g' -> GInv g -> GInv g' /\ scratch_claims g' = scratch_claims g.
Proof.
  induction 1 as [|g1 g2 g3 Hs _ IH]; intros Hg; [done|].
  assert (H2 : GInv g2 /\ scratch_claims g2 = scratch_claims g1).
  { destruct Hs as [g id n now|g pf id n now|g pf id now].
    - split; [by apply release_consumed_inv|]. unfold scratch_claims, Guard.release_consumed_buffer.
      rewrite claims_release_consumed. destruct (claims _ g !! id); [|done].
      rewrite decide_False; [done|]. by intros [].
    - destruct (Guard.consume_for_buffer g pf id n now) as [g' x] eqn:E. split.
      + eapply guard_step_inv; [done|]. by eapply gs_consume_buffer.
      + apply (claims_consume_buffer Rc_NativeOpScratchBytes) in E; [|done]. cbn [fst].
        destruct x; [|done]. by destruct E as (v & _ & _ & _ & _ & _ & E).
    - split; [by apply purge_inv|by apply claims_purge]. }
  destruct H2 as [Hg2 <-]. by apply IH.
Qed.

Lemma terminalize_bg r g st now :
  buffer_guard g (snd (BufferStore.terminalize r g st now)).
Proof.
  unfold BufferStore.terminalize. cbn [snd]. destruct (bu_budget_released r); cbn [negb].
  - apply rtc_refl.
  - apply rtc_once, bg_release.
Qed.

Lemma sweep_bg P st s g now : buffer_guard g (snd (BufferStore.sweep P st s g now)).
Proof.
  unfold BufferStore.sweep. generalize (map_to_list (filter (fun x => P x.2 = true)
    (BufferStore.buffers s))) as l. intros l. revert s g.
  induction l as [|x l IH]; intros s g; [apply rtc_refl|]. cbn [foldl].
  etrans; [apply (terminalize_bg x.2 g st now)|]. apply IH.
Qed.

Lemma expire_bg s g now : buffer_guard g (snd (BufferStore.expire_and_purge s g now)).
Proof.
  unfold BufferStore.expire_and_purge.
  pose proof (sweep_bg (fun r => negb (buffer_is_terminal (bu_state r))
    && (bu_expires_mono_ms r <=? now)) Bs_Evicted s g now) as H.
  by destruct (BufferStore.sweep _ _ _ _ _).
Qed.

Lemma session_lost_bg s g session now :
  buffer_guard g (snd (BufferStore.session_lost s g session now)).
Proof.
  unfold BufferStore.session_lost. pose proof (expire_bg s g now) as H.
  destruct (BufferStore.expire_and_purge s g now) as [s1 g1]. etrans; [exact H|]. apply sweep_bg.
Qed.

Lemma lease_ended_bg s g lease now :
  buffer_guard g (snd (BufferStore.lease_ended s g lease now)).
Proof.
  unfold BufferStore.lease_ended. pose proof (expire_bg s g now) as H.
  destruct (BufferStore.expire_and_purge s g now) as [s1 g1]. etrans; [exact H|]. apply sweep_bg.
Qed.

Lemma authorized_bg s g pf session id now s' g' o :
  BufferStore.authorized_record s g pf session id now = (s', g', o) -> buffer_guard g g'.
Proof.
  unfold BufferStore.authorized_record. destruct (BufferStore.buffers s !! id) as [r|];
    [|intros [= <- <- <-]; apply rtc_refl].
  match goal with |- context [if ?c then _ else _] => destruct c end.
  - pose proof (terminalize_bg r g Bs_Lost now). destruct (BufferStore.terminalize _ _ _ _).
    by intros [= <- <- <-].
  - intros [= <- <- <-]. apply rtc_refl.
Qed.

Lemma alloc_bg s g pf session wire rid size flags now mem_ok e s' g' r :
  BufferStore.alloc s g pf session wire rid size flags now mem_ok e = (s', g', r) ->
  buffer_guard g g'.
Proof.
  unfold BufferStore.alloc. cbv zeta.
  repeat (match goal with |- context [if ?c then (s, g, _) else _] => destruct c end;
    [intros [= <- <- <-]; apply rtc_refl|]).
  pose proof (rtc_once _ _ (bg_snapshot g pf rid now)) as Hs.
  destruct (Guard.reservation_snapshot g pf rid now) as [g1 [sn|]]; cbn [fst] in Hs;
    [|by intros [= <- <- <-]].
  match goal with |- context [if ?c then _ else _] => destruct c end; [by intros [= <- <- <-]|].
  destruct (BufferStore.stage_buffer _ _ _ _) as [st|]; [|by intros [= <- <- <-]].
  pose proof (rtc_once _ _ (bg_consume g1 pf rid size now)) as Hc.
  destruct (Guard.consume_for_buffer _ _ _ _ _) as [g2 [u|]]; cbn [fst] in Hc;
    intros [= <- <- <-]; by etrans.
Qed.

Lemma put_bg s g pf session wire id off data now mem_ok s' g' r :
  BufferStore.put s g pf session wire id off data now mem_ok = Some (s', g', r) ->
  buffer_guard g g'.
Proof.
  unfold BufferStore.put. cbv zeta.
  destruct (BufferStore.authorized_record _ _ _ _ _ _) as [[s1 g1] o] eqn:Ea.
  apply authorized_bg in Ea. destruct o as [r0|]; [|by intros [= <- <- <-]].
  intros H. repeat case_match; simplify_option_eq; done.
Qed.

Lemma get_bg s g pf session wire id off n now mem_ok s' g' r :
  BufferStore.get s g pf session wire id off n now mem_ok = Some (s', g', r) ->
  buffer_guard g g'.
Proof.
  unfold BufferStore.get. cbv zeta.
  destruct (BufferStore.authorized_record _ _ _ _ _ _) as [[s1 g1] o] eqn:Ea.
  apply authorized_bg in Ea. destruct o as [r0|]; [|by intros [= <- <- <-]].
  intros H. repeat case_match; simplify_option_eq; done.
Qed.

Lemma free_bg s g pf session wire id now s' g' r :
  BufferStore.free s g pf session wire id now = (s', g', r) -> buffer_guard g g'.
Proof.
  unfold BufferStore.free. cbv zeta. destruct (BufferStore.buffers s !! id) as [r0|];
    [|intros [= <- <- <-]; apply rtc_refl].
  repeat (match goal with |- context [if ?c then (s, g, _) else _] => destruct c end;
    [intros [= <- <- <-]; apply rtc_refl|]).
  pose proof (terminalize_bg r0 g Bs_Freed now). destruct (BufferStore.terminalize _ _ _ _).
  by intros [= <- <- <-].
Qed.

Lemma apply_bg s g pf session req now mem_ok e s' g' r :
  BufferStore.apply s g pf session req now mem_ok e = Some (s', g', r) -> buffer_guard g g'.
Proof.
  unfold BufferStore.apply. pose proof (expire_bg s g now) as H0.
  destruct (BufferStore.expire_and_purge s g now) as [s1 g1]. cbn [snd] in H0.
  intros H. etrans; [exact H0|]. destruct req.
  - destruct (BufferStore.alloc _ _ _ _ _ _ _ _ _ _ _) as [[s2 g2] r2] eqn:E.
    injection H as <- <- <-. by eapply alloc_bg.
  - destruct (BufferStore.put _ _ _ _ _ _ _ _ _ _) as [[[s2 g2] r2]|] eqn:E; [|done].
    injection H as <- <- <-. by eapply put_bg.
  - destruct (BufferStore.get _ _ _ _ _ _ _ _ _ _) as [[[s2 g2] r2]|] eqn:E; [|done].
    injection H as <- <- <-. by eapply get_bg.
  - destruct (BufferStore.free _ _ _ _ _ _ _) as [[s2 g2] r2] eqn:E.
    injection H as <- <- <-. by eapply free_bg.
  - injection H as <- <- <-. apply rtc_refl.
  - destruct (BufferStore.touch _ _ _ _ _ _) as [s2 r2]. injection H as <- <- <-. apply rtc_refl.
Qed.

Lemma input_bg s g pf session id off n now s' g' x :
  BufferStore.validate_compute_input s g pf session id off n now = (s', g', x) ->
  buffer_guard g g'.
Proof.
  unfold BufferStore.validate_compute_input. pose proof (expire_bg s g now) as H0.
  destruct (BufferStore.expire_and_purge s g now) as [s1 g1]. cbn [snd] in H0.
  destruct (BufferStore.buffers s1 !! id) as [r|]; [|by intros [= <- <- <-]].
  pose proof (terminalize_bg r g1 Bs_Lost now) as Ht.
  destruct (BufferStore.terminalize r g1 Bs_Lost now) as [r' g2]. cbn [snd] in Ht.
  intros H. repeat case_match; simplify_eq; try done; by etrans.
Qed.
