(* ===== verification/WorkerInv.v ===== *)
(** * The worker: every entry point keeps its invariant *)

From Stdlib Require Import ZArith Lia.
From stdpp Require Import base tactics list gmap relations.
From S2P Require Import Prelude Types Pbmux Codec Control ResourceWire ComputeWire BufferWire.
From S2P Require Import Lease ResourceGuard GuardFacts BufferStore Claims BufferFacts BufferInv.
From S2P Require Import BufferRefine ComputeStore WorkerCore WorkerFacts.

(** The response passes the checks of its encoder. *)
Definition response_ok (r : ComputeResponse) : Prop :=
  match r with
  | Cx_Status s => validate_status s false = Ok tt
  | Cx_Result r => validate_compute_result r = Ok tt
  | Cx_Cancel s => validate_status s true = Ok tt
  end.

Definition job_ok (r : JobRecord) : Prop :=
  job_is_terminal (jb_state r) = true /\ response_ok (job_result r).

Record WInv (w : Worker.t) : Prop := {
  wi_incarnation : nonzero (Worker.incarnation w) = true;
  wi_leases : LeaseManager.incarnation (Worker.lease_manager w) = Worker.incarnation w;
  wi_buffers : BInv (Worker.remote_buffers w) (Worker.resource_guard w);
  wi_scratch : scratch_claims (Worker.resource_guard w) = ∅;
  wi_jobs k r : JobStore.jobs (Worker.compute_jobs w) !! k = Some r -> job_ok r;
  wi_submits k e : JobStore.submits (Worker.compute_jobs w) !! k = Some e ->
    response_ok (se_response e);
  wi_cancels k e : JobStore.cancels (Worker.compute_jobs w) !! k = Some e ->
    response_ok (ca_response e);
}.

(** ** Frame lemmas *)

Lemma random_nonzero source id : random_nonzero_128 source = Ok id -> nonzero id = true.
Proof.
  destruct source as [reads|]; [|done]. unfold random_nonzero_128. generalize 0%nat as k.
  induction MAX_ZERO_RETRIES as [|n IH]; intros k; cbn; [done|].
  destruct (reads k) as [b|]; [|done]. destruct (nonzero b) eqn:E; [|apply IH].
  by intros [= <-].
Qed.

Lemma winv_cold_start e w : Worker.cold_start e = Ok w -> WInv w.
Proof.
  unfold Worker.cold_start. destruct (random_nonzero_128 e) as [id|] eqn:E; [|done].
  intros [= <-]. constructor; try done. by eapply random_nonzero.
Qed.

Lemma winv_leases w m :
  WInv w -> LeaseManager.incarnation m = LeaseManager.incarnation (Worker.lease_manager w) ->
  WInv (Worker.with_leases w m).
Proof. intros [] Hm. constructor; try done. cbn. congruence. Qed.

(** A guard step that keeps the claims of both stores. *)
Lemma winv_guard w g :
  WInv w -> GInv g -> (forall c, claims c g = claims c (Worker.resource_guard w)) ->
  WInv (Worker.with_guard w g).
Proof.
  intros [] Hg Hc. constructor; try done; cbn.
  - eapply binv_guard; [done|done|apply Hc].
  - unfold scratch_claims in *. by rewrite Hc.
Qed.

Lemma winv_buffers w b g :
  WInv w -> BInv b g -> buffer_guard (Worker.resource_guard w) g ->
  WInv (Worker.with_buffers w b g).
Proof.
  intros [] Hb Hg. constructor; try done. cbn.
  destruct (buffer_guard_claims _ _ Hg) as [_ ->]; [by apply wi_buffers0|done].
Qed.

Lemma winv_requests w r : WInv w -> WInv (Worker.with_requests w r).
Proof. intros []. by constructor. Qed.

Lemma winv_jobs w j :
  WInv w ->
  (forall k r, JobStore.jobs j !! k = Some r -> job_ok r) ->
  (forall k e, JobStore.submits j !! k = Some e -> response_ok (se_response e)) ->
  (forall k e, JobStore.cancels j !! k = Some e -> response_ok (ca_response e)) ->
  WInv (Worker.with_jobs w j (Worker.resource_guard w)).
Proof. intros [] H1 H2 H3. by constructor. Qed.

(** ** The lease manager *)

Lemma expire_incarnation m now :
  LeaseManager.incarnation (fst (LeaseManager.expire_if_needed m now)) = LeaseManager.incarnation m.
Proof. unfold LeaseManager.expire_if_needed. by destruct (is_some _). Qed.

Lemma validate_incarnation m session lease now m' r :
  LeaseManager.validate m session lease now = (m', r) ->
  LeaseManager.incarnation m' = LeaseManager.incarnation m /\
  forall pf, r = Ok pf -> pf_lease_id pf = lease /\ pf_peer_id pf = session_peer_id session /\
    pf_incarnation pf = LeaseManager.incarnation m.
Proof.
  unfold LeaseManager.validate. cbv zeta. pose proof (expire_incarnation m now) as He.
  destruct (LeaseManager.active _) as [a|]; [|by intros [= <- <-]].
  match goal with |- context [if ?c then _ else _] => destruct c eqn:G end;
    [by intros [= <- <-]|].
  intros [= <- <-]. split; [done|]. intros pf [= <-]. cbn. bool_hyps. split_and!; congruence.
Qed.

Lemma begin_incarnation m session lease seq now m' r :
  LeaseManager.begin_mutation_internal m session lease seq now = (m', r) ->
  LeaseManager.incarnation m' = LeaseManager.incarnation m.
Proof.
  unfold LeaseManager.begin_mutation_internal.
  destruct (LeaseManager.validate _ _ _ _) as [m1 x] eqn:Ev.
  apply validate_incarnation in Ev as [Ev _]. intros H.
  repeat case_match; simplify_eq; done.
Qed.

Lemma command_incarnation m session c now e m' r :
  LeaseManager.apply_controller_command m session c now e = (m', r) ->
  LeaseManager.incarnation m' = LeaseManager.incarnation m.
Proof.
  destruct c as [|lease seq|lease seq|seq]; cbn [LeaseManager.apply_controller_command].
  - unfold LeaseManager.apply_acquire. cbv zeta. rewrite <- (expire_incarnation m now).
    intros H. repeat case_match; simplify_eq; done.
  - unfold LeaseManager.apply_renew. cbv zeta. rewrite <- (expire_incarnation m now).
    destruct (LeaseManager.validate _ _ _ _) as [m1 x] eqn:Ev.
    apply validate_incarnation in Ev as [<- _]. destruct x; [|by intros [= <- <-]].
    destruct (LeaseManager.begin_mutation_internal _ _ _ _ _) as [m2 adm] eqn:Eb.
    apply begin_incarnation in Eb as <-. intros H. repeat case_match; simplify_eq; done.
  - unfold LeaseManager.apply_release. cbv zeta. rewrite <- (expire_incarnation m now).
    destruct (LeaseManager.validate _ _ _ _) as [m1 x] eqn:Ev.
    apply validate_incarnation in Ev as [<- _]. destruct x; [|by intros [= <- <-]].
    destruct (LeaseManager.begin_mutation_internal _ _ _ _ _) as [m2 adm] eqn:Eb.
    apply begin_incarnation in Eb as <-. intros H. repeat case_match; simplify_eq; done.
  - by intros [= <- <-].
Qed.

(** ** Jobs are quiet between calls *)

Lemma sweep_quiet P st reason m g now :
  (forall k r, m !! k = Some r -> P r = false) ->
  JobStore.sweep P st reason m g now = (m, g).
Proof.
  intros H. unfold JobStore.sweep.
  assert (E : filter (fun x : list byte * JobRecord => P x.2 = true) m = ∅).
  { apply map_empty. intros k. apply map_lookup_filter_None_2. right. intros r Hr. cbn.
    by rewrite (H k r Hr). }
  by rewrite E, map_to_list_empty.
Qed.

Lemma filter_ok {K V} `{Countable K} (m : gmap K V) (P : K * V -> Prop)
    `{!forall x, Decision (P x)} (Q : V -> Prop) :
  (forall k v, m !! k = Some v -> Q v) -> forall k v, filter P m !! k = Some v -> Q v.
Proof. intros Hm k v [Hv _]%map_lookup_filter_Some. by eapply Hm. Qed.

Lemma session_lost_quiet w session now :
  WInv w ->
  exists j, JobStore.session_lost (Worker.compute_jobs w) (Worker.resource_guard w) session now
      = (j, Worker.resource_guard w) /\
    WInv (Worker.with_jobs w j (Worker.resource_guard w)).
Proof.
  intros Hw. unfold JobStore.session_lost. rewrite sweep_quiet.
  - eexists. split; [reflexivity|]. apply winv_jobs; cbn; [done|apply Hw| |].
    + apply (filter_ok _ _ (fun e => response_ok (se_response e))), Hw.
    + apply (filter_ok _ _ (fun e => response_ok (ca_response e))), Hw.
  - intros k r Hr. destruct (wi_jobs w Hw k r Hr) as [-> _]. by rewrite andb_false_r.
Qed.

Lemma lease_ended_quiet w lease now :
  WInv w ->
  exists j, JobStore.lease_ended (Worker.compute_jobs w) (Worker.resource_guard w) lease now
      = (j, Worker.resource_guard w) /\
    WInv (Worker.with_jobs w j (Worker.resource_guard w)).
Proof.
  intros Hw. unfold JobStore.lease_ended. rewrite sweep_quiet.
  - eexists. split; [reflexivity|]. apply winv_jobs; cbn; [done|apply Hw| |].
    + apply (filter_ok _ _ (fun e => response_ok (se_response e))), Hw.
    + apply (filter_ok _ _ (fun e => response_ok (ca_response e))), Hw.
  - intros k r Hr. destruct (wi_jobs w Hw k r Hr) as [-> _]. by rewrite andb_false_r.
Qed.

(** ** Life-cycle events *)

Lemma end_lease_inv w lease now : WInv w -> WInv (Worker.end_lease w lease now).
Proof.
  intros Hw. unfold Worker.end_lease. destruct (lease_ended_quiet w lease now Hw) as (j & -> & Hj).
  set (w1 := Worker.with_jobs w j (Worker.resource_guard w)) in *.
  destruct (lease_ended_spec (Worker.remote_buffers w1) (Worker.resource_guard w1) lease now)
    as [Hb _]; [apply Hj|].
  pose proof (lease_ended_bg (Worker.remote_buffers w1) (Worker.resource_guard w1) lease now) as Hg.
  destruct (BufferStore.lease_ended _ _ _ _) as [b g]. by apply winv_buffers.
Qed.

Lemma reconcile_inv w now : WInv w -> WInv (Worker.reconcile_expired_controller_lease w now).
Proof.
  intros Hw. unfold Worker.reconcile_expired_controller_lease.
  pose proof (expire_incarnation (Worker.lease_manager w) now) as He.
  destruct (LeaseManager.expire_if_needed _ _) as [m [lease|]]; cbn [fst] in He;
    [apply end_lease_inv|]; by apply winv_leases.
Qed.

Lemma reconcile_incarnation w now :
  Worker.incarnation (Worker.reconcile_expired_controller_lease w now) = Worker.incarnation w.
Proof.
  unfold Worker.reconcile_expired_controller_lease, Worker.end_lease.
  destruct (LeaseManager.expire_if_needed _ _) as [m [lease|]]; [|done].
  destruct (JobStore.lease_ended _ _ _ _). by destruct (BufferStore.lease_ended _ _ _ _).
Qed.

Lemma session_ended_inv w v env : WInv w -> WInv (Worker.authenticated_session_ended w v env).
Proof.
  intros Hw. unfold Worker.authenticated_session_ended. cbv zeta.
  destruct (session_lost_quiet w (vs_session_id v) (ev_now_ms env) Hw) as (j & -> & Hj).
  set (w1 := Worker.with_jobs w j (Worker.resource_guard w)) in *.
  destruct (session_lost_spec (Worker.remote_buffers w1) (Worker.resource_guard w1)
    (vs_session_id v) (ev_now_ms env)) as [Hb _]; [apply Hj|].
  pose proof (session_lost_bg (Worker.remote_buffers w1) (Worker.resource_guard w1)
    (vs_session_id v) (ev_now_ms env)) as Hg.
  destruct (BufferStore.session_lost _ _ _ _) as [b g]. by apply winv_buffers.
Qed.

Lemma health_inv w sample env : WInv w -> WInv (fst (Worker.record_local_health w sample env)).
Proof.
  intros Hw. unfold Worker.record_local_health. cbv zeta.
  pose proof (reconcile_inv w (ev_now_ms env) Hw) as Hr.
  set (w1 := Worker.reconcile_expired_controller_lease w (ev_now_ms env)) in *. clearbody w1.
  destruct (Guard.record_health _ _) as [g st] eqn:Eh.
  assert (Hg : GInv g /\ forall c, claims c g = claims c (Worker.resource_guard w1)).
  { injection Eh as <- _. split; [|done]. apply ginv_fields, Hr. }
  destruct Hg as [Hg Hc].
  pose proof (winv_guard w1 (Guard.tick g (ev_now_ms env)) Hr (tick_inv g (ev_now_ms env) Hg)
    ltac:(intros c; rewrite claims_tick; [apply Hc|done])) as H2.
  set (w2 := Worker.with_guard w1 _) in *.
  change (Worker.remote_buffers w1) with (Worker.remote_buffers w2).
  change (Guard.tick g (ev_now_ms env)) with (Worker.resource_guard w2).
  destruct (expire_spec (Worker.remote_buffers w2) (Worker.resource_guard w2) (ev_now_ms env))
    as [Hb _]; [apply H2|].
  pose proof (expire_bg (Worker.remote_buffers w2) (Worker.resource_guard w2) (ev_now_ms env)) as Hbg.
  unfold BufferStore.tick. destruct (BufferStore.expire_and_purge _ _ _) as [b g2].
  exact (winv_buffers w2 b g2 H2 Hb Hbg).
Qed.

Lemma heartbeat_inv w v env : WInv w -> WInv (fst (Worker.heartbeat_payload w v env)).
Proof.
  intros Hw. unfold Worker.heartbeat_payload. cbv zeta.
  pose proof (reconcile_inv w (ev_now_ms env) Hw) as Hr.
  set (w1 := Worker.reconcile_expired_controller_lease w (ev_now_ms env)) in *. clearbody w1.
  destruct (LeaseManager.current_for_session _ _ _) as [m c] eqn:E. cbn [fst].
  apply winv_leases; [done|]. unfold LeaseManager.current_for_session in E. cbv zeta in E.
  injection E as <- _. apply expire_incarnation.
Qed.

Lemma command_inv w v c env : WInv w -> WInv (fst (Worker.apply_controller_command w v c env)).
Proof.
  intros Hw. unfold Worker.apply_controller_command. cbv zeta.
  pose proof (reconcile_inv w (ev_now_ms env) Hw) as Hr.
  set (w1 := Worker.reconcile_expired_controller_lease w (ev_now_ms env)) in *. clearbody w1.
  destruct (LeaseManager.apply_controller_command _ _ _ _ _) as [m r] eqn:E.
  apply command_incarnation in E. pose proof (winv_leases w1 m Hr E) as H1.
  repeat case_match; cbn [fst]; try done; by apply end_lease_inv.
Qed.

(** ** Resource requests *)

Lemma reserve_leases g m session lease rq now e g' m' d :
  Guard.reserve g m session lease rq now e = (g', m', d) ->
  m' = fst (LeaseManager.validate m session lease now).
Proof.
  unfold Guard.reserve. destruct (LeaseManager.validate _ _ _ _) as [m1 x]. cbn [fst].
  intros H. repeat case_match; by simplify_eq.
Qed.
Lemma commit_leases g m session lease id now g' m' d :
  Guard.commit g m session lease id now = (g', m', d) ->
  m' = fst (LeaseManager.validate m session lease now).
Proof.
  unfold Guard.commit. destruct (LeaseManager.validate _ _ _ _) as [m1 x]. cbn [fst].
  intros H. repeat case_match; by simplify_eq.
Qed.
Lemma release_leases g m session lease id now g' m' d :
  Guard.release g m session lease id now = (g', m', d) ->
  m' = fst (LeaseManager.validate m session lease now).
Proof.
  unfold Guard.release. destruct (LeaseManager.validate _ _ _ _) as [m1 x]. cbn [fst].
  intros H. repeat case_match; by simplify_eq.
Qed.

Lemma snapshot_ref_total g pf id now g' sn :
  GInv g -> Guard.reservation_snapshot g pf id now = (g', Some sn) -> is_Some (snapshot_ref sn).
Proof.
  intros Hg H. unfold Guard.reservation_snapshot in H. cbv zeta in H.
  pose proof (purge_inv g now (pf_lease_id pf) (pf_incarnation pf) Hg) as Hp.
  set (g1 := Guard.expire_and_purge _ _ _ _) in *.
  destruct (Guard.reservations g1 !! id) as [r|] eqn:Er; [|done].
  match type of H with (_, if ?c then _ else _) = _ => destruct c end; [done|].
  injection H as _ <-. unfold snapshot_ref. cbn.
  pose proof (gi_bytes g1 Hp id r Er) as Hb. destruct (rv_class r); try done. cbn in Hb. lia.
Qed.

Lemma resource_success_total lease inc sn :
  is_Some (snapshot_ref sn) -> is_Some (resource_success lease inc sn).
Proof. intros [r Hr]. unfold resource_success. by rewrite Hr. Qed.
Lemma resource_failure_total lease inc reason sn :
  (forall s, sn = Some s -> is_Some (snapshot_ref s)) ->
  is_Some (resource_failure_with_snapshot lease inc reason sn).
Proof. intros H. destruct sn as [s|]; [|done]. cbn. by destruct (H s eq_refl) as [r ->]. Qed.

(** A guard operation that keeps the claims, followed by a validation. *)
Lemma winv_guard_op w g session lease now :
  WInv w -> GInv g -> (forall c, claims c g = claims c (Worker.resource_guard w)) ->
  WInv (Worker.with_leases (Worker.with_guard w g)
    (fst (LeaseManager.validate (Worker.lease_manager w) session lease now))).
Proof.
  intros Hw Hg Hc. apply winv_leases; [by apply winv_guard|]. cbn.
  destruct (LeaseManager.validate _ _ _ _) as [m x] eqn:E.
  by apply validate_incarnation in E as [E _].
Qed.

Lemma snapshot_inv g pf id now g' o :
  GInv g -> Guard.reservation_snapshot g pf id now = (g', o) ->
  GInv g' /\ (forall c, claims c g' = claims c g) /\
  forall sn, o = Some sn -> is_Some (snapshot_ref sn).
Proof.
  intros Hg H. split_and!.
  - injection H as <- _. by apply purge_inv.
  - intros c. injection H as <- _. by apply claims_purge.
  - intros sn ->. by eapply snapshot_ref_total.
Qed.

Lemma apply_reserve_inv w pf session lease rid class bytes env :
  WInv w -> fresh_id (Worker.resource_guard w) (ev_entropy env) -> 0 <= bytes ->
  exists w' r b, Worker.apply_reserve w pf session lease rid class bytes env = Some (w', r, b) /\
    WInv w'.
Proof.
  intros Hw Hf Hb. unfold Worker.apply_reserve. cbv zeta.
  pose proof (bi_guard _ _ (wi_buffers w Hw)) as Hg.
  destruct (Guard.reserve _ _ _ _ _ _ _) as [[g m] d] eqn:E.
  assert (HI : GInv g) by (eapply reserve_inv; [exact Hg|exact Hf| |exact E]; exact Hb).
  assert (HC : forall c, claims c g = claims c (Worker.resource_guard w))
    by (intros c; by eapply claims_reserve).
  apply reserve_leases in E as ->.
  pose proof (winv_guard_op w g session lease (ev_now_ms env) Hw HI HC) as H1.
  set (w1 := Worker.with_leases _ _) in *.
  destruct d as [id| | | | | | |]; try (by eexists _, _, _).
  destruct (Guard.reservation_snapshot _ _ _ _) as [g2 o] eqn:Es.
  apply snapshot_inv in Es as (HI2 & HC2 & Hsn); [|done].
  pose proof (winv_guard w1 g2 H1 HI2 HC2) as H2.
  destruct o as [sn|]; [|by eexists _, _, _].
  destruct (resource_success_total lease (Worker.incarnation w) sn (Hsn sn eq_refl)) as [r ->].
  by eexists _, _, _.
Qed.

(** A commit or release, then the snapshot of the reservation. *)
Lemma guard_then_snapshot w pf session lease id now g g2 o :
  WInv w -> GInv g -> (forall c, claims c g = claims c (Worker.resource_guard w)) ->
  Guard.reservation_snapshot g pf id now = (g2, o) ->
  WInv (Worker.with_leases (Worker.with_guard w g2)
    (fst (LeaseManager.validate (Worker.lease_manager w) session lease now))) /\
  forall sn, o = Some sn -> is_Some (snapshot_ref sn).
Proof.
  intros Hw HI HC Es. apply snapshot_inv in Es as (HI2 & HC2 & Hsn); [|done].
  split; [|done]. apply winv_guard_op; [done|done|]. intros c. by rewrite HC2.
Qed.

Lemma apply_commit_inv w pf session lease id env :
  WInv w ->
  exists w' r b, Worker.apply_commit w pf session lease id env = Some (w', r, b) /\ WInv w'.
Proof.
  intros Hw. unfold Worker.apply_commit. cbv zeta.
  pose proof (bi_guard _ _ (wi_buffers w Hw)) as Hg.
  destruct (Guard.commit _ _ _ _ _ _) as [[g m] d] eqn:E.
  assert (HI : GInv g) by (eapply commit_inv; [exact Hg|exact E]).
  assert (HC : forall c, claims c g = claims c (Worker.resource_guard w))
    by (intros c; by eapply claims_commit).
  apply commit_leases in E as ->.
  destruct (Guard.reservation_snapshot _ _ _ _) as [g2 o] eqn:Es.
  destruct (guard_then_snapshot w pf session lease id _ g g2 o Hw HI HC Es) as [H1 Hsn].
  match goal with |- context [mbind ?f ?x] => assert (Hx : is_Some x) end.
  { destruct d; try done; try (by apply resource_failure_total).
    destruct o as [sn|]; [|done]. apply resource_success_total. by apply Hsn. }
  destruct Hx as [r ->]. by eexists _, _, _.
Qed.

Lemma apply_release_inv w pf session lease id env :
  WInv w ->
  exists w' r b, Worker.apply_release w pf session lease id env = Some (w', r, b) /\ WInv w'.
Proof.
  intros Hw. unfold Worker.apply_release. cbv zeta.
  pose proof (bi_guard _ _ (wi_buffers w Hw)) as Hg.
  destruct (Guard.release _ _ _ _ _ _) as [[g m] d] eqn:E.
  assert (HI : GInv g) by (eapply release_inv; [exact Hg|exact E]).
  assert (HC : forall c, claims c g = claims c (Worker.resource_guard w))
    by (intros c; by eapply claims_release).
  apply release_leases in E as ->.
  destruct (Guard.reservation_snapshot _ _ _ _) as [g2 o] eqn:Es.
  destruct (guard_then_snapshot w pf session lease id _ g g2 o Hw HI HC Es) as [H1 Hsn].
  set (w1 := Worker.with_leases _ _) in *.
  assert (Hdone : forall x : option ResourceResult, is_Some x ->
    exists w' r b, (r ← x; Some (w1, r, true)) = Some (w', r, b) /\ WInv w').
  { intros x [r ->]. by eexists _, _, _. }
  destruct d; try (by eexists _, _, _); try (by apply Hdone).
  - apply Hdone. destruct o as [sn|]; [|done]. apply resource_success_total. by apply Hsn.
  - destruct o as [sn|]; [|by eexists _, _, _]. apply Hdone.
    assert (is_Some (snapshot_ref sn)) by (by apply Hsn).
    destruct (wire_state sn); try (by apply resource_success_total);
      by apply resource_failure_total; intros ? [= <-].
Qed.

Lemma resource_inv w v rid req env :
  WInv w ->
  fresh_id (Worker.resource_guard (Worker.reconcile_expired_controller_lease w (ev_now_ms env)))
    (ev_entropy env) ->
  (forall l i c n, req = Reserve l i c n -> 0 <= n) ->
  exists w' kr, Worker.apply_resource_request w v rid req env = Some (w', kr) /\ WInv w'.
Proof.
  intros Hw Hf Hn. unfold Worker.apply_resource_request. cbv zeta.
  pose proof (reconcile_inv w (ev_now_ms env) Hw) as Hr.
  set (w1 := Worker.reconcile_expired_controller_lease w (ev_now_ms env)) in *. clearbody w1.
  match goal with |- context [if ?c then (w1, None) else _] => destruct c end;
    [by eexists _, _|].
  destruct (LeaseManager.validate _ _ _ _) as [m x] eqn:Ev.
  apply validate_incarnation in Ev as [Ev _]. pose proof (winv_leases w1 m Hr Ev) as H2.
  destruct x as [pf|]; [|by eexists _, _].
  set (w2 := Worker.with_requests _ _). assert (H3 : WInv w2) by (by apply winv_requests).
  assert (Hf2 : fresh_id (Worker.resource_guard w2) (ev_entropy env)) by done.
  clearbody w2. destruct (Worker.resource_requests w2 !! _) as [e|].
  { case_bool_decide; by eexists _, _. }
  match goal with |- context [if ?c then _ else _] => destruct c end; [by eexists _, _|].
  assert (Harm : exists w' r b, match req with
      | Reserve _ _ class bytes => Worker.apply_reserve w2 pf (from_verified v) (rr_lease_id req)
          rid class bytes env
      | Commit _ _ id => Worker.apply_commit w2 pf (from_verified v) (rr_lease_id req) id env
      | Release _ _ id => Worker.apply_release w2 pf (from_verified v) (rr_lease_id req) id env
      end = Some (w', r, b) /\ WInv w').
  { destruct req as [l i c n| |].
    - apply apply_reserve_inv; [done|done|by eapply Hn].
    - by apply apply_commit_inv.
    - by apply apply_release_inv. }
  destruct Harm as (w' & r & b & -> & H4). cbn [mbind option_bind].
  eexists _, _. split; [reflexivity|]. destruct b; [by apply winv_requests|done].
Qed.

(** ** Buffer requests *)

Lemma buffer_inv w v req env :
  WInv w -> typed req ->
  exists w' kr, Worker.apply_remote_buffer_request w v req env = Some (w', kr) /\ WInv w'.
Proof.
  intros Hw Ht. unfold Worker.apply_remote_buffer_request. cbv zeta.
  pose proof (reconcile_inv w (ev_now_ms env) Hw) as Hr.
  set (w1 := Worker.reconcile_expired_controller_lease w (ev_now_ms env)) in *. clearbody w1.
  match goal with |- context [if ?c then _ else _] => destruct c end; [by eexists _, _|].
  destruct (LeaseManager.validate _ _ _ _) as [m x] eqn:Ev.
  apply validate_incarnation in Ev as [Ev _]. pose proof (winv_leases w1 m Hr Ev) as H2.
  destruct x as [pf|]; [|by eexists _, _].
  set (w2 := Worker.with_leases w1 m) in *.
  destruct (apply_refines (Worker.remote_buffers w2) (Worker.resource_guard w2) pf
    (vs_session_id v) req (ev_now_ms env) (ev_mem_ok env) (ev_draws env))
    as (b & g & k & r & gr & E & Hb & _); [apply H2|done|].
  rewrite E. cbn [mbind option_bind]. eexists _, _. split; [reflexivity|].
  apply winv_buffers; [done|done|]. by eapply apply_bg.
Qed.
