(* ===== verification/WorkerCompute.v ===== *)
(** * The worker: compute requests

    A submit runs its job to the end inside the call: the scratch reservation is
    consumed and released, the digest is that of the validated buffer range, and
    every response can be encoded. *)

From Stdlib Require Import ZArith Lia.
From stdpp Require Import base tactics list gmap relations.
From S2P Require Import Prelude Types Pbmux Codec Control ResourceWire ComputeWire BufferWire.
From S2P Require Import Lease ResourceGuard GuardFacts BufferStore Claims BufferFacts BufferInv.
From S2P Require Import BufferRefine BufferSystem ComputeStore WorkerCore WorkerFacts WorkerInv.

Import Content BufferSpec.

(** ** Responses that can be encoded *)

Lemma absent_result_ok submit inc reason :
  nonzero (cs_lease_id submit) = true -> nonzero inc = true ->
  valid_admission_reason reason = true -> response_ok (absent_result submit inc reason).
Proof.
  intros H1 H2 H3. unfold response_ok, absent_result, validate_compute_result.
  cbn -[nonzero valid_admission_reason]. by rewrite H1, H2, H3.
Qed.

Lemma absent_status_ok req inc reason :
  nonzero (cj_lease_id req) = true -> nonzero inc = true ->
  valid_absent_lookup_reason reason = true -> response_ok (absent_status req inc reason).
Proof.
  intros H1 H2 H3. unfold response_ok, absent_status, validate_status.
  cbn -[nonzero valid_absent_lookup_reason]. by rewrite H1, H2, H3.
Qed.

Lemma absent_cancel_ok req inc reason :
  nonzero (cj_lease_id req) = true -> nonzero inc = true ->
  valid_absent_lookup_reason reason = true -> response_ok (absent_cancel req inc reason).
Proof.
  intros H1 H2 H3. unfold response_ok, absent_cancel, validate_status.
  cbn -[nonzero valid_absent_lookup_reason]. by rewrite H1, H2, H3.
Qed.

Lemma job_ok_ref r : job_ok r -> nonzero (jb_job_id r) = true /\ provider_is_blake3 (job_ref r) = true.
Proof.
  intros [_ H]. unfold response_ok, job_result, validate_compute_result in H.
  cbn -[nonzero provider_is_blake3] in H.
  destruct (nonzero (jb_job_id r)), (provider_is_blake3 (job_ref r)); cbn in H; try done;
    by destruct (_ || _).
Qed.

Lemma input_reason s g pf session id off n now s' g' reason :
  BufferStore.validate_compute_input s g pf session id off n now = (s', g', Err reason) ->
  valid_admission_reason reason = true.
Proof.
  unfold BufferStore.validate_compute_input.
  destruct (BufferStore.expire_and_purge s g now) as [s1 g1]. intros H.
  repeat (case_match; simplify_eq; try done).
Qed.

(** ** Hashing *)

Section Hash.
Context {Hasher : Type} (hasher_new : Hasher) (hasher_update : Hasher -> list byte -> Hasher)
  (hasher_finalize : Hasher -> list byte).

Lemma slice_chunks_concat n fuel input :
  (0 < n)%nat -> (length input <= fuel)%nat -> concat (slice_chunks fuel n input) = input.
Proof.
  intros Hn. revert input. induction fuel as [|fuel IH]; intros input Hf.
  - destruct input; [done|cbn in Hf; lia].
  - destruct input as [|b input]; [done|]. cbn [slice_chunks concat].
    rewrite IH; [by rewrite take_drop|]. rewrite length_drop. lia.
Qed.

Lemma hash_chunks_ok chunks h started now_ms live k d :
  hash_chunks hasher_update hasher_finalize h chunks started now_ms live k = Ok d ->
  d = hasher_finalize (foldl hasher_update h chunks).
Proof.
  revert h k. induction chunks as [|c chunks IH]; intros h k H; cbn [hash_chunks] in H;
    destruct (poll _ _ _ _); try done; [by injection H as <-|]. by apply IH in H.
Qed.

Lemma hash_chunks_reason chunks h started now_ms live k reason :
  hash_chunks hasher_update hasher_finalize h chunks started now_ms live k = Err reason ->
  reason = Cr_SessionLost \/ reason = Cr_ProviderTimeout.
Proof.
  revert h k. induction chunks as [|c chunks IH]; intros h k H; cbn [hash_chunks] in H;
    (destruct (poll _ _ _ _) as [u|e] eqn:E; [|injection H as <-; unfold poll in E;
      repeat case_match; simplify_eq; auto]); [done|]. by apply IH in H.
Qed.

(** Polls that all pass. *)
Lemma hash_chunks_live chunks h started now_ms live k :
  (forall i, live i = true) -> (forall i, sat_sub (now_ms i) started <= PROVIDER_TIMEOUT_MS) ->
  hash_chunks hasher_update hasher_finalize h chunks started now_ms live k =
    Ok (hasher_finalize (foldl hasher_update h chunks)).
Proof.
  intros Hl Ht. revert h k. induction chunks as [|c chunks IH]; intros h k; cbn [hash_chunks];
    unfold poll; rewrite Hl, (proj2 (Z.ltb_ge _ _) (Ht k)); cbn [negb]; [done|]. apply IH.
Qed.
End Hash.

(** ** From the snapshot to the consumed reservation *)

Lemma snapshot_consume g pf id now g1 sn g2 b :
  Guard.reservation_snapshot g pf id now = (g1, Some sn) ->
  Guard.consume_for_compute g1 pf id now = Some (g2, Ok b) -> b = sn_bytes sn.
Proof.
  intros Hs Hc. unfold Guard.reservation_snapshot in Hs. cbv zeta in Hs.
  set (g0 := Guard.expire_and_purge _ _ _ _) in *. apply pair_equal_spec in Hs as [<- Hs].
  destruct (Guard.reservations g0 !! id) as [r|] eqn:Er; [|done].
  match type of Hs with (if ?c then _ else _) = _ => destruct c end; [done|].
  injection Hs as <-. unfold Guard.consume_for_compute in Hc.
  destruct (Guard.consume _ _ _ _ _ _) as [g3 [u|]] eqn:Ec; [|by injection Hc as _ ?].
  apply consume_res in Ec. cbv zeta in Ec.
  destruct Ec as [[_ Hx]|(v & Hv & Hst & _ & _ & _ & _ & Hm)]; [by destruct u, Hx|].
  apply purge_active in Hv; [|by rewrite Hst]. rewrite Er in Hv. injection Hv as <-.
  rewrite Hm, lookup_insert_eq in Hc. by injection Hc as _ <-.
Qed.

Lemma stage_spec s pf session rid submit n now e r :
  JobStore.stage s pf session rid submit n now e = Ok r ->
  nonzero (jb_job_id r) = true /\ JobStore.jobs s !! jb_job_id r = None /\
  r = mkJob (jb_job_id r) (pf_peer_id pf) (pf_lease_id pf) (pf_incarnation pf) session
    (cs_provider_id submit) (cs_provider_version submit)
    (mkInput (cs_buffer_id submit) (cs_input_offset submit) (cs_input_length submit))
    (cs_reservation_id submit) n Js_Accepted Cr_None now None None None rid false.
Proof.
  unfold JobStore.stage. destruct (JobStore.draw_job_id _ _ _ _) as [id|] eqn:E; [|done].
  intros [= <-]. cbn. assert (H : nonzero id = true /\ JobStore.jobs s !! id = None); [|tauto].
  revert E. generalize 0%nat as k, 8%nat as fuel. intros k fuel. revert k.
  induction fuel as [|fuel IH]; intros k; cbn; [done|].
  destruct (random_nonzero_128 (e k)) as [id'|] eqn:Er; [|done].
  destruct (JobStore.jobs s !! id') eqn:El; [apply IH|].
  intros [= <-]. split; [by eapply random_nonzero|done].
Qed.

(** ** Running a job *)

(** The final states a job can reach inside a submit. *)
Definition final_ok (state : ComputeJobState) (reason : ComputeReason)
    (digest : option (list byte)) : Prop :=
  (state = Js_Completed /\ reason = Cr_None /\ is_Some digest) \/
  (state = Js_Failed /\ digest = None /\
   (reason = Cr_SessionLost \/ reason = Cr_ProviderTimeout \/ reason = Cr_InternalError)).

(** A record ended in such a state is well formed. *)
Lemma final_job_ok r g state reason digest now :
  job_is_terminal (jb_state r) = false -> final_ok state reason digest ->
  nonzero (jb_controller_lease_id r) = true -> nonzero (jb_worker_incarnation_id r) = true ->
  nonzero (jb_job_id r) = true -> provider_is_blake3 (job_ref r) = true ->
  let r' := fst (JobStore.finish_record r g state reason digest now) in
  job_ok r' /\ jb_state r' = state /\ jb_digest r' = digest.
Proof.
  intros Hnt Hf H1 H2 H3 H4. cbv zeta. unfold JobStore.finish_record. rewrite Hnt. cbn [fst].
  split; [|done]. unfold job_ok, response_ok, job_result, validate_compute_result.
  cbn -[nonzero provider_is_blake3].
  change (provider_is_blake3 (job_ref _)) with (provider_is_blake3 (job_ref r)).
  rewrite H1, H2, H3, H4.
  destruct Hf as [(-> & -> & [d ->])|(-> & -> & [->|[->| ->]])]; done.
Qed.

(** Ending the only job that holds scratch memory leaves none held. *)
Lemma finish_claims r g state reason digest now v :
  GInv g -> job_is_terminal (jb_state r) = false -> jb_scratch_released r = false ->
  scratch_claims g = {[jb_scratch_reservation_id r := v]} -> rv_bytes v = jb_scratch_bytes r ->
  let g' := snd (JobStore.finish_record r g state reason digest now) in
  GInv g' /\ scratch_claims g' = ∅ /\ buffer_claims g' = buffer_claims g.
Proof.
  intros Hg Hnt Hrel Hs Hb. cbv zeta. unfold JobStore.finish_record. rewrite Hnt, Hrel.
  cbn [snd negb]. unfold Guard.release_consumed_compute. split_and!.
  - by apply release_consumed_inv.
  - unfold scratch_claims in *. rewrite claims_release_consumed, Hs, lookup_singleton_eq.
    rewrite decide_True by done. by rewrite delete_singleton_eq.
  - unfold buffer_claims, scratch_claims in *. rewrite claims_release_consumed, Hs,
      lookup_singleton_eq, decide_False; [done|]. by intros [].
Qed.

(** The worker after the last step of a submit. *)
Lemma winv_settle w j g r id now :
  WInv w -> GInv g -> scratch_claims g = ∅ ->
  buffer_claims g = buffer_claims (Worker.resource_guard w) -> job_ok r ->
  (forall k x, JobStore.jobs j !! k = Some x -> k = id \/ job_ok x) ->
  (forall k e, JobStore.submits j !! k = Some e ->
    k = (jb_controller_lease_id r, jb_submit_request_id r) \/ response_ok (se_response e)) ->
  JobStore.cancels j = JobStore.cancels (Worker.compute_jobs w) ->
  forall w0, Worker.incarnation w0 = Worker.incarnation w ->
  Worker.lease_manager w0 = Worker.lease_manager w ->
  Worker.remote_buffers w0 = Worker.remote_buffers w ->
  WInv (Worker.with_jobs w0
    (JobStore.mk (<[id := r]> (JobStore.jobs j)) (JobStore.settle_submit (JobStore.submits j) r now)
       (JobStore.cancels j)) g).
Proof.
  intros Hw Hg Hs Hc Hr Hj He Hcc w0 E1 E2 E3. constructor; cbn; rewrite ?E1, ?E2, ?E3.
  - apply Hw.
  - apply Hw.
  - eapply binv_guard; [apply Hw|done|done].
  - done.
  - intros k x. rewrite lookup_insert_Some. intros [[<- <-]|[Hne Hx]]; [done|].
    apply Hj in Hx as [->|?]; done.
  - intros k e. unfold JobStore.settle_submit. rewrite lookup_alter_Some.
    intros [(<- & e' & Hx & ->)|[Hne Hx]]; [apply Hr|]. apply He in Hx as [->|?]; done.
  - rewrite Hcc. apply Hw.
Qed.

(** Outcomes of the hasher and of a missing input. *)
Definition outcome_ok (outcome : result (list byte) ComputeReason) : Prop :=
  forall reason, outcome = Err reason ->
    reason = Cr_SessionLost \/ reason = Cr_ProviderTimeout \/ reason = Cr_InternalError.

(** [terminalize] ends a running job of the session in one of the final states. *)
Lemma terminalize_running s g id r outcome now :
  JobStore.jobs s !! id = Some r -> job_is_terminal (jb_state r) = false -> outcome_ok outcome ->
  exists state reason digest, final_ok state reason digest /\
    (state = Js_Completed -> exists d, outcome = Ok d /\ digest = Some d) /\
    let f := JobStore.finish_record r g state reason digest now in
    JobStore.terminalize s g id (jb_session_id r) outcome now =
      Some (JobStore.mk (<[id := fst f]> (JobStore.jobs s))
              (JobStore.settle_submit (JobStore.submits s) (fst f) now) (JobStore.cancels s),
            snd f, job_result (fst f)).
Proof.
  intros Hr Hnt Ho. unfold JobStore.terminalize. rewrite Hr. cbn [mbind option_bind].
  rewrite Hnt, Z.eqb_refl. cbn [negb]. cbv zeta.
  destruct (PROVIDER_TIMEOUT_MS <? _).
  { exists Js_Failed, Cr_ProviderTimeout, None. split_and!; [right; tauto|done|].
    by destruct (JobStore.finish_record _ _ _ _ _ _). }
  destruct outcome as [d|reason].
  - exists Js_Completed, Cr_None, (Some d). split_and!; [left; by split_and!|eauto|].
    by destruct (JobStore.finish_record _ _ _ _ _ _).
  - exists Js_Failed, reason, None. split_and!; [right|done|].
    + split_and!; [done|done|by apply Ho].
    + by destruct (JobStore.finish_record _ _ _ _ _ _).
Qed.

Section Submit.
Context {Hasher : Type} (hasher_new : Hasher) (hasher_update : Hasher -> list byte -> Hasher)
  (hasher_finalize : Hasher -> list byte).

Lemma run_published w g v pf session staged submit inp env :
  WInv w -> GInv g -> buffer_claims g = buffer_claims (Worker.resource_guard w) ->
  scratch_claims g = {[jb_scratch_reservation_id staged := v]} ->
  rv_bytes v = jb_scratch_bytes staged -> jb_scratch_released staged = false ->
  nonzero (jb_controller_lease_id staged) = true ->
  nonzero (jb_worker_incarnation_id staged) = true ->
  nonzero (jb_job_id staged) = true -> provider_is_blake3 (job_ref staged) = true ->
  jb_session_id staged = session ->
  BufferStore.with_compute_input (Worker.remote_buffers w) pf session
    (in_buffer_id (jb_input staged)) (in_offset (jb_input staged)) (in_length (jb_input staged))
    = Some inp ->
  let p := JobStore.publish_running (Worker.compute_jobs w) staged submit (ev_now_ms env) in
  exists w' resp,
    Worker.run_job hasher_new hasher_update hasher_finalize
      (Worker.with_jobs (Worker.with_guard w g) (fst p) g) pf session (snd p) env
      = Some (w', resp) /\
    WInv w' /\ response_ok resp /\
    (forall res, resp = Cx_Result res -> cr_state res = Js_Completed ->
      exists data d, inp = Some data /\ cr_digest res = Some d /\
        blake3_digest_bounded hasher_new hasher_update hasher_finalize data (ev_now_ms env)
          (ev_poll_ms env) (ev_live env) = Ok d).
Proof.
  intros Hw Hg Hbc Hsc Hb Hrel Hl Hi Hj Hp <- Hinp. cbv zeta.
  unfold JobStore.publish_running. cbv zeta. cbn [fst snd].
  set (r0 := JobStore.started staged (ev_now_ms env)).
  unfold Worker.run_job, JobStore.job_input.
  cbn [Worker.compute_jobs Worker.with_jobs JobStore.jobs Worker.remote_buffers Worker.with_guard].
  rewrite lookup_insert_eq. cbn [fmap option_fmap option_map mbind option_bind].
  change (jb_input r0) with (jb_input staged). rewrite Hinp. cbn [mbind option_bind].
  set (outcome := match inp with Some _ => _ | None => _ end).
  assert (Hout : outcome_ok outcome).
  { intros reason Eo. unfold outcome in Eo. destruct inp as [data|].
    - apply hash_chunks_reason in Eo. tauto.
    - injection Eo as <-. tauto. }
  cbn [Worker.resource_guard JobStore.jobs Worker.with_jobs].
  match goal with |- context [JobStore.terminalize ?j g ?i ?x outcome ?t] =>
    change (JobStore.terminalize j g i x outcome t) with
      (JobStore.terminalize j g i (jb_session_id r0) outcome t);
    destruct (terminalize_running j g i r0 outcome t) as (state & reason & digest & Hf & Ho & HX);
    [apply lookup_insert_eq|done|done|] end.
  cbv zeta in HX. rewrite HX.
  cbn [mbind option_bind].
  destruct (final_job_ok r0 g state reason digest (ev_finished_ms env)) as (Hok & Hst & Hd);
    try done.
  destruct (finish_claims r0 g state reason digest (ev_finished_ms env) v) as (Hg' & Hs' & Hb');
    try done.
  set (r' := fst (JobStore.finish_record r0 g state reason digest (ev_finished_ms env))) in *.
  set (g' := snd (JobStore.finish_record r0 g state reason digest (ev_finished_ms env))) in *.
  eexists _, _. split; [reflexivity|]. split; [|split].
  - apply (winv_settle w (fst (JobStore.publish_running (Worker.compute_jobs w) staged submit
      (ev_now_ms env))) g' r' (jb_job_id staged) (ev_finished_ms env)); try done.
    + by rewrite Hb'.
    + intros k x. cbn. rewrite lookup_insert_Some. intros [[<- _]|[_ Hx]]; [by left|].
      right. by eapply wi_jobs.
    + intros k e. cbn. rewrite lookup_insert_Some. intros [[<- _]|[_ Hx]]; [by left|].
      right. by eapply wi_submits.
  - apply Hok.
  - intros res [= <-] Hc. change (jb_state r' = Js_Completed) in Hc. rewrite Hst in Hc.
    destruct (Ho Hc) as (d & Ho' & ->). unfold outcome in Ho'. destruct inp as [data|]; [|done].
    exists data, d. split_and!; [done|exact Hd|exact Ho'].
Qed.
End Submit.

(** ** Submitting *)

Lemma check_submit_spec w lease rid session submit now j lk :
  WInv w -> JobStore.check_submit (Worker.compute_jobs w) lease rid session submit now = (j, lk) ->
  WInv (Worker.with_jobs w j (Worker.resource_guard w)) /\
  (forall r, lk = Sl_Replay r -> response_ok r) /\
  (JobStore.submits (Worker.compute_jobs w) !! (lease, rid) = None -> forall r, lk <> Sl_Replay r).
Proof.
  intros Hw. unfold JobStore.check_submit. cbv zeta.
  set (j0 := JobStore.purge (Worker.compute_jobs w) now).
  assert (Hp : WInv (Worker.with_jobs w j0 (Worker.resource_guard w))).
  { apply winv_jobs; cbn; [done|..].
    - apply (filter_ok _ _ job_ok), Hw.
    - apply (filter_ok _ _ (fun e => response_ok (se_response e))), Hw.
    - apply (filter_ok _ _ (fun e => response_ok (ca_response e))), Hw. }
  assert (Hnone : JobStore.submits (Worker.compute_jobs w) !! (lease, rid) = None ->
    JobStore.submits j0 !! (lease, rid) = None).
  { intros H. cbn. apply map_lookup_filter_None_2. by left. }
  set (j1 := match JobStore.submits j0 !! (lease, rid) with Some _ => _ | None => _ end).
  assert (H1 : WInv (Worker.with_jobs w j1 (Worker.resource_guard w)) /\
    (JobStore.submits j0 !! (lease, rid) = None -> JobStore.submits j1 !! (lease, rid) = None)).
  { unfold j1. destruct (JobStore.submits j0 !! (lease, rid)) as [e|] eqn:Ee;
      [|by rewrite Ee]. split; [|done]. destruct (negb _); [|done].
    apply winv_jobs; cbn; [done|apply Hp| |apply Hp].
    intros k x [_ Hx]%lookup_delete_Some. by apply (wi_submits _ Hp k). }
  clearbody j1. destruct H1 as [H1 H2]. destruct (JobStore.submits j1 !! (lease, rid)) as [e|] eqn:Ee.
  - case_bool_decide; intros [= <- <-]; (split_and!; [done| |]).
    + intros r [= <-]. by apply (wi_submits _ H1 (lease, rid)).
    + intros Hn. specialize (H2 (Hnone Hn)). congruence.
    + done.
    + done.
  - case_match; intros [= <- <-]; by split_and!.
Qed.

Lemma refuse_inv w lease session rid submit reason now :
  WInv w -> nonzero (cs_lease_id submit) = true -> valid_admission_reason reason = true ->
  let '(w', r) := Worker.cache_compute_refusal w lease session rid submit reason now in
  WInv w' /\ response_ok r /\ r = absent_result submit (Worker.incarnation w) reason.
Proof.
  intros Hw Hl Hv. cbn. pose proof (absent_result_ok submit (Worker.incarnation w) reason Hl
    (wi_incarnation w Hw) Hv) as Hok. split_and!; [|done|done].
  apply winv_jobs; cbn; [done|apply Hw| |apply Hw].
  intros k e. rewrite lookup_insert_Some. intros [[_ <-]|[_ He]]; [done|].
  by apply (wi_submits w Hw k).
Qed.

Lemma refusal_spec w pf session submit now w' o :
  WInv w -> Worker.compute_refusal w pf session submit now = (w', o) ->
  WInv w' /\ Worker.incarnation w' = Worker.incarnation w /\
  match o with
  | Some reason => valid_admission_reason reason = true
  | None => provider_is_blake3 (mkComputeJobRef [] (cs_provider_id submit)
      (cs_provider_version submit)) = true /\
      exists c, abs (Worker.remote_buffers w') = expire now (abs (Worker.remote_buffers w)) /\
        abs (Worker.remote_buffers w') !! cs_buffer_id submit = Some c /\
        holds pf session c = true /\ complete (ce_bytes c) = true /\
        cs_input_offset submit + cs_input_length submit <= size_of c
  end.
Proof.
  intros Hw. unfold Worker.compute_refusal.
  destruct (negb _) eqn:Ep; [by intros [= <- <-]|]. apply negb_false_iff in Ep.
  destruct (negb (cs_input_kind submit =? _)); [by intros [= <- <-]|].
  match goal with |- context [if ?c then _ else _] => destruct c end; [by intros [= <- <-]|].
  destruct (BufferStore.validate_compute_input _ _ _ _ _ _ _ _) as [[b g] x] eqn:Ev.
  pose proof (input_bg _ _ _ _ _ _ _ _ _ _ _ Ev) as Hbg.
  destruct (compute_input_spec _ _ _ _ _ _ _ _ _ _ _ (wi_buffers w Hw) Ev) as [Hb Hx].
  intros [= <- <-]. split; [by apply winv_buffers|]. split; [done|].
  destruct x as [[]|reason]; [|by eapply input_reason]. split; [done|].
  destruct (Hx eq_refl) as (c & ? & ? & ? & ? & ? & _). eauto 10.
Qed.

Section SubmitInv.
Context {Hasher : Type} (hasher_new : Hasher) (hasher_update : Hasher -> list byte -> Hasher)
  (hasher_finalize : Hasher -> list byte).

(** What a completed job answers: the digest of the validated range. *)
Definition digest_of (m : gmap (list byte) cell) (pf : LeaseProof) (session : SessionBinding)
    (submit : ComputeSubmit) (env : Env) (resp : ComputeResponse) : Prop :=
  forall res, resp = Cx_Result res -> cr_state res = Js_Completed ->
    exists c data d, expire (ev_now_ms env) m !! cs_buffer_id submit = Some c /\
      holds pf session c = true /\
      read (ce_bytes c) (Z.to_nat (cs_input_offset submit)) (Z.to_nat (cs_input_length submit))
        = Some data /\
      cr_digest res = Some d /\
      blake3_digest_bounded hasher_new hasher_update hasher_finalize data (ev_now_ms env)
        (ev_poll_ms env) (ev_live env) = Ok d.

Lemma absent_digest m pf session submit env inc reason :
  digest_of m pf session submit env (absent_result submit inc reason).
Proof. intros res [= <-]. done. Qed.

(** The outcome of a submit: no panic, the invariant, an encodable response, and
    for a new request the digest of the validated range. *)
Definition submit_good (w : Worker.t) (pf : LeaseProof) (session : SessionBinding) (rid : Z)
    (submit : ComputeSubmit) (env : Env) (x : option (Worker.t * ComputeResponse)) : Prop :=
  exists w' resp, x = Some (w', resp) /\ WInv w' /\ response_ok resp /\
    (JobStore.submits (Worker.compute_jobs w) !! (pf_lease_id pf, rid) = None ->
     digest_of (abs (Worker.remote_buffers w)) pf session submit env resp).

Lemma refuse_good w pf session rid submit env w2 reason :
  nonzero (cs_lease_id submit) = true -> WInv w2 -> valid_admission_reason reason = true ->
  submit_good w pf session rid submit env
    (Some (Worker.cache_compute_refusal w2 (pf_lease_id pf) session rid submit reason
             (ev_now_ms env))).
Proof.
  intros Hl H2 Hv.
  pose proof (refuse_inv w2 (pf_lease_id pf) session rid submit reason (ev_now_ms env) H2 Hl Hv)
    as Hr. destruct (Worker.cache_compute_refusal _ _ _ _ _ _ _) as [w' r].
  destruct Hr as (? & ? & ->). eexists _, _. split; [reflexivity|]. split_and!; try done.
  intros _. apply absent_digest.
Qed.

(** From the consumed reservation to the answer. *)
Lemma run_good w w3 g2 b pf session rid submit staged sn c env :
  WInv w3 -> nonzero (cs_lease_id submit) = true -> pf_lease_id pf = cs_lease_id submit ->
  pf_incarnation pf = Worker.incarnation w3 ->
  0 <= cs_input_offset submit -> 0 <= cs_input_length submit ->
  provider_is_blake3 (mkComputeJobRef [] (cs_provider_id submit)
    (cs_provider_version submit)) = true ->
  abs (Worker.remote_buffers w3) = expire (ev_now_ms env) (abs (Worker.remote_buffers w)) ->
  abs (Worker.remote_buffers w3) !! cs_buffer_id submit = Some c ->
  holds pf session c = true -> complete (ce_bytes c) = true ->
  cs_input_offset submit + cs_input_length submit <= size_of c ->
  JobStore.stage (Worker.compute_jobs w3) pf session rid submit (sn_bytes sn) (ev_now_ms env)
    (ev_draws env) = Ok staged ->
  Guard.consume_for_compute (Worker.resource_guard w3) pf (cs_reservation_id submit)
    (ev_now_ms env) = Some (g2, Ok b) -> b = sn_bytes sn ->
  let p := JobStore.publish_running (Worker.compute_jobs w3) staged submit (ev_now_ms env) in
  submit_good w pf session rid submit env
    (Worker.run_job hasher_new hasher_update hasher_finalize
       (Worker.with_jobs (Worker.with_guard w3 g2) (fst p) g2) pf session (snd p) env).
Proof.
  intros H3 Hl Hpl Hpi Hoff Hlen Hprov Habs Hc Hh Hcomp Hle Est Econ Hbn p.
  pose proof (bi_guard _ _ (wi_buffers w3 H3)) as Hg.
  destruct (stage_spec _ _ _ _ _ _ _ _ _ Est) as (Hjid & _ & Hstaged).
  assert (Hg2 : GInv g2) by (eapply guard_step_inv; [exact Hg|]; by eapply gs_consume_compute).
  pose proof (claims_consume_compute Rc_NativeOpScratchBytes _ _ _ _ _ _ Hg Econ) as
    (v & Hv & Hvb & _ & Hcl).
  pose proof (claims_consume_compute Rc_RemoteBufferBytes _ _ _ _ _ _ Hg Econ) as
    (v' & _ & _ & _ & Hcb).
  rewrite decide_True in Hcl by done. rewrite decide_False in Hcb by done.
  destruct (compute_slice (Worker.remote_buffers w3) (Worker.resource_guard w3) pf session
    (cs_buffer_id submit) (cs_input_offset submit) (cs_input_length submit) c)
    as (data & Hinp & Hread & _); try done; [apply H3|].
  destruct (run_published hasher_new hasher_update hasher_finalize w3 g2 v pf session staged
    submit (Some data) env) as (w' & resp & Hrun & Hw' & Hok & Hdig); try done;
    try (by rewrite Hstaged); try (rewrite Hstaged; cbn -[nonzero]; congruence).
  - rewrite Hstaged. cbn. unfold scratch_claims. rewrite Hcl.
    pose proof (wi_scratch w3 H3) as Hempty. unfold scratch_claims in Hempty.
    by rewrite Hempty, insert_empty.
  - rewrite Hstaged. cbn -[nonzero]. rewrite Hpi. apply H3.
  - exists w', resp. split; [exact Hrun|]. split_and!; [done|done|].
    intros _ res Hres Hst. destruct (Hdig res Hres Hst) as (data' & d & [= <-] & Hd & Hb3).
    rewrite Habs in Hc. exists c, data, d. split_and!; done.
Qed.

Lemma submit_inv w pf session rid submit env :
  WInv w -> nonzero (cs_lease_id submit) = true -> pf_lease_id pf = cs_lease_id submit ->
  pf_incarnation pf = Worker.incarnation w ->
  0 <= cs_input_offset submit -> 0 <= cs_input_length submit ->
  submit_good w pf session rid submit env
    (Worker.apply_compute_submit hasher_new hasher_update hasher_finalize w pf session rid submit
       env).
Proof.
  intros Hw Hl Hpl Hpi Hoff Hlen. unfold Worker.apply_compute_submit. cbv zeta.
  destruct (JobStore.check_submit _ _ _ _ _ _) as [j lk] eqn:Ec.
  destruct (check_submit_spec w _ _ _ _ _ j lk Hw Ec) as (H1 & Hrep & Hno).
  set (w1 := Worker.with_jobs w j (Worker.resource_guard w)) in *.
  assert (Hinc1 : nonzero (Worker.incarnation w1) = true) by apply H1.
  destruct lk as [|resp| |].
  2:{ eexists _, _. split; [reflexivity|]. split; [done|]. split; [by apply Hrep|].
      intros H. by destruct (Hno H resp). }
  2-3: (eexists _, _; split; [reflexivity|]; split; [done|];
        split; [by apply absent_result_ok|intros _; apply absent_digest]).
  destruct (Worker.compute_refusal w1 pf session submit (ev_now_ms env)) as [w2 o] eqn:Er.
  destruct (refusal_spec w1 pf session submit _ w2 o H1 Er) as (H2 & Hinc2 & Ho).
  destruct o as [reason|]; [by apply refuse_good|].
  destruct Ho as (Hprov & c & Habs & Hc & Hh & Hcomp & Hle).
  destruct (Guard.reservation_snapshot _ _ _ _) as [g o] eqn:Es.
  destruct (snapshot_inv _ _ _ _ _ _ (bi_guard _ _ (wi_buffers w2 H2)) Es) as (Hg & HC & _).
  pose proof (winv_guard w2 g H2 Hg HC) as H3. set (w3 := Worker.with_guard w2 g) in *.
  destruct (Worker.scratch_of o) as [n|] eqn:Esc; [|by apply refuse_good].
  destruct o as [sn|]; [|done].
  assert (n = sn_bytes sn) as -> by (unfold Worker.scratch_of in Esc; case_match; congruence).
  destruct (JobStore.stage _ _ _ _ _ _ _ _) as [staged|] eqn:Est; [|by apply refuse_good].
  destruct (Guard.consume_for_compute _ _ _ _) as [[g2 x]|] eqn:Econ;
    [|by destruct (consume_for_compute_total (Worker.resource_guard w3) pf
        (cs_reservation_id submit) (ev_now_ms env)) as [? ?]; congruence].
  cbn [mbind option_bind]. destruct x as [b|e].
  - eapply (run_good w w3); try done; [by rewrite Hpi; symmetry; exact Hinc2|].
    by eapply snapshot_consume.
  - apply refuse_good; [done| |done]. apply winv_guard; [done| |].
    + eapply guard_step_inv; [exact Hg|]. by eapply gs_consume_compute.
    + intros k. by apply (claims_consume_compute k) in Econ.
Qed.
End SubmitInv.
