(* ===== verification/WorkerSystem.v ===== *)
(** * The worker as a transition system

    Any sequence of calls of the worker's entry points: it never panics, stays
    within its budgets, answers compute requests with encodable responses and
    completed jobs with the digest of the buffer bytes. *)

From Stdlib Require Import ZArith Lia.
From stdpp Require Import base tactics list gmap relations.
From S2P Require Import Prelude Types Pbmux Codec Control ResourceWire ComputeWire BufferWire.
From S2P Require Import Lease ResourceGuard GuardFacts BufferStore Claims BufferFacts BufferInv.
From S2P Require Import BufferRefine BufferSystem ComputeStore WorkerCore WorkerFacts WorkerInv.
From S2P Require Import WorkerCompute.

Import Content BufferSpec.

(** Requests as the decoders produce them. *)
Definition typed_resource (req : ResourceRequest) : Prop :=
  match req with Reserve _ _ _ n => 0 <= n | _ => True end.
Definition typed_compute (req : ComputeRequest) : Prop :=
  nonzero (cq_lease_id req) = true /\
  match req with
  | Cq_Submit s => 0 <= cs_input_offset s /\ 0 <= cs_input_length s
  | _ => True
  end.

(** ** Status and cancellation *)

Lemma status_inv w pf session req now :
  WInv w -> nonzero (cj_lease_id req) = true -> pf_incarnation pf = Worker.incarnation w ->
  let '(j, r) := JobStore.status (Worker.compute_jobs w) pf session req now in
  WInv (Worker.with_jobs w j (Worker.resource_guard w)) /\ response_ok r.
Proof.
  intros Hw Hl Hpi. unfold JobStore.status. cbv zeta. split.
  - apply winv_jobs; cbn; [done|..].
    + apply (filter_ok _ _ job_ok), Hw.
    + apply (filter_ok _ _ (fun e => response_ok (se_response e))), Hw.
    + apply (filter_ok _ _ (fun e => response_ok (ca_response e))), Hw.
  - assert (Hi : nonzero (pf_incarnation pf) = true) by (rewrite Hpi; apply Hw).
    destruct (JobStore.jobs _ !! _) as [r|] eqn:Er; [|by apply absent_status_ok].
    destruct (negb _); [by apply absent_status_ok|].
    apply map_lookup_filter_Some in Er as [Er _]. destruct (wi_jobs w Hw _ r Er) as [Ht Hok].
    by rewrite Ht.
Qed.

Lemma cancel_inv w pf session rid req now :
  WInv w -> nonzero (cj_lease_id req) = true -> pf_incarnation pf = Worker.incarnation w ->
  let '(j, g, r) := JobStore.cancel (Worker.compute_jobs w) (Worker.resource_guard w) pf session
    rid req now in
  WInv (Worker.with_jobs w j g) /\ response_ok r.
Proof.
  intros Hw Hl Hpi. unfold JobStore.cancel. cbv zeta.
  assert (Hi : nonzero (pf_incarnation pf) = true) by (rewrite Hpi; apply Hw).
  set (j0 := JobStore.purge (Worker.compute_jobs w) now).
  assert (Hp : WInv (Worker.with_jobs w j0 (Worker.resource_guard w))).
  { apply winv_jobs; cbn; [done|..].
    - apply (filter_ok _ _ job_ok), Hw.
    - apply (filter_ok _ _ (fun e => response_ok (se_response e))), Hw.
    - apply (filter_ok _ _ (fun e => response_ok (ca_response e))), Hw. }
  destruct (JobStore.cancels j0 !! _) as [e|] eqn:Ee.
  { destruct (_ && _); (split; [done|]); [by apply (wi_cancels _ Hp _ e Ee)|].
    by apply absent_cancel_ok. }
  assert (Hcase : exists resp, response_ok resp /\
    match JobStore.jobs j0 !! cj_job_id req with
    | None => (j0, Worker.resource_guard w, absent_cancel req (pf_incarnation pf) Cr_JobNotFound)
    | Some record =>
        if negb (JobStore.owns record pf session) then
          (j0, Worker.resource_guard w, absent_cancel req (pf_incarnation pf) Cr_JobNotOwned)
        else if job_is_terminal (jb_state record) then
          (j0, Worker.resource_guard w,
           JobStore.cancel_status pf req (jb_state record) Cr_JobNotCancellable record)
        else
          let '(record, guard) := JobStore.finish_record record (Worker.resource_guard w)
            Js_Cancelled Cr_None None now in
          (JobStore.mk (<[cj_job_id req := record]> (JobStore.jobs j0))
             (JobStore.settle_submit (JobStore.submits j0) record now) (JobStore.cancels j0), guard,
           JobStore.cancel_status pf req Js_Cancelled Cr_None record)
    end = (j0, Worker.resource_guard w, resp)).
  { destruct (JobStore.jobs j0 !! cj_job_id req) as [r|] eqn:Er;
      [|eexists; split; [|reflexivity]; by apply absent_cancel_ok].
    destruct (negb _); [eexists; split; [|reflexivity]; by apply absent_cancel_ok|].
    pose proof (wi_jobs _ Hp _ r Er) as Hr. destruct (job_ok_ref r Hr) as [Hj1 Hj2].
    destruct Hr as [Ht _]. rewrite Ht. eexists. split; [|reflexivity].
    unfold response_ok, JobStore.cancel_status, validate_status.
    cbn -[nonzero provider_is_blake3]. rewrite Hl, Hi, Hj1, Hj2, Ht. cbn.
    by rewrite orb_true_r. }
  destruct Hcase as (resp & Hok & ->). split; [|done].
  apply winv_jobs; cbn; [done|apply Hp|apply Hp|].
  intros k e. rewrite lookup_insert_Some. intros [[_ <-]|[_ He]]; [done|].
  by apply (wi_cancels _ Hp k).
Qed.

Section WorkerSystem.
Context {Hasher : Type} (hasher_new : Hasher) (hasher_update : Hasher -> list byte -> Hasher)
  (hasher_finalize : Hasher -> list byte).

Notation apply_compute := (Worker.apply_compute_request hasher_new hasher_update hasher_finalize).

Lemma compute_inv w v rid req env :
  WInv w -> typed_compute req ->
  exists w' resp, apply_compute w v rid req env = Some (w', resp) /\ WInv w' /\ response_ok resp.
Proof.
  intros Hw [Hl Ht]. unfold Worker.apply_compute_request. cbv zeta.
  pose proof (reconcile_inv w (ev_now_ms env) Hw) as Hr.
  set (w1 := Worker.reconcile_expired_controller_lease w (ev_now_ms env)) in *. clearbody w1.
  assert (Hfail : forall w2 reason, WInv w2 -> valid_admission_reason reason = true ->
    valid_absent_lookup_reason reason = true ->
    response_ok (compute_request_failure req (Worker.incarnation w2) reason)).
  { intros w2 reason H2 Hv1 Hv2. pose proof (wi_incarnation w2 H2). destruct req; cbn in Hl;
      [by apply absent_result_ok|by apply absent_status_ok|by apply absent_cancel_ok]. }
  destruct (negb _); [eexists _, _; split; [reflexivity|]; split; [done|by apply Hfail]|].
  destruct (LeaseManager.validate _ _ _ _) as [m x] eqn:Ev.
  apply validate_incarnation in Ev as [Ev Hpf]. pose proof (winv_leases w1 m Hr Ev) as H2.
  set (w2 := Worker.with_leases w1 m) in *.
  destruct x as [pf|]; [|eexists _, _; split; [reflexivity|]; split; [done|by apply Hfail]].
  destruct (rid =? 0); [eexists _, _; split; [reflexivity|]; split; [done|by apply Hfail]|].
  destruct (Hpf pf eq_refl) as (Hpl & _ & Hpi).
  assert (Hpi2 : pf_incarnation pf = Worker.incarnation w2).
  { rewrite Hpi. exact (wi_leases w1 Hr). }
  destruct req as [submit|req|req]; cbn in Hl, Hpl.
  - destruct Ht as [Hoff Hlen].
    destruct (submit_inv hasher_new hasher_update hasher_finalize w2 pf (vs_session_id v) rid
      submit env H2 Hl Hpl Hpi2 Hoff Hlen) as (w' & r & E & H3 & Hok & _). eauto.
  - pose proof (status_inv w2 pf (vs_session_id v) req (ev_now_ms env) H2 Hl Hpi2) as Hs.
    destruct (JobStore.status _ _ _ _ _) as [j r]. destruct Hs. eauto.
  - pose proof (cancel_inv w2 pf (vs_session_id v) rid req (ev_now_ms env) H2 Hl Hpi2) as Hs.
    destruct (JobStore.cancel _ _ _ _ _ _ _) as [[j g] r]. destruct Hs. eauto.
Qed.

(** ** Reachable workers *)

Inductive worker_step : Worker.t -> Worker.t -> Prop :=
| wk_command w v c env : worker_step w (fst (Worker.apply_controller_command w v c env))
| wk_resource w v rid req env w' r :
    typed_resource req ->
    fresh_id (Worker.resource_guard (Worker.reconcile_expired_controller_lease w (ev_now_ms env)))
      (ev_entropy env) ->
    Worker.apply_resource_request w v rid req env = Some (w', r) -> worker_step w w'
| wk_buffer w v req env w' r :
    typed req -> Worker.apply_remote_buffer_request w v req env = Some (w', r) -> worker_step w w'
| wk_compute w v rid req env w' r :
    typed_compute req -> apply_compute w v rid req env = Some (w', r) -> worker_step w w'
| wk_session_ended w v env : worker_step w (Worker.authenticated_session_ended w v env)
| wk_health w sample env : worker_step w (fst (Worker.record_local_health w sample env))
| wk_heartbeat w v env : worker_step w (fst (Worker.heartbeat_payload w v env)).

Definition worker_reachable (w : Worker.t) : Prop :=
  exists e w0, Worker.cold_start e = Ok w0 /\ rtc worker_step w0 w.

Lemma worker_step_inv w w' : worker_step w w' -> WInv w -> WInv w'.
Proof.
  destruct 1 as [w v c env|w v rid req env w' r Ht Hf E|w v req env w' r Ht E
    |w v rid req env w' r Ht E|w v env|w sample env|w v env]; intros Hw.
  - by apply command_inv.
  - destruct (resource_inv w v rid req env Hw Hf) as (w1 & kr & E1 & H1);
      [by intros l i c n ->|]. by simplify_eq.
  - destruct (buffer_inv w v req env Hw Ht) as (w1 & kr & E1 & H1). by simplify_eq.
  - destruct (compute_inv w v rid req env Hw Ht) as (w1 & kr & E1 & H1 & _). by simplify_eq.
  - by apply session_ended_inv.
  - by apply health_inv.
  - by apply heartbeat_inv.
Qed.

Lemma worker_reachable_inv w : worker_reachable w -> WInv w.
Proof.
  intros (e & w0 & Hc & Hr). apply winv_cold_start in Hc. revert Hc.
  induction Hr; eauto using worker_step_inv.
Qed.

(** C6: no panic.  In every reachable state every resource, buffer and compute
    request gets a response: none of the worker's [expect], [unreachable!] and
    slice operations can fail. *)
Theorem worker_total w v rid env resource buffer compute :
  worker_reachable w -> typed_resource resource -> typed buffer -> typed_compute compute ->
  fresh_id (Worker.resource_guard (Worker.reconcile_expired_controller_lease w (ev_now_ms env)))
    (ev_entropy env) ->
  is_Some (Worker.apply_resource_request w v rid resource env) /\
  is_Some (Worker.apply_remote_buffer_request w v buffer env) /\
  is_Some (apply_compute w v rid compute env).
Proof.
  intros Hr H1 H2 H3 Hf. apply worker_reachable_inv in Hr. split_and!.
  - destruct (resource_inv w v rid resource env Hr Hf) as (w1 & kr & -> & _); [|done].
    by intros l i c n ->.
  - by destruct (buffer_inv w v buffer env Hr H2) as (w1 & kr & -> & _).
  - by destruct (compute_inv w v rid compute env Hr H3) as (w1 & kr & -> & _).
Qed.


(** C36: compute responses fit the wire.  Every response of the worker to a compute
    request, including those replayed from its caches, is accepted by the frame
    builder for any non-zero request number. *)
Theorem compute_responses_encodable w v rid req env w' resp sequence :
  worker_reachable w -> typed_compute req -> rid <> 0 ->
  apply_compute w v rid req env = Some (w', resp) ->
  exists frame, build_compute_response_frame resp rid sequence = Ok frame.
Proof.
  intros Hr Ht Hrid E. apply worker_reachable_inv in Hr.
  destruct (compute_inv w v rid req env Hr Ht) as (w1 & r1 & E1 & _ & Hok).
  rewrite E in E1. injection E1 as <- <-. unfold build_compute_response_frame.
  rewrite (proj2 (Z.eqb_neq _ _) Hrid).
  destruct resp as [s|s|s]; cbn [response_ok] in Hok; unfold encode_status, encode_compute_result;
    rewrite Hok; eauto.
Qed.

(** A completed new submit carries the digest of the buffer's bytes. *)
Lemma submit_digest (blake3 : list byte -> list byte) w v rid submit env w' res pf :
  (forall chunks, hasher_finalize (foldl hasher_update hasher_new chunks) = blake3 (concat chunks)) ->
  WInv w -> typed_compute (Cq_Submit submit) ->
  let w1 := Worker.reconcile_expired_controller_lease w (ev_now_ms env) in
  snd (LeaseManager.validate (Worker.lease_manager w1) (from_verified v) (cs_lease_id submit)
         (ev_now_ms env)) = Ok pf ->
  JobStore.submits (Worker.compute_jobs w1) !! (cs_lease_id submit, rid) = None ->
  apply_compute w v rid (Cq_Submit submit) env = Some (w', Cx_Result res) ->
  cr_state res = Js_Completed ->
  exists c data,
    expire (ev_now_ms env) (abs (Worker.remote_buffers w1)) !! cs_buffer_id submit = Some c /\
    holds pf (vs_session_id v) c = true /\
    read (ce_bytes c) (Z.to_nat (cs_input_offset submit)) (Z.to_nat (cs_input_length submit))
      = Some data /\
    cr_digest res = Some (blake3 data).
Proof.
  intros Hblake Hr [Hl [Hoff Hlen]] w1 Hpf Hnew E Hst.
  pose proof (reconcile_inv w (ev_now_ms env) Hr) as H1. fold w1 in H1.
  unfold Worker.apply_compute_request in E. cbv zeta in E. fold w1 in E. clearbody w1.
  destruct (negb _); [by injection E as _ <-|]. cbn [cq_lease_id] in *.
  destruct (LeaseManager.validate _ _ _ _) as [m x] eqn:Ev. cbn [snd] in Hpf. subst x.
  apply validate_incarnation in Ev as [Ev Hx]. destruct (Hx pf eq_refl) as (Hpl & _ & Hpi).
  destruct (rid =? 0); [by injection E as _ <-|].
  destruct (submit_inv hasher_new hasher_update hasher_finalize (Worker.with_leases w1 m) pf
    (vs_session_id v) rid submit env) as (w2 & r & E2 & _ & _ & Hd); try done.
  { by apply winv_leases. } { rewrite Hpi. exact (wi_leases w1 H1). }
  rewrite E in E2. injection E2 as <- <-.
  destruct (Hd ltac:(by rewrite Hpl) res eq_refl Hst) as (c & data & d & Hc & Hh & Hread & Hdig & Hb).
  exists c, data. split_and!; try done. rewrite Hdig. f_equal.
  unfold blake3_digest_bounded in Hb. apply hash_chunks_ok in Hb. rewrite Hb, Hblake.
  f_equal. apply slice_chunks_concat; [unfold HASH_CHUNK_BYTES; lia|done].
Qed.
End WorkerSystem.
