(* ===== verification/WorkerGuard.v ===== *)
(** * The worker: its guard keeps the entries of active reservations

    Every entry point changes the guard through the guard's operations only, so the
    invariant [Bound] of GuardIdem holds in every reachable worker: the entry that
    a reserve left is in the idempotence table while the reservation is active.  A
    reserve that is repeated after its cached answer is gone is therefore answered
    from the guard, with the present state of the reservation
    ([late_reserve_replay_unencodable]). *)

From Stdlib Require Import ZArith Lia.
From stdpp Require Import base tactics list gmap relations.
From S2P Require Import Prelude Types Pbmux Codec Control ResourceWire ComputeWire BufferWire.
From S2P Require Import Lease ResourceGuard GuardFacts GuardIdem BufferStore Claims BufferFacts.
From S2P Require Import BufferInv BufferRefine BufferSystem ComputeStore WorkerCore WorkerFacts.
From S2P Require Import WorkerInv WorkerCompute WorkerSystem.

(** [Bound] carries over. *)
Definition keeps (g g' : Guard.t) : Prop := Bound g -> Bound g'.

#[global] Instance keeps_preorder : PreOrder keeps.
Proof. split; [intros g Hg; exact Hg|]. intros g1 g2 g3 H1 H2 H. by apply H2, H1. Qed.

Lemma snapshot_keeps g pf id now : keeps g (fst (Guard.reservation_snapshot g pf id now)).
Proof. intros Hg. by apply purge_bound. Qed.

Lemma consume_compute_keeps g pf id now g' x :
  Guard.consume_for_compute g pf id now = Some (g', x) -> keeps g g'.
Proof. intros H Hg. eapply bound_step; [by eapply gs_consume_compute|done]. Qed.

Lemma bg_keeps g g' : buffer_guard g g' -> keeps g g'.
Proof.
  induction 1 as [|g1 g2 g3 Hs _ IH]; [done|]. etrans; [|exact IH].
  destruct Hs as [g id n now|g pf id n now|g pf id now]; intros Hg.
  - by apply release_consumed_bound.
  - destruct (Guard.consume_for_buffer g pf id n now) as [g' x] eqn:E. cbn [fst].
    eapply bound_step; [by eapply gs_consume_buffer|done].
  - by apply snapshot_keeps.
Qed.

(** ** Jobs *)

Lemma finish_keeps r g st reason d now : keeps g (snd (JobStore.finish_record r g st reason d now)).
Proof.
  intros Hg. unfold JobStore.finish_record. destruct (job_is_terminal (jb_state r)); [done|]. cbn.
  destruct (negb _); [|done]. by apply release_consumed_bound.
Qed.

Lemma job_sweep_keeps P st reason m g now : keeps g (snd (JobStore.sweep P st reason m g now)).
Proof.
  unfold JobStore.sweep. generalize (map_to_list (filter (fun x => P x.2 = true) m)) as l.
  intros l. revert m g. induction l as [|x l IH]; intros m g; [done|]. cbn [foldl].
  unfold JobStore.end_job at 2. cbn [snd fst].
  pose proof (finish_keeps x.2 g st reason None now) as H.
  destruct (JobStore.finish_record _ _ _ _ _ _) as [r' g']. by etrans; [exact H|apply IH].
Qed.

Lemma terminalize_keeps s g id session outcome now s' g' r :
  JobStore.terminalize s g id session outcome now = Some (s', g', r) -> keeps g g'.
Proof.
  intros H Hg. unfold JobStore.terminalize in H.
  destruct (JobStore.jobs s !! id) as [rc|]; [|done]. cbn [mbind option_bind] in H.
  destruct (job_is_terminal _); [by simplify_eq|].
  assert (Hf : forall st reason d, Bound (snd (JobStore.finish_record rc g st reason d now)))
    by (intros; by apply finish_keeps).
  repeat case_match; simplify_eq; match goal with
    E : JobStore.finish_record rc g ?a ?b ?c now = _ |- _ => specialize (Hf a b c); by rewrite E in Hf
  end.
Qed.

Lemma cancel_keeps s g pf session rid req now s' g' r :
  JobStore.cancel s g pf session rid req now = (s', g', r) -> keeps g g'.
Proof.
  intros H Hg. unfold JobStore.cancel in H. cbv zeta in H.
  destruct (JobStore.cancels _ !! _) as [e|]; [repeat case_match; by simplify_eq|].
  destruct (JobStore.jobs _ !! _) as [rc|]; [|by simplify_eq].
  destruct (negb _); [by simplify_eq|]. destruct (job_is_terminal _); [by simplify_eq|].
  pose proof (finish_keeps rc g Js_Cancelled Cr_None None now Hg) as Hf.
  destruct (JobStore.finish_record _ _ _ _ _ _). by simplify_eq.
Qed.

(** ** Entry points *)

#[local] Notation wg := Worker.resource_guard.

Lemma end_lease_keeps w lease now : keeps (wg w) (wg (Worker.end_lease w lease now)).
Proof.
  unfold Worker.end_lease, JobStore.lease_ended.
  match goal with |- context [JobStore.sweep ?P ?st ?rs ?m ?g now] =>
    pose proof (job_sweep_keeps P st rs m g now) as H1; destruct (JobStore.sweep P st rs m g now) end.
  cbn [Worker.with_jobs Worker.resource_guard Worker.remote_buffers].
  match goal with |- context [BufferStore.lease_ended ?b ?g lease now] =>
    pose proof (bg_keeps _ _ (lease_ended_bg b g lease now)) as H2;
    destruct (BufferStore.lease_ended b g lease now) end.
  by etrans.
Qed.

Lemma session_ended_keeps w v env :
  keeps (wg w) (wg (Worker.authenticated_session_ended w v env)).
Proof.
  unfold Worker.authenticated_session_ended, JobStore.session_lost. cbv zeta.
  match goal with |- context [JobStore.sweep ?P ?st ?rs ?m ?g ?now] =>
    pose proof (job_sweep_keeps P st rs m g now) as H1; destruct (JobStore.sweep P st rs m g now) end.
  cbn [Worker.with_jobs Worker.resource_guard Worker.remote_buffers].
  match goal with |- context [BufferStore.session_lost ?b ?g ?s ?now] =>
    pose proof (bg_keeps _ _ (session_lost_bg b g s now)) as H2;
    destruct (BufferStore.session_lost b g s now) end.
  by etrans.
Qed.

Lemma reconcile_keeps w now :
  keeps (wg w) (wg (Worker.reconcile_expired_controller_lease w now)).
Proof.
  unfold Worker.reconcile_expired_controller_lease.
  destruct (LeaseManager.expire_if_needed _ _) as [m [lease|]]; [|done].
  apply (end_lease_keeps (Worker.with_leases w m)).
Qed.

Lemma command_keeps w v c env :
  keeps (wg w) (wg (fst (Worker.apply_controller_command w v c env))).
Proof.
  unfold Worker.apply_controller_command. cbv zeta.
  etrans; [apply (reconcile_keeps w (ev_now_ms env))|].
  set (w1 := Worker.reconcile_expired_controller_lease _ _). clearbody w1.
  destruct (LeaseManager.apply_controller_command _ _ _ _ _) as [m r].
  repeat case_match; cbn [fst]; try done; apply (end_lease_keeps (Worker.with_leases w1 m)).
Qed.

Lemma health_keeps w sample env : keeps (wg w) (wg (fst (Worker.record_local_health w sample env))).
Proof.
  unfold Worker.record_local_health. cbv zeta.
  etrans; [apply (reconcile_keeps w (ev_now_ms env))|].
  set (w1 := Worker.reconcile_expired_controller_lease _ _). clearbody w1.
  destruct (Guard.record_health _ _) as [g st] eqn:Eh. unfold BufferStore.tick.
  match goal with |- context [BufferStore.expire_and_purge ?b ?g2 ?now] =>
    pose proof (bg_keeps _ _ (expire_bg b g2 now)) as H2;
    destruct (BufferStore.expire_and_purge b g2 now) end.
  intros H1. apply H2, tick_bound. by injection Eh as <- _.
Qed.

Lemma heartbeat_keeps w v env : keeps (wg w) (wg (fst (Worker.heartbeat_payload w v env))).
Proof.
  unfold Worker.heartbeat_payload. cbv zeta.
  etrans; [apply (reconcile_keeps w (ev_now_ms env))|].
  by destruct (LeaseManager.current_for_session _ _ _).
Qed.

Lemma buffer_keeps w v req env w' r :
  Worker.apply_remote_buffer_request w v req env = Some (w', r) -> keeps (wg w) (wg w').
Proof.
  unfold Worker.apply_remote_buffer_request. cbv zeta. intros H.
  etrans; [apply (reconcile_keeps w (ev_now_ms env))|].
  set (w1 := Worker.reconcile_expired_controller_lease _ _) in *. clearbody w1.
  destruct (negb _); [by simplify_eq|].
  destruct (LeaseManager.validate _ _ _ _) as [m [pf|]]; [|by simplify_eq].
  destruct (BufferStore.apply _ _ _ _ _ _ _ _) as [[[b g] k]|] eqn:E; [|done].
  apply apply_bg, bg_keeps in E. cbn in H. by simplify_eq.
Qed.

(** *** Resource requests *)

Lemma snapshot_keeps_pair g pf id now g' o :
  Guard.reservation_snapshot g pf id now = (g', o) -> keeps g g'.
Proof. intros H. pose proof (snapshot_keeps g pf id now) as Hk. by rewrite H in Hk. Qed.

Lemma resource_keeps w v rid req env w' r :
  Worker.apply_resource_request w v rid req env = Some (w', r) -> keeps (wg w) (wg w').
Proof.
  unfold Worker.apply_resource_request. cbv zeta. intros H.
  etrans; [apply (reconcile_keeps w (ev_now_ms env))|].
  set (w1 := Worker.reconcile_expired_controller_lease _ _) in *. clearbody w1.
  match type of H with context [if ?c then (w1, None) else _] => destruct c end; [by simplify_eq|].
  destruct (LeaseManager.validate _ _ _ _) as [m [pf|]]; [|by simplify_eq].
  destruct (Worker.resource_requests _ !! _) as [e|]; [case_bool_decide; by simplify_eq|].
  match type of H with (if ?c then _ else _) = _ => destruct c end; [by simplify_eq|].
  set (w2 := Worker.with_requests _ _) in *.
  change (keeps (wg w2) (wg w')). clearbody w2.
  assert (Harm : exists w3 q b, keeps (wg w2) (wg w3) /\
    match req with
      | Reserve _ _ class bytes => Worker.apply_reserve w2 pf (from_verified v) (rr_lease_id req)
          rid class bytes env
      | Commit _ _ id => Worker.apply_commit w2 pf (from_verified v) (rr_lease_id req) id env
      | Release _ _ id => Worker.apply_release w2 pf (from_verified v) (rr_lease_id req) id env
      end = Some (w3, q, b)).
  { match type of H with mbind _ ?x = _ => destruct x as [[[w3 q] b]|] eqn:E; [|done] end.
    exists w3, q, b. split; [|done]. clear H. destruct req as [l i c n|l i id|l i id].
    - unfold Worker.apply_reserve in E. cbv zeta in E.
      destruct (Guard.reserve _ _ _ _ _ _ _) as [[g m'] d] eqn:Er.
      assert (H1 : keeps (wg w2) g) by (intros Hb; by eapply reserve_bound).
      destruct d; try (by simplify_eq).
      destruct (Guard.reservation_snapshot _ _ _ _) as [g2 o] eqn:Es.
      apply snapshot_keeps_pair in Es. cbn in Es.
      assert (H2 : keeps (wg w2) g2) by (by etrans).
      destruct o; [|by simplify_eq]. simplify_option_eq. done.
    - unfold Worker.apply_commit in E. cbv zeta in E.
      destruct (Guard.commit _ _ _ _ _ _) as [[g m'] d] eqn:Er.
      assert (H1 : keeps (wg w2) g) by (intros Hb; by eapply commit_bound).
      destruct (Guard.reservation_snapshot _ _ _ _) as [g2 o] eqn:Es.
      apply snapshot_keeps_pair in Es.
      assert (H2 : keeps (wg w2) g2) by (by etrans).
      match type of E with mbind _ ?x = _ => destruct x as [q'|]; [|done] end.
      cbn in E. by simplify_eq.
    - unfold Worker.apply_release in E. cbv zeta in E.
      destruct (Guard.release _ _ _ _ _ _) as [[g m'] d] eqn:Er.
      assert (H1 : keeps (wg w2) g) by (intros Hb; by eapply release_bound).
      destruct (Guard.reservation_snapshot _ _ _ _) as [g2 o] eqn:Es.
      apply snapshot_keeps_pair in Es.
      assert (H2 : keeps (wg w2) g2) by (by etrans).
      assert (Hw3 : wg w3 = g2); [|by rewrite Hw3].
      destruct d; try (destruct o as [snap|]; [destruct (wire_state snap)|]); cbn in E;
        simplify_option_eq; done. }
  destruct Harm as (w3 & q & b & Hk & E). rewrite E in H. cbn [mbind option_bind] in H.
  destruct b; simplify_eq; done.
Qed.

(** *** Compute requests *)

Section Compute.
Context {Hasher : Type} (hasher_new : Hasher) (hasher_update : Hasher -> list byte -> Hasher)
  (hasher_finalize : Hasher -> list byte).

Notation reach := (worker_reachable hasher_new hasher_update hasher_finalize).

Lemma run_job_keeps w pf session id env w' r :
  Worker.run_job hasher_new hasher_update hasher_finalize w pf session id env = Some (w', r) ->
  keeps (wg w) (wg w').
Proof.
  unfold Worker.run_job. destruct (JobStore.job_input _ _) as [[[? ?] ?]|]; [|done].
  cbn [mbind option_bind]. destruct (BufferStore.with_compute_input _ _ _ _ _ _) as [i|]; [|done].
  cbn [mbind option_bind]. cbv zeta.
  destruct (JobStore.terminalize _ _ _ _ _ _) as [[[j g] q]|] eqn:E; [|done].
  apply terminalize_keeps in E. cbn. intros H. by simplify_eq.
Qed.

Lemma refusal_keeps w pf session submit now w' o :
  Worker.compute_refusal w pf session submit now = (w', o) -> keeps (wg w) (wg w').
Proof.
  unfold Worker.compute_refusal. intros H.
  do 3 (match type of H with (if ?c then _ else _) = _ => destruct c end; [by simplify_eq|]).
  destruct (BufferStore.validate_compute_input _ _ _ _ _ _ _ _) as [[b g] x] eqn:Ev.
  apply input_bg, bg_keeps in Ev. by simplify_eq.
Qed.

Lemma submit_keeps w pf session rid submit env w' r :
  Worker.apply_compute_submit hasher_new hasher_update hasher_finalize w pf session rid submit env
    = Some (w', r) -> keeps (wg w) (wg w').
Proof.
  unfold Worker.apply_compute_submit. cbv zeta. intros H.
  destruct (JobStore.check_submit _ _ _ _ _ _) as [j lk].
  destruct lk; try (by simplify_eq).
  destruct (Worker.compute_refusal _ _ _ _ _) as [w2 o] eqn:Er. apply refusal_keeps in Er.
  change (keeps (wg w) (wg w2)) in Er.
  destruct o as [reason|]; [injection H as <- _; exact Er|].
  destruct (Guard.reservation_snapshot _ _ _ _) as [g o] eqn:Es.
  apply snapshot_keeps_pair in Es. assert (H2 : keeps (wg w) g) by (by etrans).
  destruct (Worker.scratch_of o) as [n|]; [|injection H as <- _; exact H2].
  destruct (JobStore.stage _ _ _ _ _ _ _ _) as [staged|]; [|injection H as <- _; exact H2].
  destruct (Guard.consume_for_compute _ _ _ _) as [[g2 x]|] eqn:Ec; [|done].
  apply consume_compute_keeps in Ec. cbn [Worker.with_guard Worker.resource_guard] in Ec.
  assert (H3 : keeps (wg w) g2) by (by etrans).
  cbn [mbind option_bind] in H. destruct x as [b|]; [|injection H as <- _; exact H3].
  destruct (JobStore.publish_running _ _ _ _) as [j2 id]. apply run_job_keeps in H.
  by etrans.
Qed.

Lemma compute_keeps w v rid req env w' r :
  Worker.apply_compute_request hasher_new hasher_update hasher_finalize w v rid req env
    = Some (w', r) -> keeps (wg w) (wg w').
Proof.
  unfold Worker.apply_compute_request. cbv zeta. intros H.
  etrans; [apply (reconcile_keeps w (ev_now_ms env))|].
  set (w1 := Worker.reconcile_expired_controller_lease _ _) in *. clearbody w1.
  destruct (negb _); [by simplify_eq|].
  destruct (LeaseManager.validate _ _ _ _) as [m [pf|]]; [|by simplify_eq].
  destruct (rid =? 0); [by simplify_eq|]. destruct req as [submit|status|cancel].
  - by apply submit_keeps in H.
  - destruct (JobStore.status _ _ _ _ _). by simplify_eq.
  - destruct (JobStore.cancel _ _ _ _ _ _ _) as [[j g] q] eqn:E. apply cancel_keeps in E.
    by simplify_eq.
Qed.

Lemma worker_step_keeps w w' :
  worker_step hasher_new hasher_update hasher_finalize w w' -> keeps (wg w) (wg w').
Proof.
  destruct 1.
  - apply command_keeps.
  - by eapply resource_keeps.
  - by eapply buffer_keeps.
  - by eapply compute_keeps.
  - apply session_ended_keeps.
  - apply health_keeps.
  - apply heartbeat_keeps.
Qed.

Lemma worker_bound w : reach w -> Bound (wg w).
Proof.
  intros (e & w0 & Hc & Hr).
  assert (H0 : Bound (wg w0)).
  { unfold Worker.cold_start in Hc. destruct (random_nonzero_128 e); [|done]. simplify_eq.
    by intros id r H. }
  clear Hc. induction Hr as [|w0 w1 w2 Hs _ IH]; [done|]. by apply IH, (worker_step_keeps w0).
Qed.

(** ** A reserve repeated late *)

Lemma valid_not_expired m session lease now :
  is_ok (snd (LeaseManager.validate m session lease now)) = true ->
  LeaseManager.expire_if_needed m now = (m, None) /\
  exists pf, LeaseManager.validate m session lease now = (m, Ok pf).
Proof.
  unfold LeaseManager.validate, LeaseManager.expire_if_needed.
  destruct (LeaseManager.active m) as [a|] eqn:Ea; cbn [is_some fst]; [|by rewrite Ea].
  destruct (al_expires_at_ms a <=? now); cbn [is_some fst LeaseManager.active]; [done|].
  rewrite Ea. destruct (_ || _); [done|]. intros _. split; [done|]. by eexists.
Qed.

Lemma valid_reconcile w session lease now :
  is_ok (snd (LeaseManager.validate (Worker.lease_manager w) session lease now)) = true ->
  Worker.reconcile_expired_controller_lease w now = w.
Proof.
  intros Hv. apply valid_not_expired in Hv as [He _].
  unfold Worker.reconcile_expired_controller_lease. rewrite He. by destruct w.
Qed.

(** The snapshot of a committed reservation for its owner. *)
Lemma committed_snapshot g pf id r now :
  Guard.reservations g !! id = Some r -> rv_state r = Rv_Committed -> rv_terminal_at_ms r = None ->
  rv_peer_id r = pf_peer_id pf -> rv_lease_id r = pf_lease_id pf ->
  rv_incarnation r = pf_incarnation pf ->
  snd (Guard.reservation_snapshot g pf id now) =
    Some (mkSnapshot id (rv_class r) (rv_bytes r) Rv_Committed 0).
Proof.
  intros Hr Hs Ht Hp Hl Hi. unfold Guard.reservation_snapshot. cbn [snd].
  rewrite (purge_committed g now _ _ id r Hr Hs Ht Hl Hi), Hp, Hl, Hi.
  rewrite !bool_decide_true by done. cbn [negb orb]. rewrite Hs.
  by rewrite bool_decide_false by done.
Qed.

(** The RESERVE_ACK encoder refuses a reservation that is not in the reserved state. *)
Lemma ack_not_reserved r ref rid sequence :
  rs_state r = Rs_Completed -> rs_reservation r = Some ref -> rf_state ref <> Wr_Reserved ->
  build_resource_result_frame Rk_ReserveAck r rid sequence = Err bad_resource.
Proof.
  intros Hs Hr Hst. unfold build_resource_result_frame, encode_resource_result,
    validate_resource_result. rewrite Hr, Hs. cbn [fmap option_fmap option_map].
  rewrite (bool_decide_true (Rs_Completed = Rs_Completed)) by done.
  rewrite (bool_decide_false (Some (rf_state ref) = Some Wr_Reserved)) by congruence.
  repeat case_match; simplify_eq; try done; congruence.
Qed.

Lemma filter_size {V} (P : LeaseId * Z * V -> Prop) `{!forall x, Decision (P x)}
    (m : gmap (LeaseId * Z) V) : (size (filter P m) <= size m)%nat.
Proof. apply map_subseteq_size, map_filter_subseteq. Qed.

(** C37: late repetition of a reserve.  Take any reachable worker that holds a committed
    reservation under a live lease.  When the controller that reserved it sends the
    same reserve again (same number, class and size) and the cached answer is more
    than five minutes old or gone, the worker answers Completed with the committed
    reservation; the encoder of RESERVE_ACK refuses that result for every sequence
    number, so the request gets no response frame. *)
Theorem late_reserve_replay_unencodable w v id r class env :
  let now := ev_now_ms env in
  let key := (rv_lease_id r, rv_request_id r) in
  reach w ->
  Guard.reservations (wg w) !! id = Some r -> rv_state r = Rv_Committed ->
  rv_peer_id r = session_peer_id (from_verified v) ->
  rv_incarnation r = Worker.incarnation w -> guard_class class = rv_class r ->
  rv_request_id r <> 0 ->
  is_ok (snd (LeaseManager.validate (Worker.lease_manager w) (from_verified v) (rv_lease_id r) now))
    = true ->
  (forall e, Worker.resource_requests w !! key = Some e ->
     TERMINAL_RETENTION_MS < sat_sub now (rc_terminal_at_ms e)) ->
  Z.of_nat (size (Worker.resource_requests w)) < Worker.RESOURCE_REQUEST_CAPACITY ->
  exists w' res ref,
    Worker.apply_resource_request w v (rv_request_id r)
      (Reserve (rv_lease_id r) (rv_incarnation r) class (rv_bytes r)) env
      = Some (w', (Rk_ReserveAck, res)) /\
    rs_state res = Rs_Completed /\ rs_reservation res = Some ref /\
    rf_reservation_id ref = id /\ rf_state ref = Wr_Committed /\
    forall sequence,
      build_resource_result_frame Rk_ReserveAck res (rv_request_id r) sequence = Err bad_resource.
Proof.
  intros now key Hw Hr Hs Hp Hi Hc Hrid Hv Hcache Hsize.
  pose proof (worker_bound w Hw) as Hb. apply worker_reachable_inv in Hw.
  assert (Ht : rv_terminal_at_ms r = None).
  { apply (gi_terminal _ (bi_guard _ _ (wi_buffers w Hw)) id r Hr). by rewrite Hs. }
  destruct (valid_not_expired _ _ _ _ Hv) as [_ [pf Epf]].
  destruct (validate_ok _ _ _ _ _ _ Epf) as [Hpf _].
  assert (Him : rv_incarnation r = LeaseManager.incarnation (Worker.lease_manager w)).
  { rewrite Hi. symmetry. apply Hw. }
  unfold Worker.apply_resource_request. cbv zeta. fold now.
  rewrite (valid_reconcile w (from_verified v) (rv_lease_id r)) by done.
  cbn [rr_worker_incarnation_id rr_lease_id resource_response_kind].
  rewrite (proj2 (Z.eqb_neq _ _)), bool_decide_true by done. cbn [orb negb]. rewrite Epf.
  cbn [Worker.with_leases Worker.with_requests Worker.resource_requests].
  rewrite map_lookup_filter_None_2; cycle 1.
  { right. intros e He [_ Hle]. specialize (Hcache e He). cbn in Hle. lia. }
  rewrite (proj2 (Z.leb_gt _ _)); cycle 1.
  { eapply Z.le_lt_trans; [|exact Hsize]. apply inj_le. etrans; apply filter_size. }
  unfold Worker.apply_reserve. cbv zeta. cbn [Worker.with_leases Worker.with_requests
    Worker.resource_guard Worker.lease_manager Worker.with_guard Worker.incarnation]. fold now.
  rewrite Hc.
  destruct (reserve_repeated (wg w) (Worker.lease_manager w) (from_verified v) (rv_lease_id r) now
    (ev_entropy env) id r) as (g' & m' & -> & Hr'); try done.
  pose proof (committed_snapshot g' pf id r now Hr' Hs Ht) as Hsnap.
  rewrite Hpf in Hsnap at 1 2 3. specialize (Hsnap Hp eq_refl Him).
  destruct (Guard.reservation_snapshot g' pf id now) as [g2 o]. cbn [snd] in Hsnap. subst o.
  unfold resource_success, snapshot_ref. cbn [sn_class]. rewrite <- Hc.
  destruct class; cbn [guard_class mbind option_bind];
    (eexists _, _, _; split_and!; [reflexivity..|]; intros sequence;
     by eapply ack_not_reserved).
Qed.
End Compute.
