(* ===== verification/WorkerDemo.v ===== *)
(** * Concrete runs of the worker

    Witnesses of the worker's theorems, and the run behind the replay finding: a
    reserve request repeated after its cached answer has been dropped is answered
    with the present state of the reservation, which the RESERVE_ACK encoder
    refuses. *)

From Stdlib Require Import ZArith Lia.
From stdpp Require Import base tactics list gmap relations.
From S2P Require Import Prelude Types Pbmux Codec Control ResourceWire ComputeWire BufferWire.
From S2P Require Import Lease ResourceGuard GuardFacts BufferStore Claims BufferFacts BufferInv.
From S2P Require Import BufferRefine BufferSystem ComputeStore WorkerCore WorkerFacts WorkerInv.
From S2P Require Import WorkerCompute WorkerSystem WorkerGuard.

Import Content BufferSpec.

(** A stand-in hasher: it keeps its input and returns the last 32 bytes. *)
Definition toy_update (h chunk : list byte) : list byte := h ++ chunk.
Definition toy_hash (l : list byte) : list byte := drop (length l) (zeros 32 ++ l).

Lemma toy_stream chunks : toy_hash (foldl toy_update [] chunks) = toy_hash (concat chunks).
Proof.
  f_equal. assert (H : forall h, foldl toy_update h chunks = h ++ concat chunks).
  { induction chunks as [|c chunks IH]; intros h; cbn [foldl concat]; [by rewrite app_nil_r|].
    rewrite IH. unfold toy_update. by rewrite app_assoc. }
  apply H.
Qed.

Notation reach := (worker_reachable [] toy_update toy_hash).
Notation submit_to := (Worker.apply_compute_request [] toy_update toy_hash).

Definition bytes_of_entropy (b : byte) : Entropy := Some (fun _ => Some (replicate 16 b)).
Definition env_at (now : Z) (b : byte) : Env :=
  mkEnv now (bytes_of_entropy b) (fun _ => bytes_of_entropy b) true (fun _ => now)
    (fun _ => true) now.
Definition peer : VerifiedSession := mkVerified (replicate 32 Byte.x01) 7.

Definition command (w : Worker.t) (c : ControllerCommand) (now : Z) : Worker.t :=
  fst (Worker.apply_controller_command w peer c (env_at now Byte.x07)).
Definition resource (w : Worker.t) (rid : Z) (req : ResourceRequest) (now : Z) (b : byte) :
    Worker.t :=
  default w (fst <$> Worker.apply_resource_request w peer rid req (env_at now b)).
Definition buffer (w : Worker.t) (req : RemoteBufferRequest) (now : Z) (b : byte) : Worker.t :=
  default w (fst <$> Worker.apply_remote_buffer_request w peer req (env_at now b)).

Lemma command_reach w c now : reach w -> reach (command w c now).
Proof.
  intros (e & w0 & H0 & Hr). exists e, w0. split; [done|]. eapply rtc_r; [exact Hr|].
  apply wk_command.
Qed.

Lemma resource_reach w rid req now b :
  reach w -> typed_resource req ->
  Guard.reservations (Worker.resource_guard
    (Worker.reconcile_expired_controller_lease w now)) !! replicate 16 b = None ->
  nonzero (replicate 16 b) = true -> reach (resource w rid req now b).
Proof.
  intros (e & w0 & H0 & Hr) Ht Hf Hn. unfold resource.
  destruct (Worker.apply_resource_request w peer rid req (env_at now b)) as [[w' r]|] eqn:E;
    [|by exists e, w0]. exists e, w0. split; [done|]. eapply rtc_r; [exact Hr|].
  eapply wk_resource; [exact Ht| |exact E]. intros id Hid. unfold random_nonzero_128 in Hid.
  cbn [env_at ev_entropy bytes_of_entropy draw_nonzero MAX_ZERO_RETRIES] in Hid.
  rewrite Hn in Hid. injection Hid as <-. exact Hf.
Qed.

Lemma buffer_reach w req now b : reach w -> typed req -> reach (buffer w req now b).
Proof.
  intros (e & w0 & H0 & Hr) Ht. unfold buffer.
  destruct (Worker.apply_remote_buffer_request w peer req (env_at now b)) as [[w' r]|] eqn:E;
    [|by exists e, w0]. exists e, w0. split; [done|]. eapply rtc_r; [exact Hr|].
  by eapply wk_buffer.
Qed.

(** ** A worker with a lease, a written buffer and scratch memory *)

Definition cold : Worker.t :=
  match Worker.cold_start (bytes_of_entropy Byte.x02) with
  | Ok w => w
  | Err _ => Worker.mk [] Ws_ColdStart (LeaseManager.new []) Guard.new BufferStore.new
               JobStore.new ∅
  end.
Definition healthy (w : Worker.t) (now : Z) : Worker.t :=
  fst (Worker.record_local_health w (good_sample 0) (env_at now Byte.x00)).

Definition leased : Worker.t :=
  command (healthy (healthy (healthy cold 0) 5000) 10000) Cc_Acquire 10500.
Definition reserved : Worker.t :=
  resource leased 1 (Reserve demo_lease demo_inc Wc_RemoteBufferBytes 5) 11000 Byte.x0a.
Definition committed : Worker.t :=
  resource reserved 2 (Commit demo_lease demo_inc (replicate 16 Byte.x0a)) 11000 Byte.x0b.
Definition filled : Worker.t :=
  buffer (buffer committed (Rb_Alloc demo_lease demo_inc (replicate 16 Byte.x0a) 5 0) 12000
            Byte.x0b)
    (Rb_Put demo_lease demo_inc demo_buf 0 demo_text) 13000 Byte.x0b.
Definition armed : Worker.t :=
  resource (resource filled 3 (Reserve demo_lease demo_inc Wc_NativeOpScratchBytes 1024) 14000
              Byte.x0c)
    4 (Commit demo_lease demo_inc (replicate 16 Byte.x0c)) 14000 Byte.x0d.

Lemma leased_reach : reach leased.
Proof.
  apply command_reach. exists (bytes_of_entropy Byte.x02), cold. split; [reflexivity|].
  do 3 (eapply rtc_r; [|apply wk_health]). apply rtc_refl.
Qed.

Lemma reserved_reach : reach reserved.
Proof. apply resource_reach; [apply leased_reach|done|vm_compute; reflexivity|reflexivity]. Qed.

Lemma committed_reach : reach committed.
Proof. apply resource_reach; [apply reserved_reach|done|vm_compute; reflexivity|reflexivity]. Qed.

Lemma armed_reach : reach armed.
Proof.
  apply resource_reach; [|done|vm_compute; reflexivity|reflexivity].
  apply resource_reach; [|done|vm_compute; reflexivity|reflexivity].
  apply buffer_reach; [|done]. apply buffer_reach; [|done]. apply committed_reach.
Qed.

Definition job : ComputeSubmit :=
  mkComputeSubmit demo_lease demo_inc (replicate 16 Byte.x0c) 1 1 REMOTE_BUFFER_INPUT_KIND
    demo_buf 0 5.

Lemma worker_total_witness :
  is_Some (Worker.apply_resource_request leased peer 1
    (Reserve demo_lease demo_inc Wc_RemoteBufferBytes 5) (env_at 11000 Byte.x0a)) /\
  is_Some (Worker.apply_remote_buffer_request leased peer (Rb_Stat demo_lease demo_inc demo_buf)
    (env_at 11000 Byte.x0a)) /\
  is_Some (submit_to leased peer 1 (Cq_Submit job) (env_at 11000 Byte.x0a)).
Proof.
  apply (worker_total [] toy_update toy_hash).
  - apply leased_reach.
  - done.
  - done.
  - by split.
  - intros id _. vm_compute. reflexivity.
Defined.


(** The answer to the job. *)
Definition answer : ComputeResult :=
  mkComputeResult Js_Completed Cr_None demo_lease demo_inc
    (Some (mkComputeJobRef (replicate 16 Byte.x0e) 1 1)) (Some (toy_hash demo_text)).

Lemma compute_responses_encodable_witness :
  exists frame, build_compute_response_frame (Cx_Result answer) 5 9 = Ok frame.
Proof.
  eapply (compute_responses_encodable [] toy_update toy_hash armed peer 5 (Cq_Submit job)
    (env_at 15000 Byte.x0e)).
  - apply armed_reach.
  - by split.
  - done.
  - vm_compute. reflexivity.
Defined.

(** ** A reserve replayed late *)

(** The lease is renewed for five minutes after the commit. *)
Definition aged : Worker.t :=
  foldl (fun w k => command w (Cc_Renew demo_lease k) (60000 + 50000 * k)) committed
    [0; 1; 2; 3; 4; 5].

Lemma aged_reach : reach aged.
Proof. unfold aged. cbn [foldl]. do 6 apply command_reach. apply committed_reach. Qed.

Definition held_since_reserve : Reservation :=
  mkReservation (replicate 32 Byte.x01) demo_lease demo_inc 1 Rc_RemoteBufferBytes 5 41000
    Rv_Committed None.

Lemma late_reserve_replay_unencodable_witness :
  exists w' res ref,
    Worker.apply_resource_request aged peer 1 (Reserve demo_lease demo_inc Wc_RemoteBufferBytes 5)
      (env_at 320000 Byte.x0e) = Some (w', (Rk_ReserveAck, res)) /\
    rs_state res = Rs_Completed /\ rs_reservation res = Some ref /\
    rf_reservation_id ref = replicate 16 Byte.x0a /\ rf_state ref = Wr_Committed /\
    forall sequence, build_resource_result_frame Rk_ReserveAck res 1 sequence = Err bad_resource.
Proof.
  pose proof (late_reserve_replay_unencodable [] toy_update toy_hash aged peer
    (replicate 16 Byte.x0a) held_since_reserve Wc_RemoteBufferBytes (env_at 320000 Byte.x0e)) as H.
  cbv zeta in H. cbn [held_since_reserve rv_lease_id rv_request_id rv_bytes rv_incarnation
    rv_state rv_peer_id rv_class env_at ev_now_ms] in H.
  apply H; clear H.
  - apply aged_reach.
  - vm_compute. reflexivity.
  - reflexivity.
  - reflexivity.
  - vm_compute. reflexivity.
  - reflexivity.
  - done.
  - vm_compute. reflexivity.
  - intros e He.
    assert (Hold : from_option (fun e => TERMINAL_RETENTION_MS <? sat_sub 320000 (rc_terminal_at_ms e))
      false (Some e) = true) by (rewrite <- He; vm_compute; reflexivity).
    by apply Z.ltb_lt.
  - vm_compute. reflexivity.
Defined.
