(* ===== verification/Pairing.v ===== *)
(** * pb-secure: the pairing actor and the pairing guard

    Models [crates/pb-secure/src/pairing.rs].  [PairingActor] collects the local
    and the remote confirmation of a short authentication string and emits the
    intent to persist the peer; [PairingGuard] counts SAS mismatches and enforces
    a cooldown against the wall clock.  A [&mut self] method returns the new
    receiver together with its [Mutation]. *)

From Stdlib Require Import ZArith Lia.
From stdpp Require Import base tactics list.
From S2P Require Import Prelude Types.

Inductive PersistOutcome : Type := Po_Succeeded | Po_Failed.

#[export] Instance PersistOutcome_eq_dec : EqDecision PersistOutcome.
Proof. solve_decision. Defined.

Record PairingTransition : Type := mkTransition {
  pt_state : PairingState;
  pt_send_pair_confirm : bool;
  pt_persist_commit : bool;
}.

Record PairingError : Type := mkPairingError { pe_reason : ReasonCode }.

(** [prior_committed_key_matches] *)
Definition prior_committed_key_matches (committed presented : list byte) : bool :=
  bool_decide (committed = presented).

Module PairingActor.

Record t : Type := mk {
  state : PairingState;
  local_confirmed : bool;
  peer_confirmed : bool;
  pair_confirm_sent : bool;
  commit_intent_emitted : bool;
  fresh_sas_display_required : bool;
}.

Definition new : t := mk Ps_SasPending false false false false true.

Definition with_state (a : t) (s : PairingState) : t :=
  mk s (local_confirmed a) (peer_confirmed a) (pair_confirm_sent a)
    (commit_intent_emitted a) (fresh_sas_display_required a).

Definition confirmation_transition (a : t) (confirmation_changed send_pair_confirm : bool) :
    t * Mutation PairingTransition :=
  if commit_intent_emitted a then
    (a, mkMutation (mkTransition (state a) false false) false)
  else
    let prior_state := state a in
    let a :=
      if local_confirmed a && peer_confirmed a then with_state a Ps_MutualConfirmed
      else if local_confirmed a && negb (peer_confirmed a) then with_state a Ps_LocalConfirmed
      else if peer_confirmed a && negb (local_confirmed a) then with_state a Ps_PeerConfirmed
      else a in
    (a, mkMutation (mkTransition (state a) send_pair_confirm false)
          (confirmation_changed || send_pair_confirm || negb (bool_decide (prior_state = state a)))).

Definition confirm_local_basis (a : t) : t * Mutation PairingTransition :=
  let newly_confirmed := negb (local_confirmed a) in
  let send := negb (pair_confirm_sent a) in
  let a := mk (state a) true (peer_confirmed a) true (commit_intent_emitted a)
             (fresh_sas_display_required a) in
  confirmation_transition a newly_confirmed send.

Definition local_confirm (a : t) : t * Mutation PairingTransition := confirm_local_basis a.

Definition prior_committed_local_basis (a : t) (committed presented : list byte) :
    t * Mutation PairingTransition :=
  if negb (prior_committed_key_matches committed presented) then
    (a, mkMutation (mkTransition (state a) false false) false)
  else confirm_local_basis a.

Definition peer_confirm (a : t) : t * Mutation PairingTransition :=
  let changed := negb (peer_confirmed a) in
  let a := mk (state a) (local_confirmed a) true (pair_confirm_sent a)
             (commit_intent_emitted a) (fresh_sas_display_required a) in
  confirmation_transition a changed false.

Definition begin_trust_commit (a : t) : t * Mutation PairingTransition :=
  let should_commit :=
    bool_decide (state a = Ps_MutualConfirmed) && negb (commit_intent_emitted a) in
  let a :=
    if should_commit then
      mk Ps_TrustCommitting (local_confirmed a) (peer_confirmed a) (pair_confirm_sent a) true
        (fresh_sas_display_required a)
    else a in
  (a, mkMutation (mkTransition (state a) false should_commit) should_commit).

Definition persist_result (a : t) (outcome : PersistOutcome) :
    t * result (Mutation PairingTransition) PairingError :=
  if negb (bool_decide (state a = Ps_TrustCommitting)) || negb (commit_intent_emitted a) then
    (a, Err (mkPairingError Rc_PairPersistFailed))
  else
    match outcome with
    | Po_Succeeded =>
        let a := with_state a Ps_Paired in
        (a, Ok (mkMutation (mkTransition (state a) false false) true))
    | Po_Failed =>
        (with_state a Ps_PairingFailed, Err (mkPairingError Rc_PairPersistFailed))
    end.

(** ** Runs of the actor *)

Inductive Op : Type :=
| LocalConfirm
| PriorCommitted (committed presented : list byte)
| PeerConfirm
| BeginCommit
| Persist (outcome : PersistOutcome).

Definition apply (a : t) (op : Op) : t * result (Mutation PairingTransition) PairingError :=
  match op with
  | LocalConfirm => let '(a, m) := local_confirm a in (a, Ok m)
  | PriorCommitted c p => let '(a, m) := prior_committed_local_basis a c p in (a, Ok m)
  | PeerConfirm => let '(a, m) := peer_confirm a in (a, Ok m)
  | BeginCommit => let '(a, m) := begin_trust_commit a in (a, Ok m)
  | Persist o => persist_result a o
  end.

Fixpoint run (a : t) (ops : list Op) :
    t * list (result (Mutation PairingTransition) PairingError) :=
  match ops with
  | [] => (a, [])
  | op :: rest =>
      let '(a, r) := apply a op in
      let '(a, rs) := run a rest in (a, r :: rs)
  end.

(** The operations that give a local basis for trust. *)
Definition local_basis (op : Op) : bool :=
  match op with
  | LocalConfirm => true
  | PriorCommitted c p => prior_committed_key_matches c p
  | _ => false
  end.
Definition is_peer (op : Op) : bool := match op with PeerConfirm => true | _ => false end.
Definition is_begin (op : Op) : bool := match op with BeginCommit => true | _ => false end.

(** ** Specification: the actor as a function of what has happened

    Before the commit intent the actor is the pair of confirmations; the first
    [BeginCommit] after both moves it to [Committing]; the first persist outcome
    after that decides it for good. *)

Inductive Phase : Type :=
| Collecting (local peer : bool)
| Committing
| Decided (paired : bool).

Definition phase_step (p : Phase) (op : Op) : Phase :=
  match p with
  | Collecting l r =>
      match op with
      | BeginCommit => if l && r then Committing else p
      | _ => Collecting (l || local_basis op) (r || is_peer op)
      end
  | Committing =>
      match op with Persist o => Decided (bool_decide (o = Po_Succeeded)) | _ => p end
  | Decided _ => p
  end.

Definition phase (ops : list Op) : Phase := foldl phase_step (Collecting false false) ops.

Definition phase_state (p : Phase) : PairingState :=
  match p with
  | Collecting true true => Ps_MutualConfirmed
  | Collecting true false => Ps_LocalConfirmed
  | Collecting false true => Ps_PeerConfirmed
  | Collecting false false => Ps_SasPending
  | Committing => Ps_TrustCommitting
  | Decided true => Ps_Paired
  | Decided false => Ps_PairingFailed
  end.

(** What one operation reports: PAIR_CONFIRM is sent when the local basis first
    appears, the commit intent when the phase enters [Committing]. *)
Definition phase_sends (p : Phase) (op : Op) : bool :=
  match p with Collecting false _ => local_basis op | _ => false end.
Definition phase_commits (p : Phase) (op : Op) : bool :=
  match p with Collecting true true => is_begin op | _ => false end.

Definition phase_answer (p : Phase) (op : Op) :
    result (PairingState * bool * bool) PairingError :=
  match op, p with
  | Persist Po_Succeeded, Committing => Ok (Ps_Paired, false, false)
  | Persist _, _ => Err (mkPairingError Rc_PairPersistFailed)
  | _, _ => Ok (phase_state (phase_step p op), phase_sends p op, phase_commits p op)
  end.

(** The observable part of an answer. *)
Definition observe (r : result (Mutation PairingTransition) PairingError) :
    result (PairingState * bool * bool) PairingError :=
  match r with
  | Ok m => Ok (pt_state (value m), pt_send_pair_confirm (value m), pt_persist_commit (value m))
  | Err e => Err e
  end.

Fixpoint answers (p : Phase) (ops : list Op) :
    list (result (PairingState * bool * bool) PairingError) :=
  match ops with
  | [] => []
  | op :: rest => phase_answer p op :: answers (phase_step p op) rest
  end.

(** The actor that stands for a phase. *)
Definition rel (a : t) (p : Phase) : Prop :=
  state a = phase_state p /\ pair_confirm_sent a = local_confirmed a /\
  match p with
  | Collecting l r =>
      local_confirmed a = l /\ peer_confirmed a = r /\ commit_intent_emitted a = false
  | _ => local_confirmed a = true /\ peer_confirmed a = true /\ commit_intent_emitted a = true
  end.

Lemma apply_rel a p op : rel a p ->
  rel (fst (apply a op)) (phase_step p op) /\ observe (snd (apply a op)) = phase_answer p op.
Proof.
  destruct a as [st l r s c f]. unfold rel.
  destruct p as [[] []| |[]]; cbn; intros (-> & -> & Hp); destruct_and? Hp; simplify_eq/=;
    destruct op as [|k k'| | |[]]; cbn;
    unfold prior_committed_local_basis, persist_result, begin_trust_commit, phase_sends,
      local_basis; cbn; try done;
    destruct (prior_committed_key_matches k k'); done.
Qed.

Lemma pairing_run_rel ops : forall a p, rel a p ->
  rel (fst (run a ops)) (foldl phase_step p ops) /\
  observe <$> snd (run a ops) = answers p ops.
Proof.
  induction ops as [|op ops IH]; intros a p Hr; [done|]. cbn [run foldl answers].
  destruct (apply_rel a p op Hr) as [H1 H2].
  destruct (apply a op) as [a' r'] eqn:E. cbn [fst snd] in *.
  destruct (IH a' (phase_step p op) H1) as [H3 H4].
  destruct (run a' ops) as [a'' rs]. cbn [fst snd] in *. split; [done|].
  cbn. by rewrite H2, H4.
Qed.

(** How often a reported flag is raised. *)
Definition raised (f : PairingState * bool * bool -> bool)
    (r : result (PairingState * bool * bool) PairingError) : bool :=
  match r with Ok x => f x | Err _ => false end.
Definition times (f : PairingState * bool * bool -> bool)
    (rs : list (result (PairingState * bool * bool) PairingError)) : nat :=
  length (List.filter (raised f) rs).

Definition sends (x : PairingState * bool * bool) : bool := x.1.2.
Definition commits (x : PairingState * bool * bool) : bool := x.2.

(** Whether PAIR_CONFIRM, resp. the commit intent, is already behind a phase. *)
Definition confirmed (p : Phase) : nat :=
  match p with Collecting false _ => 0%nat | _ => 1%nat end.
Definition intended (p : Phase) : nat := match p with Collecting _ _ => 0%nat | _ => 1%nat end.

Lemma times_answers ops : forall p,
  (times sends (answers p ops) + confirmed p = confirmed (foldl phase_step p ops))%nat /\
  (times commits (answers p ops) + intended p = intended (foldl phase_step p ops))%nat.
Proof.
  induction ops as [|op ops IH]; intros p; [done|]. cbn [answers foldl].
  destruct (IH (phase_step p op)) as [<- <-]. unfold times. cbn [List.filter].
  destruct p as [[] []| |[]]; destruct op as [|k k'| | |[]]; cbn;
    try destruct (prior_committed_key_matches k k'); cbn; lia.
Qed.

(** How the phase [Decided true] is reached. *)
Lemma collecting_history ops l r : phase ops = Collecting l r ->
  (l = true -> Exists (fun op => local_basis op = true) ops) /\
  (r = true -> Exists (fun op => is_peer op = true) ops).
Proof.
  revert l r. induction ops as [|op ops IH] using rev_ind; intros l r; cbn.
  { by intros [= <- <-]. }
  unfold phase. rewrite foldl_snoc. fold (phase ops). intros E.
  assert (exists l' r', phase ops = Collecting l' r') as (l' & r' & E').
  { destruct (phase ops) as [l' r'| |[]]; [by eauto| |done..].
    by destruct op. }
  destruct (IH l' r' E') as [H1 H2]. rewrite E' in E. rewrite !Exists_app, !Exists_cons.
  destruct op; cbn in E; simplify_eq/=; rewrite ?orb_false_r, ?orb_true_iff;
    try (destruct (l' && r'); simplify_eq/=); naive_solver.
Qed.

Lemma committing_history ops : phase ops = Committing ->
  exists l1 l2, ops = l1 ++ BeginCommit :: l2 /\ phase l1 = Collecting true true /\
    Forall (fun op => forall o, op <> Persist o) l2.
Proof.
  induction ops as [|op ops IH] using rev_ind; [done|].
  unfold phase. rewrite foldl_snoc. fold (phase ops). intros E.
  destruct (phase ops) as [l r| |[]] eqn:E'; [|destruct op; try done|done..].
  { destruct op; try done. cbn in E. destruct l, r; try done. exists ops, [].
    split_and!; [done|exact E'|constructor]. }
  all: destruct (IH eq_refl) as (l1 & l2 & -> & H1 & H2).
  all: eexists l1, (l2 ++ [_]); rewrite <- app_assoc; split_and!; [done|done|].
  all: apply Forall_app; split; [done|]; by repeat constructor.
Qed.

Lemma paired_history ops : phase ops = Decided true ->
  exists l1 l2 l3, ops = l1 ++ BeginCommit :: l2 ++ Persist Po_Succeeded :: l3 /\
    phase l1 = Collecting true true /\ Forall (fun op => forall o, op <> Persist o) l2.
Proof.
  induction ops as [|op ops IH] using rev_ind; [done|].
  unfold phase. rewrite foldl_snoc. fold (phase ops). intros E.
  destruct (phase ops) as [l r| |[]] eqn:E'.
  - destruct op; cbn in E; try done. by destruct (l && r).
  - destruct op as [| | | |o]; try done. injection E as Eo.
    apply bool_decide_eq_true in Eo as ->.
    destruct (committing_history ops E') as (l1 & l2 & -> & H1 & H2).
    exists l1, l2, []. by rewrite <- app_assoc.
  - destruct (IH eq_refl) as (l1 & l2 & l3 & -> & H1 & H2).
    exists l1, l2, (l3 ++ [op]). split_and!; [|done..]. rewrite <- !app_assoc. cbn.
    by rewrite <- app_assoc.
  - done.
Qed.

(** C18: Over any run the actor answers exactly as the phase specification: it reports
    PAIR_CONFIRM at most once and the commit intent at most once, and it is [Paired]
    only when a local basis and a peer confirmation preceded a commit whose first
    persist outcome was success. *)
Theorem pairing_actor_refines ops :
  let '(a, rs) := run new ops in
  state a = phase_state (phase ops) /\
  observe <$> rs = answers (Collecting false false) ops /\
  (times sends (observe <$> rs) <= 1)%nat /\ (times commits (observe <$> rs) <= 1)%nat /\
  (state a = Ps_Paired -> exists l1 l2 l3,
     ops = l1 ++ BeginCommit :: l2 ++ Persist Po_Succeeded :: l3 /\
     Exists (fun op => local_basis op = true) l1 /\ Exists (fun op => is_peer op = true) l1 /\
     Forall (fun op => forall o, op <> Persist o) l2).
Proof.
  destruct (pairing_run_rel ops new (Collecting false false) ltac:(done)) as [Hr Ho].
  destruct (run new ops) as [a rs]. cbn [fst snd] in *. fold (phase ops) in Hr.
  destruct (times_answers ops (Collecting false false)) as [H1 H2]. fold (phase ops) in H1, H2.
  destruct Hr as (Hs & _ & _). rewrite Ho. split_and!; try done.
  - rewrite Nat.add_0_r in H1. rewrite H1. destruct (phase ops) as [[] ?| |]; cbn; lia.
  - rewrite Nat.add_0_r in H2. rewrite H2. destruct (phase ops); cbn; lia.
  - rewrite Hs. intros Hp. assert (phase ops = Decided true) as Hd.
    { by destruct (phase ops) as [[] []| |[]]. }
    destruct (paired_history ops Hd) as (l1 & l2 & l3 & -> & H3 & H4).
    destruct (collecting_history l1 true true H3) as [H5 H6].
    exists l1, l2, l3. split_and!; auto.
Qed.

End PairingActor.

(** ** The pairing guard *)

Definition U8_MAX : Z := 255.

Module PairingGuard.

Record t : Type := mk {
  mismatch_count : Z;
  cooldown_until_wall_ms : option Z;
  updated_wall_ms : Z;
}.

Definition new (now_ms : Z) : t := mk 0 None now_ms.

Definition admit_ (g : t) (now_ms : Z) : t * Mutation bool :=
  match cooldown_until_wall_ms g with
  | None => (g, mkMutation true false)
  | Some until =>
      if now_ms <? updated_wall_ms g then
        (mk (mismatch_count g) (Some (sat_add64 now_ms PAIRING_COOLDOWN_MS)) now_ms,
         mkMutation false true)
      else if now_ms <? until then (g, mkMutation false false)
      else (mk 0 None now_ms, mkMutation true true)
  end.

Definition record_mismatch (g : t) (now_ms : Z) : t * Mutation unit :=
  let count := Z.min (mismatch_count g + 1) U8_MAX in
  (mk count
      (if PAIRING_MISMATCH_LIMIT <=? count
       then Some (sat_add64 now_ms PAIRING_COOLDOWN_MS)
       else cooldown_until_wall_ms g) now_ms,
   mkMutation tt true).

Definition user_cancelled (g : t) : Mutation unit := mkMutation tt false.

Definition paired (g : t) (now_ms : Z) : t * Mutation unit :=
  let changed := negb (mismatch_count g =? 0) || is_some (cooldown_until_wall_ms g) in
  (mk 0 None now_ms, mkMutation tt changed).

(** ** Specification: strikes since the last success, and the moment they count from *)

Inductive Op : Type := Admit (now : Z) | Mismatch (now : Z) | Cancelled | Paired (now : Z).

Definition op_time (op : Op) : option Z :=
  match op with Admit n | Mismatch n | Paired n => Some n | Cancelled => None end.

(** The answer of an admission, [None] for the other operations. *)
Definition apply (g : t) (op : Op) : t * option bool :=
  match op with
  | Admit now => let '(g, m) := admit_ g now in (g, Some (value m))
  | Mismatch now => (fst (record_mismatch g now), None)
  | Cancelled => (g, None)
  | Paired now => (fst (paired g now), None)
  end.

Fixpoint run (g : t) (ops : list Op) : t * list (option bool) :=
  match ops with
  | [] => (g, [])
  | op :: rest =>
      let '(g, r) := apply g op in
      let '(g, rs) := run g rest in (g, r :: rs)
  end.

Record Lock : Type := mkLock { strikes : Z; since : Z }.

(** Three strikes lock pairing until ten minutes after the last one; a clock that
    runs backwards restarts the ten minutes and never shortens them. *)
Definition lock_step (l : Lock) (op : Op) : Lock * option bool :=
  match op with
  | Admit now =>
      if strikes l <? PAIRING_MISMATCH_LIMIT then (l, Some true)
      else if now <? since l then (mkLock (strikes l) now, Some false)
      else if now <? since l + PAIRING_COOLDOWN_MS then (l, Some false)
      else (mkLock 0 now, Some true)
  | Mismatch now => (mkLock (strikes l + 1) now, None)
  | Cancelled => (l, None)
  | Paired now => (mkLock 0 now, None)
  end.

Fixpoint lock_run (l : Lock) (ops : list Op) : Lock * list (option bool) :=
  match ops with
  | [] => (l, [])
  | op :: rest =>
      let '(l, r) := lock_step l op in
      let '(l, rs) := lock_run l rest in (l, r :: rs)
  end.

Definition rel (g : t) (l : Lock) : Prop :=
  0 <= strikes l /\ mismatch_count g = Z.min (strikes l) U8_MAX /\
  updated_wall_ms g = since l /\ since l + PAIRING_COOLDOWN_MS <= U64_MAX /\
  cooldown_until_wall_ms g =
    if PAIRING_MISMATCH_LIMIT <=? strikes l then Some (since l + PAIRING_COOLDOWN_MS) else None.

(** The clock is far from the end of its range. *)
Definition timely (op : Op) : Prop :=
  match op_time op with Some n => n + PAIRING_COOLDOWN_MS <= U64_MAX | None => True end.

Lemma guard_apply_rel g l op : rel g l -> timely op ->
  rel (fst (apply g op)) (fst (lock_step l op)) /\
  snd (apply g op) = snd (lock_step l op).
Proof.
  destruct g as [c u w], l as [k s]. unfold rel, timely. cbn.
  intros (Hk & -> & -> & Hs & ->) Ht.
  destruct op as [n|n| |n]; cbn in *; unfold admit_, record_mismatch, sat_add64; cbn.
  - rewrite Z.ltb_antisym. destruct (Z.leb_spec PAIRING_MISMATCH_LIMIT k) as [Hl|Hl]; cbn [negb];
      repeat case_match; bool_hyps; cbn [fst snd mismatch_count cooldown_until_wall_ms
        updated_wall_ms strikes since value]; split_and?; try done; try lia; cbn in *;
      first [f_equal; lia | exfalso; lia].
  - split; [|done]. split_and?; try lia.
    unfold U8_MAX, PAIRING_MISMATCH_LIMIT in *. rewrite (Z.min_l (n + _)) by lia.
    destruct (Z.leb_spec 3 (k + 1)), (Z.leb_spec 3 (Z.min (Z.min k 255 + 1) 255)),
      (Z.leb_spec 3 k); done || lia.
  - done.
  - by split_and?.
Qed.

(** C19: For every sequence of admissions, mismatches, cancellations and successes the
    guard with its saturating byte counter and optional deadline answers exactly as
    the specification: three mismatches since the last success refuse pairing until
    ten minutes after the last mismatch, and moving the clock backwards restarts the
    ten minutes. *)
Theorem pairing_guard_refines start ops :
  start + PAIRING_COOLDOWN_MS <= U64_MAX -> Forall timely ops ->
  rel (fst (run (new start) ops)) (fst (lock_run (mkLock 0 start) ops)) /\
  snd (run (new start) ops) = snd (lock_run (mkLock 0 start) ops).
Proof.
  intros Hs. assert (Hr : rel (new start) (mkLock 0 start)) by (unfold rel; cbn; split_and!; done || lia).
  revert Hr. generalize (new start) (mkLock 0 start). clear Hs start.
  induction ops as [|op ops IH]; intros g l Hr Ht; [done|].
  apply Forall_cons in Ht as [Hop Hops]. destruct (guard_apply_rel g l op Hr Hop) as [H1 H2].
  cbn [run lock_run]. destruct (apply g op) as [g' r], (lock_step l op) as [l' r'].
  cbn [fst snd] in *. subst r'. specialize (IH g' l' H1 Hops).
  destruct (run g' ops), (lock_run l' ops). cbn in *. by destruct IH as [? ->].
Qed.

(** Three mismatches, a refused attempt, a clock set back, and admission at last. *)
Lemma pairing_guard_refines_witness :
  let ops := [Mismatch 1000; Mismatch 2000; Mismatch 3000; Admit 4000; Admit 500;
              Admit 600499; Admit 600500] in
  snd (run (new 0) ops) = [None; None; None; Some false; Some false; Some false; Some true] /\
  snd (run (new 0) ops) = snd (lock_run (mkLock 0 0) ops).
Proof.
  intros ops. split; [reflexivity|].
  apply (pairing_guard_refines 0 ops); [done|]. by repeat constructor.
Defined.

End PairingGuard.
