(* ===== verification/Sas.v ===== *)
(** * pb-secure: the short authentication string

    Models [derive_sas_parts] and [derive_sas] of [crates/pb-secure/src/lib.rs]:
    rejection sampling of a 24-bit candidate from a counter-mode hash of the Noise
    handshake hash, printed as six decimal digits.  SHA-256 is the parameter
    [sha256] (one call stands for new, the updates in order and finalize); a text
    is the list of its bytes.  The loop has explicit fuel: [None] is a loop that has
    not returned yet.  The counter is 32 bits wide and the loop stops with an error
    when it is exhausted, so 2^32 rounds are always enough. *)

From Stdlib Require Import ZArith Lia.
From Stdlib Require Strings.Byte.
From stdpp Require Import base tactics list list_numbers.
From S2P Require Import Prelude Types.

(** [b"PHONEBOOST-SAS-V1\0"] *)
Definition SAS_DOMAIN : list byte :=
  map z2b [80; 72; 79; 78; 69; 66; 79; 79; 83; 84; 45; 83; 65; 83; 45; 86; 49; 0].

(** The variants of [SecureError] that [derive_sas_parts] can return. *)
Inductive SecureError : Type := Se_SasCounterExhausted.

Definition SAS_CANDIDATES : Z := 16000000.

(** A decimal digit as ASCII, and [format!("{:06}", n)] for [n] below one million. *)
Definition digit (d : Z) : byte := z2b (48 + d).
Definition format06 (n : Z) : list byte :=
  [digit (n / 100000 mod 10); digit (n / 10000 mod 10); digit (n / 1000 mod 10);
   digit (n / 100 mod 10); digit (n / 10 mod 10); digit (n mod 10)].

(** [counter.checked_add(1)] on [u32]. *)
Definition checked_succ32 (c : Z) : option Z := if c + 1 <=? U32_MAX then Some (c + 1) else None.

Section Sas.
Context (sha256 : list byte -> list byte).

Definition sas_material (handshake_hash : list byte) : list byte :=
  sha256 (SAS_DOMAIN ++ handshake_hash).

(** [u32::from_be_bytes([0, block[0], block[1], block[2]])] *)
Definition sas_candidate (material : list byte) (counter : Z) : Z :=
  let block := sha256 (material ++ to_be 4 counter) in
  be_val (Byte.x00 :: slice block 0 3).

Fixpoint sas_loop (fuel : nat) (material : list byte) (counter : Z) :
    option (result (list byte) SecureError) :=
  match fuel with
  | O => None
  | S fuel =>
      let candidate_n := sas_candidate material counter in
      if candidate_n <? SAS_CANDIDATES then Some (Ok (format06 (candidate_n mod 1000000)))
      else
        match checked_succ32 counter with
        | None => Some (Err Se_SasCounterExhausted)
        | Some counter => sas_loop fuel material counter
        end
  end.

Definition derive_sas (fuel : nat) (handshake_hash : list byte) :
    option (result (list byte) SecureError) :=
  sas_loop fuel (sas_material handshake_hash) 0.

(** ** Facts *)

Lemma candidate_range material counter :
  (forall m, length (sha256 m) = 32%nat) -> 0 <= sas_candidate material counter < 2 ^ 24.
Proof.
  intros H. unfold sas_candidate.
  pose proof (be_val_range (slice (sha256 (material ++ to_be 4 counter)) 0 3)) as Hr.
  rewrite length_slice in Hr by (rewrite H; lia).
  change (be_val (Byte.x00 :: ?l)) with (0 * 256 ^ Z.of_nat (length l) + be_val l).
  change (256 ^ Z.of_nat 3) with (2 ^ 24) in Hr. lia.
Qed.

(** The loop returns at the first accepted candidate. *)
Lemma sas_loop_first material k : forall counter fuel,
  (k < fuel)%nat -> counter + Z.of_nat k <= U32_MAX ->
  (forall i, (i < k)%nat -> SAS_CANDIDATES <= sas_candidate material (counter + Z.of_nat i)) ->
  sas_candidate material (counter + Z.of_nat k) < SAS_CANDIDATES ->
  sas_loop fuel material counter =
    Some (Ok (format06 (sas_candidate material (counter + Z.of_nat k) mod 1000000))).
Proof.
  induction k as [|k IH]; intros counter [|fuel] Hf Hc Hrej Hacc; try lia; cbn [sas_loop].
  - rewrite Z.add_0_r in *. by rewrite (proj2 (Z.ltb_lt _ _)).
  - pose proof (Hrej 0%nat ltac:(lia)) as H0. rewrite Z.add_0_r in H0.
    rewrite (proj2 (Z.ltb_ge _ _)) by done. unfold checked_succ32.
    rewrite (proj2 (Z.leb_le _ _)) by lia.
    replace (counter + Z.of_nat (S k)) with (counter + 1 + Z.of_nat k) in * by lia.
    apply IH; [lia|lia| |done]. intros i Hi.
    replace (counter + 1 + Z.of_nat i) with (counter + Z.of_nat (S i)) by lia.
    apply Hrej. lia.
Qed.

(** And with an error when every candidate up to the counter's end is rejected. *)
Lemma sas_loop_exhausted material n : forall counter fuel,
  counter + Z.of_nat n = U32_MAX -> (n < fuel)%nat ->
  (forall i, (i <= n)%nat -> SAS_CANDIDATES <= sas_candidate material (counter + Z.of_nat i)) ->
  sas_loop fuel material counter = Some (Err Se_SasCounterExhausted).
Proof.
  induction n as [|n IH]; intros counter [|fuel] Hc Hf Hrej; try lia; cbn [sas_loop];
    pose proof (Hrej 0%nat ltac:(lia)) as H0; rewrite Z.add_0_r in H0;
    rewrite (proj2 (Z.ltb_ge _ _)) by done; unfold checked_succ32.
  - by rewrite (proj2 (Z.leb_gt _ _)) by lia.
  - rewrite (proj2 (Z.leb_le _ _)) by lia. apply IH; [lia|lia|]. intros i Hi.
    replace (counter + 1 + Z.of_nat i) with (counter + Z.of_nat (S i)) by lia.
    apply Hrej. lia.
Qed.

(** The first accepted counter value, or none. *)
Lemma first_accepted material (n : nat) :
  (exists k, (k <= n)%nat /\ sas_candidate material (Z.of_nat k) < SAS_CANDIDATES /\
     forall i, (i < k)%nat -> SAS_CANDIDATES <= sas_candidate material (Z.of_nat i)) \/
  (forall i, (i <= n)%nat -> SAS_CANDIDATES <= sas_candidate material (Z.of_nat i)).
Proof.
  induction n as [|n [(k & Hk & Ha & Hr)|IH]].
  - destruct (Z.lt_ge_cases (sas_candidate material (Z.of_nat 0)) SAS_CANDIDATES).
    + left. exists 0%nat. split_and!; [lia|done|lia].
    + right. intros i Hi. by replace i with 0%nat by lia.
  - left. exists k. split_and!; [lia|done|done].
  - destruct (Z.lt_ge_cases (sas_candidate material (Z.of_nat (S n))) SAS_CANDIDATES).
    + left. exists (S n). split_and!; [lia|done|]. intros i Hi. apply IH. lia.
    + right. intros i Hi. destruct (decide (i = S n)) as [->|]; [done|]. apply IH. lia.
Qed.

End Sas.

(** ** Reading a decimal text back *)

(** [str::parse::<i32>]: an optional sign and decimal digits, within the range. *)
Fixpoint parse_digits (acc : Z) (l : list byte) : option Z :=
  match l with
  | [] => Some acc
  | b :: l =>
      if (48 <=? b2z b) && (b2z b <=? 57) then parse_digits (10 * acc + (b2z b - 48)) l
      else None
  end.

Definition parse_i32 (l : list byte) : option Z :=
  let number (sign : Z) (digits : list byte) :=
    match digits with
    | [] => None
    | _ => v ← parse_digits 0 digits;
           if (- 2 ^ 31 <=? sign * v) && (sign * v <? 2 ^ 31) then Some (sign * v) else None
    end in
  match l with
  | b :: rest =>
      if b2z b =? 45 then number (-1) rest
      else if b2z b =? 43 then number 1 rest
      else number 1 l
  | [] => None
  end.

Lemma b2z_digit d : 0 <= d <= 9 -> b2z (digit d) = 48 + d.
Proof. intros H. unfold digit. rewrite b2z_z2b. apply Z.mod_small. lia. Qed.

Lemma parse_digit acc d l : 0 <= d <= 9 ->
  parse_digits acc (digit d :: l) = parse_digits (10 * acc + d) l.
Proof.
  intros H. cbn [parse_digits]. rewrite (b2z_digit d H).
  rewrite !(proj2 (Z.leb_le _ _)) by lia. cbn [andb]. f_equal. lia.
Qed.

Lemma digit_range n : 0 <= n mod 10 <= 9.
Proof. pose proof (Z.mod_pos_bound n 10 ltac:(lia)). lia. Qed.

Lemma parse_format06 n : 0 <= n < 1000000 -> parse_i32 (format06 n) = Some n.
Proof.
  intros Hn. unfold parse_i32, format06.
  pose proof (digit_range (n / 100000)).
  rewrite b2z_digit by done.
  rewrite !(proj2 (Z.eqb_neq _ _)) by lia.
  rewrite !parse_digit by apply digit_range. cbn [parse_digits mbind option_bind].
  assert (E : 10 * (10 * (10 * (10 * (10 * (10 * 0 + n / 100000 mod 10) + n / 10000 mod 10)
     + n / 1000 mod 10) + n / 100 mod 10) + n / 10 mod 10) + n mod 10 = n).
  { Z.div_mod_to_equations. lia. }
  rewrite E, Z.mul_1_l. by rewrite (proj2 (Z.leb_le _ _)), (proj2 (Z.ltb_lt _ _)) by lia.
Qed.

Lemma format06_digits n : 0 <= n < 1000000 ->
  length (format06 n) = 6%nat /\ Forall (fun b => 48 <= b2z b <= 57) (format06 n).
Proof.
  intros Hn. split; [done|].
  repeat constructor; rewrite b2z_digit; try apply digit_range;
    match goal with |- context [?x mod 10] => pose proof (digit_range x); lia end.
Qed.

(** C20: Deriving the short authentication string always returns: either six decimal
    digits that read back as the first accepted candidate modulo one million, or the
    counter error after all 2^32 candidates were rejected; extra fuel changes nothing. *)
Theorem derive_sas_total sha256 hash fuel :
  (forall m, length (sha256 m) = 32%nat) -> Z.of_nat fuel = 2 ^ 32 ->
  let candidate := sas_candidate sha256 (sas_material sha256 hash) in
  (exists k text, (k < fuel)%nat /\ candidate (Z.of_nat k) < SAS_CANDIDATES /\
     (forall i, (i < k)%nat -> SAS_CANDIDATES <= candidate (Z.of_nat i)) /\
     (forall more, (k < more)%nat -> derive_sas sha256 more hash = Some (Ok text)) /\
     length text = 6%nat /\ Forall (fun b => 48 <= b2z b <= 57) text /\
     parse_i32 text = Some (candidate (Z.of_nat k) mod 1000000)) \/
  ((forall i, 0 <= i < 2 ^ 32 -> SAS_CANDIDATES <= candidate i) /\
   derive_sas sha256 fuel hash = Some (Err Se_SasCounterExhausted)).
Proof.
  intros Hlen Hf candidate. set (material := sas_material sha256 hash).
  destruct (first_accepted sha256 material (fuel - 1)) as [(k & Hk & Ha & Hr)|Hr].
  - left. pose proof (candidate_range sha256 material (Z.of_nat k) Hlen) as Hc.
    pose proof (Z.mod_pos_bound (candidate (Z.of_nat k)) 1000000 ltac:(lia)) as Hm.
    exists k, (format06 (candidate (Z.of_nat k) mod 1000000)).
    split_and!; [lia|done|done| |by apply format06_digits..|by apply parse_format06].
    intros more Hm'. unfold derive_sas. fold material.
    rewrite (sas_loop_first sha256 material k 0 more); try done.
    unfold U32_MAX. lia.
  - right. split.
    + intros i Hi. specialize (Hr (Z.to_nat i) ltac:(lia)). by rewrite Z2Nat.id in Hr by lia.
    + apply (sas_loop_exhausted sha256 material (fuel - 1)); [unfold U32_MAX; lia|lia|done].
Qed.

(** A hash that fills 32 bytes with the value of its last input byte: the first
    candidates are rejected at counters whose last byte is large. *)
Definition toy_sha256 (m : list byte) : list byte :=
  replicate 32 (z2b (7 + match last m with Some b => b2z b | None => 0 end)).

Lemma derive_sas_total_witness :
  derive_sas toy_sha256 5 (zeros 32) = Some (Ok (map z2b [52; 54; 48; 53; 53; 49])) /\
  exists n text, (n < Z.to_nat (2 ^ 32))%nat /\
    derive_sas toy_sha256 (S n) (zeros 32) = Some (Ok text) /\ length text = 6%nat.
Proof.
  split; [vm_compute; reflexivity|].
  destruct (derive_sas_total toy_sha256 (zeros 32) (Z.to_nat (2 ^ 32))) as
    [(k & text & Hk & _ & _ & Ht & Hl & _)|[H _]].
  - intros m. apply length_replicate.
  - apply Z2Nat.id. lia.
  - exists k, text. split; [exact Hk|split; [apply Ht; lia|exact Hl]].
  - exfalso. pose proof (H 0 ltac:(lia)) as H0. vm_compute in H0. by apply H0.
Defined.

(** The accepted candidates whose last six decimal digits are [n]. *)
Definition sixteen (n : Z) : list Z := (fun k => n + k * 1000000) <$> seqZ 0 16.

Lemma sixteen_spec n c : 0 <= n < 1000000 -> 0 <= c ->
  (c < SAS_CANDIDATES /\ format06 (c mod 1000000) = format06 n <-> c ∈ sixteen n).
Proof.
  intros Hn Hc. unfold SAS_CANDIDATES, sixteen. rewrite list_elem_of_fmap. split.
  - intros [Hlt E]. assert (Hm : 0 <= c mod 1000000 < 1000000) by (apply Z.mod_pos_bound; lia).
    assert (c mod 1000000 = n) as <-.
    { apply (f_equal parse_i32) in E. rewrite !parse_format06 in E by done. by simplify_eq. }
    exists (c / 1000000). rewrite elem_of_seqZ. Z.div_mod_to_equations. lia.
  - intros (k & -> & Hk). rewrite elem_of_seqZ in Hk.
    rewrite Z.mod_add, Z.mod_small by lia. split; [lia|done].
Qed.

(** C21: Rejection sampling leaves no bias.  Whatever the hash function, a round of the
    loop whose candidate is [c] ends the loop with the six-digit text of [n] exactly when
    [c] is one of sixteen values out of the 2^24 possible ones, sixteen for each of the
    million texts; and it goes on to the next counter exactly when [c] is one of the
    remaining values. *)
Theorem sas_uniform sha256 material counter n :
  (forall m, length (sha256 m) = 32%nat) -> 0 <= n < 1000000 -> 0 <= counter < U32_MAX ->
  let c := sas_candidate sha256 material counter in
  0 <= c < 2 ^ 24 /\ NoDup (sixteen n) /\ length (sixteen n) = 16%nat /\
  Forall (fun x => 0 <= x < 2 ^ 24) (sixteen n) /\
  (forall fuel, c ∈ sixteen n ->
     sas_loop sha256 (S fuel) material counter = Some (Ok (format06 n))) /\
  (sas_loop sha256 1 material counter = Some (Ok (format06 n)) -> c ∈ sixteen n) /\
  (forall fuel, (forall n', 0 <= n' < 1000000 -> c ∉ sixteen n') ->
     sas_loop sha256 (S fuel) material counter = sas_loop sha256 fuel material (counter + 1)).
Proof.
  intros Hlen Hn Hcnt c. pose proof (candidate_range sha256 material counter Hlen) as Hc. fold c in Hc.
  assert (Hloop : forall fuel, sas_loop sha256 (S fuel) material counter =
    if c <? SAS_CANDIDATES then Some (Ok (format06 (c mod 1000000)))
    else sas_loop sha256 fuel material (counter + 1)).
  { intros fuel. cbn [sas_loop]. fold c. unfold checked_succ32.
    by rewrite (proj2 (Z.leb_le _ _)) by lia. }
  split_and!; [apply Hc|apply Hc| |done| | | |].
  - apply NoDup_fmap_2; [|apply NoDup_seqZ]. intros x y Hxy. lia.
  - apply Forall_forall. intros x Hx. unfold sixteen in Hx.
    apply list_elem_of_fmap in Hx as (k & -> & Hk%elem_of_seqZ). lia.
  - intros fuel [Hlt <-]%(sixteen_spec n c Hn ltac:(lia)). by rewrite Hloop, (proj2 (Z.ltb_lt _ _)).
  - rewrite Hloop. destruct (Z.ltb_spec c SAS_CANDIDATES) as [Hlt|]; [|discriminate].
    intros E. apply (sixteen_spec n c Hn ltac:(lia)). split; [done|congruence].
  - intros fuel Hno. rewrite Hloop. destruct (Z.ltb_spec c SAS_CANDIDATES) as [Hlt|]; [exfalso|done].
    apply (Hno (c mod 1000000)); [apply Z.mod_pos_bound; lia|].
    apply sixteen_spec; [apply Z.mod_pos_bound; lia|lia|done].
Qed.

(** The toy hash: at counter 255 the candidate is 394758, one of the sixteen values of
    the text 394758, and at counter 248 it is too large and the round is repeated. *)
Lemma sas_uniform_witness :
  sas_loop toy_sha256 1 [] 255 = Some (Ok (format06 394758)) /\
  sas_loop toy_sha256 1 [] 248 = sas_loop toy_sha256 0 [] 249.
Proof.
  destruct (sas_uniform toy_sha256 [] 255 394758) as (_ & _ & _ & _ & Hin & _).
  { intros m. apply length_replicate. } { lia. } { unfold U32_MAX. lia. }
  destruct (sas_uniform toy_sha256 [] 248 0) as (_ & _ & _ & _ & _ & _ & Hno).
  { intros m. apply length_replicate. } { lia. } { unfold U32_MAX. lia. }
  split.
  - apply Hin. apply (bool_decide_unpack _). vm_compute. exact I.
  - apply Hno. intros n' Hn' Hin'. unfold sixteen in Hin'.
    apply list_elem_of_fmap in Hin' as (k & Hk & Hr%elem_of_seqZ).
    assert (Hc : sas_candidate toy_sha256 [] 248 = 16777215) by (vm_compute; reflexivity). lia.
Defined.
