(* ===== verification/Text.v ===== *)
(** * pb-runtime-secure: text encodings of keys

    Models [hex_encode], [base64_encode], [base64_decode_32] and [base64_value] of
    [crates/pb-runtime-secure/src/storage.rs].  A text is the list of its bytes. *)

From Stdlib Require Import ZArith Lia.
From Stdlib Require Strings.Byte.
From stdpp Require Import base tactics list list_numbers.
From S2P Require Import Prelude Types.

(** The variants of [StorageError]. *)
Inductive StorageError : Type :=
| Sg_StateRootUnavailable | Sg_UnsafePath | Sg_Io | Sg_CorruptIdentity | Sg_CorruptGuard
| Sg_CorruptPeer | Sg_TooManyPeers.

#[export] Instance StorageError_eq_dec : EqDecision StorageError.
Proof. solve_decision. Defined.

(** [TABLE[i]] for a constant table of ASCII characters. *)
Definition char_at (table : list Z) (i : Z) : byte := z2b (nth (Z.to_nat i) table 0).

(** [b"0123456789abcdef"] *)
Definition HEX : list Z := seqZ 48 10 ++ seqZ 97 6.

Definition hex_encode (bytes : list byte) : list byte :=
  flat_map (fun b => [char_at HEX (Z.shiftr (b2z b) 4); char_at HEX (Z.land (b2z b) 15)]) bytes.

(** [A-Z a-z 0-9 + /] *)
Definition ALPHABET : list Z := seqZ 65 26 ++ seqZ 97 26 ++ seqZ 48 10 ++ [43; 47].

(** The byte ['=']. *)
Definition EQ : byte := Byte.x3d.

Definition sextet (word shift : Z) : byte :=
  char_at ALPHABET (Z.land (Z.shiftr word shift) 63).

(** One chunk of [bytes.chunks(3)]. *)
Definition base64_chunk (chunk : list byte) : list byte :=
  let at_ i := match chunk !! i with Some b => b2z b | None => 0 end in
  let word := Z.lor (Z.lor (Z.shiftl (at_ 0%nat) 16) (Z.shiftl (at_ 1%nat) 8)) (at_ 2%nat) in
  [sextet word 18; sextet word 12;
   if (1 <? Z.of_nat (length chunk)) then sextet word 6 else EQ;
   if (2 <? Z.of_nat (length chunk)) then sextet word 0 else EQ].

Fixpoint base64_encode (bytes : list byte) : list byte :=
  match bytes with
  | [] => []
  | a :: b :: c :: rest => base64_chunk [a; b; c] ++ base64_encode rest
  | chunk => base64_chunk chunk
  end.

Definition base64_value (byte : byte) : result Z StorageError :=
  let v := b2z byte in
  if in_range 65 90 v then Ok (v - 65)
  else if in_range 97 122 v then Ok (v - 97 + 26)
  else if in_range 48 57 v then Ok (v - 48 + 52)
  else if v =? 43 then Ok 62
  else if v =? 47 then Ok 63
  else Err Sg_CorruptPeer.

(** The body of the decoding loop: what one chunk of four characters pushes. *)
Definition base64_group (c0 c1 c2 c3 : byte) : result (list byte) StorageError :=
  let? a := base64_value c0 in
  let? b := base64_value c1 in
  let? c := (if bool_decide (c2 = EQ) then Ok 0 else base64_value c2) in
  let? d := (if bool_decide (c3 = EQ) then Ok 0 else base64_value c3) in
  let word := Z.lor (Z.lor (Z.lor (Z.shiftl a 18) (Z.shiftl b 12)) (Z.shiftl c 6)) d in
  Ok (z2b (Z.shiftr word 16)
      :: (if negb (bool_decide (c2 = EQ)) then [z2b (Z.shiftr word 8)] else [])
      ++ (if negb (bool_decide (c3 = EQ)) then [z2b word] else [])).

(** [for chunk in value.as_bytes().as_chunks::<4>().0] *)
Fixpoint base64_groups (value : list byte) : result (list byte) StorageError :=
  match value with
  | c0 :: c1 :: c2 :: c3 :: rest =>
      let? output := base64_group c0 c1 c2 c3 in
      let? more := base64_groups rest in
      Ok (output ++ more)
  | _ => Ok []
  end.

Definition base64_decode_32 (value : list byte) : result (list byte) StorageError :=
  if negb (len value =? 44) || negb (bool_decide (last value = Some EQ)) then Err Sg_CorruptPeer
  else
    let? output := base64_groups value in
    if len output =? 32 then Ok output else Err Sg_CorruptPeer.

(** ** Words of bits *)

Lemma lor_shiftl_add y k x : 0 <= k -> 0 <= x < 2 ^ k -> Z.lor (Z.shiftl y k) x = y * 2 ^ k + x.
Proof.
  intros Hk Hx. rewrite <- Z.shiftl_mul_pow2 by done.
  pose proof (Z.add_lor_land (Z.shiftl y k) x) as E.
  assert (H0 : Z.land (Z.shiftl y k) x = 0); [|lia].
  apply Z.bits_inj'. intros n Hn. rewrite Z.land_spec, Z.bits_0.
  destruct (Z.lt_ge_cases n k).
  - by rewrite Z.shiftl_spec_low by lia.
  - rewrite <- (Z.mod_small x (2 ^ k)) by done. rewrite Z.mod_pow2_bits_high by lia.
    apply andb_false_r.
Qed.

(** [word & 0x3f] and friends are remainders, shifts are quotients. *)
Lemma land_ones_mod x k m : 0 <= k -> m = 2 ^ k - 1 -> Z.land x m = x mod 2 ^ k.
Proof.
  intros Hk ->. rewrite <- Z.land_ones by done. f_equal. rewrite Z.ones_equiv. lia.
Qed.

Definition word24 (a b c : Z) : Z :=
  Z.lor (Z.lor (Z.shiftl a 16) (Z.shiftl b 8)) c.
Definition word_of_sextets (a b c d : Z) : Z :=
  Z.lor (Z.lor (Z.lor (Z.shiftl a 18) (Z.shiftl b 12)) (Z.shiftl c 6)) d.

Lemma word24_value a b c : 0 <= b < 256 -> 0 <= c < 256 ->
  word24 a b c = a * 65536 + b * 256 + c.
Proof.
  intros Hb Hc. unfold word24. rewrite (Z.shiftl_mul_pow2 b) by lia.
  rewrite (lor_shiftl_add a 16) by lia.
  replace (a * 2 ^ 16 + b * 2 ^ 8) with (Z.shiftl (a * 256 + b) 8)
    by (rewrite Z.shiftl_mul_pow2; lia).
  rewrite lor_shiftl_add by lia. lia.
Qed.

Lemma word_of_sextets_value a b c d :
  0 <= b < 64 -> 0 <= c < 64 -> 0 <= d < 64 ->
  word_of_sextets a b c d = a * 262144 + b * 4096 + c * 64 + d.
Proof.
  intros Hb Hc Hd. unfold word_of_sextets. rewrite (Z.shiftl_mul_pow2 b) by lia.
  rewrite (lor_shiftl_add a 18) by lia.
  replace (a * 2 ^ 18 + b * 2 ^ 12) with (Z.shiftl (a * 64 + b) 12)
    by (rewrite Z.shiftl_mul_pow2; lia).
  rewrite (Z.shiftl_mul_pow2 c) by lia. rewrite lor_shiftl_add by lia.
  replace ((a * 64 + b) * 2 ^ 12 + c * 2 ^ 6) with (Z.shiftl ((a * 64 + b) * 64 + c) 6)
    by (rewrite Z.shiftl_mul_pow2; lia).
  rewrite lor_shiftl_add by lia. lia.
Qed.

(** The alphabet and [base64_value] are inverse on the 64 values. *)
Lemma value_alphabet i : 0 <= i < 64 ->
  base64_value (char_at ALPHABET i) = Ok i /\ char_at ALPHABET i <> EQ.
Proof.
  intros Hi.
  assert (H : Forall (fun i => base64_value (char_at ALPHABET i) = Ok i /\
    char_at ALPHABET i <> EQ) (seqZ 0 64)).
  { apply Forall_forall. intros j Hj. apply elem_of_seqZ in Hj.
    assert (Hc : forallb (fun i => bool_decide (base64_value (char_at ALPHABET i) = Ok i /\
      char_at ALPHABET i <> EQ)) (seqZ 0 64) = true) by (vm_compute; reflexivity).
    rewrite forallb_forall in Hc. specialize (Hc j).
    rewrite bool_decide_eq_true in Hc. apply Hc. apply list_elem_of_In, elem_of_seqZ. lia. }
  rewrite Forall_forall in H. apply H, elem_of_seqZ. lia.
Qed.

(** The four sextets of a 24-bit word. *)
Lemma sextet_value word k : 0 <= k ->
  base64_value (sextet word k) = Ok (word / 2 ^ k mod 64) /\ sextet word k <> EQ.
Proof.
  intros Hk. unfold sextet.
  rewrite (land_ones_mod _ 6 63), Z.shiftr_div_pow2 by lia.
  apply value_alphabet, Z.mod_pos_bound. lia.
Qed.

Lemma z2b_mod z : z2b (z mod 256) = z2b z.
Proof. unfold z2b. by rewrite Z.mod_mod by lia. Qed.

Lemma z2b_eq z b : z mod 256 = b2z b -> z2b z = b.
Proof. intros H. rewrite <- z2b_mod, H. apply z2b_b2z. Qed.

(** Evaluate a group up to the word it rebuilds, which [E] says is [word]. *)
Ltac group_word word :=
  unfold base64_group;
  destruct (sextet_value word 18 ltac:(lia)) as [-> _];
  destruct (sextet_value word 12 ltac:(lia)) as [-> _];
  try (let H := fresh in destruct (sextet_value word 6 ltac:(lia)) as [-> H];
       rewrite (bool_decide_false (sextet word 6 = EQ)) by done);
  try (let H := fresh in destruct (sextet_value word 0 ltac:(lia)) as [-> H];
       rewrite (bool_decide_false (sextet word 0 = EQ)) by done);
  rewrite ?(bool_decide_true (EQ = EQ)) by done; cbv zeta; cbn [negb app];
  match goal with |- context [Z.lor (Z.lor (Z.lor (Z.shiftl ?a 18) (Z.shiftl ?b 12))
    (Z.shiftl ?c 6)) ?d] =>
    change (Z.lor (Z.lor (Z.lor (Z.shiftl a 18) (Z.shiftl b 12)) (Z.shiftl c 6)) d)
      with (word_of_sextets a b c d);
    rewrite (word_of_sextets_value a b c d) by (first [apply Z.mod_pos_bound; lia | lia]);
    replace (a * 262144 + b * 4096 + c * 64 + d) with word
  end;
  [rewrite !Z.shiftr_div_pow2 by lia; done|];
  change (2 ^ 18) with 262144; change (2 ^ 12) with 4096; change (2 ^ 6) with 64;
  change (2 ^ 0) with 1; change (2 ^ 24) with 16777216 in *; Z.div_mod_to_equations; lia.

(** Decoding the groups of one, two and three bytes. *)
Lemma group_full word : 0 <= word < 2 ^ 24 ->
  base64_group (sextet word 18) (sextet word 12) (sextet word 6) (sextet word 0) =
    Ok [z2b (word / 65536); z2b (word / 256); z2b word].
Proof. intros Hw. group_word word. Qed.

Lemma group_two word : 0 <= word < 2 ^ 24 -> word mod 256 = 0 ->
  base64_group (sextet word 18) (sextet word 12) (sextet word 6) EQ =
    Ok [z2b (word / 65536); z2b (word / 256)].
Proof. intros Hw Hz. group_word word. Qed.

Lemma group_one word : 0 <= word < 2 ^ 24 -> word mod 65536 = 0 ->
  base64_group (sextet word 18) (sextet word 12) EQ EQ = Ok [z2b (word / 65536)].
Proof. intros Hw Hz. group_word word. Qed.

(** Decoding a chunk gives its bytes back. *)
Lemma group_chunk chunk : (1 <= length chunk <= 3)%nat ->
  exists c0 c1 c2 c3, base64_chunk chunk = [c0; c1; c2; c3] /\
    base64_group c0 c1 c2 c3 = Ok chunk.
Proof.
  intros Hl. unfold base64_chunk. eexists _, _, _, _. split; [reflexivity|].
  destruct chunk as [|a [|b [|c [|]]]]; cbn in Hl; try lia; cbn [lookup list_lookup length];
    change (Z.of_nat 1) with 1; change (Z.of_nat 2) with 2; change (Z.of_nat 3) with 3;
    cbn [Z.ltb Z.compare Pos.compare Pos.compare_cont]; fold (word24 (b2z a)).
  all: pose proof (b2z_range a); try pose proof (b2z_range b); try pose proof (b2z_range c).
  - change (Z.lor (Z.lor (Z.shiftl (b2z a) 16) (Z.shiftl 0 8)) 0) with (word24 (b2z a) 0 0).
    rewrite word24_value by lia. rewrite group_one by (Z.div_mod_to_equations; lia).
    do 2 f_equal. apply z2b_eq. Z.div_mod_to_equations; lia.
  - change (Z.lor (Z.lor (Z.shiftl (b2z a) 16) (Z.shiftl (b2z b) 8)) 0)
      with (word24 (b2z a) (b2z b) 0).
    rewrite word24_value by lia. rewrite group_two by (Z.div_mod_to_equations; lia).
    f_equal. f_equal; [|f_equal]; apply z2b_eq; Z.div_mod_to_equations; lia.
  - change (Z.lor (Z.lor (Z.shiftl (b2z a) 16) (Z.shiftl (b2z b) 8)) (b2z c))
      with (word24 (b2z a) (b2z b) (b2z c)).
    rewrite word24_value by lia. rewrite group_full by (Z.div_mod_to_equations; lia).
    f_equal. f_equal; [|f_equal; [|f_equal]]; apply z2b_eq; Z.div_mod_to_equations; lia.
Qed.

(** Induction over chunks of three. *)
Lemma chunks3_ind (P : list byte -> Prop) :
  P [] -> (forall a, P [a]) -> (forall a b, P [a; b]) ->
  (forall a b c l, P l -> P (a :: b :: c :: l)) -> forall l, P l.
Proof.
  intros H0 H1 H2 H3.
  fix IH 1. intros [|a [|b [|c l]]]; [done|done|done|apply H3, IH].
Qed.

Lemma groups_encode l : base64_groups (base64_encode l) = Ok l.
Proof.
  induction l as [|a|a b|a b c l IH] using chunks3_ind; [done|..]; cbn [base64_encode].
  - destruct (group_chunk [a] ltac:(cbn; lia)) as (? & ? & ? & ? & -> & H). cbn. by rewrite H.
  - destruct (group_chunk [a; b] ltac:(cbn; lia)) as (? & ? & ? & ? & -> & H). cbn. by rewrite H.
  - destruct (group_chunk [a; b; c] ltac:(cbn; lia)) as (? & ? & ? & ? & -> & H).
    cbn [app base64_groups]. by rewrite H, IH.
Qed.

Lemma encode_shape l : length l = 32%nat ->
  length (base64_encode l) = 44%nat /\ last (base64_encode l) = Some EQ.
Proof. intros H. do 32 (destruct l as [|? l]; [done|]). by destruct l. Qed.

Lemma base64_roundtrip key : length key = 32%nat ->
  base64_decode_32 (base64_encode key) = Ok key.
Proof.
  intros H. unfold base64_decode_32. destruct (encode_shape key H) as [H1 H2].
  unfold len. rewrite H1, H2, groups_encode, H. by rewrite bool_decide_true by done.
Qed.

Lemma base64_decode_length v k : base64_decode_32 v = Ok k -> length k = 32%nat.
Proof.
  unfold base64_decode_32. intros H. ok_inv H. bool_hyps. simplify_eq. unfold len in *. lia.
Qed.

(** The decoder ignores the two low bits of the last sextet: distinct texts may name
    the same key. *)
Example base64_not_canonical :
  base64_decode_32 (replicate 43 (z2b 65) ++ [EQ]) = Ok (zeros 32) /\
  base64_decode_32 (replicate 42 (z2b 65) ++ [z2b 67; EQ]) = Ok (zeros 32).
Proof. split; vm_compute; reflexivity. Qed.

(** ** Hexadecimal *)

Lemma length_hex_encode l : length (hex_encode l) = (2 * length l)%nat.
Proof.
  induction l as [|b l IH]; [done|]. unfold hex_encode in *. cbn [flat_map app length].
  rewrite IH. lia.
Qed.

Lemma hex_char_inj i j : 0 <= i < 16 -> 0 <= j < 16 -> char_at HEX i = char_at HEX j -> i = j.
Proof.
  intros Hi Hj. assert (H : forallb (fun i => forallb (fun j =>
    (i =? j) || negb (bool_decide (char_at HEX i = char_at HEX j))) (seqZ 0 16)) (seqZ 0 16)
    = true) by (vm_compute; reflexivity).
  rewrite forallb_forall in H. specialize (H i ltac:(apply list_elem_of_In, elem_of_seqZ; lia)).
  rewrite forallb_forall in H. specialize (H j ltac:(apply list_elem_of_In, elem_of_seqZ; lia)).
  intros E. apply orb_true_iff in H as [H|H]; bool_hyps; [done|]. done.
Qed.

Lemma hex_encode_inj l l' : hex_encode l = hex_encode l' -> l = l'.
Proof.
  revert l'. induction l as [|b l IH]; intros [|b' l']; try done. cbn. intros [= H1 H2 H3].
  pose proof (b2z_range b). pose proof (b2z_range b').
  rewrite !(land_ones_mod _ 4 15) in H2 by lia. rewrite !Z.shiftr_div_pow2 in H1 by lia.
  change (2 ^ 4) with 16 in *.
  apply hex_char_inj in H1; [|Z.div_mod_to_equations; lia..].
  apply hex_char_inj in H2; [|Z.div_mod_to_equations; lia..].
  f_equal; [|by apply IH]. rewrite <- (z2b_b2z b), <- (z2b_b2z b'). f_equal.
  Z.div_mod_to_equations. lia.
Qed.
