(* ===== verification/Storage.v ===== *)
(** * pb-runtime-secure: trust storage

    Models [crates/pb-runtime-secure/src/storage.rs]: the pairing-guard and peer
    records, their JSON shape and validation, the reading of authority files and
    the replace-by-rename [atomic_write].

    A directory is a finite map from names to files, and what the operating system
    answers to each call is an argument ([Syscalls], listings, read outcomes).
    SHA-256, the curve operation and the serialisation of [serde_json::Value] are
    parameters.  Opening the state root (environment variables, symbolic links,
    directory modes) is not modelled. *)

From Stdlib Require Import ZArith Lia.
From Stdlib Require Strings.Byte.
From stdpp Require Import base tactics list gmap strings sorting.
From S2P Require Import Prelude Types Pairing Text.

(** ** JSON values: [serde_json::Value] *)

Inductive Value : Type :=
| V_Null
| V_Bool (b : bool)
| V_U64 (n : Z)
| V_OtherNumber (text : list byte)
| V_String (s : list byte)
| V_Array (l : list Value)
| V_Object (o : gmap string Value).

(** [Value::as_u64] and [Value::as_str]. *)
Definition as_u64 (v : Value) : option Z := match v with V_U64 n => Some n | _ => None end.
Definition as_str (v : Value) : option (list byte) :=
  match v with V_String s => Some s | _ => None end.

(** ** Files *)


(** The octal mode 0600; [0o777] is [0x1ff]. *)
Definition AUTHORITY_MODE : Z := 0x180.
Definition MAX_AUTHORITY_BYTES : Z := 16 * 1024.
Definition MAX_PEERS : Z := 64.

Record FileNode : Type := mkFile {
  fi_regular : bool;
  fi_uid : Z;
  fi_mode : Z;
  fi_bytes : list byte;
}.

Abbreviation Name := (list byte).
Abbreviation Dir := (gmap (list byte) FileNode).

Definition ascii_bytes (s : string) : list byte := String.list_byte_of_string s.

Definition IDENTITY_FILE : Name := ascii_bytes "identity.key".
Definition GUARD_FILE : Name := ascii_bytes "pairing_guard.json".

Definition permission_bits (mode : Z) : Z := Z.land mode 0x1ff.

(** [read_authority]; [uid] is [getuid], [read_ok] the outcome of reading. *)
Definition read_authority (uid : Z) (d : Dir) (name : Name) (read_ok : bool) :
    result (list byte) StorageError :=
  match d !! name with
  | None => Err Sg_UnsafePath
  | Some f =>
      if negb (fi_regular f) || negb (fi_uid f =? uid)
         || negb (permission_bits (fi_mode f) =? AUTHORITY_MODE)
         || (MAX_AUTHORITY_BYTES <? len (fi_bytes f))
      then Err Sg_UnsafePath
      else if negb read_ok then Err Sg_Io
      else if MAX_AUTHORITY_BYTES <? len (fi_bytes f) then Err Sg_Io
      else Ok (fi_bytes f)
  end.

(** What the system answers during one [atomic_write]. *)
Record Syscalls : Type := mkSyscalls {
  sc_open : bool;
  (** [None]: every byte written; [Some n]: failed after [n] bytes *)
  sc_write : option nat;
  sc_sync : bool;
  (** [None]: fstat failed; otherwise file type and mode of the new file *)
  sc_stat : option (bool * Z);
  sc_rename : bool;
  sc_fsync : bool;
  sc_unlink : bool;
}.

Definition SLASH : byte := Byte.x2f.
Definition DOT : byte := Byte.x2e.

Definition unsafe_name (name : Name) : bool :=
  existsb (fun b => bool_decide (b = SLASH)) name || bool_decide (head name = Some DOT).

(** [atomic_write]: the directory after the call, the result, and every directory
    state that was visible on the way (what a crash would leave behind). *)
Definition atomic_write (uid : Z) (d : Dir) (name temp : Name) (bytes : list byte)
    (sc : Syscalls) : Dir * result unit StorageError * list Dir :=
  if unsafe_name name then (d, Err Sg_UnsafePath, [])
  else if negb (sc_open sc) || bool_decide (is_Some (d !! temp)) then (d, Err Sg_Io, [])
  else
    let mode := match sc_stat sc with Some (_, m) => m | None => AUTHORITY_MODE end in
    let regular := match sc_stat sc with Some (r, _) => r | None => true end in
    let file content := mkFile regular uid mode content in
    let created := <[temp := file []]> d in
    let written n := <[temp := file (take n bytes)]> d in
    let full := <[temp := file bytes]> d in
    let renamed := <[name := file bytes]> d in
    let fail (e : StorageError) (at_ : Dir) (seen : list Dir) :=
      (if sc_unlink sc then delete temp at_ else at_, Err e, seen) in
    match sc_write sc with
    | Some n => fail Sg_Io (written n) [created; written n]
    | None =>
        let seen := created :: map written (seq 0 (S (length bytes))) in
        if negb (sc_sync sc) then fail Sg_Io full seen
        else
          match sc_stat sc with
          | None => fail Sg_Io full seen
          | Some (regular, mode) =>
              if negb regular || negb (permission_bits mode =? AUTHORITY_MODE) then
                fail Sg_UnsafePath full seen
              else if negb (sc_rename sc) then fail Sg_Io full seen
              else if negb (sc_fsync sc) then fail Sg_Io renamed (seen ++ [renamed])
              else (renamed, Ok tt, seen ++ [renamed])
          end
    end.

(** ** Records *)

Record PeerRecord : Type := mkPeer {
  pr_schema_version : Z;
  pr_peer_id : list byte;
  pr_static_public_key : list byte;
  pr_alias : list byte;
  pr_paired_wall_ms : Z;
  pr_last_seen_wall_ms : Z;
  pr_core_version : Z;
  pr_pbmux_version : Z;
}.

#[export] Instance PeerRecord_eq_dec : EqDecision PeerRecord.
Proof. solve_decision. Defined.

Record Identity : Type := mkIdentity { id_private : list byte; id_public : list byte }.

(** The JSON object that [persist_guard] writes. *)
Definition guard_value (g : PairingGuard.t) : Value :=
  V_Object (list_to_map
    [("schema_version"%string, V_U64 1);
     ("mismatch_count"%string, V_U64 (PairingGuard.mismatch_count g));
     ("cooldown_until_wall_ms"%string,
       match PairingGuard.cooldown_until_wall_ms g with Some n => V_U64 n | None => V_Null end);
     ("updated_wall_ms"%string, V_U64 (PairingGuard.updated_wall_ms g))]).

Definition guard_of_value (value : Value) : result PairingGuard.t StorageError :=
  match value with
  | V_Object object =>
      if negb (Z.of_nat (size object) =? 4)
         || negb (bool_decide ((object !! "schema_version"%string) ≫= as_u64 = Some 1))
      then Err Sg_CorruptGuard
      else
        let? mismatch_count := ok_or
          (v ← (object !! "mismatch_count"%string) ≫= as_u64;
           if v <=? U8_MAX then Some v else None) Sg_CorruptGuard in
        let? cooldown :=
          (match object !! "cooldown_until_wall_ms"%string with
           | Some V_Null => Ok None
           | Some value =>
               let? n := ok_or (as_u64 value) Sg_CorruptGuard in Ok (Some n)
           | None => Err Sg_CorruptGuard
           end) in
        let? updated := ok_or ((object !! "updated_wall_ms"%string) ≫= as_u64)
          Sg_CorruptGuard in
        Ok (PairingGuard.mk mismatch_count cooldown updated)
  | _ => Err Sg_CorruptGuard
  end.

Definition required_string (object : gmap string Value) (key : string) :
    result (list byte) StorageError :=
  ok_or ((object !! key) ≫= as_str) Sg_CorruptPeer.
Definition required_u64 (object : gmap string Value) (key : string) : result Z StorageError :=
  ok_or ((object !! key) ≫= as_u64) Sg_CorruptPeer.

Definition PEER_FIELDS : list string :=
  ["schema_version"; "peer_id"; "static_public_key_b64"; "alias"; "paired_wall_ms";
   "last_seen_wall_ms"; "core_version"; "pbmux_version"]%string.

(** The JSON object that [commit_peer] writes. *)
Definition peer_value (r : PeerRecord) : Value :=
  V_Object (list_to_map
    [("schema_version"%string, V_U64 (pr_schema_version r));
     ("peer_id"%string, V_String (pr_peer_id r));
     ("static_public_key_b64"%string, V_String (base64_encode (pr_static_public_key r)));
     ("alias"%string, V_String (pr_alias r));
     ("paired_wall_ms"%string, V_U64 (pr_paired_wall_ms r));
     ("last_seen_wall_ms"%string, V_U64 (pr_last_seen_wall_ms r));
     ("core_version"%string, V_U64 (pr_core_version r));
     ("pbmux_version"%string, V_U64 (pr_pbmux_version r))]).

Section Storage.
(** [Sha256::digest], [MontgomeryPoint::mul_base_clamped], [serde_json::to_vec] and
    [serde_json::from_slice]. *)
Context (sha256 mul_base_clamped : list byte -> list byte).
Context (to_vec : Value -> list byte) (from_slice : list byte -> option Value).

(** [peer_id(public)]: the hexadecimal [PeerId]. *)
Definition peer_id (public : list byte) : list byte := hex_encode (sha256 public).

Definition PeerRecord_new (static_public_key alias : list byte) (now_ms : Z) : PeerRecord :=
  mkPeer 1 (peer_id static_public_key) static_public_key alias now_ms now_ms 1 1.

Definition validate_peer (r : PeerRecord) : result unit StorageError :=
  if negb (pr_schema_version r =? 1) || negb (pr_core_version r =? 1)
     || negb (pr_pbmux_version r =? 1)
     || negb (bool_decide (pr_peer_id r = peer_id (pr_static_public_key r)))
     || (len (pr_alias r) =? 0) || (128 <? len (pr_alias r))
     || negb (nonzero (pr_static_public_key r))
  then Err Sg_CorruptPeer else Ok tt.

Definition peer_of_value (value : Value) : result PeerRecord StorageError :=
  match value with
  | V_Object object =>
      if negb (Z.of_nat (size object) =? Z.of_nat (length PEER_FIELDS))
         || existsb (fun key => negb (is_some (object !! key))) PEER_FIELDS
      then Err Sg_CorruptPeer
      else
        let? key64 := required_string object "static_public_key_b64" in
        let? key := base64_decode_32 key64 in
        let? schema_version := required_u64 object "schema_version" in
        let? peer_id := required_string object "peer_id" in
        let? alias := required_string object "alias" in
        let? paired := required_u64 object "paired_wall_ms" in
        let? last_seen := required_u64 object "last_seen_wall_ms" in
        let? core_version := required_u64 object "core_version" in
        let? pbmux_version := required_u64 object "pbmux_version" in
        let record := mkPeer schema_version peer_id key alias paired last_seen core_version
                        pbmux_version in
        let? _ := validate_peer record in
        Ok record
  | _ => Err Sg_CorruptPeer
  end.

Definition parse_guard (bytes : list byte) : result PairingGuard.t StorageError :=
  let? value := ok_or (from_slice bytes) Sg_CorruptGuard in guard_of_value value.

Definition parse_peer (bytes : list byte) : result PeerRecord StorageError :=
  let? value := ok_or (from_slice bytes) Sg_CorruptPeer in peer_of_value value.

(** The final newline of every JSON authority file. *)
Definition NEWLINE : byte := Byte.x0a.

Definition persist_guard (uid : Z) (d : Dir) (temp : Name) (g : PairingGuard.t)
    (sc : Syscalls) : Dir * result unit StorageError * list Dir :=
  atomic_write uid d GUARD_FILE temp (to_vec (guard_value g) ++ [NEWLINE]) sc.

(** [stat_ok] is false when [statat] fails with anything but [ENOENT]. *)
Definition load_guard (uid : Z) (d : Dir) (now_ms : Z) (stat_ok read_ok : bool) :
    result PairingGuard.t StorageError :=
  if negb stat_ok then Err Sg_UnsafePath
  else
    match d !! GUARD_FILE with
    | None => Ok (PairingGuard.new now_ms)
    | Some _ => let? bytes := read_authority uid d GUARD_FILE read_ok in parse_guard bytes
    end.

Definition peer_file (id : list byte) : Name := id ++ ascii_bytes ".json".

Definition commit_peer (uid : Z) (d : Dir) (temp : Name) (r : PeerRecord) (sc : Syscalls) :
    Dir * result unit StorageError * list Dir :=
  match validate_peer r with
  | Err e => (d, Err e, [])
  | Ok _ =>
      atomic_write uid d (peer_file (pr_peer_id r)) temp (to_vec (peer_value r) ++ [NEWLINE]) sc
  end.

Definition load_identity (uid : Z) (d : Dir) (read_ok : bool) : result Identity StorageError :=
  match read_authority uid d IDENTITY_FILE read_ok with
  | Err _ => Err Sg_CorruptIdentity
  | Ok private =>
      if negb (len private =? 32) then Err Sg_CorruptIdentity
      else if negb (nonzero private) then Err Sg_CorruptIdentity
      else
        let public := mul_base_clamped private in
        if negb (nonzero public) then Err Sg_CorruptIdentity
        else Ok (mkIdentity private public)
  end.

(** [random] is what reading [/dev/urandom] gives. *)
Definition load_or_create_identity (uid : Z) (d : Dir) (temp : Name)
    (random : option (list byte)) (sc : Syscalls) (stat_ok read_ok : bool) :
    Dir * result Identity StorageError :=
  if negb stat_ok then (d, Err Sg_UnsafePath)
  else
    match d !! IDENTITY_FILE with
    | Some _ => (d, load_identity uid d read_ok)
    | None =>
        match random with
        | None => (d, Err Sg_Io)
        | Some private =>
            if negb (nonzero private) then (d, Err Sg_Io)
            else
              match atomic_write uid d IDENTITY_FILE temp private sc with
              | (d, Err e, _) => (d, Err e)
              | (d, Ok _, _) => (d, load_identity uid d read_ok)
              end
        end
    end.

(** ** The peer directory *)

(** [std::str::from_utf8] accepts: the well-formed sequences of Unicode. *)
Fixpoint utf8 (l : list byte) : bool :=
  let cont b := in_range 0x80 0xbf (b2z b) in
  match l with
  | [] => true
  | b0 :: l0 =>
      let v := b2z b0 in
      if v <=? 0x7f then utf8 l0
      else
        match l0 with
        | [] => false
        | b1 :: l1 =>
            let v1 := b2z b1 in
            if in_range 0xc2 0xdf v then cont b1 && utf8 l1
            else
              match l1 with
              | [] => false
              | b2 :: l2 =>
                  if in_range 0xe0 0xef v then
                    in_range (if v =? 0xe0 then 0xa0 else 0x80)
                             (if v =? 0xed then 0x9f else 0xbf) v1
                    && cont b2 && utf8 l2
                  else
                    match l2 with
                    | [] => false
                    | b3 :: l3 =>
                        in_range 0xf0 0xf4 v
                        && in_range (if v =? 0xf0 then 0x90 else 0x80)
                                    (if v =? 0xf4 then 0x8f else 0xbf) v1
                        && cont b2 && cont b3 && utf8 l3
                    end
              end
        end
  end.

Definition starts_with (prefix l : list byte) : bool :=
  bool_decide (take (length prefix) l = prefix).
Definition ends_with (suffix l : list byte) : bool :=
  bool_decide (drop (length l - length suffix) l = suffix).

Definition TEMP_PREFIX : list byte := ascii_bytes ".tmp-".

(** [entry] is skipped by the listing loop. *)
Definition skipped (entry : Name) : bool :=
  bool_decide (entry = [DOT]) || bool_decide (entry = [DOT; DOT]) || starts_with TEMP_PREFIX entry.

(** The listing loop of [load_peers]. *)
Fixpoint peer_names (entries names : list Name) : result (list Name) StorageError :=
  match entries with
  | [] => Ok names
  | entry :: entries =>
      if skipped entry then peer_names entries names
      else if negb (utf8 entry) then Err Sg_CorruptPeer
      else if negb (ends_with (ascii_bytes ".json") entry) || negb (len entry =? 64 + 5) then
        Err Sg_CorruptPeer
      else
        let names := names ++ [entry] in
        if MAX_PEERS <? Z.of_nat (length names) then Err Sg_TooManyPeers
        else peer_names entries names
  end.

(** The byte order of [String] comparison. *)
Fixpoint name_le (a b : Name) : bool :=
  match a, b with
  | [], _ => true
  | _, [] => false
  | x :: a, y :: b => (b2z x <? b2z y) || (b2z x =? b2z y) && name_le a b
  end.

Definition name_order (a b : Name) : Prop := name_le a b = true.
#[local] Instance name_order_dec a b : Decision (name_order a b).
Proof. unfold name_order. apply _. Defined.

Definition sort_names (names : list Name) : list Name := merge_sort name_order names.

Fixpoint read_peers (uid : Z) (d : Dir) (read_ok : Name -> bool) (names : list Name) :
    result (list PeerRecord) StorageError :=
  match names with
  | [] => Ok []
  | name :: names =>
      let? bytes := read_authority uid d name (read_ok name) in
      let? record := parse_peer bytes in
      if negb (bool_decide (name = peer_file (pr_peer_id record))) then Err Sg_CorruptPeer
      else let? records := read_peers uid d read_ok names in Ok (record :: records)
  end.

(** [entries] is what the directory listing yields, in its own order. *)
Definition load_peers (uid : Z) (d : Dir) (entries : list Name) (read_ok : Name -> bool) :
    result (list PeerRecord) StorageError :=
  let? names := peer_names entries [] in
  read_peers uid d read_ok (sort_names names).

End Storage.

(** ** Replacement by rename is atomic *)

(** What a visible state [s] may show while [name] is being replaced in [d]: the other
    names as before, and under [name] the old file or all of the new one. *)
Definition old_or_new (uid : Z) (d : Dir) (name temp : Name) (bytes : list byte) (s : Dir) :
    Prop :=
  (forall other, other <> temp -> other <> name -> s !! other = d !! other) /\
  (s !! name = d !! name \/
   exists f, s !! name = Some f /\ fi_bytes f = bytes /\ fi_regular f = true /\
     fi_uid f = uid /\ permission_bits (fi_mode f) = AUTHORITY_MODE).

(** A temporary name starts with a dot, a target never does. *)
Lemma unsafe_head name : unsafe_name name = false -> head name <> Some DOT.
Proof. unfold unsafe_name. intros H. bool_hyps. done. Qed.

Section Replace.
Context (uid : Z) (d : Dir) (name temp : Name) (bytes : list byte).
Hypothesis Hne : name <> temp.
Hypothesis Hfresh : d !! temp = None.

Lemma same_ok : old_or_new uid d name temp bytes d.
Proof. split; [done|by left]. Qed.

Lemma temp_ok f : old_or_new uid d name temp bytes (<[temp := f]> d).
Proof. split; [|left]; intros; by rewrite lookup_insert_ne. Qed.

(** A call that fails before the rename. *)
Lemma undone_case (unlink rename : bool) f (e : StorageError) seen d' :
  d' = (if unlink then delete temp (<[temp := f]> d) else <[temp := f]> d) ->
  (forall s, s ∈ seen -> old_or_new uid d name temp bytes s) ->
  (forall s, s ∈ d' :: seen -> old_or_new uid d name temp bytes s) /\
  (Err e = Ok tt -> exists f, d' = <[name := f]> d /\ fi_bytes f = bytes) /\
  (Err e <> Ok tt -> rename = false -> d' !! name = d !! name) /\
  (d !! temp = None -> unlink = true -> d' !! temp = None).
Proof.
  intros Hd' Hseen. rewrite delete_insert_eq, delete_id in Hd' by done.
  assert (Hok : old_or_new uid d name temp bytes d')
    by (subst d'; destruct unlink; [apply same_ok|apply temp_ok]).
  split_and!; [|done| |].
  - intros s [->|Hs]%elem_of_cons; [done|by apply Hseen].
  - intros _ _. subst d'. destruct unlink; [done|]. by rewrite lookup_insert_ne.
  - intros _ ->. by subst d'.
Qed.

Lemma renamed_ok mode : permission_bits mode = AUTHORITY_MODE ->
  old_or_new uid d name temp bytes (<[name := mkFile true uid mode bytes]> d).
Proof.
  intros Hm. split; [intros; by rewrite lookup_insert_ne|]. right. eexists.
  split; [apply lookup_insert_eq|done].
Qed.

Lemma renamed_kept (unlink : bool) f :
  (if unlink then delete temp (<[name := f]> d) else <[name := f]> d) = <[name := f]> d.
Proof.
  destruct unlink; [|done]. apply delete_id. by rewrite lookup_insert_ne.
Qed.

End Replace.

(** Go through the states of a visible trace. *)
Ltac each_seen Hs :=
  repeat match type of Hs with
  | _ ∈ _ :: _ => apply elem_of_cons in Hs as [->|Hs]
  | _ ∈ [] => by apply not_elem_of_nil in Hs
  | _ ∈ _ ++ _ => apply elem_of_app in Hs as [Hs|Hs]
  | _ ∈ map _ _ => apply list_elem_of_In, in_map_iff in Hs as (? & <- & _)
  end.

(** C17: Replacing a file is all or nothing: whatever the system answers and wherever
    the call stops, every state of the directory that was visible, and the final one,
    show under the target name either the old file or the complete new bytes with
    mode 0600, and leave all names but the temporary one alone; success means the new
    bytes are there and no temporary file is left, and a failure before the rename
    leaves the old file. *)
Theorem atomic_write_all_or_nothing uid d name temp bytes sc d' r seen :
  head temp = Some DOT -> atomic_write uid d name temp bytes sc = (d', r, seen) ->
  (forall s, s ∈ d' :: seen -> old_or_new uid d name temp bytes s) /\
  (r = Ok tt -> exists f, d' = <[name := f]> d /\ fi_bytes f = bytes) /\
  (r <> Ok tt -> sc_rename sc = false -> d' !! name = d !! name) /\
  (d !! temp = None -> sc_unlink sc = true -> d' !! temp = None).
Proof.
  intros Ht. unfold atomic_write. destruct (unsafe_name name) eqn:En.
  { intros [= <- <- <-]. split_and!; try done.
    intros s Hs. apply list_elem_of_singleton in Hs as ->. apply same_ok. }
  apply unsafe_head in En. assert (Hne : name <> temp) by congruence. clear En.
  destruct (negb (sc_open sc) || _) eqn:Eo.
  { intros [= <- <- <-]. split_and!; try done.
    intros s Hs. apply list_elem_of_singleton in Hs as ->. apply same_ok. }
  bool_hyps. assert (Hd : d !! temp = None) by (by apply eq_None_not_Some).
  cbv zeta. intros E.
  destruct (sc_write sc) as [n|]; [|destruct (sc_sync sc); cbn [negb] in E;
    [destruct (sc_stat sc) as [[reg mode]|];
      [destruct (negb reg || _) eqn:Em; [|destruct (sc_rename sc) eqn:Er; cbn [negb] in E;
         [destruct (sc_fsync sc); cbn [negb] in E|]]|]|]].
  all: injection E as <- <- <-.
  1,2,5,6,7: eapply (undone_case _ _ _ _ _ Hne Hd); [reflexivity|];
    intros s Hs; each_seen Hs; by apply temp_ok.
  all: apply orb_false_iff in Em as [Em1 Em2]; bool_hyps; subst reg.
  all: rewrite ?(renamed_kept _ _ _ Hne Hd).
  all: split_and!; try done; try (by eexists); try (intros; by rewrite lookup_insert_ne).
  all: intros s Hs; each_seen Hs; first [by apply temp_ok | by apply renamed_ok].
Qed.

(** Replacing a guard file while the disk fills up. *)
Definition calls_ok : Syscalls := mkSyscalls true None true (Some (true, 0x8180)) true true true.
Definition disk_full : Syscalls := mkSyscalls true (Some 1%nat) true None true true false.

Definition old_guard_file : FileNode := mkFile true 5 0x8180 [Byte.x31].
Definition full_disk_run : Dir * result unit StorageError * list Dir :=
  atomic_write 5 {[GUARD_FILE := old_guard_file]} GUARD_FILE (ascii_bytes ".tmp-7-1")
    [Byte.x32; Byte.x33] disk_full.

Lemma atomic_write_all_or_nothing_witness :
  full_disk_run.1.1 !! GUARD_FILE = Some old_guard_file /\
  fi_bytes <$> full_disk_run.1.1 !! ascii_bytes ".tmp-7-1" = Some [Byte.x32] /\
  length full_disk_run.2 = 2%nat /\
  (forall s, s ∈ full_disk_run.1.1 :: full_disk_run.2 ->
     old_or_new 5 {[GUARD_FILE := old_guard_file]} GUARD_FILE (ascii_bytes ".tmp-7-1")
       [Byte.x32; Byte.x33] s).
Proof.
  split; [vm_compute; reflexivity|]. split; [vm_compute; reflexivity|].
  split; [vm_compute; reflexivity|].
  apply (atomic_write_all_or_nothing 5 {[GUARD_FILE := old_guard_file]} GUARD_FILE
    (ascii_bytes ".tmp-7-1") [Byte.x32; Byte.x33] disk_full full_disk_run.1.1
    full_disk_run.1.2 full_disk_run.2 eq_refl).
  unfold full_disk_run. by destruct (atomic_write _ _ _ _ _ _) as [[? ?] ?].
Defined.

(** ** Reading back what was written *)

(** [serde_json] reads back a value it wrote, with the newline that is appended. *)
Definition reads_back (to_vec : Value -> list byte) (from_slice : list byte -> option Value)
    (v : Value) : Prop :=
  from_slice (to_vec v ++ [NEWLINE]) = Some v.

Lemma atomic_write_ok uid d name temp bytes sc d' seen :
  atomic_write uid d name temp bytes sc = (d', Ok tt, seen) ->
  exists mode, permission_bits mode = AUTHORITY_MODE /\
    d' = <[name := mkFile true uid mode bytes]> d.
Proof.
  unfold atomic_write. intros H. repeat case_match; simplify_eq; bool_hyps. subst. by eexists.
Qed.

Lemma read_written (uid : Z) (d : Dir) (name : Name) (mode : Z) (bytes : list byte) :
  permission_bits mode = AUTHORITY_MODE -> len bytes <= MAX_AUTHORITY_BYTES ->
  d !! name = Some (mkFile true uid mode bytes) -> read_authority uid d name true = Ok bytes.
Proof.
  intros Hm Hl Hd. unfold read_authority. rewrite Hd. cbn. rewrite Hm, Z.eqb_refl. cbn.
  by rewrite (proj2 (Z.ltb_ge _ _)).
Qed.

Lemma guard_value_inv g : 0 <= PairingGuard.mismatch_count g <= U8_MAX ->
  guard_of_value (guard_value g) = Ok g.
Proof.
  destruct g as [c u w]. cbn [PairingGuard.mismatch_count]. intros Hc.
  assert (E : (c <=? U8_MAX) = true) by (apply Z.leb_le; lia).
  unfold guard_of_value, guard_value. cbn [PairingGuard.mismatch_count
    PairingGuard.cooldown_until_wall_ms PairingGuard.updated_wall_ms].
  match goal with |- context [list_to_map ?l] =>
    let m := fresh "m" in set (m := list_to_map l : gmap string Value) end.
  replace (Z.of_nat (size m) =? 4) with true by (symmetry; vm_compute; reflexivity).
  change (m !! "schema_version"%string) with (Some (V_U64 1)).
  change (m !! "mismatch_count"%string) with (Some (V_U64 c)).
  change (m !! "cooldown_until_wall_ms"%string)
    with (Some (match u with Some n => V_U64 n | None => V_Null end)).
  change (m !! "updated_wall_ms"%string) with (Some (V_U64 w)).
  cbn [mbind option_bind as_u64]. rewrite bool_decide_true by done. cbn [negb orb].
  rewrite E. by destruct u.
Qed.

Lemma peer_value_inv sha256 r :
  length (pr_static_public_key r) = 32%nat -> validate_peer sha256 r = Ok tt ->
  peer_of_value sha256 (peer_value r) = Ok r.
Proof.
  destruct r as [sv pi pk al pw ls cv pv]. cbn [pr_static_public_key]. intros Hk Hv.
  unfold peer_of_value, peer_value.
  cbn [pr_schema_version pr_peer_id pr_static_public_key pr_alias pr_paired_wall_ms
    pr_last_seen_wall_ms pr_core_version pr_pbmux_version].
  match goal with |- context [list_to_map ?l] =>
    let m := fresh "m" in set (m := list_to_map l : gmap string Value) end.
  replace (Z.of_nat (size m) =? _) with true by (symmetry; vm_compute; reflexivity).
  replace (existsb _ _) with false by (symmetry; vm_compute; reflexivity).
  unfold required_string, required_u64.
  change (m !! "static_public_key_b64"%string) with (Some (V_String (base64_encode pk))).
  change (m !! "schema_version"%string) with (Some (V_U64 sv)).
  change (m !! "peer_id"%string) with (Some (V_String pi)).
  change (m !! "alias"%string) with (Some (V_String al)).
  change (m !! "paired_wall_ms"%string) with (Some (V_U64 pw)).
  change (m !! "last_seen_wall_ms"%string) with (Some (V_U64 ls)).
  change (m !! "core_version"%string) with (Some (V_U64 cv)).
  change (m !! "pbmux_version"%string) with (Some (V_U64 pv)).
  cbn [mbind option_bind as_u64 as_str ok_or negb orb].
  rewrite base64_roundtrip by done. by rewrite Hv.
Qed.

(** C16: A pairing guard that was persisted successfully is the guard that the next
    start loads: mismatch count, cooldown and clock survive a restart. *)
Theorem guard_survives_restart to_vec from_slice uid d temp g sc d' seen now :
  persist_guard to_vec uid d temp g sc = (d', Ok tt, seen) ->
  reads_back to_vec from_slice (guard_value g) ->
  0 <= PairingGuard.mismatch_count g <= U8_MAX ->
  len (to_vec (guard_value g)) < MAX_AUTHORITY_BYTES ->
  load_guard from_slice uid d' now true true = Ok g.
Proof.
  unfold persist_guard. intros (mode & Hm & ->)%atomic_write_ok Hr Hc Hl.
  unfold load_guard. cbn [negb]. rewrite lookup_insert_eq.
  rewrite (read_written uid _ _ mode (to_vec (guard_value g) ++ [NEWLINE])); [|done| |].
  - unfold parse_guard. rewrite Hr. cbn [ok_or]. by apply guard_value_inv.
  - unfold len in *. rewrite length_app. cbn [length]. lia.
  - apply lookup_insert_eq.
Qed.

Lemma guard_survives_restart_witness :
  let g := PairingGuard.mk 3 (Some 600003) 3 in
  let to_vec (_ : Value) := [Byte.x7b; Byte.x7d] in
  let from_slice (_ : list byte) := Some (guard_value g) in
  let d' := (persist_guard to_vec 5 ∅ (ascii_bytes ".tmp-1-1") g calls_ok).1.1 in
  load_guard from_slice 5 d' 9 true true = Ok g.
Proof.
  intros g to_vec from_slice d'.
  apply (guard_survives_restart to_vec from_slice 5 ∅ (ascii_bytes ".tmp-1-1") g calls_ok d'
    (persist_guard to_vec 5 ∅ (ascii_bytes ".tmp-1-1") g calls_ok).2 9).
  - assert (H : (persist_guard to_vec 5 ∅ (ascii_bytes ".tmp-1-1") g calls_ok).1.2 = Ok tt)
      by (vm_compute; reflexivity).
    unfold d'. revert H. destruct (persist_guard _ _ _ _ _ _) as [[? ?] ?]. cbn. by intros ->.
  - reflexivity.
  - cbn. unfold U8_MAX. lia.
  - reflexivity.
Defined.

(** ** The peer directory after a restart *)

Lemma utf8_ascii l : Forall (fun b => b2z b <= 127) l -> utf8 l = true.
Proof.
  induction 1 as [|b l Hb Hl IH]; [done|]. cbn [utf8]. by rewrite (proj2 (Z.leb_le _ _)).
Qed.

Lemma hex_char_ascii i : 0 <= i < 16 -> 48 <= b2z (char_at HEX i) <= 102.
Proof.
  intros Hi. assert (H : forallb (fun i => in_range 48 102 (b2z (char_at HEX i))) (seqZ 0 16)
    = true) by (vm_compute; reflexivity).
  rewrite forallb_forall in H. specialize (H i ltac:(apply list_elem_of_In, elem_of_seqZ; lia)).
  unfold in_range in H. bool_hyps. lia.
Qed.

Lemma hex_encode_ascii l : Forall (fun b => 48 <= b2z b <= 102) (hex_encode l).
Proof.
  induction l as [|b l IH]; [constructor|]. unfold hex_encode in *. cbn [flat_map app].
  pose proof (b2z_range b).
  apply Forall_cons; split; [|apply Forall_cons; split; [|done]]; apply hex_char_ascii.
  - rewrite Z.shiftr_div_pow2 by lia. change (2 ^ 4) with 16. Z.div_mod_to_equations. lia.
  - rewrite (land_ones_mod _ 4 15) by lia. apply Z.mod_pos_bound. lia.
Qed.

(** What the listing loop makes of a record's file name. *)
Lemma peer_file_name id : length id = 32%nat ->
  let name := peer_file (hex_encode id) in
  skipped name = false /\ utf8 name = true /\ ends_with (ascii_bytes ".json") name = true /\
  len name = 64 + 5.
Proof.
  intros Hl name. pose proof (hex_encode_ascii id) as Ha.
  pose proof (length_hex_encode id) as Hlen. rewrite Hl in Hlen.
  assert (Hj : length (ascii_bytes ".json") = 5%nat) by reflexivity.
  assert (Hn : length name = 69%nat) by (unfold name, peer_file; rewrite length_app; lia).
  split_and!.
  - unfold skipped, starts_with. rewrite !orb_false_iff, !bool_decide_eq_false.
    split_and!; [intros E; rewrite E in Hn; done..|].
    destruct (hex_encode id) as [|b l] eqn:E; [done|].
    unfold name, peer_file. apply Forall_cons in Ha as [Hb _].
    intros H. assert (b = DOT) as -> by (injection H; done). change (b2z DOT) with 46 in Hb. lia.
  - apply utf8_ascii. unfold name, peer_file. apply Forall_app. split.
    + eapply Forall_impl; [exact Ha|]. cbn. lia.
    + repeat constructor; vm_compute; congruence.
  - unfold ends_with. apply bool_decide_eq_true. unfold name, peer_file.
    rewrite length_app. replace (_ - _)%nat with (length (hex_encode id)) by lia.
    apply drop_app_length.
  - unfold len. rewrite Hn. done.
Qed.

Section Peers.
Context (sha256 : list byte -> list byte) (to_vec : Value -> list byte)
  (from_slice : list byte -> option Value) (uid : Z).
Hypothesis sha256_length : forall m, length (sha256 m) = 32%nat.

(** A record that can be stored and read back. *)
Record storable (r : PeerRecord) : Prop := {
  st_key : length (pr_static_public_key r) = 32%nat;
  st_reads : reads_back to_vec from_slice (peer_value r);
  st_size : len (to_vec (peer_value r)) < MAX_AUTHORITY_BYTES;
}.

Definition file_of (r : PeerRecord) : Name := peer_file (pr_peer_id r).

(** Commit records one after the other, each with its temporary name and answers. *)
Fixpoint commit_all (d : Dir) (rs : list (PeerRecord * Name * Syscalls)) :
    result Dir StorageError :=
  match rs with
  | [] => Ok d
  | (r, temp, sc) :: rs =>
      match commit_peer sha256 to_vec uid d temp r sc with
      | (d, Ok _, _) => commit_all d rs
      | (_, Err e, _) => Err e
      end
  end.

(** The last record committed under each file name. *)
Definition latest (rs : list (PeerRecord * Name * Syscalls)) (m : gmap Name PeerRecord) :
    gmap Name PeerRecord :=
  foldl (fun m x => <[file_of x.1.1 := x.1.1]> m) m rs.

(** Apart from names the listing skips, [d] holds exactly the valid records of [m]. *)
Definition holds (d : Dir) (m : gmap Name PeerRecord) : Prop :=
  (forall name, skipped name = false -> is_Some (d !! name) <-> is_Some (m !! name)) /\
  (forall name r, m !! name = Some r -> name = file_of r /\ validate_peer sha256 r = Ok tt /\
     storable r /\ exists mode, permission_bits mode = AUTHORITY_MODE /\
       d !! name = Some (mkFile true uid mode (to_vec (peer_value r) ++ [NEWLINE]))).

Lemma commit_holds d m r temp sc d' seen :
  holds d m -> storable r ->
  commit_peer sha256 to_vec uid d temp r sc = (d', Ok tt, seen) -> holds d' (<[file_of r := r]> m).
Proof.
  intros [Hdom Hr] Hs. unfold commit_peer.
  destruct (validate_peer sha256 r) as [[]|] eqn:Ev; [|done].
  intros (mode & Hm & ->)%atomic_write_ok. fold (file_of r). split.
  - intros name Hn. rewrite !lookup_insert_is_Some. specialize (Hdom name Hn). naive_solver.
  - intros name x [[<- <-]|[Hne Hx]]%lookup_insert_Some.
    + split_and!; [done..|]. exists mode. split; [done|apply lookup_insert_eq].
    + destruct (Hr name x Hx) as (H1 & H2 & H3 & mode' & H4 & H5). split_and!; [done..|].
      exists mode'. split; [done|]. by rewrite lookup_insert_ne.
Qed.

Lemma commit_all_holds rs : forall d m d',
  holds d m -> Forall (fun x => storable x.1.1) rs -> commit_all d rs = Ok d' ->
  holds d' (latest rs m).
Proof.
  induction rs as [|[[r temp] sc] rs IH]; intros d m d' Hd Hs; cbn [commit_all].
  { by intros [= <-]. }
  apply Forall_cons in Hs as [Hr Hs]. cbn in Hr.
  destruct (commit_peer sha256 to_vec uid d temp r sc) as [[d1 [[]|]] seen] eqn:E; [|done].
  apply IH; [|done]. by eapply commit_holds.
Qed.

(** The file of a valid record is listed. *)
Lemma file_of_listed r : validate_peer sha256 r = Ok tt ->
  skipped (file_of r) = false /\ utf8 (file_of r) = true /\
  ends_with (ascii_bytes ".json") (file_of r) = true /\ len (file_of r) = 64 + 5.
Proof.
  unfold validate_peer. intros H. repeat case_match; try done. bool_hyps.
  unfold file_of. match goal with H : pr_peer_id r = _ |- _ => rewrite H end.
  apply peer_file_name, sha256_length.
Qed.

(** The listing loop over names that are skipped or name valid records. *)
Lemma peer_names_listed entries : forall names,
  Forall (fun e => skipped e = true \/ exists r, validate_peer sha256 r = Ok tt /\ e = file_of r)
    entries ->
  Z.of_nat (length names) <= MAX_PEERS ->
  let found := names ++ filter (fun e => skipped e = false) entries in
  peer_names entries names =
    if MAX_PEERS <? Z.of_nat (length found) then Err Sg_TooManyPeers else Ok found.
Proof.
  induction entries as [|e entries IH]; intros names He Hl found; subst found; cbn [peer_names].
  { cbn. rewrite app_nil_r, (proj2 (Z.ltb_ge _ _)) by lia. done. }
  apply Forall_cons in He as [He Hes]. rewrite filter_cons.
  destruct (skipped e) eqn:Es.
  - rewrite decide_False by done. by apply IH.
  - rewrite decide_True by done. destruct He as [He|(r & Hr & ->)]; [done|].
    destruct (file_of_listed r Hr) as (_ & -> & -> & ->). cbn [negb orb Z.eqb Pos.eqb Z.add].
    rewrite (cons_middle (file_of r) names (filter _ _)), app_assoc.
    destruct (Z.ltb_spec MAX_PEERS (Z.of_nat (length (names ++ [file_of r])))) as [Hm|Hm].
    + rewrite (proj2 (Z.ltb_lt _ _)); [done|]. rewrite (length_app (names ++ _)). lia.
    + by apply IH.
Qed.

Lemma read_peers_ok d m : holds d m -> forall sub, (forall r, r ∈ sub -> m !! file_of r = Some r) ->
  read_peers sha256 from_slice uid d (fun _ => true) (file_of <$> sub) = Ok sub.
Proof.
  intros [_ Hr] sub. induction sub as [|r sub IH]; intros Hsub; [done|]. cbn.
  destruct (Hr (file_of r) r) as (_ & Hv & [Hk Hb Hs] & mode & Hm & Hf); [apply Hsub; set_solver|].
  rewrite (read_written _ _ _ _ _ Hm) with (2 := Hf);
    [|unfold len in *; rewrite length_app; cbn [length]; lia].
  unfold parse_peer. rewrite Hb. cbn [ok_or]. rewrite peer_value_inv by done.
  rewrite bool_decide_true by done. cbn. by rewrite IH by set_solver.
Qed.

(** What a listing of the directory yields, apart from the names it skips. *)
Lemma listed_names d m entries : holds d m ->
  entries ≡ₚ [DOT] :: [DOT; DOT] :: elements (dom d : gset Name) ->
  filter (fun e => skipped e = false) entries ≡ₚ file_of <$> (map_to_list m).*2 /\
  Forall (fun e => skipped e = true \/ exists r, validate_peer sha256 r = Ok tt /\ e = file_of r)
    entries.
Proof.
  intros [Hdom Hr] He.
  assert (Hnames : file_of <$> (map_to_list m).*2 = (map_to_list m).*1).
  { rewrite <- list_fmap_compose. apply list_fmap_ext. intros i [name r] Hi. cbn.
    apply list_elem_of_lookup_2, elem_of_map_to_list in Hi. symmetry. by apply (Hr name r). }
  split.
  - rewrite Hnames, He, !filter_cons. rewrite !decide_False by done.
    apply NoDup_Permutation; [apply NoDup_filter, NoDup_elements|apply NoDup_fst_map_to_list|].
    intros name. rewrite list_elem_of_filter, elem_of_elements, elem_of_dom, list_elem_of_fmap. split.
    + intros [Hn Hd]. apply Hdom in Hd as [r Hm]; [|done]. exists (name, r).
      split; [done|]. by apply elem_of_map_to_list.
    + intros ([name' r] & -> & Hm%elem_of_map_to_list). cbn.
      destruct (Hr _ _ Hm) as (-> & Hv & _ & mode & _ & Hd).
      split; [apply file_of_listed, Hv|by rewrite Hd].
  - apply Forall_forall. intros e Hin. destruct (skipped e) eqn:Es; [by left|right].
    rewrite He, !elem_of_cons, elem_of_elements, elem_of_dom in Hin.
    destruct Hin as [->|[->|Hin]]; [done..|]. apply Hdom in Hin as [r Hm]; [|done].
    destruct (Hr _ _ Hm) as (-> & Hv & _). by exists r.
Qed.

(** Sorting the file names sorts the records. *)
Lemma names_of_records (names : list Name) rs : names ≡ₚ file_of <$> rs ->
  exists sub, names = file_of <$> sub /\ sub ≡ₚ rs.
Proof.
  intros H. apply Permutation_map_inv in H as (sub & -> & Hp).
  exists sub. by rewrite Hp.
Qed.

Lemma name_le_total a : forall b, name_le a b = true \/ name_le b a = true.
Proof.
  induction a as [|x a IH]; intros [|y b]; cbn; auto.
  destruct (IH b) as [Hab|Hab]; rewrite Hab, ?andb_true_r;
    destruct (Z.ltb_spec (b2z x) (b2z y)), (Z.ltb_spec (b2z y) (b2z x)),
      (Z.eqb_spec (b2z x) (b2z y)), (Z.eqb_spec (b2z y) (b2z x)); cbn; auto; lia.
Qed.

(** C15: Peers are committed one after the other, some of them repeatedly, into a
    directory that holds nothing but left-over temporary files.  If they are at most 64
    different peers, the next start loads for each of them the record committed last, in
    the order of the file names, in whatever order the listing yields the files.  If
    they are more than 64, which [commit_peer] does not prevent, the next start fails
    with [TooManyPeers]. *)
Theorem peers_survive_restart rs d0 d entries :
  (forall name, is_Some (d0 !! name) -> skipped name = true) ->
  Forall (fun x => storable x.1.1) rs -> commit_all d0 rs = Ok d ->
  entries ≡ₚ [DOT] :: [DOT; DOT] :: elements (dom d : gset Name) ->
  let peers := latest rs ∅ in
  if MAX_PEERS <? Z.of_nat (size peers)
  then load_peers sha256 from_slice uid d entries (fun _ => true) = Err Sg_TooManyPeers
  else exists loaded,
    load_peers sha256 from_slice uid d entries (fun _ => true) = Ok loaded /\
    loaded ≡ₚ (map_to_list peers).*2 /\ Sorted name_order (file_of <$> loaded).
Proof.
  intros H0 Hs Hc He peers.
  assert (Hd : holds d peers).
  { apply (commit_all_holds rs d0 ∅ d); [|done..]. split; [|by intros ? ? ?%lookup_empty_Some].
    intros name Hn. rewrite lookup_empty. split; [|by intros []].
    intros Hx%H0. by rewrite Hx in Hn. }
  destruct (listed_names d peers entries Hd He) as [Hp Hl].
  assert (Hsize : size peers = length (filter (fun e => skipped e = false) entries)).
  { rewrite Hp, !length_fmap. symmetry. apply length_map_to_list. }
  unfold load_peers. rewrite (peer_names_listed entries [] Hl) by done. cbn zeta.
  rewrite app_nil_l, Hsize. destruct (_ <? _); [done|].
  destruct (names_of_records (sort_names (filter (fun e => skipped e = false) entries))
    (map_to_list peers).*2) as (sub & E & Hsub).
  { unfold sort_names. by rewrite merge_sort_Permutation. }
  exists sub. rewrite E. split_and!; [|done|].
  - apply (read_peers_ok d peers Hd). intros r Hr. rewrite Hsub in Hr.
    apply list_elem_of_fmap in Hr as ([name r'] & -> & Hm%elem_of_map_to_list).
    destruct Hd as [_ Hd]. cbn. by destruct (Hd _ _ Hm) as (<- & _).
  - rewrite <- E. apply Sorted_merge_sort. intros a b. apply name_le_total.
Qed.
End Peers.

(** Peer [i] of a demonstration, with an alias. *)
Module PeersDemo.
Definition sha256 (m : list byte) : list byte := replicate 32 (default Byte.x00 (head m)).
Definition peer (i : Z) (alias : list byte) : PeerRecord :=
  PeerRecord_new sha256 (replicate 32 (z2b i)) alias 1000.
Definition old : list byte := ascii_bytes "Linux host".
Definition new : list byte := ascii_bytes "Android worker".
(** A serialiser good enough for these values: the key and the alias. *)
Definition to_vec (v : Value) : list byte :=
  match v with
  | V_Object o =>
      match o !! "static_public_key_b64"%string, o !! "alias"%string with
      | Some (V_String k), Some (V_String a) => k ++ a
      | _, _ => []
      end
  | _ => []
  end.
Definition from_slice (bytes : list byte) : option Value :=
  match base64_decode_32 (take 44 bytes) with
  | Ok k => Some (peer_value (PeerRecord_new sha256 k (removelast (drop 44 bytes)) 1000))
  | Err _ => None
  end.
Definition commits (rs : list PeerRecord) : list (PeerRecord * Name * Syscalls) :=
  (fun r => (r, ascii_bytes ".tmp-1-1", calls_ok)) <$> rs.
(** A crash left a temporary file behind. *)
Definition before : Dir := {[ ascii_bytes ".tmp-9-9" := mkFile true 5 0 [] ]}.
Definition dir (rs : list PeerRecord) : Dir :=
  match commit_all sha256 to_vec 5 before (commits rs) with Ok d => d | Err _ => ∅ end.
Definition entries (rs : list PeerRecord) : list Name :=
  [DOT] :: [DOT; DOT] :: elements (dom (dir rs) : gset Name).
Definition load (rs : list PeerRecord) : result (list PeerRecord) StorageError :=
  load_peers sha256 from_slice 5 (dir rs) (entries rs) (fun _ => true).

(** Three commits of two peers, and one commit of each of 65 peers. *)
Definition two : list PeerRecord := [peer 2 old; peer 1 old; peer 2 new].
Definition many : list PeerRecord := (fun i => peer i old) <$> seqZ 1 65.
End PeersDemo.

Lemma demo_storable i alias : len alias <= 128 ->
  storable PeersDemo.to_vec PeersDemo.from_slice (PeersDemo.peer i alias).
Proof.
  intros Ha. assert (Hl : length (replicate 32 (z2b i)) = 32%nat) by done.
  destruct (encode_shape _ Hl) as [H44 _].
  assert (Hv : PeersDemo.to_vec (peer_value (PeersDemo.peer i alias))
    = base64_encode (replicate 32 (z2b i)) ++ alias) by reflexivity.
  constructor; [done| |].
  - unfold reads_back. rewrite Hv. unfold PeersDemo.from_slice.
    rewrite <- app_assoc, take_app_length', drop_app_length', removelast_last by done.
    by rewrite base64_roundtrip.
  - rewrite Hv. unfold len in *. rewrite length_app, H44. unfold MAX_AUTHORITY_BYTES. lia.
Qed.

Lemma peers_survive_restart_witness :
  PeersDemo.load PeersDemo.two = Ok [PeersDemo.peer 1 PeersDemo.old; PeersDemo.peer 2 PeersDemo.new] /\
  PeersDemo.load PeersDemo.many = Err Sg_TooManyPeers.
Proof.
  assert (Hd0 : forall name, is_Some (PeersDemo.before !! name) -> skipped name = true).
  { intros name [f Hf]. unfold PeersDemo.before in Hf. by apply lookup_singleton_Some in Hf as [<- _]. }
  assert (H2 : Forall (fun x => storable PeersDemo.to_vec PeersDemo.from_slice x.1.1)
    (PeersDemo.commits PeersDemo.two)).
  { apply Forall_fmap. repeat (apply List.Forall_cons; [by apply demo_storable|]). apply List.Forall_nil. }
  assert (H65 : Forall (fun x => storable PeersDemo.to_vec PeersDemo.from_slice x.1.1)
    (PeersDemo.commits PeersDemo.many)).
  { apply Forall_fmap, Forall_fmap, Forall_true. intros i. by apply demo_storable. }
  pose proof (fun rs d Hrs Hc => peers_survive_restart PeersDemo.sha256 PeersDemo.to_vec
    PeersDemo.from_slice 5 (fun m => length_replicate 32 _) (PeersDemo.commits rs)
    PeersDemo.before d _ Hd0 Hrs Hc (reflexivity _)) as H.
  cbn zeta in H.
  assert (Hdir : forall rs, is_ok (commit_all PeersDemo.sha256 PeersDemo.to_vec 5 PeersDemo.before
      (PeersDemo.commits rs)) = true ->
    commit_all PeersDemo.sha256 PeersDemo.to_vec 5 PeersDemo.before (PeersDemo.commits rs)
      = Ok (PeersDemo.dir rs)).
  { intros rs. unfold PeersDemo.dir. by destruct (commit_all _ _ _ _ _). }
  split.
  - specialize (H PeersDemo.two (PeersDemo.dir PeersDemo.two) H2
      (Hdir PeersDemo.two ltac:(by vm_compute))).
    replace (MAX_PEERS <? _) with false in H by (by vm_compute).
    destruct H as (loaded & E & _). unfold PeersDemo.load, PeersDemo.entries. rewrite E.
    vm_compute in E. by injection E as <-.
  - specialize (H PeersDemo.many (PeersDemo.dir PeersDemo.many) H65
      (Hdir PeersDemo.many ltac:(by vm_compute))).
    replace (MAX_PEERS <? _) with true in H by (by vm_compute). exact H.
Defined.
