(* ===== verification/Records.v ===== *)
(** * pb-runtime-secure: records, encrypted records and frames on a stream

    Models [crates/pb-runtime-secure/src/wire.rs] and, of [runtime.rs],
    [RuntimeError], [read_record_prefixed], [receive_frame_if_available],
    [send_frame] and [control_frame].

    The readable side of a socket is the list of bytes that will still arrive
    before it fails; the writable side is the bytes that were put on it, with the
    outcome of the write as an argument.  The Noise transport is the interface
    [Transport]; its laws say that what one end wrote the other end reads, in
    order, and that a ciphertext is 16 bytes longer than its plaintext. *)

From Stdlib Require Import ZArith Lia.
From stdpp Require Import base tactics list gmap strings.
From S2P Require Import Prelude Types Pbmux Text.

Inductive SecureWireError : Type := We_Io | We_RecordLength | We_Crypto.

#[export] Instance SecureWireError_eq_dec : EqDecision SecureWireError.
Proof. solve_decision. Defined.

Inductive RuntimeError : Type :=
| Re_Storage (e : StorageError)
| Re_Noise
| Re_Wire (e : SecureWireError)
| Re_PairPersistFailed
| Re_PeerKeyMismatch
| Re_UnknownInitiatorIkRejected
| Re_PairingTimeout
| Re_PairCancelled
| Re_SasRejected
| Re_PairingCooldown
| Re_Pbmux
| Re_SessionLost
| Re_SessionBusy
| Re_NoConnectedTransport
| Re_CommandHandlerUnavailable
| Re_CommandHandlerFailed.

#[export] Instance RuntimeError_eq_dec : EqDecision RuntimeError.
Proof. solve_decision. Defined.

(** [RuntimeError::reason_code] *)
Definition runtime_reason_code (e : RuntimeError) : string :=
  match e with
  | Re_Storage Sg_CorruptIdentity => "STATE_CORRUPT"
  | Re_Storage Sg_CorruptPeer | Re_Storage Sg_CorruptGuard => "STATE_CORRUPT"
  | Re_Storage _ | Re_PairPersistFailed => "PAIR_PERSIST_FAILED"
  | Re_Noise | Re_Wire We_Crypto => "SESSION_CRYPTO_ERROR"
  | Re_Wire _ | Re_SessionLost => "DEVICE_LOST"
  | Re_PeerKeyMismatch => "PEER_KEY_MISMATCH"
  | Re_UnknownInitiatorIkRejected => "UNKNOWN_INITIATOR_IK_REJECTED"
  | Re_PairingTimeout => "PAIRING_TIMEOUT"
  | Re_PairCancelled => "PAIR_CANCELLED"
  | Re_SasRejected => "SAS_REJECTED"
  | Re_PairingCooldown => "PAIRING_COOLDOWN"
  | Re_Pbmux => "PAIRING_NOT_COMMITTED"
  | Re_SessionBusy => "CONTROLLER_BUSY"
  | Re_NoConnectedTransport => "DEVICE_LOST"
  | Re_CommandHandlerUnavailable => "COMMAND_HANDLER_UNAVAILABLE"
  | Re_CommandHandlerFailed => "COMMAND_HANDLER_FAILED"
  end%string.

(** [map_err] *)
Definition map_err {T E F} (f : E -> F) (r : result T E) : result T F :=
  match r with Ok t => Ok t | Err e => Err (f e) end.

(** ** Records: a two-byte big-endian length and that many bytes *)

Definition MAX_RECORD_BYTES : Z := U16_MAX.

(** [read_exact] of [n] bytes. *)
Definition read_exact (n : nat) (stream : list byte) : option (list byte * list byte) :=
  if (n <=? length stream)%nat then Some (take n stream, drop n stream) else None.

Definition write_record (bytes : list byte) (io_ok : bool) : result (list byte) SecureWireError :=
  if (len bytes =? 0) || (MAX_RECORD_BYTES <? len bytes) then Err We_RecordLength
  else if io_ok then Ok (to_be 2 (len bytes) ++ bytes) else Err We_Io.

Definition read_record (stream : list byte) : result (list byte * list byte) SecureWireError :=
  match read_exact 2 stream with
  | None => Err We_Io
  | Some (prefix, stream) =>
      let length := be_val prefix in
      if (length =? 0) || (MAX_RECORD_BYTES <? length) then Err We_RecordLength
      else ok_or (read_exact (Z.to_nat length) stream) We_Io
  end.

(** The responder may have read up to two bytes already. *)
Definition read_record_prefixed (stream prefix : list byte) :
    result (list byte * list byte) RuntimeError :=
  if len prefix =? 0 then map_err Re_Wire (read_record stream)
  else if 2 <? len prefix then Err Re_SessionLost
  else
    match (if len prefix <? 2 then read_exact (2 - length prefix) stream else Some ([], stream)) with
    | None => Err Re_SessionLost
    | Some (rest, stream) =>
        let length := be_val (prefix ++ rest) in
        if length =? 0 then Err Re_SessionLost
        else ok_or (read_exact (Z.to_nat length) stream) Re_SessionLost
    end.

(** ** The Noise transport *)

Class Transport (T : Type) : Type := {
  (** [write_message(payload, buffer)] and [read_message(message, buffer)] with the
      capacity of the output buffer *)
  write_message : T -> list byte -> Z -> option (T * list byte);
  read_message : T -> list byte -> Z -> option (T * list byte);
}.

(** [delivers s r]: what [s] writes next is what [r] reads next. *)
Class TransportLaws (T : Type) `{Transport T} : Type := {
  delivers : T -> T -> Prop;
  write_delivered : forall s r p cap s' c,
    delivers s r -> write_message s p cap = Some (s', c) ->
    len c = len p + 16 /\ len c <= cap /\
    forall cap', len p <= cap' -> exists r', read_message r c cap' = Some (r', p) /\ delivers s' r';
  write_keeps_reading : forall s q p cap s' c,
    delivers q s -> write_message s p cap = Some (s', c) -> delivers q s';
  read_keeps_writing : forall r q c cap r' p,
    delivers r q -> read_message r c cap = Some (r', p) -> delivers r' q;
}.

Section Encrypted.
Context {T : Type} `{Transport T}.

Definition write_encrypted (t : T) (plaintext : list byte) (io_ok : bool) :
    result (T * list byte) SecureWireError :=
  if (len plaintext =? 0) || (MAX_PBMUX_PLAINTEXT <? len plaintext) then Err We_RecordLength
  else
    match write_message t plaintext MAX_NOISE_CIPHERTEXT with
    | None => Err We_Crypto
    | Some (t, ciphertext) =>
        if MAX_NOISE_CIPHERTEXT <? len ciphertext then Err We_RecordLength
        else let? bytes := write_record ciphertext io_ok in Ok (t, bytes)
    end.

Definition read_encrypted (t : T) (stream : list byte) :
    result (T * list byte * list byte) SecureWireError :=
  match read_record stream with
  | Err e => Err e
  | Ok (ciphertext, stream) =>
      if MAX_NOISE_CIPHERTEXT <? len ciphertext then Err We_RecordLength
      else
        match read_message t ciphertext MAX_PBMUX_PLAINTEXT with
        | None => Err We_Crypto
        | Some (t, plaintext) => Ok (t, plaintext, stream)
        end
  end.

(** What [peek] on the socket answers. *)
Inductive PeekResult : Type :=
| Pk_Closed
| Pk_Bytes (count : Z)
| Pk_WouldBlock
| Pk_Error.

(** [configured] and [restored] are the outcomes of switching the socket to blocking
    reads and back. *)
Definition receive_frame_if_available (peek : PeekResult) (configured restored : bool) (t : T)
    (stream : list byte) : result (T * list byte * option Frame) RuntimeError :=
  match peek with
  | Pk_Closed => Err Re_SessionLost
  | Pk_WouldBlock => Ok (t, stream, None)
  | Pk_Error => Err Re_SessionLost
  | Pk_Bytes count =>
      if count <? 2 then Ok (t, stream, None)
      else if negb configured then Err Re_SessionLost
      else
        let plaintext := read_encrypted t stream in
        if negb restored then Err Re_SessionLost
        else
          match plaintext with
          | Err e => Err (Re_Wire e)
          | Ok (t, plaintext, stream) =>
              match decode plaintext with
              | Err _ => Err Re_Pbmux
              | Ok frame => Ok (t, stream, Some frame)
              end
          end
  end.

(** [configured], [io_ok] and [restored] as above; the bytes put on the wire. *)
Definition send_frame (t : T) (frame : Frame) (configured io_ok restored : bool) :
    result (T * list byte) RuntimeError :=
  match encode frame with
  | Err _ => Err Re_Pbmux
  | Ok plaintext =>
      if negb configured then Err Re_SessionLost
      else
        match write_encrypted t plaintext io_ok with
        | Err e => Err (Re_Wire e)
        | Ok x => if restored then Ok x else Err Re_SessionLost
        end
  end.

(** Send frames one after the other; receive until the stream is used up. *)
Fixpoint send_frames (t : T) (frames : list Frame) : result (T * list byte) RuntimeError :=
  match frames with
  | [] => Ok (t, [])
  | f :: frames =>
      match send_frame t f true true true with
      | Err e => Err e
      | Ok (t, bytes) =>
          match send_frames t frames with
          | Err e => Err e
          | Ok (t, more) => Ok (t, bytes ++ more)
          end
      end
  end.

Fixpoint receive_frames (n : nat) (t : T) (stream : list byte) :
    result (T * list byte * list Frame) RuntimeError :=
  match n with
  | O => Ok (t, stream, [])
  | S n =>
      match receive_frame_if_available (Pk_Bytes 2) true true t stream with
      | Err e => Err e
      | Ok (_, _, None) => Err Re_SessionLost
      | Ok (t, stream, Some f) =>
          match receive_frames n t stream with
          | Err e => Err e
          | Ok (t, stream, fs) => Ok (t, stream, f :: fs)
          end
      end
  end.

(** ** Reading what was written *)

Lemma read_exact_app n a b : length a = n -> read_exact n (a ++ b) = Some (a, b).
Proof.
  intros <-. unfold read_exact. rewrite (proj2 (Nat.leb_le _ _)) by (rewrite length_app; lia).
  by rewrite take_app_length, drop_app_length.
Qed.

Lemma read_written_record bytes rest wire :
  write_record bytes true = Ok wire -> read_record (wire ++ rest) = Ok (bytes, rest).
Proof.
  unfold write_record. intros E. ok_inv E. apply Ok_inj in E as <-. bool_hyps.
  unfold read_record. rewrite <- app_assoc, read_exact_app by apply length_to_be.
  rewrite be_val_to_be by (unfold uw, MAX_RECORD_BYTES, U16_MAX, len in *; cbn; lia).
  rewrite (proj2 (Z.eqb_neq _ _)), (proj2 (Z.ltb_ge _ _)) by done. cbn [orb].
  unfold len. rewrite Nat2Z.id, read_exact_app by done. done.
Qed.

Lemma read_record_two a b stream :
  read_record (a :: b :: stream) =
    if be_val [a; b] =? 0 then Err We_RecordLength
    else ok_or (read_exact (Z.to_nat (be_val [a; b])) stream) We_Io.
Proof.
  unfold read_record. change (a :: b :: stream) with ([a; b] ++ stream).
  rewrite read_exact_app by done. pose proof (be_val_range [a; b]) as Hr.
  change (256 ^ _) with 65536 in Hr. rewrite (proj2 (Z.ltb_ge MAX_RECORD_BYTES _)).
  - by rewrite orb_false_r.
  - unfold MAX_RECORD_BYTES, U16_MAX. lia.
Qed.

(** C23: Reading a record of which the first bytes were consumed earlier is reading the
    record from the stream with those bytes put back: the responder's handling of the
    sniffed prefix loses and invents nothing. *)
Theorem read_record_prefixed_equiv prefix stream :
  read_record_prefixed stream prefix =
    if 2 <? len prefix then Err Re_SessionLost
    else map_err (fun e => if len prefix =? 0 then Re_Wire e else Re_SessionLost)
           (read_record (prefix ++ stream)).
Proof.
  unfold read_record_prefixed. destruct prefix as [|a [|b [|c p]]].
  - done.
  - change (len [a]) with 1. cbn [Z.eqb Z.ltb Z.compare Pos.compare Pos.compare_cont].
    destruct stream as [|x stream]; [done|]. cbn [app]. rewrite read_record_two.
    change (read_exact (2 - length [a]) (x :: stream)) with (read_exact 1 ([x] ++ stream)).
    rewrite read_exact_app by done. cbn [app].
    destruct (be_val [a; x] =? 0); [done|]. by destruct (read_exact _ _).
  - change (len [a; b]) with 2. cbn [Z.eqb Z.ltb Z.compare Pos.compare Pos.compare_cont Pos.eqb app].
    rewrite read_record_two. destruct (be_val [a; b] =? 0); [done|]. by destruct (read_exact _ _).
  - rewrite (proj2 (Z.eqb_neq _ _)) by (unfold len; cbn [length]; lia).
    by rewrite (proj2 (Z.ltb_lt _ _)) by (unfold len; cbn [length]; lia).
Qed.

Context `{!TransportLaws T}.

Lemma read_written_frame t r f t' wire rest c i o :
  delivers t r -> header_typed (header f) -> send_frame t f c i o = Ok (t', wire) ->
  exists r', receive_frame_if_available (Pk_Bytes 2) true true r (wire ++ rest)
               = Ok (r', rest, Some f) /\ delivers t' r'.
Proof.
  intros Hd Hh. unfold send_frame.
  destruct (encode f) as [p|] eqn:Ee; [|done].
  unfold write_encrypted. intros E. repeat case_match; simplify_eq. bool_hyps.
  destruct (write_delivered _ _ _ _ _ _ Hd ltac:(done)) as (Hl & Hcap & Hread).
  destruct (Hread MAX_PBMUX_PLAINTEXT) as (r' & Hr & Hd'); [lia|].
  exists r'. split; [|done]. unfold receive_frame_if_available, read_encrypted.
  cbn [Z.ltb Z.compare Pos.compare Pos.compare_cont negb].
  match goal with H : write_record _ ?i = Ok _ |- _ =>
    assert (i = true) as -> by (unfold write_record in H; repeat case_match; done) end.
  erewrite read_written_record by done. rewrite (proj2 (Z.ltb_ge _ _)) by done.
  rewrite Hr. rewrite (decode_encoded f p Hh Ee). done.
Qed.
(** C22: Frames put on the encrypted stream one after the other come out at the other
    end as the same frames in the same order, whatever follows them on the stream:
    frame codec, Noise transport and record framing compose. *)
Theorem frames_delivered fs : forall t r t' wire rest,
  delivers t r -> Forall (fun f => header_typed (header f)) fs ->
  send_frames t fs = Ok (t', wire) ->
  exists r', receive_frames (length fs) r (wire ++ rest) = Ok (r', rest, fs) /\ delivers t' r'.
Proof.
  induction fs as [|f fs IH]; intros t r t' wire rest Hd Hh E; cbn [send_frames] in E.
  { simplify_eq. by exists r. }
  apply Forall_cons in Hh as [Hf Hfs].
  destruct (send_frame t f true true true) as [[t1 w1]|] eqn:E1; [|done].
  destruct (send_frames t1 fs) as [[t2 w2]|] eqn:E2; [|done]. simplify_eq.
  destruct (read_written_frame t r f t1 w1 (w2 ++ rest) _ _ _ Hd Hf E1) as (r1 & Hr1 & Hd1).
  destruct (IH t1 r1 t' w2 rest Hd1 Hfs E2) as (r2 & Hr2 & Hd2).
  exists r2. split; [|done]. cbn [receive_frames length].
  by rewrite <- app_assoc, Hr1, Hr2.
Qed.

End Encrypted.

(** [control_frame]: a CONTROL message without payload. *)
Definition control_frame (t : ControlType) (request_id sequence : Z) : Frame := {|
  header := {|
    channel := Ch_Control;
    flags := Z.lor FLAG_START FLAG_END;
    message_type := ControlType_as_u16 t;
    request_id := request_id;
    sequence := sequence;
    fragment_index := 0;
    payload_len := 0;
    logical_message_len := 0 |};
  payload := [] |}.

Lemma control_frame_typed t q s : uw 64 q -> uw 64 s -> header_typed (header (control_frame t q s)).
Proof. intros Hq Hs. constructor; cbn; try done; unfold uw; try lia. by destruct t. Qed.

Lemma control_frame_wf t q s : uw 64 q -> uw 64 s -> frame_wf (control_frame t q s).
Proof.
  intros Hq Hs. constructor; [by apply control_frame_typed|done..| |].
  - by destruct t.
  - done.
Qed.

(** A transport that numbers its messages in the 16 extra bytes. *)
Module CountingTransport.
Record t : Type := mk { tx : Z; rx : Z }.

Definition write (s : t) (p : list byte) (cap : Z) : option (t * list byte) :=
  if (len p + 16 <=? cap) && (tx s <? 2 ^ 64 - 1)
  then Some (mk (tx s + 1) (rx s), p ++ to_be 16 (tx s)) else None.

Definition read (s : t) (c : list byte) (cap : Z) : option (t * list byte) :=
  let n := (length c - 16)%nat in
  if (16 <=? len c) && (len c - 16 <=? cap) && bool_decide (drop n c = to_be 16 (rx s))
  then Some (mk (tx s) (rx s + 1), take n c) else None.

#[global] Instance counting : Transport t := {| write_message := write; read_message := read |}.

#[global] Instance counting_laws : TransportLaws t.
Proof.
  refine {| delivers := fun s r => tx s = rx r |}.
  - intros s r p cap s' c Hd. unfold write_message, read_message, counting, write, read.
    intros E. repeat case_match; simplify_eq. bool_hyps. unfold len in *.
    rewrite !length_app, !length_to_be. split_and!; [lia|lia|]. intros cap' Hc.
    eexists. rewrite (proj2 (Z.leb_le 16 _)), (proj2 (Z.leb_le _ cap')) by lia.
    replace (length p + 16 - 16)%nat with (length p) by lia.
    rewrite drop_app_length, take_app_length, Hd, bool_decide_true by done. split; [done|].
    cbn. lia.
  - intros s q p cap s' c Hd. unfold write_message, counting, write. intros E.
    repeat case_match; simplify_eq. done.
  - intros s q p cap s' c Hd. unfold read_message, counting, read. intros E.
    repeat case_match; simplify_eq. done.
Defined.
End CountingTransport.

Lemma frames_delivered_witness :
  let fs := [control_frame Ct_Ping 7 0; control_frame Ct_SessionClose 8 1] in
  let s := CountingTransport.mk 0 0 in
  exists t' wire, send_frames s fs = Ok (t', wire) /\ length wire = 116%nat /\
    exists r', receive_frames 2 s (wire ++ [Byte.x00]) = Ok (r', [Byte.x00], fs).
Proof.
  intros fs s. destruct (send_frames s fs) as [[t' wire]|e] eqn:E; [|by vm_compute in E].
  exists t', wire. split; [done|].
  destruct (frames_delivered fs s s t' wire [Byte.x00]) as (r' & Hr & _).
  - reflexivity.
  - repeat constructor; cbn; try done.
  - exact E.
  - split; [|by exists r']. vm_compute in E. injection E as <- <-. reflexivity.
Defined.
