(* ===== verification/Planner.v ===== *)
(** * pb-host: the placement planner

    Models [crates/pb-host/src/planner.rs]: performance evidence and its
    qualification, the validity of a stored profile, the remote gates and the
    placement decision.  Durations are milliseconds ([as_secs] is the quotient by
    1000); texts are lists of bytes; [None] of [decide_placement] is the
    [unreachable!] of the source. *)

From Stdlib Require Import ZArith Lia.
From stdpp Require Import base tactics list.
From S2P Require Import Prelude Types.

Definition PERFORMANCE_PROFILE_TTL_MS : Z := 24 * 60 * 60 * 1000.
Definition SPEED_MINIMUM_GAIN_BASIS_POINTS : Z := 500.
Definition LOCALITY_MAXIMUM_LOSS_BASIS_POINTS : Z := -500.
Definition MINIMUM_MEASURED_RUNS : Z := 15.
Definition MINIMUM_SUSTAINED_CHECK_MS : Z := 5 * 60 * 1000.

Inductive PlacementMode : Type := Pm_LocalOnly | Pm_Capacity | Pm_Speed | Pm_Balanced.
Inductive PlacementTarget : Type :=
| Pg_LocalOnly | Pg_RemoteCapacity | Pg_RemoteSpeed | Pg_RemoteLocality.
Inductive PlacementReason : Type :=
| Pr_LocalOnlyRequested | Pr_RemoteNotReady | Pr_RemoteNotAuthenticated | Pr_LeaseInactive
| Pr_MetricsStale | Pr_ProviderUnavailable | Pr_ResourceEstimateZero | Pr_ResourceGuardRefused
| Pr_ThermalDisallowed | Pr_BatteryPolicyDisallowed | Pr_WorkloadNotPhoneBoostAware
| Pr_RemoteCapacityInsufficient | Pr_ProfileUnknown | Pr_ProfileInvalid
| Pr_ProfileNotSpeedQualified | Pr_RemoteCapacityRequired | Pr_SpeedEvidenceQualified
| Pr_RemoteDataLocality | Pr_LocalPreferred.

#[export] Instance PlacementMode_eq_dec : EqDecision PlacementMode.
Proof. solve_decision. Defined.

Record PlacementDecision : Type := mkDecision {
  pd_target : PlacementTarget;
  pd_reason : PlacementReason;
}.

Definition local_decision (reason : PlacementReason) : PlacementDecision :=
  mkDecision Pg_LocalOnly reason.
Definition remote_decision (target : PlacementTarget) (reason : PlacementReason) :
    PlacementDecision :=
  mkDecision target reason.

Inductive ThermalClass : Type := Tc_Nominal | Tc_Light | Tc_Moderate | Tc_Severe.
Inductive BatteryPolicy : Type :=
| Bp_ExternalPower | Bp_BatteryAllowed | Bp_PowerSave | Bp_RemoteDisallowed.

#[export] Instance ThermalClass_eq_dec : EqDecision ThermalClass.
Proof. solve_decision. Defined.
#[export] Instance BatteryPolicy_eq_dec : EqDecision BatteryPolicy.
Proof. solve_decision. Defined.

Record PerformanceProfileKey : Type := mkProfileKey {
  pk_peer_id : list byte;
  pk_worker_build_id : list byte;
  pk_provider_id : list byte;
  pk_operation_id : list byte;
  pk_core_protocol_version : Z;
  pk_provider_protocol_version : Z;
  pk_transport_signature : list byte;
  pk_workload_signature : list byte;
  pk_thermal_class : ThermalClass;
  pk_battery_policy : BatteryPolicy;
}.

#[export] Instance PerformanceProfileKey_eq_dec : EqDecision PerformanceProfileKey.
Proof. solve_decision. Defined.

Record PerformanceEvidence : Type := mkEvidence {
  pv_local_warmup_complete : bool;
  pv_remote_warmup_complete : bool;
  pv_measured_local_runs : Z;
  pv_measured_remote_runs : Z;
  pv_remote_median_gain_basis_points : Z;
  pv_bootstrap_95_lower_bound_basis_points : Z;
  pv_sustained_check_ms : Z;
  pv_thermal_severe_observed : bool;
}.

Definition has_minimum_measurements (e : PerformanceEvidence) : bool :=
  pv_local_warmup_complete e && pv_remote_warmup_complete e
  && (MINIMUM_MEASURED_RUNS <=? pv_measured_local_runs e)
  && (MINIMUM_MEASURED_RUNS <=? pv_measured_remote_runs e).

Definition is_speed_qualified (e : PerformanceEvidence) : bool :=
  has_minimum_measurements e
  && (SPEED_MINIMUM_GAIN_BASIS_POINTS <=? pv_remote_median_gain_basis_points e)
  && (0 <? pv_bootstrap_95_lower_bound_basis_points e)
  && (MINIMUM_SUSTAINED_CHECK_MS / 1000 <=? pv_sustained_check_ms e / 1000)
  && negb (pv_thermal_severe_observed e).

Definition is_locality_acceptable (e : PerformanceEvidence) : bool :=
  has_minimum_measurements e
  && (LOCALITY_MAXIMUM_LOSS_BASIS_POINTS <=? pv_remote_median_gain_basis_points e)
  && negb (pv_thermal_severe_observed e).

Record PerformanceProfile : Type := mkProfile {
  pp_schema_version : Z;
  pp_key : PerformanceProfileKey;
  pp_created_wall_ms : Z;
  pp_evidence : PerformanceEvidence;
}.

Inductive ProfileInvalidationReason : Type :=
| Pi_SchemaUnsupported | Pi_KeyChanged | Pi_ClockMovedBackwards | Pi_TtlExpired.
Inductive ProfileStatus : Type :=
| Pst_Missing | Pst_Valid | Pst_Invalid (reason : ProfileInvalidationReason).

#[export] Instance ProfileInvalidationReason_eq_dec : EqDecision ProfileInvalidationReason.
Proof. solve_decision. Defined.
#[export] Instance ProfileStatus_eq_dec : EqDecision ProfileStatus.
Proof. solve_decision. Defined.

(** [PerformanceProfile::status] *)
Definition status_of (p : PerformanceProfile) (current_key : PerformanceProfileKey)
    (now_wall_ms : Z) : ProfileStatus :=
  if negb (pp_schema_version p =? 1) then Pst_Invalid Pi_SchemaUnsupported
  else if negb (bool_decide (pp_key p = current_key)) then Pst_Invalid Pi_KeyChanged
  else
    match checked_sub now_wall_ms (pp_created_wall_ms p) with
    | None => Pst_Invalid Pi_ClockMovedBackwards
    | Some age_ms =>
        if PERFORMANCE_PROFILE_TTL_MS <=? age_ms then Pst_Invalid Pi_TtlExpired else Pst_Valid
    end.

Record CostInput : Type := mkCost {
  ci_bytes_up : Z;
  ci_bytes_down : Z;
  ci_resident_remote_bytes : Z;
  ci_expected_compute_units : Z;
  ci_link_bandwidth_bytes_per_second : Z;
  ci_link_rtt_millis : Z;
  ci_local_score : Z;
  ci_remote_score : Z;
  ci_thermal_class : ThermalClass;
  ci_battery_policy : BatteryPolicy;
  ci_queue_depth : Z;
}.

Definition estimated_upload_bytes (c : CostInput) : Z :=
  sat_sub (ci_bytes_up c) (ci_resident_remote_bytes c).

Record RemoteGates : Type := mkGates {
  rg_authenticated : bool;
  rg_ready : bool;
  rg_active_lease : bool;
  rg_fresh_metrics : bool;
  rg_provider_available : bool;
  rg_resource_estimate_nonzero : bool;
  rg_resource_guard_admitted : bool;
}.

Definition refusal_reason (g : RemoteGates) : option PlacementReason :=
  if negb (rg_authenticated g) then Some Pr_RemoteNotAuthenticated
  else if negb (rg_ready g) then Some Pr_RemoteNotReady
  else if negb (rg_active_lease g) then Some Pr_LeaseInactive
  else if negb (rg_fresh_metrics g) then Some Pr_MetricsStale
  else if negb (rg_provider_available g) then Some Pr_ProviderUnavailable
  else if negb (rg_resource_estimate_nonzero g) then Some Pr_ResourceEstimateZero
  else if negb (rg_resource_guard_admitted g) then Some Pr_ResourceGuardRefused
  else None.

Record PlannerInput : Type := mkPlanner {
  pl_mode : PlacementMode;
  pl_gates : RemoteGates;
  pl_cost : CostInput;
  pl_workload_phoneboost_aware : bool;
  pl_local_execution_fits : bool;
  pl_remote_capacity_fits : bool;
  pl_current_profile_key : option PerformanceProfileKey;
  pl_profile : option PerformanceProfile;
  pl_now_wall_ms : Z;
}.

Definition profile_status (i : PlannerInput) : ProfileStatus :=
  match pl_current_profile_key i, pl_profile i with
  | Some key, Some profile => status_of profile key (pl_now_wall_ms i)
  | _, _ => Pst_Missing
  end.

Definition speed_decision (i : PlannerInput) : PlacementDecision :=
  match profile_status i, pl_profile i with
  | Pst_Missing, _ => local_decision Pr_ProfileUnknown
  | Pst_Invalid _, _ => local_decision Pr_ProfileInvalid
  | Pst_Valid, Some profile =>
      if is_speed_qualified (pp_evidence profile)
      then remote_decision Pg_RemoteSpeed Pr_SpeedEvidenceQualified
      else local_decision Pr_ProfileNotSpeedQualified
  | Pst_Valid, None => local_decision Pr_ProfileUnknown
  end.

Definition balanced_decision (i : PlannerInput) : PlacementDecision :=
  if negb (pl_local_execution_fits i)
  then remote_decision Pg_RemoteCapacity Pr_RemoteCapacityRequired
  else
    match pl_profile i with
    | Some profile =>
        if bool_decide (profile_status i = Pst_Valid) then
          if is_speed_qualified (pp_evidence profile)
          then remote_decision Pg_RemoteSpeed Pr_SpeedEvidenceQualified
          else if (0 <? ci_resident_remote_bytes (pl_cost i))
                  && is_locality_acceptable (pp_evidence profile)
          then remote_decision Pg_RemoteLocality Pr_RemoteDataLocality
          else local_decision Pr_LocalPreferred
        else local_decision Pr_LocalPreferred
    | None => local_decision Pr_LocalPreferred
    end.

(** [PlannerInput::decide] *)
Definition decide_placement (i : PlannerInput) : option PlacementDecision :=
  if bool_decide (pl_mode i = Pm_LocalOnly) then Some (local_decision Pr_LocalOnlyRequested)
  else
    match refusal_reason (pl_gates i) with
    | Some reason => Some (local_decision reason)
    | None =>
        if bool_decide (ci_thermal_class (pl_cost i) = Tc_Severe)
        then Some (local_decision Pr_ThermalDisallowed)
        else if bool_decide (ci_battery_policy (pl_cost i) = Bp_RemoteDisallowed)
        then Some (local_decision Pr_BatteryPolicyDisallowed)
        else if negb (pl_workload_phoneboost_aware i)
        then Some (local_decision Pr_WorkloadNotPhoneBoostAware)
        else if negb (pl_remote_capacity_fits i)
        then Some (local_decision Pr_RemoteCapacityInsufficient)
        else
          match pl_mode i with
          | Pm_LocalOnly => None
          | Pm_Capacity =>
              Some (remote_decision Pg_RemoteCapacity Pr_RemoteCapacityRequired)
          | Pm_Speed => Some (speed_decision i)
          | Pm_Balanced => Some (balanced_decision i)
          end
    end.

(** ** Specification: when work may leave the host *)

Record eligible (i : PlannerInput) : Prop := {
  el_mode : pl_mode i <> Pm_LocalOnly;
  el_authenticated : rg_authenticated (pl_gates i) = true;
  el_ready : rg_ready (pl_gates i) = true;
  el_lease : rg_active_lease (pl_gates i) = true;
  el_metrics : rg_fresh_metrics (pl_gates i) = true;
  el_provider : rg_provider_available (pl_gates i) = true;
  el_estimate : rg_resource_estimate_nonzero (pl_gates i) = true;
  el_guard : rg_resource_guard_admitted (pl_gates i) = true;
  el_thermal : ci_thermal_class (pl_cost i) <> Tc_Severe;
  el_battery : ci_battery_policy (pl_cost i) <> Bp_RemoteDisallowed;
  el_aware : pl_workload_phoneboost_aware i = true;
  el_capacity : pl_remote_capacity_fits i = true;
}.

(** A profile of this very configuration, at most a day old, with this evidence. *)
Definition evidence (i : PlannerInput) (e : PerformanceEvidence) : Prop :=
  exists key profile, pl_current_profile_key i = Some key /\ pl_profile i = Some profile /\
    pp_schema_version profile = 1 /\ pp_key profile = key /\
    pp_created_wall_ms profile <= pl_now_wall_ms i < pp_created_wall_ms profile + 86400000 /\
    pp_evidence profile = e.

Definition measured (e : PerformanceEvidence) : Prop :=
  pv_local_warmup_complete e = true /\ pv_remote_warmup_complete e = true /\
  15 <= pv_measured_local_runs e /\ 15 <= pv_measured_remote_runs e /\
  pv_thermal_severe_observed e = false.

(** At least 5% faster with 95% confidence of being faster, sustained for five minutes. *)
Definition faster (e : PerformanceEvidence) : Prop :=
  measured e /\ 500 <= pv_remote_median_gain_basis_points e /\
  0 < pv_bootstrap_95_lower_bound_basis_points e /\ 300000 <= pv_sustained_check_ms e.

(** At most 5% slower. *)
Definition comparable_speed (e : PerformanceEvidence) : Prop :=
  measured e /\ -500 <= pv_remote_median_gain_basis_points e.

Definition places_on (i : PlannerInput) (target : PlacementTarget) : Prop :=
  match target with
  | Pg_RemoteCapacity =>
      eligible i /\ (pl_mode i = Pm_Capacity \/
                     pl_mode i = Pm_Balanced /\ pl_local_execution_fits i = false)
  | Pg_RemoteSpeed =>
      eligible i /\ (pl_mode i = Pm_Speed \/
                     pl_mode i = Pm_Balanced /\ pl_local_execution_fits i = true) /\
      exists e, evidence i e /\ faster e
  | Pg_RemoteLocality =>
      eligible i /\ pl_mode i = Pm_Balanced /\ pl_local_execution_fits i = true /\
      0 < ci_resident_remote_bytes (pl_cost i) /\
      exists e, evidence i e /\ comparable_speed e /\ ~ faster e
  | Pg_LocalOnly => False
  end.

Lemma speed_qualified_iff e : is_speed_qualified e = true <-> faster e.
Proof.
  unfold is_speed_qualified, has_minimum_measurements, faster, measured.
  rewrite !andb_true_iff, !Z.leb_le, Z.ltb_lt, negb_true_iff.
  unfold MINIMUM_MEASURED_RUNS, SPEED_MINIMUM_GAIN_BASIS_POINTS, MINIMUM_SUSTAINED_CHECK_MS.
  assert (300000 <= pv_sustained_check_ms e <->
          5 * 60 * 1000 / 1000 <= pv_sustained_check_ms e / 1000) as ->;
    [|naive_solver]. change (5 * 60 * 1000 / 1000) with 300. Z.div_mod_to_equations. lia.
Qed.

Lemma locality_acceptable_iff e : is_locality_acceptable e = true <-> comparable_speed e.
Proof.
  unfold is_locality_acceptable, has_minimum_measurements, comparable_speed, measured.
  rewrite !andb_true_iff, !Z.leb_le, negb_true_iff.
  unfold MINIMUM_MEASURED_RUNS, LOCALITY_MAXIMUM_LOSS_BASIS_POINTS. naive_solver.
Qed.

Lemma valid_iff i profile : pl_profile i = Some profile ->
  (profile_status i = Pst_Valid <-> evidence i (pp_evidence profile)).
Proof.
  intros Hp. unfold profile_status, evidence, status_of, checked_sub. rewrite Hp.
  destruct (pl_current_profile_key i) as [key|]; [|naive_solver].
  unfold PERFORMANCE_PROFILE_TTL_MS.
  split.
  - intros H. repeat case_match; try done. bool_hyps. simplify_eq. eexists _, profile.
    split_and!; done || (cbn; lia).
  - intros (k & p & ? & ? & Hs & Hk & Ht & _). simplify_eq.
    rewrite Hs, bool_decide_true by done. cbn [Z.eqb Pos.eqb negb].
    rewrite (proj2 (Z.leb_le _ _)) by lia. by rewrite (proj2 (Z.leb_gt _ _)) by lia.
Qed.

Lemma evidence_profile i e : evidence i e ->
  exists profile, pl_profile i = Some profile /\ e = pp_evidence profile.
Proof. intros (key & profile & _ & ? & _ & _ & _ & <-). eauto. Qed.

Lemma eligible_reaches i : eligible i ->
  decide_placement i =
    match pl_mode i with
    | Pm_LocalOnly => None
    | Pm_Capacity => Some (remote_decision Pg_RemoteCapacity Pr_RemoteCapacityRequired)
    | Pm_Speed => Some (speed_decision i)
    | Pm_Balanced => Some (balanced_decision i)
    end.
Proof.
  intros []. unfold decide_placement, refusal_reason.
  rewrite !bool_decide_false by done.
  repeat match goal with H : _ = true |- _ => rewrite H; clear H end. done.
Qed.

Lemma ineligible_local i d : decide_placement i = Some d -> pd_target d <> Pg_LocalOnly ->
  eligible i.
Proof.
  unfold decide_placement, refusal_reason. intros H Hd.
  repeat case_match; simplify_eq; cbn in Hd; try done; bool_hyps;
    (constructor; done || congruence).
Qed.

Lemma speed_target i :
  pd_target (speed_decision i) = Pg_RemoteSpeed <-> exists e, evidence i e /\ faster e.
Proof.
  unfold speed_decision. split.
  - destruct (profile_status i) eqn:Es; try done.
    destruct (pl_profile i) as [p|] eqn:Ep; [|done].
    destruct (is_speed_qualified _) eqn:Eq; [|done]. intros _. exists (pp_evidence p).
    by rewrite <- valid_iff, <- speed_qualified_iff.
  - intros (e & He & Hf). destruct (evidence_profile i e He) as (p & Hp & ->).
    rewrite (proj2 (valid_iff i p Hp) He), Hp, (proj2 (speed_qualified_iff _) Hf). done.
Qed.

Lemma balanced_target i target : target <> Pg_LocalOnly ->
  (pd_target (balanced_decision i) = target <->
   match target with
   | Pg_RemoteCapacity => pl_local_execution_fits i = false
   | Pg_RemoteSpeed => pl_local_execution_fits i = true /\ exists e, evidence i e /\ faster e
   | Pg_RemoteLocality =>
       pl_local_execution_fits i = true /\ 0 < ci_resident_remote_bytes (pl_cost i) /\
       exists e, evidence i e /\ comparable_speed e /\ ~ faster e
   | Pg_LocalOnly => False
   end).
Proof.
  intros Hn. unfold balanced_decision.
  destruct (pl_local_execution_fits i); cbn [negb]; [|destruct target; cbn; naive_solver].
  destruct (pl_profile i) as [p|] eqn:Ep; cycle 1.
  { assert (forall e, ~ evidence i e) by (intros e (? & ? & _ & ? & _); congruence).
    destruct target; cbn; naive_solver. }
  assert (Hu : forall e, evidence i e -> e = pp_evidence p).
  { intros e He. destruct (evidence_profile i e He) as (? & ? & ->). congruence. }
  pose proof (valid_iff i p Ep) as Hv. pose proof (speed_qualified_iff (pp_evidence p)) as Hs.
  pose proof (locality_acceptable_iff (pp_evidence p)) as Hl.
  case_bool_decide as E; cycle 1.
  { assert (forall e, ~ evidence i e) by (intros e He; apply E, Hv; by rewrite <- (Hu e He)).
    destruct target; cbn; naive_solver. }
  apply Hv in E.
  destruct (is_speed_qualified (pp_evidence p)).
  { assert (faster (pp_evidence p)) by (by apply Hs).
    destruct target; cbn; split; try done; try naive_solver. }
  assert (~ faster (pp_evidence p)) by (intros H; by apply Hs in H).
  destruct (Z.ltb_spec 0 (ci_resident_remote_bytes (pl_cost i))); cbn [andb].
  2:{ destruct target; cbn; split; try done; try naive_solver lia. }
  destruct (is_locality_acceptable (pp_evidence p)).
  - assert (comparable_speed (pp_evidence p)) by (by apply Hl).
    destruct target; cbn; split; try done; try naive_solver.
  - assert (~ comparable_speed (pp_evidence p)) by (intros H'; by apply Hl in H').
    destruct target; cbn; split; try done; try naive_solver.
Qed.

(** C27: The planner always decides, and it places work on the phone exactly under the
    stated conditions: every gate open, no severe heat, battery policy and capacity
    permitting, and, for speed or locality, a profile of this configuration less than
    a day old whose measurements qualify; in every other case work stays local. *)
Theorem planner_exact i :
  exists d, decide_placement i = Some d /\
    (forall target, target <> Pg_LocalOnly -> (pd_target d = target <-> places_on i target)) /\
    (pd_target d = Pg_LocalOnly <-> forall target, ~ places_on i target).
Proof.
  assert (Hd : exists d, decide_placement i = Some d).
  { unfold decide_placement. repeat case_match; eauto. by bool_hyps. }
  destruct Hd as [d Hd]. exists d. split; [done|].
  assert (Hmain : forall target, target <> Pg_LocalOnly ->
    (pd_target d = target <-> places_on i target)).
  { intros target Hn. split.
    - intros Ht. assert (He : eligible i) by (eapply ineligible_local; [done|congruence]).
      rewrite (eligible_reaches i He) in Hd. pose proof (el_mode i He).
      destruct (pl_mode i) eqn:Em; simplify_eq/=.
      + split; auto.
      + unfold places_on. rewrite Em. destruct (pd_target (speed_decision i)) eqn:E; try done.
        * unfold speed_decision in E. repeat case_match; done.
        * apply speed_target in E. auto.
        * unfold speed_decision in E. repeat case_match; done.
      + assert (E := eq_refl (pd_target (balanced_decision i))).
        apply balanced_target in E; [|done]. unfold places_on. rewrite Em.
        destruct (pd_target (balanced_decision i)); naive_solver.
    - intros Hp. assert (He : eligible i) by (destruct target; cbn in Hp; naive_solver).
      rewrite (eligible_reaches i He) in Hd. pose proof (el_mode i He).
      destruct (pl_mode i) eqn:Em; simplify_eq/=;
        destruct target; cbn in Hp; try done; rewrite Em in Hp; try naive_solver.
      + apply speed_target. naive_solver.
      + apply balanced_target; naive_solver.
      + apply balanced_target; naive_solver.
      + apply balanced_target; naive_solver. }
  split; [done|]. split.
  - intros Hl target Hp. destruct target; [done|..]; apply Hmain in Hp; congruence.
  - intros Hno. destruct (pd_target d) eqn:E; [done|..];
      exfalso; (eapply Hno, Hmain; [|reflexivity]; done).
Qed.
