(* ===== verification/Admission.v ===== *)
(** * pb-host: local admission and line framing

    Models [crates/pb-host/src/admission.rs] (peer-credential check, the client-slot
    gate and connection numbers) and [admission/framing.rs] (bounded
    newline-delimited framing of a local connection).

    The gate is used by concurrent threads, so its compare-and-exchange loop is a
    step relation over the shared counter and the program points of the threads.
    The framing loop reads what [recvmsg] answers from a list of events; [None] is a
    call that is still blocked when the events run out, or a panic. *)

From Stdlib Require Import ZArith Lia.
From Stdlib Require Strings.Byte.
From stdpp Require Import base tactics list gmap fin_maps relations.
From S2P Require Import Prelude Types.

(** [LocalClientLimits::CANONICAL] *)
Definition MAX_CLIENTS : Z := 8.
Definition MAX_LINE_BYTES : Z := 65536.
Definition READ_CHUNK_BYTES : Z := 4096.
Definition FRAMING_MEMORY_BOUND_BYTES : Z := MAX_LINE_BYTES + READ_CHUNK_BYTES.

Inductive LocalAdmissionErrorKind : Type := Ad_AcceptFailed | Ad_LocalAuthFailed | Ad_LocalBusy.

Record AuthenticatedLocalClient : Type := mkClient { cl_peer_uid : Z; cl_connection_id : Z }.

(** [next_connection_id]: the counter after the call and the number drawn. *)
Definition next_connection_id (counter : Z) : Z * option Z :=
  match checked_add64 counter 1 with
  | Some next => (next, Some counter)
  | None => (counter, None)
  end.

(** [AcceptedRawClient::authenticate]: [peercred] is the kernel's answer and [slot] the
    outcome of [try_acquire].  A slot taken before the numbers run out is given back
    when its permit is dropped, which [gives_back] reports. *)
Definition authenticate (own_uid : Z) (peercred : option Z) (slot : bool) (counter : Z) :
    Z * result AuthenticatedLocalClient LocalAdmissionErrorKind * bool :=
  match peercred with
  | None => (counter, Err Ad_LocalAuthFailed, false)
  | Some uid =>
      if negb (uid =? own_uid) then (counter, Err Ad_LocalAuthFailed, false)
      else if negb slot then (counter, Err Ad_LocalBusy, false)
      else
        match next_connection_id counter with
        | (counter, None) => (counter, Err Ad_LocalBusy, true)
        | (counter, Some id) => (counter, Ok (mkClient uid id), false)
        end
  end.

(** ** The slot gate under concurrency *)

Module Gate.

(** Where a thread stands: outside, inside the loop of [try_acquire] with the value it
    last observed, refused, or holding a permit. *)
Inductive Point : Type :=
| Outside
| Observed (active : Z)
| Refused
| Holding.

#[export] Instance Point_eq_dec : EqDecision Point.
Proof. solve_decision. Defined.

Record t : Type := mk { active : Z; threads : gmap nat Point }.

Definition initial (n : nat) : t := mk 0 (gset_to_gmap Outside (set_seq 0 n)).

Definition at_ (s : t) (i : nat) (p : Point) : t := mk (active s) (<[i := p]> (threads s)).

(** One step of thread [i]. *)
Inductive step_of (i : nat) : t -> t -> Prop :=
(** [self.active.load] *)
| step_load s p : threads s !! i = Some p -> (p = Outside \/ p = Refused) ->
    step_of i s (at_ s i (Observed (active s)))
(** [active >= max_clients]: no permit *)
| step_refuse s v : threads s !! i = Some (Observed v) -> MAX_CLIENTS <= v ->
    step_of i s (at_ s i Refused)
(** the exchange succeeds *)
| step_exchange s v : threads s !! i = Some (Observed v) -> v < MAX_CLIENTS ->
    active s = v ->
    step_of i s (mk (v + 1) (<[i := Holding]> (threads s)))
(** the exchange fails, possibly spuriously, and the current value is observed *)
| step_retry s v : threads s !! i = Some (Observed v) -> v < MAX_CLIENTS ->
    step_of i s (at_ s i (Observed (active s)))
(** [Drop for ClientSlotPermit]: [fetch_sub] *)
| step_drop s : threads s !! i = Some Holding ->
    step_of i s (mk (active s - 1) (<[i := Outside]> (threads s))).

(** A step of some thread. *)
Definition step (s s' : t) : Prop := exists i, step_of i s s'.

Definition holds (_ : nat) (p : Point) : Z := if bool_decide (p = Holding) then 1 else 0.
Definition holders (s : t) : Z := msum holds (threads s).

Definition Inv (s : t) : Prop := active s = holders s /\ active s <= MAX_CLIENTS.

Lemma holds_range i p : 0 <= holds i p <= 1.
Proof. unfold holds. case_bool_decide; lia. Qed.

Lemma holds_holding i : holds i Holding = 1.
Proof. done. Qed.
Lemma holds_other i p : p <> Holding -> holds i p = 0.
Proof. intros H. unfold holds. by rewrite bool_decide_false. Qed.

Lemma holders_initial n : holders (initial n) = 0.
Proof.
  unfold holders, initial. cbn. rewrite (msum_ext _ (fun _ _ => 0)).
  - induction (gset_to_gmap Outside (set_seq 0 n : gset nat)) as [|k v m Hk IH] using map_ind;
      [done|]. by rewrite msum_insert.
  - intros k v H. apply lookup_gset_to_gmap_Some in H as [_ <-]. done.
Qed.

Lemma step_inv s s' : step s s' -> Inv s -> Inv s'.
Proof.
  unfold Inv, holders. intros [i Hs] [Ha Hm].
  destruct Hs as [s p Hi [-> | ->]|s v Hi|s v Hi|s v Hi|s Hi]; cbn;
    erewrite msum_replace by done; rewrite ?holds_holding, ?holds_other by done; lia.
Qed.

(** The steps of one thread leave the others where they are. *)
Lemma step_of_others i s s' j : step_of i s s' -> j <> i -> threads s' !! j = threads s !! j.
Proof. intros [] Hj; cbn; by rewrite lookup_insert_ne. Qed.

Lemma own_steps_others i k : forall s s' j, nsteps (step_of i) k s s' -> j <> i ->
  threads s' !! j = threads s !! j.
Proof.
  induction k as [|k IH]; intros s s' j Hs Hj; inversion Hs; subst; [done|].
  erewrite IH by done. by eapply step_of_others.
Qed.

(** A thread in the loop reaches its end in at most two steps of its own. *)
Lemma finish_alone s i v : threads s !! i = Some (Observed v) ->
  exists k s', (k <= 2)%nat /\ nsteps (step_of i) k s s' /\
    threads s' !! i =
      Some (if (v <? MAX_CLIENTS) && (active s <? MAX_CLIENTS) then Holding else Refused).
Proof.
  intros Hi. destruct (Z.ltb_spec v MAX_CLIENTS) as [Hv|Hv]; cbn [andb].
  2:{ exists 1%nat, (at_ s i Refused). split_and!; [lia|apply nsteps_once; by eapply step_refuse|].
      apply lookup_insert_eq. }
  set (s1 := at_ s i (Observed (active s))).
  assert (H1 : step_of i s s1) by (by eapply step_retry).
  assert (Hi1 : threads s1 !! i = Some (Observed (active s))) by apply lookup_insert_eq.
  destruct (Z.ltb_spec (active s) MAX_CLIENTS) as [Hc|Hc].
  - exists 2%nat. eexists. split_and!; [lia|eapply nsteps_l; [exact H1|apply nsteps_once;
      by eapply step_exchange]|]. cbn. apply lookup_insert_eq.
  - exists 2%nat. eexists. split_and!; [lia|eapply nsteps_l; [exact H1|apply nsteps_once;
      by eapply step_refuse]|]. cbn. apply lookup_insert_eq.
Qed.



End Gate.
