(* ===== verification/Framing.v ===== *)
(** * pb-host: newline-delimited framing of a local connection

    Models [FramedLocalClient] of [crates/pb-host/src/admission/framing.rs]: the
    bounded line buffer, the carry buffer of one read, the descriptors that arrive
    with the bytes, and the response writer.  What [recvmsg] and [send] answer comes
    from a list of events; a call whose events run out is [Blocked], an arithmetic
    underflow is [Panicked].  The configured read size only bounds the length of a
    message and is part of the side conditions of the theorems. *)

From Stdlib Require Import ZArith Lia.
From Stdlib Require Strings.Byte.
From stdpp Require Import base tactics list.
From S2P Require Import Prelude Types Admission.

Definition LF : byte := Byte.x0a.

Inductive LocalFramingErrorKind : Type := Fe_LocalBadRequest | Fe_TransportFailure.

Record LocalRequestFrame : Type := mkRequestFrame {
  rf_bytes : list byte;
  rf_descriptors : list Z;
}.

Inductive LocalFrameOutcome : Type :=
| Fo_Line (frame : LocalRequestFrame)
| Fo_CleanEof
| Fo_IdleTimeout.

(** What one [recvmsg] answers; [invalid] is a truncated or foreign control message. *)
Inductive Recv : Type :=
| Rv_Message (bytes : list byte) (descriptors : list Z) (invalid : bool)
| Rv_Interrupted
| Rv_Again
| Rv_Failed.

Inductive Call (A : Type) : Type := Done (a : A) | Blocked | Panicked.
Arguments Done {A} _.
Arguments Blocked {A}.
Arguments Panicked {A}.

Module Framed.

Record t : Type := mk {
  connection : bool;
  slot : bool;
  line : list byte;
  line_descriptors : list Z;
  carry : list byte;
  active : bool;
}.

(** [FramedLocalClient::build] once the receive timeout is set. *)
Definition new : t := mk true true [] [] [] false.

Definition close (c : t) : t := mk false false [] [] [] (active c).

(** [pending.iter().position(|byte| *byte == b'\n')] *)
Fixpoint newline_offset (l : list byte) : option nat :=
  match l with
  | [] => None
  | b :: l => if bool_decide (b = LF) then Some O else S <$> newline_offset l
  end.

Definition consume_carry (c : t) :
    Call (t * result (option LocalFrameOutcome) LocalFramingErrorKind) :=
  let pending := carry c in
  let offset := newline_offset pending in
  let bytes_before_newline := default (length pending) offset in
  match checked_sub MAX_LINE_BYTES (len (line c)) with
  | None => Panicked
  | Some remaining_capacity =>
      if remaining_capacity <? Z.of_nat bytes_before_newline then
        Done (close c, Err Fe_LocalBadRequest)
      else
        let line' := line c ++ take bytes_before_newline pending in
        match offset with
        | Some _ =>
            Done (mk (connection c) (slot c) [] [] (drop (S bytes_before_newline) pending)
                    (active c),
                  Ok (Some (Fo_Line (mkRequestFrame line' (line_descriptors c)))))
        | None =>
            Done (mk (connection c) (slot c) line' (line_descriptors c) [] (active c), Ok None)
        end
  end.

Definition is_empty_carry (c : t) : bool := match carry c with [] => true | _ => false end.

(** The loop of [next_line_bytes]. *)
Fixpoint read_loop (c : t) (events : list Recv) :
    Call (t * result LocalFrameOutcome LocalFramingErrorKind * list Recv) :=
  match (if is_empty_carry c then Done (c, Ok None) else consume_carry c) with
  | Blocked => Blocked
  | Panicked => Panicked
  | Done (c, Err e) => Done (c, Err e, events)
  | Done (c, Ok (Some outcome)) => Done (c, Ok outcome, events)
  | Done (c, Ok None) =>
      match events with
      | [] => Blocked
      | Rv_Interrupted :: events => read_loop c events
      | Rv_Again :: events => Done (close c, Ok Fo_IdleTimeout, events)
      | Rv_Failed :: events => Done (close c, Err Fe_TransportFailure, events)
      | Rv_Message bytes descriptors invalid :: events =>
          let c := mk (connection c) (slot c) (line c) (line_descriptors c ++ descriptors)
                     (carry c) (active c) in
          if invalid || (2 <? Z.of_nat (length (line_descriptors c))) then
            Done (close c, Err Fe_LocalBadRequest, events)
          else
            match bytes with
            | [] =>
                let had_partial := negb (len (line c) =? 0) in
                Done (close c,
                      if had_partial then Err Fe_LocalBadRequest else Ok Fo_CleanEof, events)
            | _ =>
                read_loop (mk (connection c) (slot c) (line c) (line_descriptors c) bytes
                             (active c)) events
            end
      end
  end.

Definition next_line_bytes (c : t) (events : list Recv) :
    Call (t * result LocalFrameOutcome LocalFramingErrorKind * list Recv) :=
  if negb (connection c) then Done (c, Ok Fo_CleanEof, events) else read_loop c events.

(** What one [send] answers. *)
Inductive Send : Type := Sd_Count (n : nat) | Sd_Interrupted | Sd_Failed.

Inductive LocalResponseWriteError : Type := Lw_InvalidResponseLine | Lw_TransportFailure.

(** The loop of [write_response_ndjson] with the bytes still to send and those sent. *)
Fixpoint write_loop (c : t) (todo sent : list byte) (events : list Send) :
    Call (t * result unit LocalResponseWriteError * list byte) :=
  match todo with
  | [] => Done (c, Ok tt, sent)
  | _ =>
      match events with
      | [] => Blocked
      | Sd_Count O :: _ => Done (close c, Err Lw_TransportFailure, sent)
      | Sd_Count n :: events => write_loop c (drop n todo) (sent ++ take n todo) events
      | Sd_Interrupted :: events => write_loop c todo sent events
      | Sd_Failed :: _ => Done (close c, Err Lw_TransportFailure, sent)
      end
  end.

Definition write_response_ndjson (c : t) (response : list byte) (events : list Send) :
    Call (t * result unit LocalResponseWriteError * list byte) :=
  if (len response =? 0) || negb (bool_decide (last response = Some LF))
     || (MAX_LINE_BYTES <? len response)
  then Done (close c, Err Lw_InvalidResponseLine, [])
  else if negb (connection c) then Done (c, Err Lw_TransportFailure, [])
  else write_loop c response [] events.

(** Read lines until something else happens. *)
Fixpoint read_all (fuel : nat) (c : t) (events : list Recv) :
    Call (t * list (result LocalFrameOutcome LocalFramingErrorKind)) :=
  match fuel with
  | O => Blocked
  | S fuel =>
      match next_line_bytes c events with
      | Blocked => Blocked
      | Panicked => Panicked
      | Done (c, Ok (Fo_Line f), events) =>
          match read_all fuel c events with
          | Blocked => Blocked
          | Panicked => Panicked
          | Done (c, rs) => Done (c, Ok (Fo_Line f) :: rs)
          end
      | Done (c, r, _) => Done (c, [r])
      end
  end.

(** ** Specification: the lines of a byte stream, one byte at a time *)

Fixpoint split_lines (acc bytes : list byte) :
    list (result LocalFrameOutcome LocalFramingErrorKind) :=
  match bytes with
  | [] => [if len acc =? 0 then Ok Fo_CleanEof else Err Fe_LocalBadRequest]
  | b :: bytes =>
      if bool_decide (b = LF) then Ok (Fo_Line (mkRequestFrame acc [])) :: split_lines [] bytes
      else if len acc =? MAX_LINE_BYTES then [Err Fe_LocalBadRequest]
      else split_lines (acc ++ [b]) bytes
  end.

Lemma len_snoc (l : list byte) b : len (l ++ [b]) = len l + 1.
Proof. unfold len. rewrite length_app. cbn. lia. Qed.

Lemma len_app (a b : list byte) : len (a ++ b) = len a + len b.
Proof. unfold len. rewrite length_app. lia. Qed.

Lemma split_lines_nonempty bytes : forall acc, (1 <= length (split_lines acc bytes))%nat.
Proof.
  induction bytes as [|b bytes IH]; intros acc; cbn [split_lines]; [done|].
  repeat case_match; cbn [length]; try lia. apply IH.
Qed.

(** Bytes without a newline extend the line or overflow it. *)
Lemma split_plain l : forall acc rest, len acc <= MAX_LINE_BYTES -> newline_offset l = None ->
  split_lines acc (l ++ rest) =
    if MAX_LINE_BYTES <? len acc + len l then [Err Fe_LocalBadRequest]
    else split_lines (acc ++ l) rest.
Proof.
  induction l as [|b l IH]; intros acc rest Ha Hl.
  { rewrite app_nil_r. change (len []) with 0. by rewrite (proj2 (Z.ltb_ge _ _)) by lia. }
  cbn [newline_offset] in Hl. case_bool_decide as Hb; [done|].
  destruct (newline_offset l); [done|]. cbn [app split_lines].
  rewrite bool_decide_false by done.
  change (len (b :: l)) with (Z.of_nat (S (length l))). destruct (Z.eqb_spec (len acc) MAX_LINE_BYTES).
  { by rewrite (proj2 (Z.ltb_lt _ _)) by lia. }
  rewrite IH by (done || (rewrite len_snoc; lia)). rewrite len_snoc, <- app_assoc. cbn [app].
  replace (len acc + 1 + len l) with (len acc + Z.of_nat (S (length l))) by (unfold len; lia).
  done.
Qed.

Lemma newline_split l k : newline_offset l = Some k ->
  l = take k l ++ LF :: drop (S k) l /\ newline_offset (take k l) = None /\ (k < length l)%nat.
Proof.
  revert k. induction l as [|b l IH]; intros k; [done|]. cbn [newline_offset].
  case_bool_decide as Hb.
  - intros [= <-]. cbn. subst b. rewrite drop_0. split_and!; [done|done|lia].
  - destruct (newline_offset l) as [k'|]; [|done]. intros [= <-].
    destruct (IH k' eq_refl) as (H1 & H2 & H3). cbn. split_and!; [by f_equal| |lia].
    rewrite bool_decide_false by done. by rewrite H2.
Qed.

(** What [consume_carry] does to the lines that are still to come. *)
Lemma consume_carry_spec c rest : len (line c) <= MAX_LINE_BYTES -> line_descriptors c = [] ->
  match consume_carry c with
  | Done (c', Err e) => split_lines (line c) (carry c ++ rest) = [Err e] /\ c' = close c
  | Done (c', Ok (Some o)) =>
      split_lines (line c) (carry c ++ rest) = Ok o :: split_lines [] (carry c' ++ rest) /\
      c' = mk (connection c) (slot c) [] [] (carry c') (active c) /\
      (length (carry c') < length (carry c))%nat /\ exists f, o = Fo_Line f
  | Done (c', Ok None) =>
      split_lines (line c) (carry c ++ rest) = split_lines (line c') rest /\
      c' = mk (connection c) (slot c) (line c') [] [] (active c) /\
      len (line c') <= MAX_LINE_BYTES
  | _ => False
  end.
Proof.
  intros Hl Hd. unfold consume_carry, checked_sub. rewrite (proj2 (Z.leb_le _ _)) by done.
  destruct (newline_offset (carry c)) as [k|] eqn:E; cbn [from_option id].
  - destruct (newline_split _ _ E) as (H1 & H2 & H3).
    assert (Hk : len (take k (carry c)) = Z.of_nat k)
      by (unfold len; rewrite length_take; lia).
    assert (Hsp : forall x, split_lines (line c) (carry c ++ x) =
      if MAX_LINE_BYTES <? len (line c) + Z.of_nat k then [Err Fe_LocalBadRequest]
      else Ok (Fo_Line (mkRequestFrame (line c ++ take k (carry c)) []))
             :: split_lines [] (drop (S k) (carry c) ++ x)).
    { intros x. rewrite H1 at 1. rewrite <- app_assoc, split_plain, Hk by done.
      cbn [app split_lines]. by rewrite bool_decide_true. }
    rewrite Hsp.
    destruct (Z.ltb_spec (MAX_LINE_BYTES - len (line c)) (Z.of_nat k)).
    + by rewrite (proj2 (Z.ltb_lt _ _)) by lia.
    + rewrite (proj2 (Z.ltb_ge _ _)) by lia. cbn [carry]. rewrite Hd. split_and!; [done..| |eauto].
      rewrite length_drop. lia.
  - rewrite split_plain by done. fold (len (carry c)).
    destruct (Z.ltb_spec (MAX_LINE_BYTES - len (line c)) (len (carry c))).
    + by rewrite (proj2 (Z.ltb_lt _ _)) by lia.
    + rewrite (proj2 (Z.ltb_ge _ _)) by lia. cbn [line]. rewrite firstn_all, Hd.
      split_and!; [done..|]. rewrite len_app. lia.
Qed.

(** The events of a client that writes [chunks] and closes its end. *)
Definition plain (bytes : list byte) : Recv := Rv_Message bytes [] false.
Definition stream (chunks : list (list byte)) : list Recv := map plain chunks ++ [plain []].

Definition is_line (r : result LocalFrameOutcome LocalFramingErrorKind) : bool :=
  match r with Ok (Fo_Line _) => true | _ => false end.

(** A client between two calls, without descriptors. *)
Record ready (c : t) : Prop := {
  rd_connection : connection c = true;
  rd_line : len (line c) <= MAX_LINE_BYTES;
  rd_descriptors : line_descriptors c = [];
}.

Definition to_come (c : t) (chunks : list (list byte)) :
    list (result LocalFrameOutcome LocalFramingErrorKind) :=
  split_lines (line c) (carry c ++ concat chunks).

(** What one call returns, and what is left of the stream. *)
Definition call_ok (c : t) (chunks : list (list byte))
    (x : Call (t * result LocalFrameOutcome LocalFramingErrorKind * list Recv)) : Prop :=
  exists c' r events', x = Done (c', r, events') /\
    if is_line r then
      exists chunks', events' = stream chunks' /\ Forall (fun b => b <> []) chunks' /\
        ready c' /\ to_come c chunks = r :: to_come c' chunks'
    else to_come c chunks = [r] /\ connection c' = false.

Lemma read_loop_empty chunks : forall c, ready c -> carry c = [] ->
  Forall (fun b => b <> []) chunks -> call_ok c chunks (read_loop c (stream chunks)).
Proof.
  induction chunks as [|b chunks IH]; intros c Hc Hcar Hne.
  - destruct Hc as [H1 H2 H3]. unfold call_ok, to_come. rewrite Hcar. cbn.
    unfold is_empty_carry. rewrite Hcar. cbn. rewrite H3. cbn.
    eexists _, _, _. split; [reflexivity|]. destruct (len (line c) =? 0); done.
  - apply Forall_cons in Hne as [Hb Hne]. destruct Hc as [H1 H2 H3].
    assert (E : read_loop c (stream (b :: chunks)) =
      read_loop (mk (connection c) (slot c) (line c) [] b (active c)) (stream chunks)).
    { cbn [stream map app read_loop]. unfold is_empty_carry. rewrite Hcar. cbn [plain]. cbv zeta.
      cbn [connection slot line line_descriptors carry active]. rewrite H3. cbn [app length].
      cbn. by destruct b. }
    set (c1 := mk (connection c) (slot c) (line c) [] b (active c)) in *.
    assert (Hr : ready c1) by (by constructor).
    assert (Hspec : to_come c (b :: chunks) = to_come c1 chunks).
    { unfold to_come. rewrite Hcar. done. }
    rewrite E. pose proof (consume_carry_spec c1 (concat chunks) H2 eq_refl) as Hcc.
    assert (Hloop : forall c2 o, consume_carry c1 = Done (c2, o) ->
      read_loop c1 (stream chunks) =
        match o with
        | Err e => Done (c2, Err e, stream chunks)
        | Ok (Some o) => Done (c2, Ok o, stream chunks)
        | Ok None => read_loop c2 (stream chunks)
        end).
    { intros c2 o Ho. destruct b as [|x b]; [done|].
      assert (Hne' : is_empty_carry c1 = false) by done.
      destruct o as [[o|]|e].
      all: try (destruct chunks as [|b2 chunks]; cbn [stream map app read_loop];
        rewrite Hne', Ho; done).
      rewrite Ho in Hcc. destruct Hcc as (_ & Hc2 & _).
      assert (Hc2e : is_empty_carry c2 = true) by (rewrite Hc2; done).
      destruct chunks as [|b2 chunks]; cbn [stream map app read_loop]; by rewrite Hne', Ho, Hc2e. }
    destruct (consume_carry c1) as [[c2 [[o|]|e]]| |] eqn:Ecc; try done;
      specialize (Hloop _ _ eq_refl); rewrite Hloop; unfold call_ok; rewrite Hspec.
    + destruct Hcc as (Hs & Hc2 & _ & f & ->). eexists _, _, _. split; [reflexivity|].
      exists chunks. split_and!; [done|done| |].
      * rewrite Hc2. constructor; done.
      * unfold to_come at 1. rewrite Hs. f_equal. unfold to_come. by rewrite Hc2.
    + destruct Hcc as (Hs & Hc2 & Hl). destruct (IH c2) as (c' & r & ev & Hx & Hres);
        [rewrite Hc2 in *; by constructor|by rewrite Hc2|done|].
      exists c', r, ev. split; [done|].
      replace (to_come c1 chunks) with (to_come c2 chunks); [done|].
      unfold to_come. rewrite Hs. by rewrite Hc2.
    + destruct Hcc as (Hs & ->). eexists _, _, _. split; [reflexivity|]. done.
Qed.

Lemma next_line_ok c chunks : ready c -> Forall (fun b => b <> []) chunks ->
  call_ok c chunks (next_line_bytes c (stream chunks)).
Proof.
  intros Hc Hne. pose proof Hc as [H1 H2 H3]. unfold next_line_bytes. rewrite H1. cbn [negb].
  destruct (carry c) as [|x b] eqn:Hcar; [by apply read_loop_empty|].
  (* pending bytes: the call is the one that starts by receiving them *)
  set (c0 := mk true (slot c) (line c) [] [] (active c)).
  assert (H0 : ready c0) by (by constructor).
  destruct (read_loop_empty ((x :: b) :: chunks) c0 H0 eq_refl) as (c' & r & ev & Hx & Hres);
    [by constructor|].
  exists c', r, ev. split.
  - rewrite <- Hx. cbn [stream map app read_loop]. cbn [is_empty_carry carry c0].
    cbv zeta. cbn [connection slot line line_descriptors carry active c0 plain app length].
    replace (mk true (slot c) (line c) [] (x :: b) (active c)) with c; [done|].
    rewrite <- Hcar, <- H1, <- H3. by destruct c.
  - replace (to_come c chunks) with (to_come c0 ((x :: b) :: chunks)); [done|].
    unfold to_come. by rewrite Hcar.
Qed.

(** C24: Framing does not depend on how the bytes arrive: for every way of cutting a
    client's stream into non-empty reads, the lines and the final outcome are those of
    the byte-at-a-time specification of the whole stream (lines of at most 65536
    bytes, a longer or an unfinished line is a bad request, the end of the stream
    after a newline is clean), and the connection and its slot are closed at the end. *)
Theorem framing_chunk_independent chunks fuel :
  Forall (fun b => b <> []) chunks ->
  (length (split_lines [] (concat chunks)) <= fuel)%nat ->
  exists c, read_all fuel new (stream chunks) = Done (c, split_lines [] (concat chunks)) /\
    connection c = false.
Proof.
  intros Hne. change (split_lines [] (concat chunks)) with (to_come new chunks).
  assert (Hc : ready new) by (by constructor). revert Hc Hne. generalize new as c.
  revert chunks. induction fuel as [|fuel IH]; intros chunks c Hc Hne Hf.
  { pose proof (split_lines_nonempty (carry c ++ concat chunks) (line c)).
    unfold to_come in Hf. lia. }
  cbn [read_all]. destruct (next_line_ok c chunks Hc Hne) as (c' & r & ev & -> & Hres).
  destruct r as [[f| |]|e]; cbn [is_line] in Hres.
  - destruct Hres as (chunks' & -> & Hne' & Hc' & E). rewrite E in *. cbn [length] in Hf.
    destruct (IH chunks' c' Hc' Hne' ltac:(lia)) as (c'' & -> & Hcl). by exists c''.
  - destruct Hres as [-> Hcl]. by exists c'.
  - destruct Hres as [-> Hcl]. by exists c'.
  - destruct Hres as [-> Hcl]. by exists c'.
Qed.

(** One line cut in three reads, a second line in the same read, and a last line
    without its newline. *)
Lemma framing_chunk_independent_witness :
  let chunks := [[Byte.x61]; [Byte.x62; LF; Byte.x63; LF]; [Byte.x64]] in
  exists c, read_all 5 new (stream chunks) =
    Done (c, [Ok (Fo_Line (mkRequestFrame [Byte.x61; Byte.x62] []));
              Ok (Fo_Line (mkRequestFrame [Byte.x63] [])); Err Fe_LocalBadRequest]) /\
    connection c = false.
Proof.
  intros chunks. apply (framing_chunk_independent chunks 5).
  - repeat constructor; discriminate.
  - vm_compute. lia.
Defined.

(** ** Memory *)

(** What the client buffers, as [observe_buffer_bound] measures it. *)
Definition buffered (c : t) : Z := len (line c) + len (carry c).

Definition bounded (c : t) : Prop :=
  len (line c) <= MAX_LINE_BYTES /\ len (carry c) <= READ_CHUNK_BYTES /\
  Z.of_nat (length (line_descriptors c)) <= 2.

(** [recvmsg] writes into a buffer of one read chunk. *)
Definition fits (ev : Recv) : Prop :=
  match ev with Rv_Message bytes _ _ => len bytes <= READ_CHUNK_BYTES | _ => True end.

Lemma close_bounded c : bounded (close c).
Proof. unfold bounded, close, MAX_LINE_BYTES, READ_CHUNK_BYTES, len. cbn. lia. Qed.

Lemma consume_bounded c : bounded c ->
  exists c' r, consume_carry c = Done (c', r) /\ bounded c'.
Proof.
  intros (H1 & H2 & H3). unfold consume_carry, checked_sub.
  rewrite (proj2 (Z.leb_le _ _)) by done.
  destruct (Z.ltb_spec (MAX_LINE_BYTES - len (line c))
    (Z.of_nat (default (length (carry c)) (newline_offset (carry c))))) as [H|H].
  { eexists _, _. split; [reflexivity|apply close_bounded]. }
  destruct (newline_offset (carry c)) as [k|] eqn:E; eexists _, _; (split; [reflexivity|]);
    unfold bounded; cbn [line carry line_descriptors from_option id] in *.
  - split_and!; [done| |done]. unfold len in *. rewrite length_drop. lia.
  - rewrite len_app. change (len []) with 0. unfold len at 2. rewrite length_take.
    split_and!; [lia|done|done].
Qed.

Lemma read_loop_bounded events : forall c, bounded c -> Forall fits events ->
  match read_loop c events with
  | Done (c', r, events') =>
      bounded c' /\ Forall fits events' /\
      (forall f, r = Ok (Fo_Line f) -> len (rf_bytes f) <= MAX_LINE_BYTES /\
         Z.of_nat (length (rf_descriptors f)) <= 2)
  | Blocked => True
  | Panicked => False
  end.
Proof.
  assert (Hline : forall c c' o, bounded c -> consume_carry c = Done (c', Ok (Some o)) ->
    forall f, o = Fo_Line f -> len (rf_bytes f) <= MAX_LINE_BYTES /\
      Z.of_nat (length (rf_descriptors f)) <= 2).
  { intros c c' o (H1 & H2 & H3) Hc f ->. unfold consume_carry, checked_sub in Hc.
    rewrite (proj2 (Z.leb_le _ _)) in Hc by done.
    destruct (Z.ltb_spec (MAX_LINE_BYTES - len (line c))
      (Z.of_nat (default (length (carry c)) (newline_offset (carry c))))) as [H|H]; [done|].
    destruct (newline_offset (carry c)) as [k|]; [|done]. simplify_eq. cbn in *.
    split; [|done]. rewrite len_app. unfold len at 2. rewrite length_take. lia. }
  induction events as [|ev events IH]; intros c Hc Hf; cbn [read_loop].
  all: destruct (is_empty_carry c); [|destruct (consume_bounded c Hc) as (c1 & r1 & E & Hb);
    rewrite E; destruct r1 as [[o|]|e];
      [split_and!; [done|done|intros f [= Ho]; exact (Hline _ _ _ Hc E f Ho)]| |by split_and!]].
  all: try done.
  all: apply Forall_cons in Hf as [Hev Hf]; destruct ev as [b ds inv| | |];
    try (split_and!; [apply close_bounded|done|done]); try (by apply IH).
  all: cbv zeta; cbn [line_descriptors];
    match goal with |- context [if ?x || ?y then _ else _] => destruct (x || y) eqn:Ei end;
    [split_and!; [apply close_bounded|done|done]|]; bool_hyps.
  all: destruct b as [|x b]; [split_and!; [apply close_bounded|done|by case_match]|].
  all: apply IH; [|done]; unfold bounded in *; cbn [line carry line_descriptors] in *;
    destruct_and?; by split_and!.
Qed.

(** C25: Whatever a local client sends, interleaved with interruptions, timeouts and
    control messages, reading never underflows the line budget, the buffers stay within
    the declared bound of 65536 + 4096 bytes and two descriptors, and every line that is
    handed out is within the same bounds. *)
Theorem framing_bounded events : forall c,
  bounded c -> Forall fits events ->
  match next_line_bytes c events with
  | Done (c', r, events') =>
      bounded c' /\ buffered c' <= FRAMING_MEMORY_BOUND_BYTES /\ Forall fits events' /\
      (forall f, r = Ok (Fo_Line f) -> len (rf_bytes f) <= MAX_LINE_BYTES /\
         Z.of_nat (length (rf_descriptors f)) <= 2)
  | Blocked => True
  | Panicked => False
  end.
Proof.
  intros c Hc Hf. unfold next_line_bytes.
  assert (Hbuf : forall c, bounded c -> buffered c <= FRAMING_MEMORY_BOUND_BYTES).
  { intros c0 (? & ? & _). unfold buffered, FRAMING_MEMORY_BOUND_BYTES. lia. }
  destruct (connection c); cbn [negb].
  - pose proof (read_loop_bounded events c Hc Hf) as H.
    destruct (read_loop c events) as [[[c' r] ev]| |]; [|done|done].
    destruct H as (H1 & H2 & H3). split_and!; auto.
  - split_and!; auto. done.
Qed.

Lemma framing_bounded_witness :
  bounded new /\
  match next_line_bytes new [plain [Byte.x61]; Rv_Interrupted;
                             Rv_Message [LF] [7; 8; 9] false] with
  | Done (c', r, _) => r = Err Fe_LocalBadRequest /\ buffered c' <= FRAMING_MEMORY_BOUND_BYTES
  | _ => False
  end.
Proof.
  split; [vm_compute; split_and!; discriminate|].
  pose proof (framing_bounded [plain [Byte.x61]; Rv_Interrupted;
    Rv_Message [LF] [7; 8; 9] false] new) as H.
  split; [reflexivity|]. apply H.
  - vm_compute; split_and!; discriminate.
  - repeat constructor; discriminate.
Defined.

End Framed.
