(* ===== verification/Runtime.v ===== *)
(** * pb-runtime-secure: the shared runtime state

    Models [SecureRuntime] of [crates/pb-runtime-secure/src/runtime.rs]: the state that
    the session thread and the user's threads share behind mutexes, with one function
    per method.  Each method holds its lock for its whole body, so a method is one
    atomic step; poisoned mutexes do not occur.  The wall clock, random bytes and the
    answers of the file system are arguments; the disk is part of the state, so that
    what a restart would load can be stated.  [begin_pairing] is split into the
    request and the test of its wait loop. *)

From Stdlib Require Import ZArith Lia.
From stdpp Require Import base tactics list gmap strings.
From S2P Require Import Prelude Types Pbmux Pairing Text Storage Records.

Inductive EndpointRole : Type := LinuxInitiator | AndroidResponder.

Inductive RuntimeState : Type :=
| Rt_Unpaired | Rt_PairingXx | Rt_SasPending | Rt_LocalConfirmed | Rt_PeerConfirmed
| Rt_MutualConfirmed | Rt_TrustCommitting | Rt_CommittedWaitingPeer | Rt_Paired
| Rt_Authenticated | Rt_PairRejected | Rt_PairingFailed | Rt_Cooldown.

#[export] Instance RuntimeState_eq_dec : EqDecision RuntimeState.
Proof. solve_decision. Defined.

Definition RuntimeState_as_str (s : RuntimeState) : string :=
  match s with
  | Rt_Unpaired => "UNPAIRED"
  | Rt_PairingXx => "PAIRING_XX"
  | Rt_SasPending => "SAS_PENDING"
  | Rt_LocalConfirmed => "LOCAL_CONFIRMED"
  | Rt_PeerConfirmed => "PEER_CONFIRMED"
  | Rt_MutualConfirmed => "MUTUAL_CONFIRMED"
  | Rt_TrustCommitting => "TRUST_COMMITTING"
  | Rt_CommittedWaitingPeer => "COMMITTED_WAITING_PEER"
  | Rt_Paired => "PAIRED"
  | Rt_Authenticated => "AUTHENTICATED"
  | Rt_PairRejected => "PAIR_REJECTED"
  | Rt_PairingFailed => "PAIRING_FAILED"
  | Rt_Cooldown => "PAIRING_COOLDOWN"
  end%string.

Inductive PairingActionResult : Type := Pa_Accepted | Pa_Duplicate | Pa_InvalidState.
Inductive SessionOutcome : Type := So_Lost | So_Cancelled | So_Rejected.

Record RuntimeSnapshot : Type := mkSnapshot {
  ss_state : RuntimeState;
  ss_sas : option (list byte);
  ss_authenticated : bool;
  ss_heartbeat_count : Z;
  ss_committed_peer_count : Z;
  ss_mismatch_count : Z;
}.

Record RuntimeInner : Type := mkInner {
  in_state : RuntimeState;
  in_sas : option (list byte);
  in_begin_requested : bool;
  in_confirm_requested : bool;
  in_confirm_dispatched : bool;
  in_cancel_requested : bool;
  in_mismatch_requested : bool;
  in_authenticated : bool;
  in_heartbeat_count : Z;
  in_session_active : bool;
  in_mismatch_count : Z;
}.

(** [File::open("/dev/urandom")] and [read_exact], once per try. *)
Definition Draws : Type := nat -> option (list byte).

(** [random_nonzero_u64] *)
Fixpoint draw_u64 (draws : Draws) (k fuel : nat) : result Z RuntimeError :=
  match fuel with
  | O => Err Re_PairPersistFailed
  | S fuel =>
      match draws k with
      | None => Err Re_PairPersistFailed
      | Some bytes =>
          let value := be_val bytes in
          if negb (value =? 0) then Ok value else draw_u64 draws (S k) fuel
      end
  end.
Definition random_nonzero_u64 (draws : Draws) : result Z RuntimeError := draw_u64 draws 0 4.

(** [random_nonzero_128] of the runtime. *)
Fixpoint draw_128 (draws : Draws) (k fuel : nat) : result (list byte) RuntimeError :=
  match fuel with
  | O => Err Re_PairPersistFailed
  | S fuel =>
      match draws k with
      | None => Err Re_PairPersistFailed
      | Some bytes => if nonzero bytes then Ok bytes else draw_128 draws (S k) fuel
      end
  end.
Definition random_session_id (draws : Draws) : result (list byte) RuntimeError :=
  draw_128 draws 0 4.

(** What the file system answers to one durable write. *)
Record StoreEnv : Type := mkStoreEnv { se_uid : Z; se_temp : Name; se_calls : Syscalls }.

(** [wall_clock_ms()?] *)
Definition wall_clock (clock : option Z) : result Z RuntimeError :=
  ok_or clock (Re_Storage Sg_Io).

(** [VerifiedPeerSession] *)
Record VerifiedPeerSession : Type := mkVerifiedPeer {
  vp_peer_id : list byte;
  vp_session_id : list byte;
}.

Module SecureRuntime.

Record t : Type := mk {
  role : EndpointRole;
  identity : Identity;
  root : Dir;
  peers_dir : Dir;
  peers : list PeerRecord;
  guard : PairingGuard.t;
  inner : RuntimeInner;
}.

Definition with_inner (r : t) (i : RuntimeInner) : t :=
  mk (role r) (identity r) (root r) (peers_dir r) (peers r) (guard r) i.
Definition with_guard (r : t) (d : Dir) (g : PairingGuard.t) : t :=
  mk (role r) (identity r) d (peers_dir r) (peers r) g (inner r).
Definition with_peers (r : t) (d : Dir) (ps : list PeerRecord) : t :=
  mk (role r) (identity r) (root r) d ps (guard r) (inner r).

(** [inner.state = state] *)
Definition set_state (i : RuntimeInner) (s : RuntimeState) : RuntimeInner :=
  mkInner s (in_sas i) (in_begin_requested i) (in_confirm_requested i)
    (in_confirm_dispatched i) (in_cancel_requested i) (in_mismatch_requested i)
    (in_authenticated i) (in_heartbeat_count i) (in_session_active i) (in_mismatch_count i).

Definition is_empty {A} (l : list A) : bool := match l with [] => true | _ => false end.

Definition has_committed_peer (r : t) : bool := negb (is_empty (peers r)).

Definition snapshot (r : t) : RuntimeSnapshot :=
  let i := inner r in
  mkSnapshot (in_state i) (in_sas i) (in_authenticated i) (in_heartbeat_count i)
    (Z.of_nat (length (peers r))) (in_mismatch_count i).

Definition session_requested (r : t) : bool :=
  has_committed_peer r || in_begin_requested (inner r).

Definition one_committed_peer (r : t) : result (option PeerRecord) RuntimeError :=
  match peers r with
  | [] => Ok None
  | [peer] => Ok (Some peer)
  | _ => Err Re_PeerKeyMismatch
  end.

Definition peer_is_committed (r : t) (key : list byte) : bool :=
  existsb (fun peer => bool_decide (pr_static_public_key peer = key)) (peers r).

(** ** User actions *)

Definition local_confirm (r : t) : t * PairingActionResult :=
  let i := inner r in
  match in_state i with
  | Rt_SasPending | Rt_PeerConfirmed | Rt_LocalConfirmed | Rt_MutualConfirmed =>
      if in_confirm_requested i || bool_decide (in_state i = Rt_LocalConfirmed)
      then (r, Pa_Duplicate)
      else (with_inner r
              (mkInner (in_state i) (in_sas i) (in_begin_requested i) true
                 (in_confirm_dispatched i) (in_cancel_requested i) (in_mismatch_requested i)
                 (in_authenticated i) (in_heartbeat_count i) (in_session_active i)
                 (in_mismatch_count i)), Pa_Accepted)
  | _ => (r, Pa_InvalidState)
  end.

Definition cancel (r : t) : t * PairingActionResult :=
  let i := inner r in
  if negb (is_some (in_sas i)) || in_authenticated i then (r, Pa_InvalidState)
  else if in_cancel_requested i then (r, Pa_Duplicate)
  else (with_inner r
          (mkInner (in_state i) (in_sas i) (in_begin_requested i) (in_confirm_requested i)
             (in_confirm_dispatched i) true (in_mismatch_requested i)
             (in_authenticated i) (in_heartbeat_count i) (in_session_active i)
             (in_mismatch_count i)), Pa_Accepted).

Definition mismatch (r : t) : t * PairingActionResult :=
  let i := inner r in
  if negb (is_some (in_sas i)) || in_authenticated i then (r, Pa_InvalidState)
  else if in_mismatch_requested i then (r, Pa_Duplicate)
  else (with_inner r
          (mkInner (in_state i) (in_sas i) (in_begin_requested i) (in_confirm_requested i)
             (in_confirm_dispatched i) (in_cancel_requested i) true
             (in_authenticated i) (in_heartbeat_count i) (in_session_active i)
             (in_mismatch_count i)), Pa_Accepted).

(** ** Session life cycle *)

Definition begin_session (r : t) (xx : bool) : t * result unit RuntimeError :=
  let i := inner r in
  if in_session_active i then (r, Err Re_SessionBusy)
  else (with_inner r
          (mkInner (if xx then Rt_PairingXx else Rt_Paired) None (in_begin_requested i)
             false false false false false (in_heartbeat_count i) true (in_mismatch_count i)),
        Ok tt).

Definition end_session (r : t) : t :=
  let i := inner r in
  let state :=
    match in_state i with
    | Rt_PairRejected | Rt_PairingFailed => in_state i
    | _ => if has_committed_peer r then Rt_Paired else Rt_Unpaired
    end in
  with_inner r (mkInner state None false false false false false false (in_heartbeat_count i)
                  false (in_mismatch_count i)).

(** The end of a session hides a cooldown that the session has caused. *)
Lemma end_session_not_cooldown r : in_state (inner (end_session r)) <> Rt_Cooldown.
Proof. cbn. destruct (in_state (inner r)), (has_committed_peer r); done. Qed.

Definition set_sas (r : t) (sas : list byte) : t :=
  let i := inner r in
  with_inner r
    (mkInner Rt_SasPending (Some sas) (in_begin_requested i) (in_confirm_requested i)
       (in_confirm_dispatched i) (in_cancel_requested i) (in_mismatch_requested i)
       (in_authenticated i) (in_heartbeat_count i) (in_session_active i) (in_mismatch_count i)).

Definition runtime_state_of (s : PairingState) : RuntimeState :=
  match s with
  | Ps_Unpaired => Rt_Unpaired
  | Ps_PairingXx => Rt_PairingXx
  | Ps_SasPending => Rt_SasPending
  | Ps_LocalConfirmed => Rt_LocalConfirmed
  | Ps_PeerConfirmed => Rt_PeerConfirmed
  | Ps_MutualConfirmed => Rt_MutualConfirmed
  | Ps_TrustCommitting => Rt_TrustCommitting
  | Ps_Paired => Rt_CommittedWaitingPeer
  | Ps_PairRejected => Rt_PairRejected
  | Ps_PairingFailed => Rt_PairingFailed
  end.

Definition set_pairing_state (r : t) (s : PairingState) : t :=
  with_inner r (set_state (inner r) (runtime_state_of s)).

Definition take_actions (r : t) : t * (bool * bool * bool) :=
  let i := inner r in
  let confirm := in_confirm_requested i && negb (in_confirm_dispatched i) in
  (with_inner r
     (mkInner (in_state i) (in_sas i) (in_begin_requested i) (in_confirm_requested i)
        (in_confirm_dispatched i || confirm) false false (in_authenticated i)
        (in_heartbeat_count i) (in_session_active i) (in_mismatch_count i)),
   (confirm, in_cancel_requested i, in_mismatch_requested i)).

Definition heartbeat (r : t) : t :=
  let i := inner r in
  with_inner r
    (mkInner (in_state i) (in_sas i) (in_begin_requested i) (in_confirm_requested i)
       (in_confirm_dispatched i) (in_cancel_requested i) (in_mismatch_requested i)
       (in_authenticated i) (sat_add64 (in_heartbeat_count i) 1) (in_session_active i)
       (in_mismatch_count i)).

(** ** Methods that touch the disk *)

Section Disk.
Context (sha256 mul_base_clamped : list byte -> list byte).
Context (to_vec : Value -> list byte) (from_slice : list byte -> option Value).

(** [alias] of [commit_peer] *)
Definition alias_of (role : EndpointRole) : list byte :=
  match role with
  | LinuxInitiator => ascii_bytes "Android worker"
  | AndroidResponder => ascii_bytes "Linux host"
  end.

Definition commit_peer (r : t) (key : list byte) (clock : option Z) (se : StoreEnv) :
    t * result unit RuntimeError :=
  match wall_clock clock with
  | Err e => (r, Err e)
  | Ok now =>
      let record := PeerRecord_new sha256 key (alias_of (role r)) now in
      match Storage.commit_peer sha256 to_vec (se_uid se) (peers_dir r) (se_temp se) record
              (se_calls se) with
      | (d, Err _, _) => (with_peers r d (peers r), Err Re_PairPersistFailed)
      | (d, Ok _, _) =>
          (with_peers r d
             (if existsb (fun peer => bool_decide (pr_peer_id peer = pr_peer_id record)) (peers r)
              then peers r else peers r ++ [record]), Ok tt)
      end
  end.

(** Store the guard that an operation changed. *)
Definition save_guard (r : t) (g : PairingGuard.t) (se : StoreEnv) : t * result unit RuntimeError :=
  match persist_guard to_vec (se_uid se) (root r) (se_temp se) g (se_calls se) with
  | (d, Err e, _) => (with_guard r d g, Err (Re_Storage e))
  | (d, Ok _, _) => (with_guard r d g, Ok tt)
  end.

Definition mark_authenticated (r : t) (remote : list byte) (clock : option Z) (se : StoreEnv)
    (draws : Draws) : t * result VerifiedPeerSession RuntimeError :=
  match wall_clock clock with
  | Err e => (r, Err e)
  | Ok now =>
      let '(g, _) := PairingGuard.paired (guard r) now in
      match save_guard r g se with
      | (r, Err e) => (r, Err e)
      | (r, Ok _) =>
          let i := inner r in
          let r := with_inner r
            (mkInner Rt_Authenticated (in_sas i) (in_begin_requested i) (in_confirm_requested i)
               (in_confirm_dispatched i) (in_cancel_requested i) (in_mismatch_requested i)
               true (in_heartbeat_count i) (in_session_active i)
               (PairingGuard.mismatch_count g)) in
          match random_session_id draws with
          | Err e => (r, Err e)
          | Ok id => (r, Ok (mkVerifiedPeer (sha256 remote) id))
          end
      end
  end.

Definition record_mismatch (r : t) (clock : option Z) (se : StoreEnv) :
    t * result unit RuntimeError :=
  match wall_clock clock with
  | Err e => (r, Err e)
  | Ok now =>
      let '(g, _) := PairingGuard.record_mismatch (guard r) now in
      match save_guard r g se with
      | (r, Err e) => (r, Err e)
      | (r, Ok _) =>
          let i := inner r in
          (with_inner r
             (mkInner (if is_some (PairingGuard.cooldown_until_wall_ms g) then Rt_Cooldown
                       else Rt_PairRejected)
                (in_sas i) (in_begin_requested i) (in_confirm_requested i)
                (in_confirm_dispatched i) (in_cancel_requested i) (in_mismatch_requested i)
                (in_authenticated i) (in_heartbeat_count i) (in_session_active i)
                (PairingGuard.mismatch_count g)), Ok tt)
      end
  end.

Definition ensure_guard_admits (r : t) (clock : option Z) (se : StoreEnv) :
    t * result unit RuntimeError :=
  match wall_clock clock with
  | Err e => (r, Err e)
  | Ok now =>
      let '(g, admission) := PairingGuard.admit_ (guard r) now in
      let '(r, saved) :=
        if state_changed admission then save_guard r g se
        else (with_guard r (root r) g, Ok tt) in
      match saved with
      | Err e => (r, Err e)
      | Ok _ => (r, if value admission then Ok tt else Err Re_PairingCooldown)
      end
  end.

(** [begin_pairing] up to its wait loop; [None] means the caller now waits. *)
Definition begin_pairing (r : t) (clock : option Z) (se : StoreEnv) :
    t * option (result RuntimeSnapshot RuntimeError) :=
  if has_committed_peer r then (r, Some (Ok (snapshot r)))
  else
    match ensure_guard_admits r clock se with
    | (r, Err e) => (r, Some (Err e))
    | (r, Ok _) =>
        let i := inner r in
        if in_begin_requested i then (r, None)
        else (with_inner r
                (mkInner Rt_PairingXx (in_sas i) true (in_confirm_requested i)
                   (in_confirm_dispatched i) (in_cancel_requested i) (in_mismatch_requested i)
                   (in_authenticated i) (in_heartbeat_count i) (in_session_active i)
                   (in_mismatch_count i)), None)
    end.

(** One round of the wait loop of [begin_pairing]. *)
Definition begin_pairing_wait (r : t) (expired : bool) :
    option (result RuntimeSnapshot RuntimeError) :=
  match in_state (inner r) with
  | Rt_PairingXx | Rt_Unpaired => if expired then Some (Err Re_NoConnectedTransport) else None
  | _ => Some (Ok (snapshot r))
  end.

(** What start-up reads: random bytes, the listing and the outcomes of the calls. *)
Record StartEnv : Type := mkStartEnv {
  sv_uid : Z;
  sv_random : option (list byte);
  sv_identity_store : StoreEnv;
  sv_guard_store : StoreEnv;
  sv_entries : list Name;
  sv_read_ok : Name -> bool;
  sv_clock : option Z;
}.

Definition initialize (role : EndpointRole) (root peers_dir : Dir) (env : StartEnv) :
    result t RuntimeError :=
  match load_or_create_identity mul_base_clamped (sv_uid env) root
          (se_temp (sv_identity_store env)) (sv_random env) (se_calls (sv_identity_store env))
          true (sv_read_ok env IDENTITY_FILE) with
  | (_, Err e) => Err (Re_Storage e)
  | (root, Ok identity) =>
      match load_peers sha256 from_slice (sv_uid env) peers_dir (sv_entries env)
              (sv_read_ok env) with
      | Err e => Err (Re_Storage e)
      | Ok peers =>
          let? now := wall_clock (sv_clock env) in
          match load_guard from_slice (sv_uid env) root now true (sv_read_ok env GUARD_FILE) with
          | Err e => Err (Re_Storage e)
          | Ok guard =>
              let '(guard, admission) := PairingGuard.admit_ guard now in
              let stored :=
                if state_changed admission then
                  match persist_guard to_vec (sv_uid env) root (se_temp (sv_guard_store env)) guard
                          (se_calls (sv_guard_store env)) with
                  | (_, Err e, _) => Err (Re_Storage e)
                  | (root, Ok _, _) => Ok root
                  end
                else Ok root in
              let? root := stored in
              let state :=
                if value admission then if is_empty peers then Rt_Unpaired else Rt_Paired
                else Rt_Cooldown in
              Ok (mk role identity root peers_dir peers guard
                    (mkInner state None false false false false false false 0 false
                       (PairingGuard.mismatch_count guard)))
          end
      end
  end.
End Disk.

End SecureRuntime.
