(* ===== verification/PairingLoop.v ===== *)
(** * pb-runtime-secure: the pairing loop and the committed loop

    Models [run_pairing_loop] and [run_committed_loop] of
    [crates/pb-runtime-secure/src/runtime.rs].  One round of the pairing loop is three
    parts, in the order of the code: the deadline and the user's actions ([act]), a
    received frame ([receive]) and the trust commit ([commit]).  They are separate
    definitions because the peer and the user run concurrently with the loop; [round]
    is their composition.

    The answers of [receive_frame_if_available] and [send_frame] are arguments, and so
    are the elapsed time, random bytes and the outcome of writes to disk.  A part
    returns the runtime, the frames it handed to [send_frame] and where the loop goes
    from there.  The two forms of the authenticated session that follow are entered
    with [Fl_Authenticated]. *)

From Stdlib Require Import ZArith Lia.
From stdpp Require Import base tactics list gmap strings.
From S2P Require Import Prelude Types Pbmux Reassembly Pairing Text Storage Records Runtime.

(** The local variables of [run_pairing_loop]. *)
Record Locals : Type := mkLocals {
  lo_actor : PairingActor.t;
  lo_send_sequence : Z;
  lo_receive_sequence : SequenceTracker.t;
  lo_committed : bool;
  lo_commit_ping_request : option Z;
}.

Definition pairing_locals : Locals :=
  mkLocals PairingActor.new 0 SequenceTracker.new false None.

(** Where the loop goes: on, out of the function, or into [enter_authenticated_loop]
    with the sequence numbers reached. *)
Inductive Flow (L : Type) : Type :=
| Fl_Next (l : L)
| Fl_Return (r : result SessionOutcome RuntimeError)
| Fl_Authenticated (send_sequence : Z) (receive_sequence : SequenceTracker.t).
Arguments Fl_Next {L} _.
Arguments Fl_Return {L} _.
Arguments Fl_Authenticated {L} _ _.

(** What the surroundings answer to one part of a round. *)
Record Answers : Type := mkAnswers {
  an_elapsed : Z;
  an_draws : Draws;
  an_send : result unit RuntimeError;
  an_clock : option Z;
  an_store : StoreEnv;
}.

(** [receive_sequence.accept(..)], with the tracker as it is left. *)
Definition accept_sequence (s : SequenceTracker.t) (f : Frame) :
    SequenceTracker.t * result unit RuntimeError :=
  let '(s, r) := SequenceTracker.accept s (sequence (header f)) in
  (s, map_err (fun _ => Re_Pbmux) r).

Section Loop.
Context (sha256 : list byte -> list byte) (to_vec : Value -> list byte).
Context (initiator : bool) (remote : list byte).

Implicit Types (rt : SecureRuntime.t) (l : Locals).

(** Build a frame numbered with the next sequence number, count it, send it. *)
Definition send_next l (frame : Frame) (sent : result unit RuntimeError) :
    list Frame * result Locals RuntimeError :=
  match checked_add64 (lo_send_sequence l) 1 with
  | None => ([], Err Re_Pbmux)
  | Some next =>
      ([frame], let? _ := sent in
                Ok (mkLocals (lo_actor l) next (lo_receive_sequence l) (lo_committed l)
                      (lo_commit_ping_request l)))
  end.

Definition with_actor l (a : PairingActor.t) : Locals :=
  mkLocals a (lo_send_sequence l) (lo_receive_sequence l) (lo_committed l)
    (lo_commit_ping_request l).

(** The deadline, then the actions of the user. *)
Definition act rt l (env : Answers) : SecureRuntime.t * list Frame * Flow Locals :=
  if PAIRING_TIMEOUT_MS <=? an_elapsed env then
    (SecureRuntime.set_pairing_state rt Ps_PairingFailed, [], Fl_Return (Err Re_PairingTimeout))
  else
    let '(rt, (confirm, cancel, mismatch)) := SecureRuntime.take_actions rt in
    if cancel then
      (SecureRuntime.set_pairing_state rt Ps_Unpaired, [], Fl_Return (Ok So_Cancelled))
    else if mismatch then
      match SecureRuntime.record_mismatch to_vec rt (an_clock env) (an_store env) with
      | (rt, Err e) => (rt, [], Fl_Return (Err e))
      | (rt, Ok _) => (rt, [], Fl_Return (Ok So_Rejected))
      end
    else if confirm then
      let '(actor, transition) := PairingActor.local_confirm (lo_actor l) in
      let l := with_actor l actor in
      let rt := SecureRuntime.set_pairing_state rt (pt_state (value transition)) in
      if pt_send_pair_confirm (value transition) then
        match random_nonzero_u64 (an_draws env) with
        | Err e => (rt, [], Fl_Return (Err e))
        | Ok request =>
            match pair_confirm_frame request (lo_send_sequence l) with
            | Err _ => (rt, [], Fl_Return (Err Re_Pbmux))
            | Ok frame =>
                match send_next l frame (an_send env) with
                | (out, Err e) => (rt, out, Fl_Return (Err e))
                | (out, Ok l) => (rt, out, Fl_Next l)
                end
            end
        end
      else (rt, [], Fl_Next l)
    else (rt, [], Fl_Next l).

(** One frame, when there is one. *)
Definition receive rt l (received : result (option Frame) RuntimeError) (env : Answers) :
    SecureRuntime.t * list Frame * Flow Locals :=
  match received with
  | Err e => (rt, [], Fl_Return (Err e))
  | Ok None => (rt, [], Fl_Next l)
  | Ok (Some frame) =>
      let '(tracker, accepted) := accept_sequence (lo_receive_sequence l) frame in
      let l := mkLocals (lo_actor l) (lo_send_sequence l) tracker (lo_committed l)
                 (lo_commit_ping_request l) in
      match accepted with
      | Err e => (rt, [], Fl_Return (Err e))
      | Ok _ =>
          match authorize_dispatch frame PairingControlOnly with
          | Err _ => (rt, [], Fl_Return (Err Re_Pbmux))
          | Ok _ =>
              match ControlType_try_from (message_type (header frame)) with
              | Ok Ct_PairConfirm =>
                  match validate_pair_confirm frame with
                  | Err _ => (rt, [], Fl_Return (Err Re_Pbmux))
                  | Ok _ =>
                      let '(actor, transition) := PairingActor.peer_confirm (lo_actor l) in
                      (SecureRuntime.set_pairing_state rt (pt_state (value transition)), [],
                       Fl_Next (with_actor l actor))
                  end
              | Ok Ct_Ping =>
                  if lo_committed l && negb initiator then
                    let pong := control_frame Ct_Pong (request_id (header frame))
                                  (lo_send_sequence l) in
                    match send_next l pong (an_send env) with
                    | (out, Err e) => (rt, out, Fl_Return (Err e))
                    | (out, Ok l) =>
                        (rt, out, Fl_Authenticated (lo_send_sequence l) (lo_receive_sequence l))
                    end
                  else (rt, [], Fl_Next l)
              | Ok Ct_Pong =>
                  if lo_committed l && initiator then
                    if negb (bool_decide (Some (request_id (header frame))
                                          = lo_commit_ping_request l))
                    then (rt, [], Fl_Return (Err Re_Pbmux))
                    else (rt, [], Fl_Authenticated (lo_send_sequence l) (lo_receive_sequence l))
                  else (rt, [], Fl_Next l)
              | Ok Ct_SessionClose => (rt, [], Fl_Return (Ok So_Lost))
              | _ => (rt, [], Fl_Next l)
              end
          end
      end
  end.

(** Store the peer's key when both sides have confirmed. *)
Definition commit rt l (env : Answers) : SecureRuntime.t * list Frame * Flow Locals :=
  if bool_decide (PairingActor.state (lo_actor l) = Ps_MutualConfirmed) && negb (lo_committed l)
  then
    let '(actor, transition) := PairingActor.begin_trust_commit (lo_actor l) in
    let rt := SecureRuntime.set_pairing_state rt (pt_state (value transition)) in
    let l := with_actor l actor in
    if pt_persist_commit (value transition) then
      match SecureRuntime.commit_peer sha256 to_vec rt remote (an_clock env) (an_store env) with
      | (rt, Err _) =>
          (SecureRuntime.set_pairing_state rt Ps_PairingFailed, [],
           Fl_Return (Err Re_PairPersistFailed))
      | (rt, Ok _) =>
          match PairingActor.persist_result (lo_actor l) Po_Succeeded with
          | (_, Err _) => (rt, [], Fl_Return (Err Re_PairPersistFailed))
          | (actor, Ok _) =>
              let rt := SecureRuntime.set_pairing_state rt Ps_Paired in
              let l := mkLocals actor (lo_send_sequence l) (lo_receive_sequence l) true
                         (lo_commit_ping_request l) in
              if initiator then
                match random_nonzero_u64 (an_draws env) with
                | Err e => (rt, [], Fl_Return (Err e))
                | Ok request =>
                    let ping := control_frame Ct_Ping request (lo_send_sequence l) in
                    match send_next l ping (an_send env) with
                    | (out, Err e) => (rt, out, Fl_Return (Err e))
                    | (out, Ok l) =>
                        (rt, out,
                         Fl_Next (mkLocals (lo_actor l) (lo_send_sequence l)
                                    (lo_receive_sequence l) (lo_committed l) (Some request)))
                    end
                end
              else (rt, [], Fl_Next l)
          end
      end
    else (rt, [], Fl_Next l)
  else (rt, [], Fl_Next l).

(** Go on with [k] when the loop goes on. *)
Definition then_ (did : SecureRuntime.t * list Frame * Flow Locals)
    (k : SecureRuntime.t -> Locals -> SecureRuntime.t * list Frame * Flow Locals) :
    SecureRuntime.t * list Frame * Flow Locals :=
  match did with
  | (rt, out, Fl_Next l) => let '(rt, out', flow) := k rt l in (rt, out ++ out', flow)
  | _ => did
  end.

(** One round of the loop. *)
Definition round rt l (received : result (option Frame) RuntimeError) (env1 env2 env3 : Answers) :
    SecureRuntime.t * list Frame * Flow Locals :=
  then_ (act rt l env1) (fun rt l =>
  then_ (receive rt l received env2) (fun rt l => commit rt l env3)).

End Loop.

(** ** The loop of a session with a peer committed earlier

    The initiator sends a PING before its loop, so that its locals are the sequence
    numbers and the request it waits for; the responder answers the first PING. *)

Record CommittedLocals : Type := mkCommittedLocals {
  cl_send_sequence : Z;
  cl_receive_sequence : SequenceTracker.t;
}.

(** The initiator's PING. *)
Definition committed_start (draws : Draws) (sent : result unit RuntimeError) :
    list Frame * result (CommittedLocals * Z) RuntimeError :=
  match random_nonzero_u64 draws with
  | Err e => ([], Err e)
  | Ok request =>
      ([control_frame Ct_Ping request 0],
       let? _ := sent in Ok (mkCommittedLocals 1 SequenceTracker.new, request))
  end.

(** One round of the initiator's loop, waiting for the answer to [request]. *)
Definition committed_initiator (request : Z) (l : CommittedLocals)
    (received : result (option Frame) RuntimeError) : Flow CommittedLocals :=
  match received with
  | Err e => Fl_Return (Err e)
  | Ok None => Fl_Next l
  | Ok (Some frame) =>
      match accept_sequence (cl_receive_sequence l) frame with
      | (_, Err e) => Fl_Return (Err e)
      | (tracker, Ok _) =>
          if (message_type (header frame) =? ControlType_as_u16 Ct_Pong)
             && (request_id (header frame) =? request)
          then Fl_Authenticated (cl_send_sequence l) tracker
          else Fl_Return (Err Re_Pbmux)
      end
  end.

(** One round of the responder's loop. *)
Definition committed_responder (l : CommittedLocals)
    (received : result (option Frame) RuntimeError) (sent : result unit RuntimeError) :
    list Frame * Flow CommittedLocals :=
  match received with
  | Err e => ([], Fl_Return (Err e))
  | Ok None => ([], Fl_Next l)
  | Ok (Some frame) =>
      match accept_sequence (cl_receive_sequence l) frame with
      | (_, Err e) => ([], Fl_Return (Err e))
      | (tracker, Ok _) =>
          if negb (message_type (header frame) =? ControlType_as_u16 Ct_Ping)
          then ([], Fl_Return (Err Re_Pbmux))
          else
            ([control_frame Ct_Pong (request_id (header frame)) (cl_send_sequence l)],
             match sent with
             | Err e => Fl_Return (Err e)
             | Ok _ => Fl_Authenticated (cl_send_sequence l + 1) tracker
             end)
      end
  end.

(** ** Two peers, their users and the stream between them *)

Module PairingSystem.

Inductive Side : Type := Initiator | Responder.

#[export] Instance Side_eq_dec : EqDecision Side.
Proof. solve_decision. Defined.

Definition is_initiator (x : Side) : bool := match x with Initiator => true | _ => false end.
Definition other (x : Side) : Side := match x with Initiator => Responder | _ => Initiator end.

(** Where a session thread is: before one of the three parts of a round, or done. *)
Inductive Phase : Type :=
| Ph_Act | Ph_Receive | Ph_Commit
| Ph_Returned (r : result SessionOutcome RuntimeError)
| Ph_Authenticated.

Record Node : Type := mkNode {
  nd_runtime : SecureRuntime.t;
  nd_locals : Locals;
  nd_phase : Phase;
}.

(** The two nodes; per side, the frames it sent that the other has not read, and, as
    history, whether its user's confirmation was accepted. *)
Record t : Type := mk {
  node : Side -> Node;
  outbox : Side -> list Frame;
  confirmed : Side -> bool;
}.

Definition upd {A} (f : Side -> A) (x : Side) (a : A) : Side -> A :=
  fun y => if bool_decide (y = x) then a else f y.

Lemma other_ne x : other x <> x.
Proof. by destruct x. Qed.
Lemma upd_eq {A} (f : Side -> A) x a : upd f x a x = a.
Proof. unfold upd. by rewrite bool_decide_true. Qed.
Lemma upd_ne {A} (f : Side -> A) x y a : y <> x -> upd f x a y = f y.
Proof. intros. unfold upd. by rewrite bool_decide_false. Qed.

(** What can happen: an action of a user, or one part of a round.  [lost] says that
    a failed write did not bring the frame to the peer; [received] is [None] when the
    socket has nothing to read. *)
Inductive Event : Type :=
| Ev_Confirm (x : Side)
| Ev_Cancel (x : Side)
| Ev_Mismatch (x : Side)
| Ev_Act (x : Side) (env : Answers) (lost : bool)
| Ev_Receive (x : Side) (received : option (result unit RuntimeError)) (env : Answers) (lost : bool)
| Ev_Commit (x : Side) (env : Answers) (lost : bool).

(** The side at which an event happens. *)
Definition side_of (ev : Event) : Side :=
  match ev with
  | Ev_Confirm x | Ev_Cancel x | Ev_Mismatch x | Ev_Act x _ _ | Ev_Receive x _ _ _
  | Ev_Commit x _ _ => x
  end.

Section System.
Context (sha256 : list byte -> list byte) (to_vec : Value -> list byte).
(** The static public key that the handshake gave each side for its peer. *)
Context (remote : Side -> list byte).

Definition user (s : t) (x : Side)
    (action : SecureRuntime.t -> SecureRuntime.t * PairingActionResult) (confirms : bool) : t :=
  let n := node s x in
  let '(rt, answer) := action (nd_runtime n) in
  mk (upd (node s) x (mkNode rt (nd_locals n) (nd_phase n))) (outbox s)
     (match answer with
      | Pa_Accepted => if confirms then upd (confirmed s) x true else confirmed s
      | _ => confirmed s
      end).

(** Record what a part of a round did; [next] is the phase after it.  Leaving the
    function drops the [SessionGuard], which ends the session. *)
Definition finish (s : t) (x : Side) (next : Phase) (env : Answers) (lost : bool)
    (did : SecureRuntime.t * list Frame * Flow Locals) : t :=
  let '(rt, out, flow) := did in
  let n := node s x in
  let n := match flow with
           | Fl_Next l => mkNode rt l next
           | Fl_Return r => mkNode (SecureRuntime.end_session rt) (nd_locals n) (Ph_Returned r)
           | Fl_Authenticated _ _ => mkNode rt (nd_locals n) Ph_Authenticated
           end in
  let out := if negb (is_ok (an_send env)) && lost then [] else out in
  mk (upd (node s) x n) (upd (outbox s) x (outbox s x ++ out)) (confirmed s).

Definition exec (s : t) (ev : Event) : t :=
  match ev with
  | Ev_Confirm x => user s x SecureRuntime.local_confirm true
  | Ev_Cancel x => user s x SecureRuntime.cancel false
  | Ev_Mismatch x => user s x SecureRuntime.mismatch false
  | Ev_Act x env lost =>
      let n := node s x in
      match nd_phase n with
      | Ph_Act => finish s x Ph_Receive env lost (act to_vec (nd_runtime n) (nd_locals n) env)
      | _ => s
      end
  | Ev_Receive x received env lost =>
      let n := node s x in
      match nd_phase n with
      | Ph_Receive =>
          match received with
          | None =>
              finish s x Ph_Commit env lost
                (receive (is_initiator x) (nd_runtime n) (nd_locals n) (Ok None) env)
          | Some (Err e) =>
              finish s x Ph_Commit env lost
                (receive (is_initiator x) (nd_runtime n) (nd_locals n) (Err e) env)
          | Some (Ok _) =>
              match outbox s (other x) with
              | [] => s
              | f :: rest =>
                  finish (mk (node s) (upd (outbox s) (other x) rest) (confirmed s)) x Ph_Commit env lost
                    (receive (is_initiator x) (nd_runtime n) (nd_locals n) (Ok (Some f)) env)
              end
          end
      | _ => s
      end
  | Ev_Commit x env lost =>
      let n := node s x in
      match nd_phase n with
      | Ph_Commit =>
          finish s x Ph_Act env lost
            (commit sha256 to_vec (is_initiator x) (remote x) (nd_runtime n) (nd_locals n) env)
      | _ => s
      end
  end.

Fixpoint run (s : t) (evs : list Event) : t :=
  match evs with [] => s | ev :: evs => run (exec s ev) evs end.

(** Both sessions have just finished the handshake and show the SAS. *)
Definition start (rt : Side -> SecureRuntime.t) : t :=
  mk (fun x => mkNode (rt x) pairing_locals Ph_Act) (fun _ => []) (fun _ => false).

End System.
End PairingSystem.
