(* ===== verification/PairingFacts.v ===== *)
(** * Agreement of the two peers of a pairing

    The invariant of [PairingSystem]: what each side knows, what its frames on the
    stream mean, and that trust is only stored after both users confirmed.  It holds in
    every interleaving of the two session threads and the two users, whatever fails:
    reads, writes, the disk, the random source and the clock. *)

From Stdlib Require Import ZArith Lia.
From stdpp Require Import base tactics list gmap strings.
From S2P Require Import Prelude Types Pbmux Reassembly Pairing Text Storage Records Runtime.
From S2P Require Import PairingLoop.

Import PairingSystem.

#[local] Arguments random_nonzero_u64 : simpl never.
#[local] Arguments send_next : simpl never.
#[local] Arguments act : simpl never.
#[local] Arguments receive : simpl never.
#[local] Arguments commit : simpl never.
#[local] Arguments finish : simpl never.

Module PairingAgreement.

Section Agreement.
Context (sha256 : list byte -> list byte) (to_vec : Value -> list byte).

(** The key is in memory and in a valid peer file. *)
Definition trusts (rt : SecureRuntime.t) (key : list byte) : Prop :=
  SecureRuntime.peer_is_committed rt key = true /\
  exists r f, pr_static_public_key r = key /\ validate_peer sha256 r = Ok tt /\
    SecureRuntime.peers_dir rt !! peer_file (pr_peer_id r) = Some f /\
    fi_bytes f = to_vec (peer_value r) ++ [NEWLINE].

(** No committed peer collides with [key] under the identifier. *)
Definition no_collision (rt : SecureRuntime.t) (key : list byte) : Prop :=
  forall p, p ∈ SecureRuntime.peers rt -> pr_peer_id p = peer_id sha256 key ->
    pr_static_public_key p = key.

(** [rt'] differs from [rt] in nothing that trust depends on. *)
Definition same_trust (rt rt' : SecureRuntime.t) : Prop :=
  SecureRuntime.peers rt' = SecureRuntime.peers rt /\
  SecureRuntime.peers_dir rt' = SecureRuntime.peers_dir rt /\
  (in_confirm_requested (SecureRuntime.inner rt') = true ->
   in_confirm_requested (SecureRuntime.inner rt) = true).

#[local] Instance same_trust_refl : Reflexive same_trust.
Proof. by intros rt. Qed.
#[local] Instance same_trust_trans : Transitive same_trust.
Proof. intros a b c (H1 & H2 & H3) (H4 & H5 & H6). split_and!; [congruence..|auto]. Qed.

Lemma same_trust_committed rt rt' key :
  same_trust rt rt' ->
  SecureRuntime.peer_is_committed rt' key = SecureRuntime.peer_is_committed rt key.
Proof. intros (H & _). unfold SecureRuntime.peer_is_committed. by rewrite H. Qed.

Lemma same_trust_trusts rt rt' key : same_trust rt rt' -> trusts rt key -> trusts rt' key.
Proof.
  intros Hs (H1 & H2). split; [by rewrite (same_trust_committed rt)|].
  destruct Hs as (_ & -> & _). done.
Qed.

Lemma set_pairing_state_same rt s : same_trust rt (SecureRuntime.set_pairing_state rt s).
Proof. done. Qed.
Lemma take_actions_same rt : same_trust rt (SecureRuntime.take_actions rt).1.
Proof. done. Qed.
Lemma end_session_same rt : same_trust rt (SecureRuntime.end_session rt).
Proof. done. Qed.
Lemma record_mismatch_same rt clock se rt' r :
  SecureRuntime.record_mismatch to_vec rt clock se = (rt', r) -> same_trust rt rt'.
Proof.
  unfold SecureRuntime.record_mismatch, SecureRuntime.save_guard. intros H.
  repeat case_match; simplify_eq; done.
Qed.
Hint Resolve set_pairing_state_same end_session_same record_mismatch_same : trust.

(** A write leaves every file as it was or, for its target, with the new contents. *)
Lemma atomic_write_keeps uid d name temp bytes sc d' r seen n f :
  atomic_write uid d name temp bytes sc = (d', r, seen) -> d !! n = Some f ->
  d' !! n = Some f \/ n = name /\ exists f', d' !! n = Some f' /\ fi_bytes f' = bytes.
Proof.
  unfold atomic_write. intros H Hn.
  destruct (unsafe_name name); [simplify_eq; by left|].
  destruct (negb (sc_open sc) || _) eqn:Eo; [simplify_eq; by left|]. bool_hyps.
  assert (n <> temp) by (intros ->; naive_solver).
  destruct (decide (n = name)) as [->|Hne]; repeat case_match; simplify_eq.
  all: repeat first [rewrite lookup_insert_ne by done | rewrite lookup_delete_ne by done
    | rewrite lookup_insert_eq]; eauto.
Qed.

(** What is stored when [commit_peer] answers. *)
Lemma commit_peer_trust rt key clock se rt' r :
  SecureRuntime.commit_peer sha256 to_vec rt key clock se = (rt', r) ->
  no_collision rt key ->
  SecureRuntime.inner rt' = SecureRuntime.inner rt /\ no_collision rt' key /\
  match r with
  | Ok _ => trusts rt' key
  | Err _ => SecureRuntime.peers rt' = SecureRuntime.peers rt /\ (trusts rt key -> trusts rt' key)
  end.
Proof.
  unfold SecureRuntime.commit_peer. intros H Hn.
  destruct (wall_clock clock) as [now|e]; [|by simplify_eq].
  destruct (Storage.commit_peer _ _ _ _ _ _ _) as [[d [[]|e]] seen] eqn:Ec; simplify_eq.
  2:{ split_and!; [done..|]. intros (H1 & r & f & H2 & H3 & H4 & H5). split; [done|].
      unfold Storage.commit_peer in Ec. destruct (validate_peer _ (PeerRecord_new _ _ _ _)) as [[]|] eqn:Ev.
      - destruct (atomic_write_keeps _ _ _ _ _ _ _ _ _ _ _ Ec H4) as [?|(Hn' & f' & ? & ?)].
        + by exists r, f.
        + eexists _, f'. split_and!; [|exact Ev| |done]; [done|]. by rewrite <- Hn'.
      - simplify_eq. by exists r, f. }
  unfold Storage.commit_peer in Ec. destruct (validate_peer _ _) as [[]|] eqn:Ev; [|done].
  apply atomic_write_ok in Ec as (mode & _ & ->). split; [done|].
  set (record := PeerRecord_new _ _ _ _) in *.
  destruct (existsb _ (SecureRuntime.peers rt)) eqn:Ex.
  - apply existsb_exists in Ex as (p & Hp & Hid). apply list_elem_of_In in Hp.
    apply bool_decide_eq_true in Hid. split; [done|]. split.
    + unfold SecureRuntime.peer_is_committed. cbn. apply existsb_exists.
      exists p. split; [by apply list_elem_of_In|]. apply bool_decide_eq_true. by apply Hn.
    + exists record, (mkFile true (se_uid se) mode (to_vec (peer_value record) ++ [NEWLINE])).
      split_and!; [done..| |done]. cbn. apply lookup_insert_eq.
  - split.
    + intros p Hp. cbn in Hp. apply elem_of_app in Hp as [Hp|Hp]; [by apply Hn|].
      by apply list_elem_of_singleton in Hp as ->.
    + split.
      * unfold SecureRuntime.peer_is_committed. cbn. rewrite existsb_app. cbn.
        by rewrite bool_decide_true, orb_true_r.
      * exists record, (mkFile true (se_uid se) mode (to_vec (peer_value record) ++ [NEWLINE])).
        split_and!; [done..| |done]. cbn. apply lookup_insert_eq.
Qed.

(** ** What one session thread maintains

    [cx], [cy]: the own and the other user confirmed; [was]: the key was trusted before
    the session. *)

Section Node.
Context (key : list byte) (cx cy was : Prop).

Definition agreed (rt : SecureRuntime.t) : Prop := trusts rt key /\ cx /\ cy.

Record node_inv (rt : SecureRuntime.t) (l : Locals) : Prop := {
  ni_requested : in_confirm_requested (SecureRuntime.inner rt) = true -> cx;
  ni_local : PairingActor.local_confirmed (lo_actor l) = true -> cx;
  ni_peer : PairingActor.peer_confirmed (lo_actor l) = true -> cy;
  ni_mutual : PairingActor.state (lo_actor l) = Ps_MutualConfirmed ->
    PairingActor.local_confirmed (lo_actor l) = true /\
    PairingActor.peer_confirmed (lo_actor l) = true;
  ni_committed : lo_committed l = true -> agreed rt;
  ni_unique : no_collision rt key;
  ni_trusted : SecureRuntime.peer_is_committed rt key = true -> was \/ cx /\ cy;
}.

(** What the frames a side sends say about it. *)
Definition sent_ok (rt : SecureRuntime.t) (f : Frame) : Prop :=
  (message_type (header f) = ControlType_as_u16 Ct_PairConfirm -> cx) /\
  (message_type (header f) = ControlType_as_u16 Ct_Ping \/
   message_type (header f) = ControlType_as_u16 Ct_Pong -> agreed rt).

(** What one part of a round must establish. *)
Definition part_ok (rt0 : SecureRuntime.t) (l0 : Locals) (peer_agreed : Prop)
    (did : SecureRuntime.t * list Frame * Flow Locals) : Prop :=
  let '(rt, out, flow) := did in
  (trusts rt0 key -> trusts rt key) /\ Forall (sent_ok rt) out /\
  match flow with
  | Fl_Next l => node_inv rt l
  | Fl_Return _ => node_inv rt l0
  | Fl_Authenticated _ _ => node_inv rt l0 /\ agreed rt /\ peer_agreed
  end.

Lemma node_inv_same rt rt' l : same_trust rt rt' -> node_inv rt l -> node_inv rt' l.
Proof.
  intros Hs []. pose proof Hs as (Hp & _ & Hr). constructor; auto.
  - intros H. destruct (ni_committed0 H) as (? & ?). split; [|done]. by eapply same_trust_trusts.
  - unfold no_collision. by rewrite Hp.
  - by rewrite (same_trust_committed rt).
Qed.

Ltac keep := eapply node_inv_same; [|eassumption]; done.

(** Changing sequence numbers and the awaited PING keeps the invariant. *)
Lemma node_inv_locals rt l l' :
  lo_actor l' = lo_actor l -> lo_committed l' = lo_committed l ->
  node_inv rt l -> node_inv rt l'.
Proof. intros Ha Hc []. constructor; rewrite ?Ha, ?Hc; auto. Qed.

Lemma send_next_locals l f sent out l' :
  send_next l f sent = (out, Ok l') ->
  out = [f] /\ lo_actor l' = lo_actor l /\ lo_committed l' = lo_committed l.
Proof. unfold send_next. intros H. repeat case_match; simplify_eq. done. Qed.

Lemma send_next_out l f sent out r (P : Frame -> Prop) :
  send_next l f sent = (out, r) -> P f -> Forall P out.
Proof. unfold send_next. intros H Hf. repeat case_match; simplify_eq; by constructor. Qed.

(** A confirmation moves the actor only as far as its two flags allow. *)
Lemma confirmation_mutual a c s a' m :
  PairingActor.confirmation_transition a c s = (a', m) ->
  (PairingActor.state a = Ps_MutualConfirmed ->
   PairingActor.local_confirmed a = true /\ PairingActor.peer_confirmed a = true) ->
  PairingActor.local_confirmed a' = PairingActor.local_confirmed a /\
  PairingActor.peer_confirmed a' = PairingActor.peer_confirmed a /\
  (PairingActor.state a' = Ps_MutualConfirmed ->
   PairingActor.local_confirmed a' = true /\ PairingActor.peer_confirmed a' = true).
Proof.
  destruct a as [st lc pc ps ce fr]. unfold PairingActor.confirmation_transition. cbn.
  intros H Hm. destruct ce, lc, pc; cbn in H; injection H as <- _; cbn; naive_solver.
Qed.

Lemma act_ok rt l env P : node_inv rt l -> part_ok rt l P (act to_vec rt l env).
Proof.
  intros Hi. unfold act. destruct (_ <=? _).
  { split_and!; [auto|constructor|]. keep. }
  assert (Ht : node_inv (SecureRuntime.take_actions rt).1 l) by keep.
  assert (Hk : trusts rt key -> trusts (SecureRuntime.take_actions rt).1 key) by done.
  assert (Hc : (SecureRuntime.take_actions rt).2.1.1 = true -> cx).
  { cbn. intros H. bool_hyps. by apply (ni_requested _ _ Hi). }
  destruct (SecureRuntime.take_actions rt) as [rt1 [[confirm cancel] mismatch]].
  cbn [fst snd] in *. clear Hi.
  destruct cancel. { split_and!; [auto|constructor|]. keep. }
  destruct mismatch.
  { destruct (SecureRuntime.record_mismatch _ _ _ _) as [rt2 r] eqn:Em.
    pose proof (record_mismatch_same _ _ _ _ _ Em) as Hs.
    destruct r; (split_and!; [|constructor|keep]);
      intros; eapply same_trust_trusts; eauto. }
  destruct confirm; [|split_and!; [auto|constructor|done]].
  specialize (Hc eq_refl).
  destruct (PairingActor.local_confirm (lo_actor l)) as [a m] eqn:El.
  assert (Hn : node_inv rt1 (with_actor l a)).
  { unfold PairingActor.local_confirm, PairingActor.confirm_local_basis in El.
    destruct Ht. apply confirmation_mutual in El as (Hl & Hp & Hm).
    - constructor; cbn; auto. rewrite Hp. auto.
    - cbn. intros H. destruct (ni_mutual0 H). done. }
  set (rt2 := SecureRuntime.set_pairing_state rt1 _).
  assert (Hs : same_trust rt1 rt2) by done.
  assert (Hn2 : node_inv rt2 (with_actor l a)) by keep.
  assert (Ht2 : node_inv rt2 l) by keep.
  assert (Hk2 : trusts rt key -> trusts rt2 key) by (intros; eapply same_trust_trusts; eauto).
  destruct (pt_send_pair_confirm (value m)); [|by split_and!].
  destruct (random_nonzero_u64 _) as [q|]; [|by split_and!].
  destruct (pair_confirm_frame q _) as [f|] eqn:Ef; [|by split_and!].
  assert (Hf : sent_ok rt2 f).
  { unfold pair_confirm_frame in Ef. destruct (q =? 0); [done|]. injection Ef as <-.
    split; [done|]. by intros [?|?]. }
  destruct (send_next _ f _) as [out [l'|e]] eqn:En;
    (split_and!; [done|by eapply send_next_out|]); [|done].
  apply send_next_locals in En as (_ & Ha & Hcm). by eapply node_inv_locals.
Qed.

Lemma receive_ok initiator rt l received env (P : Prop) :
  node_inv rt l ->
  (forall f, received = Ok (Some f) ->
     (message_type (header f) = ControlType_as_u16 Ct_PairConfirm -> cy) /\
     (message_type (header f) = ControlType_as_u16 Ct_Ping \/
      message_type (header f) = ControlType_as_u16 Ct_Pong -> P)) ->
  part_ok rt l P (receive initiator rt l received env).
Proof.
  intros Hi Hr. unfold receive. destruct received as [[f|]|e]; [|by split_and!..].
  destruct (Hr f eq_refl) as (Hpc & Hpp). clear Hr.
  destruct (accept_sequence _ f) as [tr [[]|e]]; [|by split_and!].
  cbn [lo_actor lo_committed lo_send_sequence lo_receive_sequence lo_commit_ping_request].
  set (l1 := mkLocals _ _ _ _ _).
  assert (Hn1 : node_inv rt l1) by (by eapply node_inv_locals, Hi).
  destruct (authorize_dispatch f _); [|by split_and!].
  destruct (ControlType_try_from _) as [t|] eqn:Et; [|by split_and!].
  apply ControlType_as_try_from in Et.
  destruct t; try by split_and!.
  - destruct (lo_committed l && negb initiator) eqn:Ec; [|by split_and!]. bool_hyps.
    assert (Ha : agreed rt) by (by apply (ni_committed _ _ Hi)).
    destruct (send_next _ _ _) as [out [l'|e]] eqn:En; split_and!; try done; eauto.
    all: eapply send_next_out; [exact En|]; split; [by intros [=]|done].
  - destruct (lo_committed l && initiator) eqn:Ec; [|by split_and!]. bool_hyps.
    destruct (negb _); [by split_and!|]. split_and!; try done; [|eauto].
    by apply (ni_committed _ _ Hi).
  - destruct (validate_pair_confirm f); [|by split_and!].
    destruct (PairingActor.peer_confirm (lo_actor l)) as [a m] eqn:El.
    split_and!; [done|constructor|]. apply (node_inv_same rt); [done|].
    unfold PairingActor.peer_confirm in El. destruct Hi.
    apply confirmation_mutual in El as (Hl & Hp & Hm).
    + constructor; cbn; auto. rewrite Hl. auto.
    + cbn. intros H. destruct (ni_mutual0 H). done.
Qed.

Lemma commit_ok initiator rt l env P :
  node_inv rt l -> part_ok rt l P (commit sha256 to_vec initiator key rt l env).
Proof.
  intros Hi. unfold commit. destruct (bool_decide _ && _) eqn:Eg; [|by split_and!]. bool_hyps.
  unfold PairingActor.begin_trust_commit.
  destruct (ni_mutual _ _ Hi ltac:(done)) as (Hl & Hp).
  pose proof (ni_local _ _ Hi Hl) as Hx. pose proof (ni_peer _ _ Hi Hp) as Hy.
  rewrite (bool_decide_true (PairingActor.state _ = _)) by done. cbn [andb].
  destruct (PairingActor.commit_intent_emitted (lo_actor l)) eqn:Ece; cbn.
  { split_and!; [done|done|]. apply (node_inv_same rt); [done|]. by eapply node_inv_locals, Hi. }
  set (rt1 := SecureRuntime.set_pairing_state rt _).
  assert (Hi1 : node_inv rt1 l) by keep.
  destruct (SecureRuntime.commit_peer _ _ _ _ _ _) as [rt2 r] eqn:Ec.
  destruct (commit_peer_trust _ _ _ _ _ _ Ec (ni_unique _ _ Hi1)) as (Hin & Hu & Hr).
  destruct r as [[]|e].
  2:{ destruct Hr as (Hr & Ht). split_and!; [auto|done|].
      destruct Hi1. constructor; cbn; rewrite ?Hin; auto.
      intros Hc. destruct (ni_committed0 Hc) as (? & ?). split; [|done]. by apply Ht. }
  assert (Ha : agreed (SecureRuntime.set_pairing_state rt2 Ps_Paired)) by done.
  assert (Hg : forall l', PairingActor.local_confirmed (lo_actor l') = true ->
             PairingActor.peer_confirmed (lo_actor l') = true ->
             node_inv (SecureRuntime.set_pairing_state rt2 Ps_Paired) l').
  { intros l' ? ?. destruct Hi1. constructor; cbn; rewrite ?Hin; auto. }
  unfold PairingActor.persist_result. cbn. rewrite bool_decide_true by done. cbn.
  destruct initiator; [|by split_and!; [done..|apply Hg]].
  destruct (random_nonzero_u64 _) as [q|]; [|by split_and!; [done..|apply Hg]].
  destruct (send_next _ _ _) as [out [l'|e]] eqn:En;
    (split_and!; [done|eapply send_next_out; [exact En|]; split; [by intros [=]|done]|]).
  - apply send_next_locals in En as (_ & Hact & _). apply Hg; cbn; by rewrite Hact.
  - by apply Hg.
Qed.

End Node.

(** ** The two sides together *)

Context (remote : Side -> list byte) (rt0 : Side -> SecureRuntime.t).

Definition conf (s : t) (x : Side) : Prop := confirmed s x = true.
Definition was (x : Side) : Prop :=
  SecureRuntime.peer_is_committed (rt0 x) (remote x) = true.
Definition rt_of (s : t) (x : Side) : SecureRuntime.t := nd_runtime (node s x).

Record side_inv (s : t) (x : Side) : Prop := {
  si_node : node_inv (remote x) (conf s x) (conf s (other x)) (was x)
              (rt_of s x) (nd_locals (node s x));
  si_sent : Forall (sent_ok (remote x) (conf s x) (conf s (other x)) (rt_of s x)) (outbox s x);
  si_auth : nd_phase (node s x) = Ph_Authenticated ->
    agreed (remote x) (conf s x) (conf s (other x)) (rt_of s x) /\
    trusts (rt_of s (other x)) (remote (other x));
}.
Definition sys_inv (s : t) : Prop := forall x, side_inv s x.

Lemma other_other x : other (other x) = x.
Proof. by destruct x. Qed.

Lemma node_inv_mono key (cx cy cx' cy' w : Prop) rt l :
  (cx -> cx') -> (cy -> cy') -> node_inv key cx cy w rt l -> node_inv key cx' cy' w rt l.
Proof.
  intros Hx Hy []. constructor; auto.
  - intros H. destruct (ni_committed0 H) as (? & ? & ?). split_and!; auto.
  - intros H. destruct (ni_trusted0 H) as [?|(? & ?)]; auto.
Qed.

Lemma agreed_mono key (cx cy cx' cy' : Prop) rt rt' :
  (cx -> cx') -> (cy -> cy') -> (trusts rt key -> trusts rt' key) ->
  agreed key cx cy rt -> agreed key cx' cy' rt'.
Proof. unfold agreed. intuition. Qed.

Lemma sent_ok_mono key (cx cy cx' cy' : Prop) rt rt' fs :
  (cx -> cx') -> (cy -> cy') -> (trusts rt key -> trusts rt' key) ->
  Forall (sent_ok key cx cy rt) fs -> Forall (sent_ok key cx' cy' rt') fs.
Proof.
  intros Hx Hy Ht Hf. eapply Forall_impl; [exact Hf|]. intros f [H1 H2]. split; [auto|].
  intros H. eapply agreed_mono; [..|by apply H2]; auto.
Qed.

(** A part of a round that keeps its promises keeps the invariant. *)
Lemma pairing_finish_inv s x next env lost did :
  sys_inv s -> next <> Ph_Authenticated ->
  part_ok (remote x) (conf s x) (conf s (other x)) (was x) (rt_of s x) (nd_locals (node s x))
    (trusts (rt_of s (other x)) (remote (other x))) did ->
  sys_inv (finish s x next env lost did).
Proof.
  intros Hs Hnext Hp. destruct did as [[rt out] flow]. destruct Hp as (Ht & Ho & Hf).
  destruct (Hs x) as [Hn Hsent _]. unfold finish.
  set (n := match flow with Fl_Next _ => _ | _ => _ end).
  set (out' := if _ && _ then _ else _).
  assert (Ho' : Forall (sent_ok (remote x) (conf s x) (conf s (other x)) rt) out')
    by (unfold out'; by destruct (_ && _)).
  assert (Hrt : same_trust rt (nd_runtime n)) by (unfold n; by destruct flow).
  assert (Hk : trusts rt (remote x) -> trusts (nd_runtime n) (remote x))
    by (intros; by eapply same_trust_trusts).
  clearbody out'. intros y. destruct (decide (y = x)) as [->|Hy].
  - constructor; unfold rt_of, conf; cbn; rewrite !upd_eq.
    + eapply node_inv_same; [exact Hrt|]. unfold n. destruct flow; cbn; tauto.
    + apply Forall_app. split.
      * eapply sent_ok_mono; [..|exact Hsent]; auto.
      * eapply sent_ok_mono; [..|exact Ho']; auto.
    + rewrite upd_ne by apply other_ne. unfold n. destruct flow; cbn; [by intros ->|done|].
      intros _. tauto.
  - assert (y = other x) as -> by (destruct x, y; done).
    destruct (Hs (other x)) as [Hn2 Hsent2 Hauth].
    constructor; unfold rt_of, conf; cbn; rewrite !upd_ne by done; [done..|].
    rewrite !other_other, upd_eq in *. intros Ha. destruct (Hauth Ha) as (? & ?).
    split; [done|]. by apply Hk, Ht.
Qed.

(** So does an action of a user. *)
Lemma user_inv s x action confirms :
  sys_inv s ->
  (forall rt, (action rt).1 = rt \/
     SecureRuntime.peers (action rt).1 = SecureRuntime.peers rt /\
     SecureRuntime.peers_dir (action rt).1 = SecureRuntime.peers_dir rt /\
     (in_confirm_requested (SecureRuntime.inner (action rt).1) = true ->
      in_confirm_requested (SecureRuntime.inner rt) = true \/
      (action rt).2 = Pa_Accepted /\ confirms = true)) ->
  sys_inv (user s x action confirms).
Proof.
  intros Hs Ha. unfold user. specialize (Ha (rt_of s x)). unfold rt_of in Ha.
  destruct (action (nd_runtime (node s x))) as [rt answer] eqn:Eact. cbn [fst snd] in Ha.
  set (c := match answer with Pa_Accepted => _ | _ => _ end).
  assert (Hc : forall y, confirmed s y = true -> c y = true).
  { intros y Hy. unfold c. destruct answer, confirms; try done. unfold upd. by case_bool_decide. }
  assert (Hi : node_inv (remote x) (c x = true) (c (other x) = true) (was x)
                 rt (nd_locals (node s x))).
  { destruct (Hs x) as [Hn _ _].
    apply (node_inv_mono _ _ _ (c x = true) (c (other x) = true)) in Hn; [|apply Hc..].
    destruct Ha as [->|(Hp & Hd & Hr)]; [done|]. destruct Hn. constructor; auto.
    - intros H. destruct (Hr H) as [?|(-> & ->)]; [auto|]. unfold c. apply upd_eq.
    - intros H. destruct (ni_committed0 H) as ((? & Hx) & ?). split; [|done]. split.
      + unfold SecureRuntime.peer_is_committed. by rewrite Hp.
      + by rewrite Hd.
    - unfold no_collision. by rewrite Hp.
    - unfold SecureRuntime.peer_is_committed in *. by rewrite Hp. }
  assert (Hk : trusts (rt_of s x) (remote x) -> trusts rt (remote x)).
  { unfold rt_of. destruct Ha as [->|(Hp & Hd & _)]; [done|]. unfold trusts.
    unfold SecureRuntime.peer_is_committed. by rewrite Hp, Hd. }
  clearbody c. intros y. destruct (decide (y = x)) as [->|Hy].
  - destruct (Hs x) as [_ Hsent Hauth].
    constructor; unfold rt_of, conf; cbn; rewrite !upd_eq; [done| |].
    + eapply sent_ok_mono; [..|exact Hsent]; [apply Hc..|done].
    + rewrite upd_ne by apply other_ne. cbn. intros H. destruct (Hauth H) as (? & ?).
      split; [|done]. eapply agreed_mono; [..|eassumption]; [apply Hc..|done].
  - assert (y = other x) as -> by (destruct x, y; done).
    destruct (Hs (other x)) as [Hn2 Hsent2 Hauth].
    constructor; unfold rt_of, conf; cbn; rewrite !upd_ne by done.
    + eapply node_inv_mono; [..|exact Hn2]; apply Hc.
    + eapply sent_ok_mono; [..|exact Hsent2]; [apply Hc..|done].
    + rewrite !other_other, upd_eq in *. intros H. destruct (Hauth H) as (? & ?).
      split; [|by apply Hk]. eapply agreed_mono; [..|eassumption]; [apply Hc..|done].
Qed.

Lemma confirm_user rt : let a := SecureRuntime.local_confirm rt in
  a.1 = rt \/
     SecureRuntime.peers a.1 = SecureRuntime.peers rt /\
     SecureRuntime.peers_dir a.1 = SecureRuntime.peers_dir rt /\
     (in_confirm_requested (SecureRuntime.inner a.1) = true ->
      in_confirm_requested (SecureRuntime.inner rt) = true \/
      a.2 = Pa_Accepted /\ true = true).
Proof.
  unfold SecureRuntime.local_confirm. cbn.
  destruct (in_state _); try (by left); destruct (_ || _); [by left|right; auto..|by left|right; auto].
Qed.

Lemma pairing_exec_inv s ev : sys_inv s -> sys_inv (exec sha256 to_vec remote s ev).
Proof.
  intros Hs. destruct ev as [x|x|x|x env lost|x received env lost|x env lost]; cbn.
  - apply user_inv; [done|apply confirm_user].
  - apply user_inv; [done|]. intros rt. unfold SecureRuntime.cancel. repeat case_match; auto.
  - apply user_inv; [done|]. intros rt. unfold SecureRuntime.mismatch. repeat case_match; auto.
  - destruct (nd_phase _); try done. apply pairing_finish_inv; [done..|]. apply act_ok, Hs.
  - destruct (nd_phase (node s x)) eqn:Ep; try done. destruct received as [[[]|e]|].
    + destruct (outbox s (other x)) as [|f rest] eqn:Eo; [done|].
      pose proof (si_sent _ _ (Hs (other x))) as Hsent. rewrite Eo, other_other in Hsent.
      apply Forall_cons in Hsent as ((Hpc & Hpp) & Hrest).
      set (s' := mk _ _ _). assert (Hs' : sys_inv s').
      { intros y. destruct (Hs y) as [H1 H2 H3]. constructor; [done| |done]. cbn.
        destruct (decide (y = other x)) as [->|Hy].
        - rewrite upd_eq. unfold conf. rewrite other_other. done.
        - by rewrite upd_ne. }
      apply pairing_finish_inv; [done..|]. apply receive_ok; [apply Hs'|].
      intros f' [= <-]. split; [done|]. intros H. by apply Hpp.
    + apply pairing_finish_inv; [done..|]. apply receive_ok; [apply Hs|done].
    + apply pairing_finish_inv; [done..|]. apply receive_ok; [apply Hs|done].
  - destruct (nd_phase _); try done. apply pairing_finish_inv; [done..|]. apply commit_ok, Hs.
Qed.

Lemma pairing_run_inv evs : forall s, sys_inv s -> sys_inv (run sha256 to_vec remote s evs).
Proof. induction evs as [|ev evs IH]; intros s Hs; [done|]. by apply IH, pairing_exec_inv. Qed.

(** A runtime that has just shown its SAS. *)
Definition ready (rt : SecureRuntime.t) (key : list byte) : Prop :=
  in_confirm_requested (SecureRuntime.inner rt) = false /\ no_collision rt key.

Lemma pairing_start_inv : (forall x, ready (rt0 x) (remote x)) -> sys_inv (start rt0).
Proof.
  intros Hr x. destruct (Hr x) as (Hq & Hn).
  constructor; [|constructor|done]. constructor; cbn; try done.
  - unfold rt_of. cbn. by rewrite Hq.
  - by left.
Qed.

(** C2: Agreement of pairing.  In every interleaving of the two session threads and the
    two users, and whatever reads, writes, disks, clocks and random sources do: a side
    enters the authenticated session only when both users have confirmed the SAS and
    both sides hold the other's key in memory and in a valid file on disk; and a key that
    was not trusted before the session is trusted only after both users confirmed. *)
Theorem pairing_agreement evs x :
  (forall y, ready (rt0 y) (remote y)) ->
  let s := run sha256 to_vec remote (start rt0) evs in
  (nd_phase (node s x) = Ph_Authenticated ->
     forall y, confirmed s y = true /\ trusts (nd_runtime (node s y)) (remote y)) /\
  (SecureRuntime.peer_is_committed (nd_runtime (node s x)) (remote x) = true ->
     SecureRuntime.peer_is_committed (rt0 x) (remote x) = true \/
     forall y, confirmed s y = true).
Proof.
  intros Hr s. assert (Hs : sys_inv s) by by apply pairing_run_inv, pairing_start_inv. clearbody s.
  destruct (Hs x) as [Hn _ Ha]. split.
  - intros H. destruct (Ha H) as ((? & ? & ?) & ?). intros y.
    assert (y = x \/ y = other x) as [->| ->] by (destruct x, y; auto); done.
  - intros H. destruct (ni_trusted _ _ _ _ _ _ Hn H) as [?|(? & ?)]; [by left|].
    right. intros y. assert (y = x \/ y = other x) as [->| ->] by (destruct x, y; auto); done.
Qed.

End Agreement.
End PairingAgreement.
