(* ===== verification/PairingLive.v ===== *)
(** * Pairing completes

    When both users confirm, none cancels or reports a mismatch, nothing fails and the
    rounds of the two session threads do not overlap, both sides reach the authenticated
    session after four periods in each of which each side runs at least one round, in
    any order ([pairing_completes]).  The assumption on overlap is needed: when the
    initiator runs between the first and the second part of one round of the responder,
    its PING is read before the responder has committed, is discarded, and both sides
    wait for the other until the deadline ([early_ping_lost]).

    The proof follows the two threads by eight booleans: per side, whether the user
    confirmed ([q]), whether the own confirmation was sent ([l]), whether the other's was
    received ([p]) and whether the side is authenticated ([a]). *)

From Stdlib Require Import ZArith Lia.
From stdpp Require Import base tactics list gmap strings.
From S2P Require Import Prelude Types Pbmux Reassembly Pairing Text Storage Records Runtime.
From S2P Require Import PairingLoop.

Import PairingSystem.

#[local] Arguments random_nonzero_u64 : simpl never.
#[local] Arguments checked_add64 : simpl never.
#[local] Arguments SecureRuntime.commit_peer : simpl never.

Module PairingLive.

(** The actor after the given confirmations. *)
Definition actor_of (l p c : bool) : PairingActor.t :=
  PairingActor.mk
    (if c then Ps_Paired else if l && p then Ps_MutualConfirmed
     else if l then Ps_LocalConfirmed else if p then Ps_PeerConfirmed else Ps_SasPending)
    l p l c true.

(** The PAIR_CONFIRM frame with a legal request identifier. *)
Definition confirm_frame (id seq : Z) : Frame :=
  control_frame Ct_PairConfirm id seq.

Lemma pair_confirm_ok id seq : id <> 0 -> pair_confirm_frame id seq = Ok (confirm_frame id seq).
Proof. intros H. unfold pair_confirm_frame. by rewrite (proj2 (Z.eqb_neq _ _) H). Qed.

Section Good.
Context (sha256 : list byte -> list byte) (to_vec : Value -> list byte).
Context (remote : Side -> list byte) (rt0 : Side -> SecureRuntime.t).

(** Surroundings in which nothing fails: time is left, the random source gives a
    request identifier, sending works and the peer can be stored. *)
Record good (x : Side) (env : Answers) : Prop := {
  gd_time : an_elapsed env < PAIRING_TIMEOUT_MS;
  gd_random : exists id, random_nonzero_u64 (an_draws env) = Ok id;
  gd_send : an_send env = Ok tt;
  gd_store : (SecureRuntime.commit_peer sha256 to_vec (rt0 x) (remote x) (an_clock env)
                (an_store env)).2 = Ok tt;
}.

Lemma drawn_nonzero draws id : random_nonzero_u64 draws = Ok id -> id <> 0.
Proof.
  unfold random_nonzero_u64. cbn. intros H. repeat case_match; simplify_eq; by bool_hyps.
Qed.

(** What the proof needs to know of a runtime during the session. *)
Record rt_is (x : Side) (q l c : bool) (rt : SecureRuntime.t) : Prop := {
  ri_cancel : in_cancel_requested (SecureRuntime.inner rt) = false;
  ri_mismatch : in_mismatch_requested (SecureRuntime.inner rt) = false;
  ri_requested : in_confirm_requested (SecureRuntime.inner rt) = q;
  ri_dispatched : in_confirm_dispatched (SecureRuntime.inner rt) = l;
  ri_role : SecureRuntime.role rt = SecureRuntime.role (rt0 x);
  ri_dir : c = false -> SecureRuntime.peers_dir rt = SecureRuntime.peers_dir (rt0 x);
}.

Lemma rt_is_state x q l c rt s :
  rt_is x q l c rt -> rt_is x q l c (SecureRuntime.set_pairing_state rt s).
Proof. intros []. by constructor. Qed.

Lemma act_good x q l p ss tr ping rt env id :
  good x env -> rt_is x q l (l && p) rt -> random_nonzero_u64 (an_draws env) = Ok id ->
  0 <= ss < 8 -> (l = true -> q = true) ->
  exists rt',
    act to_vec rt (mkLocals (actor_of l p (l && p)) ss tr (l && p) ping) env =
      (rt', if q && negb l then [confirm_frame id ss] else [],
       Fl_Next (mkLocals (actor_of q p (l && p)) (if q && negb l then ss + 1 else ss) tr
                  (l && p) ping)) /\
    rt_is x q q (l && p) rt'.
Proof.
  intros Hg Hrt Hid Hss Hlq. pose proof (drawn_nonzero _ _ Hid) as Hnz.
  destruct Hg as [Ht _ Hs _]. destruct Hrt as [Hc Hm Hq Hd Hr Hp].
  unfold act. rewrite (proj2 (Z.leb_gt _ _)) by done. unfold SecureRuntime.take_actions.
  rewrite Hc, Hm, Hq, Hd. destruct q, l; try (by specialize (Hlq eq_refl)); cbn -[actor_of].
  - eexists. split; [done|]. constructor; cbn; rewrite ?Hd; done.
  - rewrite Hid, (pair_confirm_ok _ _ Hnz).
    unfold send_next, checked_add64. cbn.
    rewrite (proj2 (Z.leb_le _ _)), Hs by (unfold U64_MAX; lia).
    destruct p; eexists; (split; [reflexivity|]); constructor; cbn; rewrite ?Hd; done.
  - eexists. split; [done|]. constructor; cbn; rewrite ?Hd; done.
Qed.

Lemma commit_good x q l p c ss tr ping rt env id :
  good x env -> rt_is x q l c rt -> random_nonzero_u64 (an_draws env) = Ok id ->
  0 <= ss < 8 -> (c = true -> l && p = true) ->
  let fresh := l && p && negb c in
  exists rt',
    commit sha256 to_vec (is_initiator x) (remote x) rt
      (mkLocals (actor_of l p c) ss tr c ping) env =
      (rt', if fresh && is_initiator x then [control_frame Ct_Ping id ss] else [],
       Fl_Next (mkLocals (actor_of l p (l && p)) (if fresh && is_initiator x then ss + 1 else ss)
                  tr (l && p) (if fresh && is_initiator x then Some id else ping))) /\
    rt_is x q l (l && p) rt'.
Proof.
  intros Hg Hrt Hid Hss Hc fresh. unfold commit.
  destruct c.
  { pose proof (Hc eq_refl) as E. bool_hyps. subst l p. by eexists. }
  destruct (l && p) eqn:Elp.
  2:{ unfold fresh. cbn. eexists. split; [|exact Hrt].
      unfold actor_of. rewrite Elp. by destruct l, p. }
  bool_hyps. subst l p. cbn -[SecureRuntime.set_pairing_state].
  rewrite (bool_decide_true (Ps_MutualConfirmed = _)) by done.
  cbn -[SecureRuntime.set_pairing_state].
  set (rt1 := SecureRuntime.set_pairing_state rt Ps_TrustCommitting).
  assert (Hrt1 : rt_is x q true false rt1) by by apply rt_is_state.
  destruct (SecureRuntime.commit_peer _ _ rt1 _ _ _) as [rt2 r] eqn:Ec.
  assert (r = Ok tt /\ rt_is x q true true rt2) as [-> Hrt2].
  { destruct Hg as [_ _ _ Hst]. destruct Hrt1 as [? ? ? ? Hr Hd]. specialize (Hd eq_refl).
    unfold SecureRuntime.commit_peer in *. rewrite Hr, Hd in Ec.
    destruct (wall_clock _); [|done].
    destruct (Storage.commit_peer _ _ _ _ _ _ _) as [[d [u|e]] seen]; [|done].
    injection Ec as <- <-. split; [done|]. by constructor. }
  unfold PairingActor.persist_result. cbn -[SecureRuntime.set_pairing_state].
  rewrite bool_decide_true by done. cbn -[SecureRuntime.set_pairing_state].
  destruct (is_initiator x); cbn -[control_frame SecureRuntime.set_pairing_state].
  - rewrite Hid. unfold send_next, checked_add64. cbn -[control_frame].
    rewrite (proj2 (Z.leb_le _ _)), (gd_send _ _ Hg) by (unfold U64_MAX; lia).
    eexists. split; [reflexivity|]. by apply rt_is_state.
  - eexists. split; [reflexivity|]. by apply rt_is_state.
Qed.

(** ** Receiving one of the three frames of the exchange *)

Lemma accept_next rs f : sequence (header f) = rs -> 0 <= rs < 8 ->
  accept_sequence (SequenceTracker.mk rs) f = (SequenceTracker.mk (rs + 1), Ok tt).
Proof.
  intros <- Hr. unfold accept_sequence, SequenceTracker.accept, checked_add64. cbn.
  rewrite Z.eqb_refl. cbn. by rewrite (proj2 (Z.leb_le _ _)) by (unfold U64_MAX; lia).
Qed.

Lemma validate_confirm id seq : id <> 0 -> validate_pair_confirm (confirm_frame id seq) = Ok tt.
Proof.
  intros H. unfold validate_pair_confirm, confirm_frame, control_frame.
  cbn [header channel message_type flags request_id fragment_index payload_len
       logical_message_len payload is_empty].
  by rewrite (proj2 (Z.eqb_neq _ _) H).
Qed.

Lemma authorize_confirm id seq :
  id <> 0 -> authorize_dispatch (confirm_frame id seq) PairingControlOnly = Ok tt.
Proof. intros H. exact (validate_confirm id seq H). Qed.

Lemma authorize_liveness t id seq : t = Ct_Ping \/ t = Ct_Pong ->
  authorize_dispatch (control_frame t id seq) PairingControlOnly = Ok tt.
Proof. by intros [->| ->]. Qed.

Lemma receive_confirm ini rt l ss rs ping id env : id <> 0 -> 0 <= rs < 8 ->
  exists st, receive ini rt (mkLocals (actor_of l false false) ss (SequenceTracker.mk rs) false ping)
    (Ok (Some (confirm_frame id rs))) env =
  (SecureRuntime.set_pairing_state rt st, [],
   Fl_Next (mkLocals (actor_of l true false) ss (SequenceTracker.mk (rs + 1)) false ping)).
Proof.
  intros Hid Hr. unfold receive. cbn [lo_receive_sequence].
  rewrite (accept_next rs), authorize_confirm, validate_confirm by done.
  destruct l; by eexists.
Qed.

Lemma receive_ping rt l p ss rs ping id env : an_send env = Ok tt -> 0 <= rs < 8 -> 0 <= ss < 8 ->
  receive false rt (mkLocals (actor_of l p true) ss (SequenceTracker.mk rs) true ping)
    (Ok (Some (control_frame Ct_Ping id rs))) env =
  (rt, [control_frame Ct_Pong id ss], Fl_Authenticated (ss + 1) (SequenceTracker.mk (rs + 1))).
Proof.
  intros Hs Hr Hss. unfold receive. cbn [lo_receive_sequence].
  rewrite (accept_next rs), authorize_liveness by auto. cbn. unfold send_next, checked_add64. cbn.
  by rewrite (proj2 (Z.leb_le _ _)), Hs by (unfold U64_MAX; lia).
Qed.

Lemma receive_pong rt l p ss rs id env : 0 <= rs < 8 ->
  receive true rt (mkLocals (actor_of l p true) ss (SequenceTracker.mk rs) true (Some id))
    (Ok (Some (control_frame Ct_Pong id rs))) env =
  (rt, [], Fl_Authenticated ss (SequenceTracker.mk (rs + 1))).
Proof.
  intros Hr. unfold receive. cbn [lo_receive_sequence].
  rewrite (accept_next rs), authorize_liveness by auto. cbn. by rewrite bool_decide_true.
Qed.

(** ** Rounds that do not overlap *)

Inductive Move : Type :=
| Mv_Confirm (x : Side)
| Mv_Cancel (x : Side)
| Mv_Mismatch (x : Side)
| Mv_Round (x : Side) (env1 env2 env3 : Answers).

(** A frame is there exactly when the other side has sent one. *)
Definition poll (s : t) (x : Side) : option (result unit RuntimeError) :=
  match outbox s (other x) with [] => None | _ => Some (Ok tt) end.

Definition move (s : t) (m : Move) : t :=
  let exec := exec sha256 to_vec remote in
  match m with
  | Mv_Confirm x => exec s (Ev_Confirm x)
  | Mv_Cancel x => exec s (Ev_Cancel x)
  | Mv_Mismatch x => exec s (Ev_Mismatch x)
  | Mv_Round x env1 env2 env3 =>
      let s := exec s (Ev_Act x env1 false) in
      let s := exec s (Ev_Receive x (poll s x) env2 false) in
      exec s (Ev_Commit x env3 false)
  end.

Definition moves (s : t) (ms : list Move) : t := fold_left move ms s.

Definition good_move (m : Move) : Prop :=
  match m with
  | Mv_Round x env1 env2 env3 => good x env1 /\ good x env2 /\ good x env3
  | _ => True
  end.

(** A user calls the pairing off: a running session accepts the cancellation or the
    report of a mismatch. *)
Definition called_off (s : t) (m : Move) : Prop :=
  let running x := nd_phase (node s x) <> Ph_Authenticated in
  match m with
  | Mv_Cancel x => running x /\ (SecureRuntime.cancel (nd_runtime (node s x))).2 = Pa_Accepted
  | Mv_Mismatch x =>
      running x /\ (SecureRuntime.mismatch (nd_runtime (node s x))).2 = Pa_Accepted
  | _ => False
  end.

Fixpoint undisturbed (s : t) (ms : list Move) : Prop :=
  match ms with
  | [] => True
  | m :: ms => ~ called_off s m /\ undisturbed (move s m) ms
  end.

(** The side whose round a move is. *)
Definition round_of (m : Move) : option Side :=
  match m with Mv_Round x _ _ _ => Some x | _ => None end.

(** Each side runs at least one round. *)
Definition covers (ms : list Move) : Prop := forall x, x ∈ omap round_of ms.

Definition received_of (inbox : list Frame) : result (option Frame) RuntimeError :=
  Ok (head inbox).

(** [s'] is [s] after side [x] changed its node, sent [out] and left [inbox]. *)
Record becomes (s : t) (x : Side) (n : Node) (out inbox : list Frame) (s' : t) : Prop := {
  be_node : node s' x = n;
  be_out : outbox s' x = outbox s x ++ out;
  be_other : node s' (other x) = node s (other x);
  be_inbox : outbox s' (other x) = inbox;
  be_confirmed : confirmed s' = confirmed s;
}.

Lemma becomes_trans s x n1 n2 o1 o2 i1 i2 s1 s2 :
  becomes s x n1 o1 i1 s1 -> becomes s1 x n2 o2 i2 s2 -> becomes s x n2 (o1 ++ o2) i2 s2.
Proof.
  intros [] []. constructor; try congruence. rewrite app_assoc. congruence.
Qed.

Definition after (n : Node) (next : Phase) (rt : SecureRuntime.t) (flow : Flow Locals) : Node :=
  match flow with
  | Fl_Next l => mkNode rt l next
  | Fl_Return r => mkNode (SecureRuntime.end_session rt) (nd_locals n) (Ph_Returned r)
  | Fl_Authenticated _ _ => mkNode rt (nd_locals n) Ph_Authenticated
  end.

Lemma finish_becomes s x next env lost rt out flow :
  an_send env = Ok tt ->
  becomes s x (after (node s x) next rt flow) out (outbox s (other x))
    (finish s x next env lost (rt, out, flow)).
Proof.
  intros Hs. pose proof (other_ne x). unfold finish. rewrite Hs.
  constructor; cbn; rewrite ?upd_eq, ?upd_ne by done; done.
Qed.

Lemma exec_receive_becomes s x env rt out flow :
  an_send env = Ok tt -> nd_phase (node s x) = Ph_Receive ->
  receive (is_initiator x) (nd_runtime (node s x)) (nd_locals (node s x))
    (received_of (outbox s (other x))) env = (rt, out, flow) ->
  becomes s x (after (node s x) Ph_Commit rt flow) out (tail (outbox s (other x)))
    (exec sha256 to_vec remote s (Ev_Receive x (poll s x) env false)).
Proof.
  intros Hs Hp Hr. unfold exec, poll, received_of in *. rewrite Hp.
  destruct (outbox s (other x)) as [|f rest] eqn:Eo; cbn [head tail] in *; rewrite Hr.
  - rewrite <- Eo. by apply finish_becomes.
  - pose proof (other_ne x).
    destruct (finish_becomes (mk (node s) (upd (outbox s) (other x) rest) (confirmed s))
                x Ph_Commit env false rt out flow Hs) as [Hn Ho H1 H2 H3].
    constructor; cbn in *; try done.
    + by rewrite Ho, upd_ne by done.
    + by rewrite H2, upd_eq.
Qed.

(** The three events of a round are the round of the code. *)
Lemma move_round s x env1 env2 env3 rt1 out1 l1 rt out flow :
  nd_phase (node s x) = Ph_Act ->
  an_send env1 = Ok tt -> an_send env2 = Ok tt -> an_send env3 = Ok tt ->
  act to_vec (nd_runtime (node s x)) (nd_locals (node s x)) env1 = (rt1, out1, Fl_Next l1) ->
  then_ (receive (is_initiator x) rt1 l1 (received_of (outbox s (other x))) env2)
    (fun rt l => commit sha256 to_vec (is_initiator x) (remote x) rt l env3) = (rt, out, flow) ->
  exists n, becomes s x n (out1 ++ out) (tail (outbox s (other x)))
              (move s (Mv_Round x env1 env2 env3)) /\
    match flow with
    | Fl_Next l => n = mkNode rt l Ph_Act
    | Fl_Authenticated _ _ => nd_phase n = Ph_Authenticated
    | Fl_Return r => nd_phase n = Ph_Returned r
    end.
Proof.
  intros Hp H1 H2 H3 Ha Hr. unfold move.
  assert (B1 : becomes s x (mkNode rt1 l1 Ph_Receive) out1 (outbox s (other x))
                 (exec sha256 to_vec remote s (Ev_Act x env1 false))).
  { unfold exec. rewrite Hp, Ha. exact (finish_becomes s x _ _ _ rt1 out1 (Fl_Next l1) H1). }
  set (s1 := exec _ _ _ s _) in *. clearbody s1. pose proof B1 as [N1 _ _ I1 _].
  destruct (receive _ _ _ _ _) as [[rt2 out2] flow2] eqn:Er.
  pose proof (exec_receive_becomes s1 x env2 rt2 out2 flow2 H2) as B2.
  rewrite N1, I1 in B2. specialize (B2 eq_refl Er). cbn [nd_locals after] in B2.
  set (s2 := exec _ _ _ s1 _) in *. clearbody s2. pose proof B2 as [N2 _ _ I2 _].
  destruct flow2 as [l2|r2|a2 b2]; cbn in Hr, N2.
  - destruct (commit _ _ _ _ _ _ _) as [[rt3 out3] flow3] eqn:Ec. injection Hr as <- <- <-.
    eexists. split.
    + eapply becomes_trans; [exact B1|]. eapply becomes_trans; [exact B2|].
      unfold exec. rewrite N2. cbn [nd_phase nd_runtime nd_locals]. rewrite Ec, <- I2.
      by apply finish_becomes.
    + by destruct flow3.
  - injection Hr as <- <- <-. eexists. unfold exec. rewrite N2.
    split; [by eapply becomes_trans|done].
  - injection Hr as <- <- <-. eexists. unfold exec. rewrite N2.
    split; [by eapply becomes_trans|done].
Qed.

(** ** The shape of the exchange *)

Record Flags : Type := mkFlags { fl_q : bool; fl_l : bool; fl_p : bool; fl_a : bool }.
Definition Shape : Type := Flags * Flags.
Definition side (sh : Shape) (x : Side) : Flags :=
  match x with Initiator => sh.1 | Responder => sh.2 end.
Definition set_side (sh : Shape) (x : Side) (f : Flags) : Shape :=
  match x with Initiator => (f, sh.2) | Responder => (sh.1, f) end.

Definition fl_c (f : Flags) : bool := fl_l f && fl_p f.

(** The last message a side sends: the PING of a committed initiator, the PONG of an
    authenticated responder. *)
Definition last_sent (x : Side) (f : Flags) : bool :=
  match x with Initiator => fl_c f | Responder => fl_a f end.
Definition last_type (x : Side) : ControlType :=
  match x with Initiator => Ct_Ping | Responder => Ct_Pong end.

(** Which flag combinations occur. *)
Definition flags_ok (x : Side) (f g : Flags) : bool :=
  implb (fl_l f) (fl_q f) && implb (fl_p f) (fl_l g) &&
  implb (fl_a f) (fl_c f && last_sent (other x) g).
Definition shape_ok (sh : Shape) : bool :=
  flags_ok Initiator sh.1 sh.2 && flags_ok Responder sh.2 sh.1.

(** One round of side [x]. *)
Definition shape_round (sh : Shape) (x : Side) : Shape :=
  let f := side sh x in
  let g := side sh (other x) in
  if fl_a f then sh
  else
    set_side sh x
      (if fl_l g && negb (fl_p f) then mkFlags (fl_q f) (fl_q f) true false
       else if last_sent (other x) g then mkFlags (fl_q f) (fl_q f) (fl_p f) true
       else mkFlags (fl_q f) (fl_q f) (fl_p f) false).

Lemma shape_round_ok sh x : shape_ok sh = true -> shape_ok (shape_round sh x) = true.
Proof. destruct sh as [[[] [] [] []] [[] [] [] []]], x; done. Qed.

Definition shape_rounds (sh : Shape) (xs : list Side) : Shape := fold_left shape_round xs sh.

(** [g] has come at least as far as [f]. *)
Definition flags_le (f g : Flags) : bool :=
  implb (fl_q f) (fl_q g) && implb (fl_l f) (fl_l g) && implb (fl_p f) (fl_p g)
  && implb (fl_a f) (fl_a g).
Definition shape_le (s1 s2 : Shape) : bool := flags_le s1.1 s2.1 && flags_le s1.2 s2.2.

Definition all_flags : list Flags :=
  q ← [false; true]; l ← [false; true]; p ← [false; true]; a ← [false; true];
  [mkFlags q l p a].
Definition all_shapes : list Shape := f ← all_flags; g ← all_flags; [(f, g)].

Lemma all_shapes_in sh : In sh all_shapes.
Proof.
  assert (Hf : forall f, f ∈ all_flags) by (intros [[] [] [] []]; vm_compute; set_solver).
  destruct sh as [f g]. apply list_elem_of_In. unfold all_shapes.
  apply list_elem_of_bind. exists f. split; [|apply Hf].
  apply list_elem_of_bind. exists g. split; [by left|apply Hf].
Qed.

(** What a check of all shapes shows of each. *)
Lemma forall_shapes (P : Shape -> bool) : forallb P all_shapes = true -> forall sh, P sh = true.
Proof. intros H sh. rewrite forallb_forall in H. apply H, all_shapes_in. Qed.

Lemma shape_le_refl sh : shape_le sh sh = true.
Proof. revert sh. apply forall_shapes. by vm_compute. Qed.

Lemma shape_le_trans s1 s2 s3 :
  shape_le s1 s2 = true -> shape_le s2 s3 = true -> shape_le s1 s3 = true.
Proof.
  unfold shape_le, flags_le. intros H1 H2. rewrite !andb_true_iff, !implb_true_iff in *. tauto.
Qed.

(** A round takes no step back, and a side that is further stays further. *)
Lemma shape_round_le sh x : shape_ok sh = true -> shape_le sh (shape_round sh x) = true.
Proof.
  apply implb_true_iff. revert sh. apply (forall_shapes (fun sh => implb (shape_ok sh) _)).
  destruct x; by vm_compute.
Qed.

Lemma shape_round_mono s1 s2 x : shape_ok s1 = true -> shape_ok s2 = true ->
  shape_le s1 s2 = true -> shape_le (shape_round s1 x) (shape_round s2 x) = true.
Proof.
  intros H1 H2 H.
  assert (E : forallb (fun s1 => forallb (fun s2 =>
    implb (shape_ok s1 && shape_ok s2 && shape_le s1 s2)
      (shape_le (shape_round s1 x) (shape_round s2 x))) all_shapes) all_shapes = true)
    by (destruct x; by vm_compute).
  pose proof (forall_shapes _ (forall_shapes _ E s1) s2) as Hs. cbn beta in Hs.
  by rewrite H1, H2, H in Hs.
Qed.

Lemma shape_rounds_ok xs : forall sh, shape_ok sh = true -> shape_ok (shape_rounds sh xs) = true.
Proof. induction xs as [|x xs IH]; intros sh H; [done|]. by apply IH, shape_round_ok. Qed.

Lemma shape_rounds_mono xs ys : sublist xs ys -> forall s1 s2,
  shape_ok s1 = true -> shape_ok s2 = true -> shape_le s1 s2 = true ->
  shape_le (shape_rounds s1 xs) (shape_rounds s2 ys) = true.
Proof.
  induction 1 as [|x xs ys _ IH|x xs ys _ IH]; intros s1 s2 H1 H2 Hle; [done|..]; cbn.
  - by apply IH; [apply shape_round_ok..|apply shape_round_mono].
  - apply IH; [done|by apply shape_round_ok|]. eapply shape_le_trans; [exact Hle|].
    by apply shape_round_le.
Qed.

(** The two orders in which both sides can run a round. *)
Definition orders : list (list Side) := [[Initiator; Responder]; [Responder; Initiator]].

Lemma covers_order xs : (forall x, x ∈ xs) -> exists o, o ∈ orders /\ sublist o xs.
Proof.
  intros H. destruct (list_elem_of_split _ _ (H Initiator)) as (l1 & l2 & ->).
  specialize (H Responder). rewrite elem_of_app, elem_of_cons in H.
  destruct H as [H|[H|H]]; [|done|]; destruct (list_elem_of_split _ _ H) as (l3 & l4 & ->).
  - exists [Responder; Initiator]. split; [set_solver|].
    rewrite <- app_assoc. apply sublist_inserts_l. cbn. constructor.
    apply sublist_inserts_l. constructor. apply sublist_nil_l.
  - exists [Initiator; Responder]. split; [set_solver|]. apply sublist_inserts_l. constructor.
    apply sublist_inserts_l. constructor. apply sublist_nil_l.
Qed.

(** Four rounds of each side, in whatever order, are enough once both users have
    confirmed. *)
Lemma shape_completes sh o1 o2 o3 o4 :
  o1 ∈ orders -> o2 ∈ orders -> o3 ∈ orders -> o4 ∈ orders ->
  shape_ok sh = true -> fl_q sh.1 = true -> fl_q sh.2 = true ->
  forall x, fl_a (side (shape_rounds sh (o1 ++ o2 ++ o3 ++ o4)) x) = true.
Proof.
  intros H1 H2 H3 H4 Hok Hq1 Hq2 x.
  assert (E : forallb (fun sh => implb (shape_ok sh && fl_q sh.1 && fl_q sh.2)
    (fl_a (side (shape_rounds sh (o1 ++ o2 ++ o3 ++ o4)) x))) all_shapes = true).
  { unfold orders in *. set_unfold.
    destruct H1 as [->|[->|[]]], H2 as [->|[->|[]]], H3 as [->|[->|[]]], H4 as [->|[->|[]]],
      x; by vm_compute. }
  pose proof (forall_shapes _ E sh) as Hs. cbn beta in Hs. by rewrite Hok, Hq1, Hq2 in Hs.
Qed.

Definition z (b : bool) : Z := if b then 1 else 0.
Definition when {A} (b : bool) (a : A) : list A := if b then [a] else [].

(** The frames of side [x] that are on the stream. *)
Definition on_stream (x : Side) (f g : Flags) (id last : Z) : list Frame :=
  when (fl_l f && negb (fl_p g)) (confirm_frame id 0)
  ++ when (last_sent x f && negb (fl_a g)) (control_frame (last_type x) last 1).

Definition node_is (x : Side) (f : Flags) (ping : Z) (n : Node) : Prop :=
  if fl_a f then nd_phase n = Ph_Authenticated
  else
    nd_phase n = Ph_Act /\ rt_is x (fl_q f) (fl_l f) (fl_c f) (nd_runtime n) /\
    nd_locals n =
      mkLocals (actor_of (fl_l f) (fl_p f) (fl_c f))
        (z (fl_l f) + z (is_initiator x && fl_c f)) (SequenceTracker.mk (z (fl_p f))) (fl_c f)
        (if is_initiator x && fl_c f then Some ping else None).

Record shaped (sh : Shape) (s : t) : Prop := {
  sp_ok : shape_ok sh = true;
  sp_confirmed : forall x, confirmed s x = fl_q (side sh x);
  sp_frames : exists (id : Side -> Z) ping, (forall x, id x <> 0) /\ forall x,
    node_is x (side sh x) ping (node s x) /\
    outbox s x = on_stream x (side sh x) (side sh (other x)) (id x) ping;
}.

Lemma start_shaped :
  (forall x, rt_is x false false false (rt0 x)) ->
  shaped (mkFlags false false false false, mkFlags false false false false) (start rt0).
Proof.
  intros H. constructor; [done|by intros []|].
  exists (fun _ => 1), 1. split; [done|]. intros []; (split; [|done]); split_and!; try done; apply H.
Qed.

(** A round of an authenticated side changes nothing. *)
Lemma move_authenticated s x env1 env2 env3 :
  nd_phase (node s x) = Ph_Authenticated -> move s (Mv_Round x env1 env2 env3) = s.
Proof. intros H. unfold move, exec. by rewrite !H. Qed.

(** What one round of a running side does to its node and to the stream. *)
Lemma round_node s x f g id ping id1 id3 env1 env2 env3 :
  good x env1 -> good x env2 -> good x env3 ->
  random_nonzero_u64 (an_draws env1) = Ok id1 -> random_nonzero_u64 (an_draws env3) = Ok id3 ->
  flags_ok x f g = true -> flags_ok (other x) g f = true -> fl_a f = false -> id <> 0 ->
  node_is x f ping (node s x) ->
  outbox s (other x) = on_stream (other x) g f id ping ->
  let f' := side (shape_round (set_side (g, g) x f) x) x in
  let ping' := if is_initiator x && negb (fl_c f) then id3 else ping in
  exists n out,
    becomes s x n out (on_stream (other x) g f' id ping') (move s (Mv_Round x env1 env2 env3)) /\
    node_is x f' ping' n /\
    forall id', on_stream x f g id' ping ++ out = on_stream x f' g (if fl_l f then id' else id1) ping'.
Proof.
  intros G1 G2 G3 R1 R3 Hf Hg Ha Hid Hn Ho f' ping'.
  destruct f as [q l p a], g as [gq gl gp ga]. cbn in Ha. subst a.
  unfold node_is in Hn. cbn [fl_a fl_q fl_l fl_p] in Hn. destruct Hn as (Hph & Hrt & Hl).
  unfold fl_c in Hl, Hrt. cbn [fl_l fl_p] in Hl, Hrt.
  assert (Hlq : l = true -> q = true) by (intros ->; by destruct q).
  destruct (act_good x q l p (z l + z (is_initiator x && (l && p))) (SequenceTracker.mk (z p))
    (if is_initiator x && (l && p) then Some ping else None) _ env1 id1 G1 Hrt R1)
    as (rt1 & Ea & Hrt1); [by destruct l, p, x|done|].
  rewrite <- Hl in Ea.
  set (ss := if q && negb l then _ + 1 else _) in Ea.
  assert (Hss : 0 <= ss < 8) by (unfold ss; by destruct q, l, p, x).
  pose proof (fun rt out flow H => move_round s x env1 env2 env3 _ _ _ rt out flow Hph
    (gd_send _ _ G1) (gd_send _ _ G2) (gd_send _ _ G3) Ea H) as Hm. rewrite Ho in Hm.
  destruct (gl && negb p) eqn:EA; [|destruct (last_sent (other x) (mkFlags gq gl gp ga)) eqn:EB].
  - bool_hyps. subst gl p. rewrite andb_false_r in *.
    destruct (receive_confirm (is_initiator x) rt1 q ss 0
      (if is_initiator x && false then Some ping else None) id env2 Hid) as (st & Er); [lia|].
    destruct (commit_good x q q true false ss (SequenceTracker.mk (0 + 1))
      (if is_initiator x && false then Some ping else None)
      (SecureRuntime.set_pairing_state rt1 st) env3 id3 G3) as (rt3 & Ec & Hrt3);
      [by apply rt_is_state|done..|].
    edestruct Hm as (n & B & Hn).
    { unfold received_of, on_stream. cbn [when fl_l fl_p negb andb app head z]. rewrite Er.
      cbn [then_]. rewrite Ec. reflexivity. }
    cbn beta iota in Hn. subst n.
    assert (ga = false) as -> by (by destruct ga, gp, gq, q, l, x).
    eexists _, _. split_and!.
    + destruct B as [B1 B2 B3 B4 B5]. constructor; try done. rewrite B4.
      unfold ping', f'. clear. by destruct x, q, l, gq, gp.
    + clear -Hrt3 Hlq. unfold node_is, f', ping', ss, fl_c.
      destruct x, q, l; try (by specialize (Hlq eq_refl)); done.
    + clear -Hlq Hg. intros id'. unfold f', ping', ss, on_stream, last_sent, fl_c.
      destruct x, q, l, gp, gq; try (by specialize (Hlq eq_refl)); done.
  - assert (q = true /\ l = true /\ p = true) as (-> & -> & ->).
    { clear -Hf Hg EA EB Hlq. by destruct x, q, l, p, gl, gp, gq, ga. }
    assert (Hin : on_stream (other x) (mkFlags gq gl gp ga) (mkFlags true true true false) id ping
                  = [control_frame (last_type (other x)) ping 1]).
    { unfold on_stream. cbn [fl_l fl_p fl_a]. by rewrite EA, EB. }
    rewrite Hin in Hm. destruct x; edestruct Hm as (n & B & Hn).
    1: { unfold received_of in *. cbn [head other is_initiator last_type andb z] in *.
         rewrite receive_pong by lia. reflexivity. }
    2: { unfold received_of in *. cbn [head other is_initiator last_type andb z] in *.
         rewrite receive_ping by (try apply G2; done). reflexivity. }
    all: assert (Hf' : fl_a f' = true)
      by (unfold f', shape_round; cbn [side set_side fst snd other] in EB |- *; cbn [fl_a fl_l fl_p];
          by rewrite EA, EB).
    all: eexists n, _; split_and!; [|unfold node_is; rewrite Hf'; exact Hn|].
    all: try (destruct B as [B1 B2 B3 B4 B5]; constructor; try done; rewrite B4).
    all: subst ss ping' f'; clear -EA EB Hg Hf; destruct gl, gp, gq, ga; done.
  - assert (Hin : on_stream (other x) (mkFlags gq gl gp ga) (mkFlags q l p false) id ping = []).
    { unfold on_stream. cbn [fl_l fl_p fl_a]. by rewrite EA, EB. }
    rewrite Hin in Hm.
    destruct (commit_good x q q p (l && p) ss (SequenceTracker.mk (z p))
      (if is_initiator x && (l && p) then Some ping else None) rt1 env3 id3 G3)
      as (rt3 & Ec & Hrt3); [done..|by destruct l, p, q; auto|].
    edestruct Hm as (n & B & Hn).
    { unfold received_of. cbn [head receive then_]. rewrite Ec. reflexivity. }
    cbn beta iota in Hn. subst n.
    assert (Hf' : f' = mkFlags q q p false).
    { unfold f', shape_round. destruct x; cbn [side set_side fst snd other] in EB |- *;
        cbn [fl_a fl_l fl_p fl_q]; by rewrite EA, EB. }
    eexists _, _. rewrite Hf'. split_and!.
    + destruct B as [B1 B2 B3 B4 B5]. constructor; try done. rewrite B4. cbn [tail].
      unfold on_stream. cbn [fl_l fl_p fl_a]. by rewrite EA, EB.
    + clear -Hrt3 Hlq. subst ping' ss. unfold node_is, fl_c.
      destruct x, q, l, p; try (by specialize (Hlq eq_refl)); done.
    + subst ping' ss. clear -Hlq Hg Hf. intros id'. unfold on_stream, last_sent, fl_c.
      destruct x, q, l, p, gp, gq, gl, ga; try (by specialize (Hlq eq_refl)); done.
Qed.

Lemma round_shaped sh s x env1 env2 env3 :
  shaped sh s -> good_move (Mv_Round x env1 env2 env3) ->
  shaped (shape_round sh x) (move s (Mv_Round x env1 env2 env3)).
Proof.
  intros [Hok Hc (id & ping & Hid & Hs)] (G1 & G2 & G3).
  destruct (fl_a (side sh x)) eqn:Ea.
  { destruct (Hs x) as [Hn _]. unfold node_is in Hn. rewrite Ea in Hn.
    rewrite move_authenticated by done. unfold shape_round. rewrite Ea. constructor; eauto. }
  destruct (gd_random _ _ G1) as (id1 & R1). destruct (gd_random _ _ G3) as (id3 & R3).
  assert (flags_ok x (side sh x) (side sh (other x)) = true /\
          flags_ok (other x) (side sh (other x)) (side sh x) = true) as [Hf Hg].
  { unfold shape_ok in Hok. bool_hyps. by destruct x. }
  destruct (round_node s x (side sh x) (side sh (other x)) (id (other x)) ping id1 id3
    env1 env2 env3 G1 G2 G3 R1 R3 Hf Hg Ea (Hid _)) as (n & out & [B1 B2 B3 B4 B5] & Hn & Hout);
    [apply Hs|rewrite (proj2 (Hs (other x))); by destruct x|].
  set (s' := move _ _) in *. clearbody s'. set (f' := side (shape_round _ x) x) in *.
  set (ping' := if is_initiator x && _ then id3 else ping) in *.
  assert (Hfx : side (shape_round sh x) x = f').
  { unfold f'. by destruct sh, x. }
  assert (Hgx : side (shape_round sh x) (other x) = side sh (other x)).
  { unfold shape_round. rewrite Ea. by destruct sh, x. }
  assert (Hq : fl_q f' = fl_q (side sh x)).
  { rewrite <- Hfx. unfold shape_round. rewrite Ea. destruct sh, x; cbn; by repeat case_match. }
  constructor; [by apply shape_round_ok|..].
  { intros y. rewrite B5. destruct (decide (y = x)) as [->|Hy]; [by rewrite Hc, Hfx|].
    assert (y = other x) as -> by (by destruct x, y). by rewrite Hc, Hgx. }
  exists (upd id x (if fl_l (side sh x) then id x else id1)), ping'. split.
  { intros y. unfold upd. case_bool_decide; [|done]. destruct (fl_l _); [done|].
    by eapply drawn_nonzero. }
  intros y. destruct (decide (y = x)) as [->|Hy].
  - rewrite Hfx, Hgx, B1, upd_eq. split; [done|]. rewrite B2, (proj2 (Hs x)). apply Hout.
  - assert (y = other x) as -> by (by destruct x, y). clear Hy.
    rewrite Hgx, B3, B4, upd_ne by apply other_ne. destruct (Hs (other x)) as [Ho _].
    replace (side (shape_round sh x) (other (other x))) with f' by (by destruct x).
    split; [|done]. clear -Ho. unfold node_is in *. subst ping'. by destruct (fl_a _), x.
Qed.

(** A confirmation of a user is accepted or changes nothing. *)
Lemma local_confirm_rt x q l c rt rt' r :
  rt_is x q l c rt -> SecureRuntime.local_confirm rt = (rt', r) ->
  (r = Pa_Accepted /\ rt_is x true l c rt') \/ (r <> Pa_Accepted /\ rt' = rt).
Proof.
  intros [] El. unfold SecureRuntime.local_confirm in El.
  destruct (in_state _); try (by right; simplify_eq).
  all: destruct (_ || _) eqn:Eo; simplify_eq; [by right|left]; bool_hyps; by split.
Qed.

Lemma confirm_shaped sh s x : shaped sh s ->
  exists sh', shaped sh' (move s (Mv_Confirm x)) /\ shape_le sh sh' = true.
Proof.
  intros [Hok Hc (id & ping & Hid & Hs)]. unfold move, exec, user.
  destruct (SecureRuntime.local_confirm _) as [rt r] eqn:El.
  destruct (side sh x) as [q l p a] eqn:Ef.
  set (q' := match r with Pa_Accepted => true | _ => q end).
  exists (set_side sh x (mkFlags q' l p a)).
  assert (Hx : side (set_side sh x (mkFlags q' l p a)) x = mkFlags q' l p a) by (by destruct x).
  assert (Hy : side (set_side sh x (mkFlags q' l p a)) (other x) = side sh (other x))
    by (by destruct x).
  split.
  2:{ clear -Ef. subst q'. destruct sh as [[] []], x; cbn in *; simplify_eq;
      unfold shape_le, flags_le; cbn; rewrite !implb_same; destruct r; by rewrite ?implb_same, ?implb_true_r. }
  constructor; cbn [node outbox confirmed].
  - unfold q'. clear -Hok Ef. destruct sh as [[] []], x; cbn in *; simplify_eq;
      unfold shape_ok, flags_ok in *; cbn in *; bool_hyps; destruct r; try done;
      (repeat (apply andb_true_iff; split)); try done; by rewrite implb_true_r.
  - intros y. destruct (decide (y = x)) as [->|Hne].
    + rewrite Hx. cbn [fl_q]. unfold q'. destruct r; rewrite ?upd_eq, ?Hc, ?Ef; done.
    + assert (y = other x) as -> by (by destruct x, y). rewrite Hy, <- Hc.
      destruct r; rewrite ?upd_ne by done; done.
  - exists id, ping. split; [done|]. intros y. destruct (decide (y = x)) as [->|Hne].
    + rewrite Hx, Hy, upd_eq. destruct (Hs x) as [Hn Ho]. rewrite Ef in Hn, Ho. split; [|done].
      unfold node_is in *. cbn in *. destruct a; [done|]. destruct Hn as (Hp & Hrt & Hl).
      split_and!; try done. unfold q'.
      destruct (local_confirm_rt _ _ _ _ _ _ _ Hrt El) as [(-> & ?)|(Hr & ->)]; [done|].
      by destruct r.
    + assert (y = other x) as -> by (by destruct x, y). rewrite Hy, upd_ne by done.
      destruct (Hs (other x)) as [Hn Ho]. split; [done|]. rewrite Ho.
      replace (other (other x)) with x by (by destruct x). by rewrite Hx, Ef.
Qed.

(** A cancellation or mismatch that is refused, or comes too late, changes nothing. *)
Lemma refused_shaped sh s x action : shaped sh s ->
  (forall rt, (action rt).2 <> Pa_Accepted -> (action rt).1 = rt) ->
  ~ (nd_phase (node s x) <> Ph_Authenticated /\ (action (nd_runtime (node s x))).2 = Pa_Accepted) ->
  shaped sh (user s x action false).
Proof.
  intros [Hok Hc (id & ping & Hid & Hs)] Ha Hn. unfold user.
  destruct (action _) as [rt r] eqn:Er.
  assert (Hsame : nd_phase (node s x) = Ph_Authenticated \/ rt = nd_runtime (node s x)).
  { specialize (Ha (nd_runtime (node s x))). rewrite Er in Ha. cbn in Ha, Hn.
    destruct (nd_phase (node s x)) eqn:Ep; [..|by left]; right;
      apply Ha; intros ->; by apply Hn. }
  constructor; cbn [node outbox confirmed]; [done|by destruct r|].
  exists id, ping. split; [done|]. intros y. destruct (Hs y) as [Hy Ho]. split; [|done].
  destruct (decide (y = x)) as [->|Hne]; [rewrite upd_eq|by rewrite upd_ne].
  unfold node_is in *. destruct (fl_a _); [done|]. destruct Hy as (Hp & Hy).
  destruct Hsame as [E|E]; [by rewrite E in Hp|]. cbn. by rewrite E.
Qed.

Lemma cancel_refused rt :
  (SecureRuntime.cancel rt).2 <> Pa_Accepted -> (SecureRuntime.cancel rt).1 = rt.
Proof. unfold SecureRuntime.cancel. by repeat case_match. Qed.
Lemma mismatch_refused rt :
  (SecureRuntime.mismatch rt).2 <> Pa_Accepted -> (SecureRuntime.mismatch rt).1 = rt.
Proof. unfold SecureRuntime.mismatch. by repeat case_match. Qed.

(** A move takes the shape at least as far as its round does. *)
Lemma move_shaped sh s m : good_move m -> ~ called_off s m -> shaped sh s ->
  exists sh', shaped sh' (move s m) /\
    shape_le (shape_rounds sh (option_list (round_of m))) sh' = true.
Proof.
  intros Hg Hn Hs. destruct m as [x|x|x|x e1 e2 e3]; cbn [round_of option_list shape_rounds fold_left].
  - by apply confirm_shaped.
  - exists sh. split; [|apply shape_le_refl]. by apply refused_shaped; [|apply cancel_refused|].
  - exists sh. split; [|apply shape_le_refl]. by apply refused_shaped; [|apply mismatch_refused|].
  - exists (shape_round sh x). split; [by apply round_shaped|apply shape_le_refl].
Qed.

Lemma moves_shaped ms : forall sh s, Forall good_move ms -> undisturbed s ms -> shaped sh s ->
  exists sh', shaped sh' (moves s ms) /\ shape_le (shape_rounds sh (omap round_of ms)) sh' = true.
Proof.
  induction ms as [|m ms IH]; intros sh s Hg Hu Hs.
  { exists sh. split; [done|apply shape_le_refl]. }
  apply Forall_cons in Hg as [Hm Hg]. destruct Hu as [Hn Hu].
  destruct (move_shaped sh s m Hm Hn Hs) as (sh1 & Hs1 & Hl1).
  destruct (IH sh1 (move s m) Hg Hu Hs1) as (sh' & Hs' & Hl'). exists sh'. split; [done|].
  eapply shape_le_trans; [|exact Hl'].
  replace (shape_rounds sh (omap round_of (m :: ms)))
    with (shape_rounds (shape_rounds sh (option_list (round_of m))) (omap round_of ms)).
  - apply shape_rounds_mono; [done|apply shape_rounds_ok, Hs|apply Hs1|done].
  - unfold shape_rounds. rewrite <- fold_left_app. cbn. by destruct (round_of m).
Qed.

Lemma undisturbed_app ms1 ms2 : forall s,
  undisturbed s (ms1 ++ ms2) -> undisturbed s ms1 /\ undisturbed (moves s ms1) ms2.
Proof.
  induction ms1 as [|m ms1 IH]; intros s H; [done|]. destruct H as [Hn H].
  destruct (IH _ H). by split.
Qed.

Lemma blocks_orders bs : Forall covers bs ->
  exists os, Forall (.∈ orders) os /\ length os = length bs /\
    sublist (concat os) (omap round_of (concat bs)).
Proof.
  induction 1 as [|b bs Hb _ (os & Ho & Hl & Hs)]; [by exists []|].
  destruct (covers_order _ Hb) as (o & Hin & Hsub). exists (o :: os). split_and!; [by constructor| |].
  - cbn. by rewrite Hl.
  - cbn. rewrite omap_app. by apply sublist_app.
Qed.

(** C12: Pairing completes.  Rounds of the two session threads that do not overlap and
    actions of the users follow each other in any order; no read, write, clock or random
    draw fails, time is left, and a frame can be read as soon as it is sent.  Once both
    users' confirmations were accepted, both sides are in the authenticated session after
    four periods in each of which each side ran at least one round, unless a running
    session accepts a cancellation or the report of a mismatch: no message of the
    exchange is lost, misnumbered or refused, whoever confirms first and however late,
    and whichever further confirmations, refused cancellations and reports intervene. *)
Theorem pairing_completes before (periods : list (list Move)) :
  (forall x, rt_is x false false false (rt0 x)) ->
  Forall good_move (before ++ concat periods) ->
  undisturbed (start rt0) (before ++ concat periods) ->
  (forall x, confirmed (moves (start rt0) before) x = true) ->
  Forall covers periods -> (4 <= length periods)%nat ->
  forall x, nd_phase (node (moves (start rt0) (before ++ concat periods)) x) = Ph_Authenticated.
Proof.
  intros H0 Hg Hu Hc Hp Hl x. apply Forall_app in Hg as [Hb Hm].
  apply undisturbed_app in Hu as [Hub Hum].
  destruct (moves_shaped before _ _ Hb Hub (start_shaped H0)) as (sh & Hs & _).
  unfold moves in *. rewrite fold_left_app. set (s := fold_left move before _) in *. clearbody s.
  destruct (moves_shaped _ sh s Hm Hum Hs) as (sh' & [_ _ (id & ping & _ & Hn)] & Hle).
  destruct (blocks_orders periods Hp) as (os & Ho & Hlen & Hsub).
  destruct os as [|o1 [|o2 [|o3 [|o4 os]]]]; cbn in Hlen; try lia.
  repeat (apply Forall_cons in Ho as [? Ho]).
  assert (Ha : fl_a (side (shape_rounds sh (o1 ++ o2 ++ o3 ++ o4)) x) = true).
  { pose proof (sp_confirmed _ _ Hs) as Hq. apply shape_completes; try done; [apply Hs| |].
    - change (fl_q (side sh Initiator) = true). by rewrite <- Hq.
    - change (fl_q (side sh Responder) = true). by rewrite <- Hq. }
  assert (Hfar : shape_le (shape_rounds sh (o1 ++ o2 ++ o3 ++ o4)) sh' = true).
  { eapply shape_le_trans; [|exact Hle]. apply shape_rounds_mono; [|apply Hs|apply Hs|apply shape_le_refl].
    etransitivity; [|exact Hsub]. cbn. rewrite !(app_assoc _ _ (o4 ++ _)), !app_assoc.
    by apply sublist_inserts_r. }
  destruct (Hn x) as [Hx _]. unfold node_is in Hx.
  replace (fl_a (side sh' x)) with true in Hx; [done|]. symmetry.
  unfold shape_le, flags_le in Hfar. rewrite !andb_true_iff, !implb_true_iff in Hfar.
  destruct x; apply Hfar, Ha.
Qed.

End Good.
End PairingLive.
