(* ===== verification/PairingDemo.v ===== *)
(** * Concrete pairings

    A pairing of two fresh devices, used to instantiate the theorems of [PairingFacts]
    and [PairingLive], and the schedule in which the initiator's PING arrives too
    early. *)

From Stdlib Require Import ZArith Lia.
From stdpp Require Import base tactics list gmap strings.
From S2P Require Import Prelude Types Pbmux Reassembly Pairing Text Storage Records Runtime.
From S2P Require Import PairingLoop PairingFacts PairingLive.

Import PairingSystem.

Module PairingDemo.

Definition sha256 (m : list byte) : list byte := replicate 32 (default Byte.x00 (head m)).
Definition to_vec (v : Value) : list byte := [Byte.x7b].

Definition key (x : Side) : list byte :=
  replicate 32 (match x with Initiator => Byte.x01 | Responder => Byte.x02 end).
(** The key that the handshake gave each side for its peer. *)
Definition remote (x : Side) : list byte := key (other x).

(** A runtime without peers whose session shows the SAS. *)
Definition fresh (x : Side) : SecureRuntime.t :=
  SecureRuntime.mk (match x with Initiator => LinuxInitiator | _ => AndroidResponder end)
    (mkIdentity (key x) (key x)) ∅ ∅ [] (PairingGuard.new 0)
    (mkInner Rt_SasPending (Some [Byte.x30]) true false false false false false 0 true 0).

(** Surroundings in which nothing fails. *)
Definition fine : Answers :=
  mkAnswers 50 (fun _ => Some (to_be 8 5)) (Ok tt) (Some 1000)
    (mkStoreEnv 1000 (ascii_bytes ".tmp-1") calls_ok).

Local Abbreviation run := (PairingSystem.run sha256 to_vec remote).

(** The initiator's user confirms and the responder learns it; then the responder's
    user confirms.  Between the first and the second part of the next round of the
    responder the initiator reads the confirmation, stores the peer and sends PING,
    which the responder reads before it has stored the peer. *)
Definition race : list Event := [
  Ev_Confirm Initiator;
  Ev_Act Initiator fine false; Ev_Receive Initiator None fine false; Ev_Commit Initiator fine false;
  Ev_Act Responder fine false; Ev_Receive Responder (Some (Ok tt)) fine false;
  Ev_Commit Responder fine false;
  Ev_Confirm Responder;
  Ev_Act Responder fine false;
  Ev_Act Initiator fine false; Ev_Receive Initiator (Some (Ok tt)) fine false;
  Ev_Commit Initiator fine false;
  Ev_Receive Responder (Some (Ok tt)) fine false; Ev_Commit Responder fine false].

Definition raced : t := run (start fresh) race.

(** Neither side has anything to send or to read. *)
Definition stuck (s : t) : Prop := forall x,
  outbox s x = [] /\
  match nd_phase (node s x) with
  | Ph_Authenticated => False
  | Ph_Returned _ => True
  | _ => lo_committed (nd_locals (node s x)) = true /\
         in_confirm_dispatched (SecureRuntime.inner (nd_runtime (node s x))) = true
  end.

Lemma raced_stuck : stuck raced.
Proof. intros []; by vm_compute. Qed.


Lemma finish_stuck s x next env lost rt flow :
  stuck s -> (next = Ph_Act \/ next = Ph_Receive \/ next = Ph_Commit) ->
  match flow with
  | Fl_Next l => lo_committed l = true /\
      in_confirm_dispatched (SecureRuntime.inner rt) = true
  | Fl_Return _ => True
  | Fl_Authenticated _ _ => False
  end ->
  stuck (finish s x next env lost (rt, [], flow)).
Proof.
  intros Hs Hn Hf y. unfold finish. cbn [node outbox]. destruct (decide (y = x)) as [->|Hy].
  - rewrite !upd_eq. destruct (Hs x) as [-> _]. split; [by destruct (_ && _)|].
    destruct flow; cbn; [|done|done]. by destruct Hn as [->|[->| ->]].
  - rewrite !upd_ne by done. apply Hs.
Qed.

Lemma user_stuck s x action b : stuck s ->
  (forall rt, in_confirm_dispatched (SecureRuntime.inner (action rt).1) =
              in_confirm_dispatched (SecureRuntime.inner rt)) ->
  stuck (user s x action b).
Proof.
  intros Hs Ha y. unfold user. specialize (Ha (nd_runtime (node s x))).
  destruct (action _) as [rt r]. cbn [node outbox]. split; [apply Hs|].
  destruct (decide (y = x)) as [->|Hy]; [|rewrite upd_ne by done; apply Hs].
  rewrite upd_eq. destruct (Hs x) as [_ H]. cbn in *. by rewrite Ha.
Qed.

(** A session whose confirmation was sent has nothing to say. *)
Lemma act_quiet rt l env :
  lo_committed l = true -> in_confirm_dispatched (SecureRuntime.inner rt) = true ->
  exists rt' flow, act to_vec rt l env = (rt', [], flow) /\
    match flow with
    | Fl_Next l => lo_committed l = true /\ in_confirm_dispatched (SecureRuntime.inner rt') = true
    | Fl_Return _ => True
    | Fl_Authenticated _ _ => False
    end.
Proof.
  intros Hl Hd. unfold act. destruct (_ <=? _); [by eexists _, _|].
  unfold SecureRuntime.take_actions. rewrite Hd, andb_false_r.
  destruct (in_cancel_requested _); [by eexists _, _|].
  destruct (in_mismatch_requested _); [|by eexists _, _].
  destruct (SecureRuntime.record_mismatch _ _ _ _) as [? []]; by eexists _, _.
Qed.

Lemma exec_stuck s ev : stuck s -> stuck (exec sha256 to_vec remote s ev).
Proof.
  intros Hs. destruct ev as [x|x|x|x env lost|x received env lost|x env lost].
  1,2,3: apply user_stuck; [done|]; intros rt;
    unfold SecureRuntime.local_confirm, SecureRuntime.cancel, SecureRuntime.mismatch;
    by repeat case_match.
  all: destruct (Hs x) as [Ho Hx]; unfold exec; destruct (nd_phase (node s x)) eqn:Ep; try done;
    destruct Hx as [Hl Hd].
  - destruct (act_quiet _ _ env Hl Hd) as (rt & flow & -> & Hf). apply finish_stuck; auto.
  - destruct received as [[[]|e]|].
    + by destruct (Hs (other x)) as [-> _].
    + apply finish_stuck; auto.
    + apply finish_stuck; auto.
  - unfold commit. rewrite Hl, andb_false_r. apply finish_stuck; auto.
Qed.

Lemma run_stuck evs : forall s, stuck s -> stuck (run s evs).
Proof. induction evs as [|ev evs IH]; intros s Hs; [done|]. by apply IH, exec_stuck. Qed.

(** C32: A pairing that nothing disturbs can still fail.  There is an interleaving in
    which both users confirm, every read, write and draw succeeds and both sides store
    the peer, but the responder reads the initiator's PING between its own confirmation
    and its commit, where the loop discards it; whatever happens from then on, neither
    side enters the authenticated session, and a round after the deadline reports
    PAIRING_TIMEOUT. *)
Theorem early_ping_lost :
  (forall x, confirmed raced x = true /\
     SecureRuntime.peer_is_committed (nd_runtime (node raced x)) (remote x) = true) /\
  (forall evs x, nd_phase (node (run raced evs) x) <> Ph_Authenticated) /\
  (forall x, let late := mkAnswers PAIRING_TIMEOUT_MS (an_draws fine) (Ok tt) (Some 1000)
                           (an_store fine) in
     nd_phase (node (run raced [Ev_Act x late false]) x) = Ph_Returned (Err Re_PairingTimeout)).
Proof.
  split_and!.
  - intros []; by vm_compute.
  - intros evs x Ha. destruct (run_stuck evs raced raced_stuck x) as [_ H]. by rewrite Ha in H.
  - intros []; by vm_compute.
Qed.

(** ** The theorems on a concrete pairing *)

Definition both_confirm : list PairingLive.Move := [
  PairingLive.Mv_Round Initiator fine fine fine; PairingLive.Mv_Confirm Responder;
  PairingLive.Mv_Round Responder fine fine fine; PairingLive.Mv_Confirm Initiator].

Lemma fine_good x : PairingLive.good sha256 to_vec remote fresh x fine.
Proof. constructor; [done|by exists 5; vm_compute|done|destruct x; by vm_compute]. Qed.

(** Four periods: the initiator first, the responder first, the initiator twice with a
    repeated confirmation in between, and the responder first again, followed by a
    cancellation that comes too late. *)
Definition periods : list (list PairingLive.Move) :=
  let round x := PairingLive.Mv_Round x fine fine fine in
  [[round Initiator; round Responder]; [round Responder; round Initiator];
   [round Initiator; PairingLive.Mv_Confirm Initiator; round Initiator; round Responder];
   [round Responder; round Initiator; PairingLive.Mv_Cancel Responder]].

Lemma pairing_completes_witness :
  nd_phase (node (PairingLive.moves sha256 to_vec remote (start fresh)
                    (both_confirm ++ concat periods)) Responder) = Ph_Authenticated.
Proof.
  apply (PairingLive.pairing_completes sha256 to_vec remote fresh).
  - intros []; by constructor.
  - cbn [both_confirm periods concat app].
    repeat (apply Forall_cons; split;
            [first [exact I | exact (conj (fine_good _) (conj (fine_good _) (fine_good _)))]|]).
    apply Forall_nil_2.
  - cbn [both_confirm periods concat app PairingLive.undisturbed PairingLive.called_off].
    repeat (split; [first [exact (fun H => H) | intros [Hr _]; apply Hr; vm_compute; reflexivity]|]).
    exact I.
  - intros []; by vm_compute.
  - repeat (apply List.Forall_cons; [intros []; apply (bool_decide_unpack _); by vm_compute|]). apply List.Forall_nil.
  - cbn. lia.
Defined.

(** The rounds of an undisturbed pairing as events. *)
Definition paired : list Event := [
  Ev_Confirm Initiator; Ev_Confirm Responder;
  Ev_Act Initiator fine false; Ev_Receive Initiator None fine false; Ev_Commit Initiator fine false;
  Ev_Act Responder fine false; Ev_Receive Responder (Some (Ok tt)) fine false;
  Ev_Commit Responder fine false;
  Ev_Act Initiator fine false; Ev_Receive Initiator (Some (Ok tt)) fine false;
  Ev_Commit Initiator fine false;
  Ev_Act Responder fine false; Ev_Receive Responder (Some (Ok tt)) fine false].

Lemma pairing_agreement_witness :
  nd_phase (node (run (start fresh) paired) Responder) = Ph_Authenticated /\
  forall y, confirmed (run (start fresh) paired) y = true /\
    PairingAgreement.trusts sha256 to_vec (nd_runtime (node (run (start fresh) paired) y)) (remote y).
Proof.
  assert (H : nd_phase (node (run (start fresh) paired) Responder) = Ph_Authenticated)
    by (by vm_compute).
  split; [exact H|].
  apply (PairingAgreement.pairing_agreement sha256 to_vec remote fresh paired Responder).
  - intros []; (split; [reflexivity|]); intros p Hp; destruct (not_elem_of_nil p Hp).
  - exact H.
Defined.

End PairingDemo.
