(* ===== verification/Initiator.v ===== *)
(** * pb-runtime-secure: the initiator's client and session driver

    Models [crates/pb-runtime-secure/src/initiator.rs].  Client threads put requests into
    a bounded queue, the session thread (the driver) takes them out and answers each
    through a one-shot channel.  The state behind the mutexes, the queue and the
    one-shot channels are one record; a method that holds a lock is one step.
    [request_with_id] reads the generation under one lock and enqueues after releasing
    it, so it is two steps ([admit_request] and [enqueue]).

    A one-shot channel is a ticket.  [replies] holds what was sent on it, or that its
    sender was dropped without sending.  Instants are milliseconds. *)

From Stdlib Require Import ZArith Lia.
From stdpp Require Import base tactics list gmap.
From S2P Require Import Prelude Types Control ResourceWire ComputeWire BufferWire.

Definition INITIATOR_QUEUE_CAPACITY : Z := 16.
Definition INITIATOR_REQUEST_TIMEOUT : Z := 35000.

Inductive InitiatorClientError : Type :=
| Ic_NotAuthenticated | Ic_Busy | Ic_InvalidRequest | Ic_SessionLost
| Ic_UnknownAfterDisconnect | Ic_ResponseMismatch | Ic_Timeout.

#[export] Instance InitiatorClientError_eq_dec : EqDecision InitiatorClientError.
Proof. solve_decision. Defined.

Inductive InitiatorRequest : Type :=
| Iq_Command (c : Command.Payload)
| Iq_Resource (r : ResourceRequest)
| Iq_RemoteBuffer (r : RemoteBufferRequest)
| Iq_Compute (r : ComputeRequest).

Inductive InitiatorResponse : Type :=
| Ir_Command (a : Ack.Payload)
| Ir_Resource (r : ResourceResult)
| Ir_RemoteBuffer (r : BufferResult)
| Ir_Compute (r : ComputeResponse).

(** What a client finds on its one-shot channel. *)
Inductive Reply : Type :=
| Rp_Sent (r : result InitiatorResponse InitiatorClientError)
| Rp_Dropped.

Record PendingInitiatorRequest : Type := mkPending {
  pi_generation : Z;
  pi_request_id : option Z;
  pi_request : InitiatorRequest;
  pi_response : nat;
}.

Record InitiatorHeartbeatSnapshot : Type := mkHeartbeatSnapshot {
  hs_payload : Heartbeat.Payload;
  hs_age : Z;
}.

Record InitiatorSessionSnapshot : Type := mkSessionSnapshot {
  is_authenticated : bool;
  is_peer_id : option (list byte);
  is_generation : Z;
  is_liveness_age : option Z;
  is_heartbeat : option InitiatorHeartbeatSnapshot;
}.

Module Initiator.

(** [InitiatorShared], the queue and the driver's own generation. *)
Record t : Type := mk {
  authenticated : bool;
  peer_id : option (list byte);
  generation : Z;
  last_liveness : option Z;
  last_heartbeat : option (Heartbeat.Payload * Z);
  driver_closed : bool;
  cancel : bool;
  queue : list PendingInitiatorRequest;
  driver_generation : option Z;
  issued : nat;
  replies : gmap nat Reply;
}.

(** [initiator_session_channel] *)
Definition channel : t := mk false None 0 None None false false [] None 0 ∅.

Definition with_queue (s : t) (q : list PendingInitiatorRequest) : t :=
  mk (authenticated s) (peer_id s) (generation s) (last_liveness s) (last_heartbeat s)
    (driver_closed s) (cancel s) q (driver_generation s) (issued s) (replies s).

(** [response.send(..)], or dropping the sender: nobody sends twice. *)
Definition reply (s : t) (ticket : nat) (r : Reply) : t :=
  mk (authenticated s) (peer_id s) (generation s) (last_liveness s) (last_heartbeat s)
    (driver_closed s) (cancel s) (queue s) (driver_generation s) (issued s)
    (<[ticket := r]> (replies s)).

(** ** The client *)

(** [elapsed()] *)
Definition age (now at_ : Z) : Z := sat_sub now at_.

Definition snapshot (s : t) (now : Z) : InitiatorSessionSnapshot :=
  mkSessionSnapshot (authenticated s) (peer_id s) (generation s)
    (option_map (age now) (last_liveness s))
    (option_map (fun h => mkHeartbeatSnapshot h.1 (age now h.2)) (last_heartbeat s)).

(** One round of the wait loop of [wait_authenticated]; [None] waits again. *)
Definition wait_authenticated (s : t) (now deadline : Z) :
    option (result InitiatorSessionSnapshot InitiatorClientError) :=
  if authenticated s then
    Some (Ok (mkSessionSnapshot true (peer_id s) (generation s)
                (option_map (age now) (last_liveness s))
                (option_map (fun h => mkHeartbeatSnapshot h.1 (age now h.2)) (last_heartbeat s))))
  else if driver_closed s then Some (Err Ic_SessionLost)
  else if cancel s then Some (Err Ic_NotAuthenticated)
  else if deadline <=? now then Some (Err Ic_Timeout)
  else None.

Definition cancel_session (s : t) : t :=
  mk false (peer_id s) (generation s) None None (driver_closed s) true (queue s)
    (driver_generation s) (issued s) (replies s).

(** [request_with_id]: the check under the state lock. *)
Definition admit_request (s : t) : result Z InitiatorClientError :=
  if negb (authenticated s) || cancel s then Err Ic_NotAuthenticated else Ok (generation s).

(** [request_with_id]: a new one-shot channel and [try_send]; [disconnected] says that
    the driver, and with it the receiver, is gone. *)
Definition enqueue (s : t) (generation_ : Z) (request_id : option Z) (request : InitiatorRequest)
    (disconnected : bool) : t * result nat InitiatorClientError :=
  if disconnected then (s, Err Ic_SessionLost)
  else if INITIATOR_QUEUE_CAPACITY <=? Z.of_nat (length (queue s)) then (s, Err Ic_Busy)
  else
    (mk (authenticated s) (peer_id s) (generation s) (last_liveness s) (last_heartbeat s)
       (driver_closed s) (cancel s)
       (queue s ++ [mkPending generation_ request_id request (issued s)])
       (driver_generation s) (S (issued s)) (replies s), Ok (issued s)).

(** [receiver.recv_timeout(..)] once it returns; a reply that is not there by then is a
    timeout. *)
Definition await (s : t) (ticket : nat) : result InitiatorResponse InitiatorClientError :=
  match replies s !! ticket with
  | Some (Rp_Sent r) => r
  | Some Rp_Dropped => Err Ic_SessionLost
  | None => Err Ic_Timeout
  end.

(** What [command], [resource], [remote_buffer] and [compute] make of the answer. *)
Definition command_answer (r : result InitiatorResponse InitiatorClientError) :
    result Ack.Payload InitiatorClientError :=
  match r with Ok (Ir_Command a) => Ok a | Ok _ => Err Ic_ResponseMismatch | Err e => Err e end.
Definition resource_answer (r : result InitiatorResponse InitiatorClientError) :
    result ResourceResult InitiatorClientError :=
  match r with Ok (Ir_Resource a) => Ok a | Ok _ => Err Ic_ResponseMismatch | Err e => Err e end.
Definition remote_buffer_answer (r : result InitiatorResponse InitiatorClientError) :
    result BufferResult InitiatorClientError :=
  match r with Ok (Ir_RemoteBuffer a) => Ok a | Ok _ => Err Ic_ResponseMismatch | Err e => Err e end.
Definition compute_answer (r : result InitiatorResponse InitiatorClientError) :
    result ComputeResponse InitiatorClientError :=
  match r with Ok (Ir_Compute a) => Ok a | Ok _ => Err Ic_ResponseMismatch | Err e => Err e end.

(** [resource_with_request_id] refuses the reserved identifier at once. *)
Definition check_request_id (request_id : Z) : result unit InitiatorClientError :=
  if request_id =? 0 then Err Ic_InvalidRequest else Ok tt.

(** ** The driver *)

Definition begin_session (s : t) (peer : list byte) (now : Z) : t * Z :=
  let g := Z.max (sat_add64 (generation s) 1) 1 in
  (mk (negb (cancel s)) (Some peer) g (Some now) None false (cancel s) (queue s) (Some g)
     (issued s) (replies s), g).

Definition mark_liveness (s : t) (now : Z) : t :=
  if authenticated s then
    mk (authenticated s) (peer_id s) (generation s) (Some now) (last_heartbeat s)
      (driver_closed s) (cancel s) (queue s) (driver_generation s) (issued s) (replies s)
  else s.

Definition mark_heartbeat (s : t) (payload : Heartbeat.Payload) (now : Z) : t :=
  if authenticated s && bool_decide (peer_id s = Some (Heartbeat.peer_id payload)) then
    mk (authenticated s) (peer_id s) (generation s) (Some now) (Some (payload, now))
      (driver_closed s) (cancel s) (queue s) (driver_generation s) (issued s) (replies s)
  else s.

(** [next_request]: requests of an earlier session are refused on the way. *)
Fixpoint next_in (generation_ : Z) (q : list PendingInitiatorRequest) (replies : gmap nat Reply) :
    option PendingInitiatorRequest * list PendingInitiatorRequest * gmap nat Reply :=
  match q with
  | [] => (None, [], replies)
  | p :: q =>
      if pi_generation p =? generation_ then (Some p, q, replies)
      else next_in generation_ q (<[pi_response p := Rp_Sent (Err Ic_SessionLost)]> replies)
  end.

Definition next_request (s : t) (generation_ : Z) : t * option PendingInitiatorRequest :=
  let '(p, q, r) := next_in generation_ (queue s) (replies s) in
  (mk (authenticated s) (peer_id s) (generation s) (last_liveness s) (last_heartbeat s)
     (driver_closed s) (cancel s) q (driver_generation s) (issued s) r, p).

(** [while let Ok(pending) = try_recv() { send(SessionLost) }] *)
Definition drain (q : list PendingInitiatorRequest) (r : gmap nat Reply) : gmap nat Reply :=
  foldl (fun r p => <[pi_response p := Rp_Sent (Err Ic_SessionLost)]> r) r q.

Definition end_session (s : t) : t :=
  let current := bool_decide (driver_generation s = Some (generation s)) in
  mk (if current then false else authenticated s) (peer_id s) (generation s)
    (if current then None else last_liveness s) (if current then None else last_heartbeat s)
    true (cancel s) [] None (issued s) (drain (queue s) (replies s)).

End Initiator.
