(* ===== verification/Session.v ===== *)
(** * pb-runtime-secure: the authenticated session

    Models [enter_authenticated_loop], [run_authenticated_loop] and their helpers of
    [crates/pb-runtime-secure/src/runtime.rs], for both roles: the initiator sends the
    requests of its client and matches the answers, the responder hands requests to an
    [AuthenticatedCommandHandler] and sends its answers.

    One round of the loop is what it does on its own ([tend]: cancellation, heartbeats,
    the next request of the client) and what it does about the socket ([attend]: one
    frame, or the test for silence).  The answers of [receive_frame_if_available] and
    [send_frame], the clock and random bytes are arguments, as in the pairing loop.  The
    handler is the interface [CommandHandler]: its state [H] is threaded through, and
    [E] is what its surroundings answer to one call. *)

From Stdlib Require Import ZArith Lia.
From stdpp Require Import base tactics list gmap strings.
From S2P Require Import Prelude Types Pbmux Reassembly Control ResourceWire ComputeWire BufferWire.
From S2P Require Import Text Storage Records Runtime PairingLoop Initiator.

Definition HEARTBEAT_INTERVAL : Z := 2000.
Definition SESSION_POLL : Z := 20.
Definition DEVICE_OFFLINE_TIMEOUT : Z := 10000.

(** ** The handler's interface *)

Inductive HandlerError : Type := He_Unavailable | He_Failed.

Definition handler_runtime_error (e : HandlerError) : RuntimeError :=
  match e with
  | He_Unavailable => Re_CommandHandlerUnavailable
  | He_Failed => Re_CommandHandlerFailed
  end.

Class CommandHandler (H E : Type) : Type := {
  handle_authenticated_command :
    H -> E -> VerifiedPeerSession -> Z -> Command.Payload -> H * result Ack.Payload HandlerError;
  handle_authenticated_resource :
    H -> E -> VerifiedPeerSession -> Z -> ResourceRequest ->
    H * result (ResourceResponseKind * ResourceResult) HandlerError;
  handle_authenticated_remote_buffer :
    H -> E -> VerifiedPeerSession -> Z -> RemoteBufferRequest ->
    H * result (RemoteBufferResponseKind * BufferResult) HandlerError;
  handle_authenticated_compute :
    H -> E -> VerifiedPeerSession -> Z -> ComputeRequest -> H * result ComputeResponse HandlerError;
  authenticated_heartbeat :
    H -> E -> VerifiedPeerSession -> H * result (option Heartbeat.Payload) HandlerError;
  authenticated_session_ended : H -> E -> VerifiedPeerSession -> H * result unit HandlerError;
}.

(** [NoAuthenticatedCommandHandler]: every method as the trait's default. *)
Definition no_handler {H E} : CommandHandler H E := {|
  handle_authenticated_command h _ _ _ _ := (h, Err He_Unavailable);
  handle_authenticated_resource h _ _ _ _ := (h, Err He_Unavailable);
  handle_authenticated_remote_buffer h _ _ _ _ := (h, Err He_Unavailable);
  handle_authenticated_compute h _ _ _ _ := (h, Err He_Unavailable);
  authenticated_heartbeat h _ _ := (h, Ok None);
  authenticated_session_ended h _ _ := (h, Ok tt);
|}.

(** ** Requests of the initiator *)

Inductive ExpectedInitiatorResponse : Type :=
| Ex_Command (command_seq : Z)
| Ex_Resource (k : ResourceResponseKind)
| Ex_RemoteBuffer (k : RemoteBufferResponseKind)
| Ex_ComputeSubmit
| Ex_ComputeStatus (job_id : list byte)
| Ex_ComputeCancel (job_id : list byte).

#[export] Instance ExpectedInitiatorResponse_eq_dec : EqDecision ExpectedInitiatorResponse.
Proof. solve_decision. Defined.

(** [job.as_ref().is_none_or(|job| job.job_id == job_id)] *)
Definition same_job (job : option ComputeJobRef) (job_id : list byte) : bool :=
  match job with None => true | Some job => bool_decide (jr_job_id job = job_id) end.

Definition accepts_compute (e : ExpectedInitiatorResponse) (r : ComputeResponse) : bool :=
  match e, r with
  | Ex_ComputeSubmit, Cx_Status _ | Ex_ComputeSubmit, Cx_Result _ => true
  | Ex_ComputeStatus job_id, Cx_Status status => same_job (st_job status) job_id
  | Ex_ComputeStatus job_id, Cx_Result r => same_job (cr_job r) job_id
  | Ex_ComputeCancel job_id, Cx_Cancel status => same_job (st_job status) job_id
  | _, _ => false
  end.

Record InitiatorOutstanding : Type := mkOutstanding {
  io_request_id : Z;
  io_expected : ExpectedInitiatorResponse;
  io_sent_at : Z;
  io_response : nat;
}.

Definition initiator_transport_expired (traffic_age : Z) (request_age : option Z) : bool :=
  (DEVICE_OFFLINE_TIMEOUT <=? traffic_age)
  && match request_age with None => true | Some a => INITIATOR_REQUEST_TIMEOUT <=? a end.

(** The kind of answer a request asks for. *)
Definition resource_kind (r : ResourceRequest) : ResourceResponseKind :=
  match r with
  | Reserve _ _ _ _ => Rk_ReserveAck
  | Commit _ _ _ => Rk_Commit
  | Release _ _ _ => Rk_Release
  end.

Definition remote_buffer_kind (r : RemoteBufferRequest) : RemoteBufferResponseKind :=
  match r with
  | Rb_Alloc _ _ _ _ _ => Bk_AllocAck
  | Rb_Put _ _ _ _ _ => Bk_Put
  | Rb_Get _ _ _ _ _ => Bk_Data
  | Rb_Free _ _ _ => Bk_Free
  | Rb_Stat _ _ _ => Bk_Stat
  | Rb_Touch _ _ _ => Bk_Touch
  end.

Definition compute_expected (r : ComputeRequest) : ExpectedInitiatorResponse :=
  match r with
  | Cq_Submit _ => Ex_ComputeSubmit
  | Cq_Status j => Ex_ComputeStatus (cj_job_id j)
  | Cq_Cancel j => Ex_ComputeCancel (cj_job_id j)
  end.

(** [valid_response_kind] of the responder *)
Definition compute_response_fits (q : ComputeRequest) (r : ComputeResponse) : bool :=
  match q, r with
  | Cq_Submit _, Cx_Status _ | Cq_Submit _, Cx_Result _
  | Cq_Status _, Cx_Status _ | Cq_Status _, Cx_Result _
  | Cq_Cancel _, Cx_Cancel _ => true
  | _, _ => false
  end.

Definition remote_response_kind (message_type : Z) : result RemoteBufferResponseKind RuntimeError :=
  if message_type =? 2 then Ok Bk_AllocAck
  else if message_type =? 3 then Ok Bk_Put
  else if message_type =? 5 then Ok Bk_Data
  else if message_type =? 6 then Ok Bk_Free
  else if message_type =? 7 then Ok Bk_Stat
  else if message_type =? 8 then Ok Bk_Touch
  else Err Re_Pbmux.

Definition decode_unsupported_command_envelope (bytes : list byte) : Command.Payload :=
  Command.mk (read_u8 bytes 0) (read_u8 bytes 1) (slice bytes 2 16) (read_u64 bytes 18)
    (slice bytes 26 16) (read_u8 bytes 42) (read_u8 bytes 43) (read_u16 bytes 44).

Definition parse_authenticated_command (frame : Frame) : result Command.Payload RuntimeError :=
  match parse_command_frame frame with
  | Ok command => Ok command
  | Err e =>
      if bool_decide (kind e = K_UnsupportedMessage) then
        if len (payload frame) =? 46 then Ok (decode_unsupported_command_envelope (payload frame))
        else Err Re_Pbmux
      else Err Re_Pbmux
  end.

(** The frames of a request and the answer to wait for. *)
Definition build_request (request : InitiatorRequest) (request_id send_sequence : Z) :
    result (list Frame * ExpectedInitiatorResponse) PbmuxError :=
  match request with
  | Iq_Command c =>
      let? frame := build_command_frame c request_id send_sequence in
      Ok ([frame], Ex_Command (Command.command_seq c))
  | Iq_Resource r =>
      let? frame := build_resource_request_frame r request_id send_sequence in
      Ok ([frame], Ex_Resource (resource_kind r))
  | Iq_RemoteBuffer r =>
      let? frames := build_remote_buffer_request_frames r request_id send_sequence in
      Ok (frames, Ex_RemoteBuffer (remote_buffer_kind r))
  | Iq_Compute r =>
      let? frame := build_compute_request_frame r request_id send_sequence in
      Ok ([frame], compute_expected r)
  end.

(** Send frames until one fails: the frames handed to [send_frame] and the outcome. *)
Fixpoint send_all (frames : list Frame) (sent : nat -> result unit RuntimeError) (k : nat) :
    list Frame * result unit RuntimeError :=
  match frames with
  | [] => ([], Ok tt)
  | f :: frames =>
      match sent k with
      | Err e => ([f], Err e)
      | Ok _ => let '(out, r) := send_all frames sent (S k) in (f :: out, r)
      end
  end.

(** [start_initiator_request]: the driver with its replies, the frames sent, the next
    sequence number and the request now outstanding. *)
Definition start_initiator_request (d : Initiator.t) (send_sequence now : Z)
    (pending : PendingInitiatorRequest) (draws : Draws) (sent : nat -> result unit RuntimeError) :
    Initiator.t * list Frame * result (Z * option InitiatorOutstanding) RuntimeError :=
  let fail e := Initiator.reply d (pi_response pending) (Rp_Sent (Err e)) in
  let request_id :=
    match pi_request_id pending with
    | Some id => if id =? 0 then Ok None else Ok (Some id)
    | None => let? id := random_nonzero_u64 draws in Ok (Some id)
    end in
  match request_id with
  | Err e => (Initiator.reply d (pi_response pending) Rp_Dropped, [], Err e)
  | Ok None => (fail Ic_InvalidRequest, [], Ok (send_sequence, None))
  | Ok (Some request_id) =>
      match build_request (pi_request pending) request_id send_sequence with
      | Err _ => (fail Ic_InvalidRequest, [], Ok (send_sequence, None))
      | Ok (frames, expected) =>
          match send_all frames sent 0 with
          | (out, Err e) => (fail Ic_UnknownAfterDisconnect, out, Err e)
          | (out, Ok _) =>
              match checked_add64 send_sequence (Z.of_nat (length frames)) with
              | None => (Initiator.reply d (pi_response pending) Rp_Dropped, out, Err Re_Pbmux)
              | Some next =>
                  (d, out, Ok (next, Some (mkOutstanding request_id expected now
                                             (pi_response pending))))
              end
          end
      end
  end.

Definition take_initiator_outstanding (o : option InitiatorOutstanding) (request_id : Z) :
    result InitiatorOutstanding RuntimeError :=
  match o with
  | Some r => if io_request_id r =? request_id then Ok r else Err Re_Pbmux
  | None => Err Re_Pbmux
  end.

(** ** The loop *)

(** The local variables of [run_authenticated_loop]. *)
Record SLocals : Type := mkSLocals {
  sl_send_sequence : Z;
  sl_receive_sequence : SequenceTracker.t;
  sl_next_heartbeat : Z;
  sl_last_traffic : Z;
  sl_heartbeat_outstanding : option Z;
  sl_application : option InitiatorOutstanding;
  sl_reassembler : Reassembler.t;
}.

Definition set_send (l : SLocals) (send_sequence : Z) : SLocals :=
  mkSLocals send_sequence (sl_receive_sequence l) (sl_next_heartbeat l) (sl_last_traffic l)
    (sl_heartbeat_outstanding l) (sl_application l) (sl_reassembler l).
Definition set_next_heartbeat (l : SLocals) (at_ : Z) : SLocals :=
  mkSLocals (sl_send_sequence l) (sl_receive_sequence l) at_ (sl_last_traffic l)
    (sl_heartbeat_outstanding l) (sl_application l) (sl_reassembler l).
Definition set_heartbeat_outstanding (l : SLocals) (o : option Z) : SLocals :=
  mkSLocals (sl_send_sequence l) (sl_receive_sequence l) (sl_next_heartbeat l) (sl_last_traffic l)
    o (sl_application l) (sl_reassembler l).
Definition set_application (l : SLocals) (o : option InitiatorOutstanding) : SLocals :=
  mkSLocals (sl_send_sequence l) (sl_receive_sequence l) (sl_next_heartbeat l) (sl_last_traffic l)
    (sl_heartbeat_outstanding l) o (sl_reassembler l).
Definition set_reassembler (l : SLocals) (r : Reassembler.t) : SLocals :=
  mkSLocals (sl_send_sequence l) (sl_receive_sequence l) (sl_next_heartbeat l) (sl_last_traffic l)
    (sl_heartbeat_outstanding l) (sl_application l) r.

(** Where the loop goes; [Sf_Panic] is a panic of the reassembler. *)
Inductive SFlow : Type :=
| Sf_Next
| Sf_Return (r : result SessionOutcome RuntimeError)
| Sf_Panic.

Section SessionLoop.
Context {H E : Type} `{CommandHandler H E}.
Context (sha256 : list byte -> list byte).
Context (initiator : bool) (peer : VerifiedPeerSession) (generation : option Z).

(** What the loop works on: the handler, the shared runtime, the client's side of the
    driver, if there is one, and its own variables. *)
Record Session : Type := mkSession {
  se_handler : H;
  se_runtime : SecureRuntime.t;
  se_driver : option Initiator.t;
  se_locals : SLocals;
}.

(** What the surroundings answer during one part of a round: two readings of the clock,
    random bytes, the outcome of each [send_frame], the handler's surroundings and
    whether the transport was lost while the handler worked. *)
Record SEnv : Type := mkSEnv {
  sv_now : Z;
  sv_after : Z;
  sv_draws : Draws;
  sv_send : nat -> result unit RuntimeError;
  sv_handler : E;
  sv_lost : bool;
}.

Implicit Types (s : Session) (env : SEnv).

Definition on_locals s (l : SLocals) : Session :=
  mkSession (se_handler s) (se_runtime s) (se_driver s) l.
Definition on_handler s (h : H) : Session :=
  mkSession h (se_runtime s) (se_driver s) (se_locals s).
Definition on_runtime s (rt : SecureRuntime.t) : Session :=
  mkSession (se_handler s) rt (se_driver s) (se_locals s).
Definition on_driver s (f : Initiator.t -> Initiator.t) : Session :=
  mkSession (se_handler s) (se_runtime s) (option_map f (se_driver s)) (se_locals s).

Definition fails (s : Session) (e : RuntimeError) : Session * list Frame * SFlow :=
  (s, [], Sf_Return (Err e)).
Definition goes_on (s : Session) : Session * list Frame * SFlow := (s, [], Sf_Next).

(** Number the frames, count them, send them, then go on with [k]. *)
Definition answer s (frames : list Frame) env (k : Session -> Session) :
    Session * list Frame * SFlow :=
  match checked_add64 (sl_send_sequence (se_locals s)) (Z.of_nat (length frames)) with
  | None => fails s Re_Pbmux
  | Some next =>
      match send_all frames (sv_send env) 0 with
      | (out, Err e) => (on_locals s (set_send (se_locals s) next), out, Sf_Return (Err e))
      | (out, Ok _) => (k (on_locals s (set_send (se_locals s) next)), out, Sf_Next)
      end
  end.

(** The responder's heartbeat. *)
Definition tend_heartbeat s env : Session * list Frame * SFlow :=
  let l := se_locals s in
  if negb initiator && (sl_next_heartbeat l <=? sv_now env) then
    match authenticated_heartbeat (se_handler s) (sv_handler env) peer with
    | (h, Err e) => fails (on_handler s h) (handler_runtime_error e)
    | (h, Ok None) =>
        goes_on (on_locals (on_handler s h) (set_next_heartbeat l (sv_after env + SESSION_POLL)))
    | (h, Ok (Some p)) =>
        let s := on_handler s h in
        let p := Heartbeat.mk (sha256 (id_public (SecureRuntime.identity (se_runtime s))))
          (Heartbeat.worker_incarnation p) (Heartbeat.lease_present p) (Heartbeat.lease_id p)
          (Heartbeat.monotonic_ms p) (Heartbeat.thermal_status p) (Heartbeat.headroom_present p)
          (Heartbeat.headroom_f32_bits p) (Heartbeat.battery_pct p) (Heartbeat.charging p)
          (Heartbeat.power_save p) (Heartbeat.available_bytes p) (Heartbeat.safe_budget_bytes p)
          (Heartbeat.reserved_bytes p) (Heartbeat.queue_depth p) (Heartbeat.provider_count p)
          (Heartbeat.transport_count p) in
        match build_heartbeat_frame p (sl_send_sequence l) with
        | Err _ => fails s Re_CommandHandlerFailed
        | Ok frame =>
            answer s [frame] env (fun s =>
              on_locals s (set_next_heartbeat (se_locals s) (sv_after env + HEARTBEAT_INTERVAL)))
        end
    end
  else goes_on s.

Definition idle (l : SLocals) : bool :=
  negb (is_some (sl_heartbeat_outstanding l)) && negb (is_some (sl_application l)).

(** The initiator's PING or the next request of its client. *)
Definition tend_requests s env : Session * list Frame * SFlow :=
  let l := se_locals s in
  if initiator && (sl_next_heartbeat l <=? sv_now env) && idle l then
    match random_nonzero_u64 (sv_draws env) with
    | Err e => fails s e
    | Ok request =>
        let ping := control_frame Ct_Ping request (sl_send_sequence l) in
        match sv_send env 0%nat with
        | Err e => (s, [ping], Sf_Return (Err e))
        | Ok _ =>
            match checked_add64 (sl_send_sequence l) 1 with
            | None => (s, [ping], Sf_Return (Err Re_Pbmux))
            | Some next =>
                (on_locals s (set_next_heartbeat
                   (set_heartbeat_outstanding (set_send l next) (Some request))
                   (sv_after env + HEARTBEAT_INTERVAL)), [ping], Sf_Next)
            end
        end
    end
  else if initiator && idle l then
    match se_driver s, generation with
    | Some d, Some g =>
        match Initiator.next_request d g with
        | (d, None) => goes_on (mkSession (se_handler s) (se_runtime s) (Some d) l)
        | (d, Some pending) =>
            match start_initiator_request d (sl_send_sequence l) (sv_after env) pending
                    (sv_draws env) (sv_send env) with
            | (d, out, Err e) =>
                (mkSession (se_handler s) (se_runtime s) (Some d) l, out, Sf_Return (Err e))
            | (d, out, Ok (next, o)) =>
                (mkSession (se_handler s) (se_runtime s) (Some d)
                   (set_application (set_send l next) o), out, Sf_Next)
            end
        end
    | _, _ => goes_on s
    end
  else goes_on s.

(** What the loop does before it looks at the socket. *)
Definition tend s env : Session * list Frame * SFlow :=
  if match se_driver s with Some d => Initiator.cancel d | None => false end then
    (s, [], Sf_Return (Ok So_Cancelled))
  else
    match tend_heartbeat s env with
    | (s, out, Sf_Next) =>
        let '(s, out', flow) := tend_requests s env in (s, out ++ out', flow)
    | r => r
    end.

(** ** A received frame *)

(** Answer the client and forget the request ([expected.complete(..)]), or drop it. *)
Definition complete s (o : InitiatorOutstanding) (r : InitiatorResponse) : Session :=
  on_driver s (fun d => Initiator.reply d (io_response o) (Rp_Sent (Ok r))).
Definition drop_outstanding s (o : InitiatorOutstanding) : Session :=
  on_driver s (fun d => Initiator.reply d (io_response o)
                          (Rp_Sent (Err Ic_UnknownAfterDisconnect))).

(** Take the outstanding request, check that the answer is the expected one. *)
Definition settle s (request_id : Z) (fits : ExpectedInitiatorResponse -> bool)
    (r : InitiatorResponse) : Session * list Frame * SFlow :=
  match take_initiator_outstanding (sl_application (se_locals s)) request_id with
  | Err e => fails s e
  | Ok expected =>
      let s := on_locals s (set_application (se_locals s) None) in
      if fits (io_expected expected) then goes_on (complete s expected r)
      else fails (drop_outstanding s expected) Re_Pbmux
  end.

Definition attend_control s (frame : Frame) env : Session * list Frame * SFlow :=
  let l := se_locals s in
  let request_id := request_id (header frame) in
  match ControlType_try_from (message_type (header frame)) with
  | Ok Ct_Ping =>
      if negb initiator then
        answer s [control_frame Ct_Pong request_id (sl_send_sequence l)] env
          (fun s => on_runtime s (SecureRuntime.heartbeat (se_runtime s)))
      else fails s Re_Pbmux
  | Ok Ct_Pong =>
      if initiator then
        if negb (bool_decide (sl_heartbeat_outstanding l = Some request_id)) then fails s Re_Pbmux
        else
          let s := on_locals s (set_heartbeat_outstanding l None) in
          let s := on_runtime s (SecureRuntime.heartbeat (se_runtime s)) in
          goes_on (on_driver s (fun d => Initiator.mark_liveness d (sv_after env)))
      else fails s Re_Pbmux
  | Ok Ct_Command =>
      match parse_authenticated_command frame with
      | Err e => fails s e
      | Ok command =>
          match handle_authenticated_command (se_handler s) (sv_handler env) peer request_id command
          with
          | (h, Err e) => fails (on_handler s h) (handler_runtime_error e)
          | (h, Ok ack) =>
              let s := on_handler s h in
              if negb (Ack.command_seq ack =? Command.command_seq command)
                 || negb ((Ack.ack_state ack =? 2) || (Ack.ack_state ack =? 3))
              then fails s Re_CommandHandlerFailed
              else
                match build_command_ack_frame ack request_id (sl_send_sequence l) with
                | Err _ => fails s Re_Pbmux
                | Ok frame => answer s [frame] env id
                end
          end
      end
  | Ok Ct_CommandAck =>
      match parse_command_ack_frame frame with
      | Err _ => fails s Re_Pbmux
      | Ok ack =>
          if initiator then
            settle s request_id
              (fun e => match e with Ex_Command seq => seq =? Ack.command_seq ack | _ => false end)
              (Ir_Command ack)
          else goes_on s
      end
  | Ok Ct_SessionClose => (s, [], Sf_Return (Ok So_Lost))
  | _ => fails s Re_Pbmux
  end.

Definition attend_resource s (frame : Frame) env : Session * list Frame * SFlow :=
  let request_id := request_id (header frame) in
  if initiator then
    match parse_resource_result_frame frame with
    | Err _ => fails s Re_Pbmux
    | Ok (kind, r) =>
        settle s request_id (fun e => bool_decide (e = Ex_Resource kind)) (Ir_Resource r)
    end
  else
    match parse_resource_request_frame frame with
    | Err _ => fails s Re_Pbmux
    | Ok request =>
        match handle_authenticated_resource (se_handler s) (sv_handler env) peer request_id request
        with
        | (h, Err e) => fails (on_handler s h) (handler_runtime_error e)
        | (h, Ok (kind, r)) =>
            let s := on_handler s h in
            if negb (bool_decide (kind = resource_kind request)) then fails s Re_CommandHandlerFailed
            else
              match build_resource_result_frame kind r request_id
                      (sl_send_sequence (se_locals s)) with
              | Err _ => fails s Re_CommandHandlerFailed
              | Ok frame => answer s [frame] env id
              end
        end
    end.

(** [reassembler.accept(frame).map_err(..)?]; [k] is what follows a whole message. *)
Definition reassemble s (frame : Frame)
    (k : Session -> list byte -> Session * list Frame * SFlow) : Session * list Frame * SFlow :=
  match Reassembler.accept (sl_reassembler (se_locals s)) frame with
  | None => (s, [], Sf_Panic)
  | Some (r, Err _) => fails (on_locals s (set_reassembler (se_locals s) r)) Re_Pbmux
  | Some (r, Ok None) => goes_on (on_locals s (set_reassembler (se_locals s) r))
  | Some (r, Ok (Some payload)) => k (on_locals s (set_reassembler (se_locals s) r)) payload
  end.

(** [handle_remote_buffer_with_transport_liveness] and
    [handle_compute_with_transport_liveness]: the handler's thread is always joined; its
    answer is discarded when the transport was lost meanwhile. *)
Definition with_transport_liveness {R} (did : H * result R HandlerError) (lost : bool) :
    H * result R RuntimeError :=
  let '(h, r) := did in
  (h, if lost then Err Re_SessionLost else map_err handler_runtime_error r).

Definition attend_remote_buffer s (frame : Frame) env : Session * list Frame * SFlow :=
  let message_type := message_type (header frame) in
  let request_id := request_id (header frame) in
  if initiator then
    match validate_remote_buffer_result_fragment frame with
    | Err _ => fails s Re_Pbmux
    | Ok _ =>
        match sl_application (se_locals s) with
        | None => fails s Re_Pbmux
        | Some expected =>
            if negb (io_request_id expected =? request_id) then fails s Re_Pbmux
            else
              reassemble s frame (fun s payload =>
                match remote_response_kind message_type with
                | Err e => fails s e
                | Ok kind =>
                    match parse_remote_buffer_result_payload kind payload with
                    | Err _ => fails s Re_Pbmux
                    | Ok r =>
                        settle s request_id (fun e => bool_decide (e = Ex_RemoteBuffer kind))
                          (Ir_RemoteBuffer r)
                    end
                end)
        end
    end
  else
    match validate_remote_buffer_request_fragment frame with
    | Err _ => fails s Re_Pbmux
    | Ok _ =>
        reassemble s frame (fun s payload =>
          match parse_remote_buffer_request_payload message_type payload with
          | Err _ => fails s Re_Pbmux
          | Ok request =>
              match with_transport_liveness
                      (handle_authenticated_remote_buffer (se_handler s) (sv_handler env) peer
                         request_id request) (sv_lost env) with
              | (h, Err e) => fails (on_handler s h) e
              | (h, Ok (kind, r)) =>
                  let s := on_handler s h in
                  if negb (bool_decide (kind = remote_buffer_kind request))
                  then fails s Re_CommandHandlerFailed
                  else
                    match build_remote_buffer_result_frames kind r request_id
                            (sl_send_sequence (se_locals s)) with
                    | Err _ => fails s Re_CommandHandlerFailed
                    | Ok frames => answer s frames env id
                    end
              end
          end)
    end.

Definition attend_compute s (frame : Frame) env : Session * list Frame * SFlow :=
  let request_id := request_id (header frame) in
  if initiator then
    match parse_compute_response_frame frame with
    | Err _ => fails s Re_Pbmux
    | Ok response =>
        settle s request_id (fun e => accepts_compute e response) (Ir_Compute response)
    end
  else
    match parse_compute_request_frame frame with
    | Err _ => fails s Re_Pbmux
    | Ok request =>
        match with_transport_liveness
                (handle_authenticated_compute (se_handler s) (sv_handler env) peer request_id request)
                (sv_lost env) with
        | (h, Err e) => fails (on_handler s h) e
        | (h, Ok response) =>
            let s := on_handler s h in
            if negb (compute_response_fits request response) then fails s Re_CommandHandlerFailed
            else
              match build_compute_response_frame response request_id
                      (sl_send_sequence (se_locals s)) with
              | Err _ => fails s Re_CommandHandlerFailed
              | Ok frame => answer s [frame] env id
              end
        end
    end.

Definition attend_metrics s (frame : Frame) env : Session * list Frame * SFlow :=
  if message_type (header frame) =? 1 then
    match parse_heartbeat_frame frame with
    | Err _ => fails s Re_Pbmux
    | Ok p =>
        let s := on_runtime s (SecureRuntime.heartbeat (se_runtime s)) in
        goes_on (on_driver s (fun d => Initiator.mark_heartbeat d p (sv_after env)))
    end
  else fails s Re_Pbmux.

(** What the loop does about the socket. *)
Definition attend s (received : result (option Frame) RuntimeError) env :
    Session * list Frame * SFlow :=
  let l := se_locals s in
  match received with
  | Err e => fails s e
  | Ok None =>
      if initiator_transport_expired (Initiator.age (sv_now env) (sl_last_traffic l))
           (option_map (fun o => Initiator.age (sv_now env) (io_sent_at o)) (sl_application l))
      then fails s Re_SessionLost
      else goes_on s
  | Ok (Some frame) =>
      let '(tracker, accepted) := accept_sequence (sl_receive_sequence l) frame in
      let s := on_locals s
        (mkSLocals (sl_send_sequence l) tracker (sl_next_heartbeat l) (sl_last_traffic l)
           (sl_heartbeat_outstanding l) (sl_application l) (sl_reassembler l)) in
      match accepted with
      | Err e => fails s e
      | Ok _ =>
          match authorize_dispatch frame Committed with
          | Err _ => fails s Re_Pbmux
          | Ok _ =>
              let l := se_locals s in
              let s := on_locals s
                (mkSLocals (sl_send_sequence l) (sl_receive_sequence l) (sl_next_heartbeat l)
                   (sv_now env) (sl_heartbeat_outstanding l) (sl_application l)
                   (sl_reassembler l)) in
              match channel (header frame) with
              | Ch_Control => attend_control s frame env
              | Ch_Resource => attend_resource s frame env
              | Ch_RemoteBuffer => attend_remote_buffer s frame env
              | Ch_Compute => attend_compute s frame env
              | Ch_Metrics => attend_metrics s frame env
              | Ch_AiRpc => fails s Re_Pbmux
              end
          end
      end
  end.

(** ** The end of the session *)

(** [enter_authenticated_loop] after the loop has returned [r]: its variables are
    dropped, the driver and the handler learn that the session ended. *)
Definition leave s (r : result SessionOutcome RuntimeError) env :
    Session * result SessionOutcome RuntimeError :=
  let s := match sl_application (se_locals s) with
           | Some o => drop_outstanding (on_locals s (set_application (se_locals s) None)) o
           | None => s
           end in
  let s := on_driver s Initiator.end_session in
  match authenticated_session_ended (se_handler s) (sv_handler env) peer with
  | (h, Err _) => (on_handler s h, Err Re_CommandHandlerFailed)
  | (h, Ok _) => (on_handler s h, r)
  end.

End SessionLoop.

Arguments Session : clear implicits.
Arguments SEnv : clear implicits.

(** ** A whole session

    The two parts of a round alternate in the code; [run] takes them in any order, up to
    the part that leaves the loop. *)

Inductive Part (E : Type) : Type :=
| Pt_Tend (env : SEnv E)
| Pt_Attend (received : result (option Frame) RuntimeError) (env : SEnv E).
Arguments Pt_Tend {E} _.
Arguments Pt_Attend {E} _ _.

Section SessionRun.
Context {H E : Type} `{CommandHandler H E}.
Context (sha256 : list byte -> list byte) (to_vec : Value -> list byte).
Context (initiator : bool).

Definition part_step (peer : VerifiedPeerSession) (generation : option Z) (s : Session H)
    (p : Part E) : Session H * list Frame * SFlow :=
  match p with
  | Pt_Tend env => tend sha256 initiator peer generation s env
  | Pt_Attend received env => attend initiator peer s received env
  end.

Fixpoint session_run (peer : VerifiedPeerSession) (generation : option Z) (s : Session H)
    (ps : list (Part E)) : Session H * list Frame * SFlow :=
  match ps with
  | [] => (s, [], Sf_Next)
  | p :: ps =>
      match part_step peer generation s p with
      | (s, out, Sf_Next) =>
          let '(s, out', flow) := session_run peer generation s ps in (s, out ++ out', flow)
      | r => r
      end
  end.

(** [enter_authenticated_loop] up to its loop: the session proof, the generation of the
    client's session and the first state of the loop. *)
Definition enter_authenticated_loop (h : H) (rt : SecureRuntime.t) (driver : option Initiator.t)
    (remote : list byte) (send_sequence : Z) (receive_sequence : SequenceTracker.t) (now : Z)
    (clock : option Z) (se : StoreEnv) (draws : Draws) :
    SecureRuntime.t * result (VerifiedPeerSession * option Z * Session H) RuntimeError :=
  match SecureRuntime.mark_authenticated sha256 to_vec rt remote clock se draws with
  | (rt, Err e) => (rt, Err e)
  | (rt, Ok peer) =>
      let begun := option_map (fun d => Initiator.begin_session d (vp_peer_id peer) now) driver in
      let rt := SecureRuntime.heartbeat rt in
      (rt, Ok (peer, option_map snd begun,
               mkSession h rt (option_map fst begun)
                 (mkSLocals send_sequence receive_sequence (now + HEARTBEAT_INTERVAL) now None None
                    Reassembler.default)))
  end.

End SessionRun.
