(* ===== verification/ClientFacts.v ===== *)
(** * Every request of a client is answered once, with a fitting response

    The initiator's session together with its clients: client threads enqueue requests
    at any time, with whatever generation they read, the session thread runs its loop.
    An answer, once given, never changes; a response delivered to a client is the content
    of a frame that was received, of a message type that answers its request, and names
    the same command or job; and when the session ends, no request is left without an
    answer. *)

From Stdlib Require Import ZArith Lia.
From stdpp Require Import base tactics list gmap strings.
From S2P Require Import Prelude Types Pbmux Reassembly Control ResourceWire ComputeWire BufferWire.
From S2P Require Import Text Storage Records Runtime PairingLoop Initiator Session.

(** The answer a request asks for, and the responses that are such an answer. *)
Definition expected_of (r : InitiatorRequest) : ExpectedInitiatorResponse :=
  match r with
  | Iq_Command c => Ex_Command (Command.command_seq c)
  | Iq_Resource r => Ex_Resource (resource_kind r)
  | Iq_RemoteBuffer r => Ex_RemoteBuffer (remote_buffer_kind r)
  | Iq_Compute r => compute_expected r
  end.

(** An optional job reference names no other job than [id]. *)
Definition names_job (job : option ComputeJobRef) (id : list byte) : Prop :=
  forall ref, job = Some ref -> jr_job_id ref = id.

(** What the contents of a response must say to answer a request: the number of its
    command, a status or a result of its job, the status of the cancelled job.  The
    results of resource and buffer requests do not name the operation; it is the message
    type of their frame ([answer_types]). *)
Definition response_fits (q : InitiatorRequest) (r : InitiatorResponse) : Prop :=
  match q, r with
  | Iq_Command c, Ir_Command a => Ack.command_seq a = Command.command_seq c
  | Iq_Resource _, Ir_Resource _ => True
  | Iq_RemoteBuffer _, Ir_RemoteBuffer _ => True
  | Iq_Compute q, Ir_Compute r =>
      match q, r with
      | Cq_Submit _, Cx_Status _ => True
      | Cq_Submit _, Cx_Result _ => True
      | Cq_Status j, Cx_Status s => names_job (st_job s) (cj_job_id j)
      | Cq_Status j, Cx_Result r => names_job (cr_job r) (cj_job_id j)
      | Cq_Cancel j, Cx_Cancel s => names_job (st_job s) (cj_job_id j)
      | _, _ => False
      end
  | _, _ => False
  end.

(** The channel and the message types of the frames that answer a request, as the
    protocol numbers them. *)
Definition answer_types (q : InitiatorRequest) : Channel * list Z :=
  match q with
  | Iq_Command _ => (Ch_Control, [6])
  | Iq_Resource (Reserve _ _ _ _) => (Ch_Resource, [2])
  | Iq_Resource (Commit _ _ _) => (Ch_Resource, [3])
  | Iq_Resource (Release _ _ _) => (Ch_Resource, [4])
  | Iq_RemoteBuffer q =>
      (Ch_RemoteBuffer,
       [match q with Rb_Alloc _ _ _ _ _ => 2 | Rb_Put _ _ _ _ _ => 3 | Rb_Get _ _ _ _ _ => 5
                   | Rb_Free _ _ _ => 6 | Rb_Stat _ _ _ => 7 | Rb_Touch _ _ _ => 8 end])
  | Iq_Compute (Cq_Submit _) | Iq_Compute (Cq_Status _) => (Ch_Compute, [2; 3])
  | Iq_Compute (Cq_Cancel _) => (Ch_Compute, [4])
  end.

(** The response is what the frame says; of a buffer result in several fragments the
    frame is the last one. *)
Definition says (f : Frame) (r : InitiatorResponse) : Prop :=
  match r with
  | Ir_Command a => parse_command_ack_frame f = Ok a
  | Ir_Resource r => exists k, parse_resource_result_frame f = Ok (k, r)
  | Ir_RemoteBuffer r =>
      exists k front, parse_remote_buffer_result_payload k (front ++ payload f) = Ok r
  | Ir_Compute r => parse_compute_response_frame f = Ok r
  end.

(** Frame [f] answers request [q] with [r]. *)
Record answers (f : Frame) (q : InitiatorRequest) (r : InitiatorResponse) : Prop := {
  as_channel : channel (header f) = (answer_types q).1;
  as_type : message_type (header f) ∈ (answer_types q).2;
  as_says : says f r;
  as_fits : response_fits q r;
}.

Lemma same_job_names job id : same_job job id = true <-> names_job job id.
Proof.
  unfold same_job, names_job. destruct job as [ref|]; [|naive_solver].
  rewrite bool_decide_eq_true. split; [by intros ? ? [= <-]|by intros Hn; apply Hn].
Qed.

Lemma accepts_compute_fits q r :
  accepts_compute (compute_expected q) r = true <-> response_fits (Iq_Compute q) (Ir_Compute r).
Proof. destruct q, r; cbn; try apply same_job_names; by split. Qed.

Lemma resource_result_type f k r : parse_resource_result_frame f = Ok (k, r) ->
  message_type (header f) = match k with Rk_ReserveAck => 2 | Rk_Commit => 3 | Rk_Release => 4 end.
Proof.
  unfold parse_resource_result_frame. intros E. ok_inv E.
  assert (k = t) as ->.
  { unfold decode_resource_result in E. ok_inv E. by injection E as ->. }
  repeat case_match; simplify_eq; bool_hyps; done.
Qed.

Lemma remote_response_type ty k : remote_response_kind ty = Ok k ->
  ty = match k with Bk_AllocAck => 2 | Bk_Put => 3 | Bk_Data => 5 | Bk_Free => 6
                  | Bk_Stat => 7 | Bk_Touch => 8 end.
Proof. unfold remote_response_kind. intros E. repeat case_match; simplify_eq; bool_hyps; done. Qed.

Lemma compute_response_type f r : parse_compute_response_frame f = Ok r ->
  message_type (header f) = match r with Cx_Status _ => 2 | Cx_Result _ => 3 | Cx_Cancel _ => 4 end.
Proof.
  unfold parse_compute_response_frame. intros E. ok_inv E; injection E as <-; bool_hyps; [|done].
  destruct (Z.eqb_spec (message_type (header f)) 4); [done|].
  destruct (Z.eqb_spec (message_type (header f)) 2); [done|]. cbn in *. lia.
Qed.

(** A message the reassembler completes ends with the payload of its last frame. *)
Lemma completed_payload s f s' p : Reassembler.accept s f = Some (s', Ok (Some p)) ->
  exists front, p = front ++ payload f.
Proof.
  unfold Reassembler.accept, Reassembler.abort. cbn zeta. intros E.
  repeat first
    [ done
    | match type of E with
      | Some (_, Ok (Some _)) = Some _ => injection E as _ <-; (by exists []) || (by eexists)
      | context [if ?c then _ else _] => destruct c
      | context [match ?e with Some _ => _ | None => _ end] => destruct e
      | context [let '(_, _) := ?e in _] => destruct e as [? []]
      | context [?e ≫= _] => destruct e as [[]|]; cbn in E
      | context [?e ≫= _] => destruct e; cbn in E
      end ].
Qed.

Lemma build_request_expected r q n fs e : build_request r q n = Ok (fs, e) -> e = expected_of r.
Proof. unfold build_request. intros E. destruct r; ok_inv E; by simplify_eq. Qed.

Module ClientSystem.
Section ClientSystem.
Context {H E : Type} `{CommandHandler H E}.
Context (sha256 : list byte -> list byte).
Context (peer : VerifiedPeerSession) (generation : option Z).

(** The session, the requests of all tickets as history, and whether the session is
    over and its driver gone. *)
Record t : Type := mk {
  sess : Session H;
  asked : gmap nat InitiatorRequest;
  ended : bool;
}.

Inductive Event : Type :=
| Ev_Ask (generation : Z) (request_id : option Z) (request : InitiatorRequest)
| Ev_CancelSession
| Ev_Part (p : Part E) (env : SEnv E).

(** The frame that arrives in an event. *)
Definition received (ev : Event) : option Frame :=
  match ev with Ev_Part (Pt_Attend (Ok (Some f)) _) _ => Some f | _ => None end.

Definition driver (s : t) : Initiator.t := default Initiator.channel (se_driver (sess s)).
Definition set_driver (s : Session H) (d : Initiator.t) : Session H :=
  mkSession (se_handler s) (se_runtime s) (Some d) (se_locals s).

Definition exec (s : t) (ev : Event) : t :=
  match ev with
  | Ev_Ask g request_id request =>
      match Initiator.enqueue (driver s) g request_id request (ended s) with
      | (d, Ok ticket) => mk (set_driver (sess s) d) (<[ticket := request]> (asked s)) (ended s)
      | (d, Err _) => mk (set_driver (sess s) d) (asked s) (ended s)
      end
  | Ev_CancelSession =>
      mk (set_driver (sess s) (Initiator.cancel_session (driver s))) (asked s) (ended s)
  | Ev_Part p env =>
      if ended s then s
      else
        match part_step sha256 true peer generation (sess s) p with
        | (s', _, Sf_Next) => mk s' (asked s) false
        | (s', _, Sf_Return r) => mk (fst (leave peer s' r env)) (asked s) true
        | (s', _, Sf_Panic) => mk (fst (leave peer s' (Err Re_SessionLost) env)) (asked s) true
        end
  end.

Definition run (s : t) (evs : list Event) : t := fold_left exec evs s.

Definition replies (s : t) : gmap nat Reply := Initiator.replies (driver s).

(** A session that starts with an unused channel. *)
Definition start (s : Session H) : t := mk s ∅ false.

(** ** The invariant *)

Definition tickets (d : Initiator.t) : list nat := pi_response <$> Initiator.queue d.
Definition waiting (app : option InitiatorOutstanding) : list nat :=
  match app with Some o => [io_response o] | None => [] end.

Section Books.
(** The frames received. *)
Context (heard : Frame -> Prop).

(** Tickets are either answered or open: in the queue, or outstanding. *)
Record book (asked : gmap nat InitiatorRequest) (d : Initiator.t)
    (app : option InitiatorOutstanding) : Prop := {
  bk_issued : forall k, is_Some (asked !! k) <-> (k < Initiator.issued d)%nat;
  bk_open : NoDup (tickets d ++ waiting app);
  bk_cover : forall k, is_Some (asked !! k) <->
    k ∈ tickets d ++ waiting app \/
    is_Some (Initiator.replies d !! k);
  bk_unanswered : forall k,
    k ∈ tickets d ++ waiting app ->
    Initiator.replies d !! k = None;
  bk_queue : forall p, p ∈ Initiator.queue d -> asked !! pi_response p = Some (pi_request p);
  bk_app : forall o, app = Some o ->
    exists q, asked !! io_response o = Some q /\ io_expected o = expected_of q;
  bk_fits : forall k r, Initiator.replies d !! k = Some (Rp_Sent (Ok r)) ->
    exists q f, asked !! k = Some q /\ heard f /\ answers f q r;
}.

(** Only the queue, the answers and the ticket counter matter. *)
Lemma book_same asked d d' app :
  Initiator.queue d' = Initiator.queue d -> Initiator.replies d' = Initiator.replies d ->
  Initiator.issued d' = Initiator.issued d -> book asked d app -> book asked d' app.
Proof.
  intros Hq Hr Hi []. unfold tickets in *. constructor; unfold tickets; rewrite ?Hq, ?Hr, ?Hi; done.
Qed.

Lemma book_app asked d o o' :
  io_response o' = io_response o -> io_expected o' = io_expected o ->
  book asked d (Some o) -> book asked d (Some o').
Proof.
  intros Hr He []. cbn in *. constructor; cbn; rewrite ?Hr; try done.
  intros ? [= <-]. rewrite Hr, He. by apply bk_app0.
Qed.

(** Answering the outstanding request. *)
Lemma book_reply asked d o r :
  book asked d (Some o) ->
  (forall resp, r = Rp_Sent (Ok resp) ->
     forall q, asked !! io_response o = Some q -> io_expected o = expected_of q ->
     exists f, heard f /\ answers f q resp) ->
  book asked (Initiator.reply d (io_response o) r) None /\
  Initiator.replies d ⊆ Initiator.replies (Initiator.reply d (io_response o) r).
Proof.
  intros [] Hr. cbn [waiting] in *.
  assert (Hu : Initiator.replies d !! io_response o = None) by (apply bk_unanswered0; set_solver).
  split; [|by apply insert_subseteq].
  apply NoDup_app in bk_open0 as (Hn & Hd & _).
  constructor; cbn; unfold tickets in *; cbn; rewrite ?app_nil_r in *; try done.
  - intros k. rewrite bk_cover0. destruct (decide (k = io_response o)) as [->|Hk].
    + rewrite lookup_insert_eq. set_solver.
    + rewrite lookup_insert_ne by done. set_solver.
  - intros k Hk. rewrite lookup_insert_ne; [apply bk_unanswered0; set_solver|].
    intros <-. apply (Hd _ Hk). set_solver.
  - intros k resp. destruct (decide (k = io_response o)) as [->|Hk].
    + rewrite lookup_insert_eq. intros [= ->]. destruct (bk_app0 o eq_refl) as (q & Hq & He).
      destruct (Hr resp eq_refl q Hq He) as (f & Hf & Ha). by exists q, f.
    + rewrite lookup_insert_ne by done. apply bk_fits0.
Qed.

(** A request taken from the queue is outstanding until it is answered or sent. *)
Definition taken (p : PendingInitiatorRequest) : InitiatorOutstanding :=
  mkOutstanding 0 (expected_of (pi_request p)) 0 (pi_response p).

Definition with_rest (d : Initiator.t) (q : list PendingInitiatorRequest) (r : gmap nat Reply) :
    Initiator.t :=
  Initiator.mk (Initiator.authenticated d) (Initiator.peer_id d) (Initiator.generation d)
    (Initiator.last_liveness d) (Initiator.last_heartbeat d) (Initiator.driver_closed d)
    (Initiator.cancel d) q (Initiator.driver_generation d) (Initiator.issued d) r.

Lemma book_take asked d p q :
  book asked d None -> Initiator.queue d = p :: q ->
  book asked (with_rest d q (Initiator.replies d)) (Some (taken p)).
Proof.
  intros [] Hq. unfold tickets in *. rewrite Hq in *. cbn in *. rewrite app_nil_r in *.
  apply NoDup_cons in bk_open0 as [Hn Hd].
  constructor; cbn; unfold tickets; cbn; try done.
  - apply NoDup_app. split; [done|]. split; [set_solver|apply NoDup_singleton].
  - intros k. rewrite bk_cover0. set_solver.
  - intros k Hk. apply bk_unanswered0. set_solver.
  - intros p' Hp. apply bk_queue0. set_solver.
  - intros o [= <-]. exists (pi_request p). split; [|done]. apply bk_queue0. set_solver.
Qed.

Lemma book_next asked g q : forall d r,
  book asked (with_rest d q r) None ->
  let '(p, q', r') := Initiator.next_in g q r in
  book asked (with_rest d q' r') (match p with Some p => Some (taken p) | None => None end) /\
  r ⊆ r'.
Proof.
  induction q as [|p q IH]; intros d r Hb; cbn; [done|].
  destruct (_ =? _).
  { split; [|done]. exact (book_take asked _ p q Hb eq_refl). }
  pose proof (book_take asked _ p q Hb eq_refl) as Ht.
  destruct (book_reply asked _ _ (Rp_Sent (Err Ic_SessionLost)) Ht ltac:(done)) as [Hb' Hs].
  specialize (IH d _ Hb'). destruct (Initiator.next_in _ _ _) as [[p' q'] r'].
  destruct IH as [? ?]. split; [done|]. by etrans.
Qed.

Lemma book_next_request asked d g d' p :
  book asked d None -> Initiator.next_request d g = (d', p) ->
  book asked d' (match p with Some p => Some (taken p) | None => None end) /\
  Initiator.replies d ⊆ Initiator.replies d'.
Proof.
  intros Hb. unfold Initiator.next_request.
  assert (Hb' : book asked (with_rest d (Initiator.queue d) (Initiator.replies d)) None)
    by (by eapply book_same, Hb).
  pose proof (book_next asked g _ d _ Hb') as Hn.
  destruct (Initiator.next_in _ _ _) as [[p' q'] r']. intros [= <- <-]. done.
Qed.

Lemma book_enqueue asked0 d app g id q d' k :
  book asked0 d app -> Initiator.enqueue d g id q false = (d', Ok k) ->
  book (<[k := q]> asked0) d' app /\ Initiator.replies d' = Initiator.replies d.
Proof.
  intros [] He. unfold Initiator.enqueue in He. case_match; simplify_eq. split; [|done].
  set (k := Initiator.issued d). assert (Hk : asked0 !! k = None).
  { apply eq_None_not_Some. rewrite bk_issued0. unfold k. lia. }
  assert (Initiator.replies d !! k = None /\ k ∉ tickets d ++ waiting app) as [Hkr Hkn].
  { assert (Hk' : ~ is_Some (asked0 !! k)) by (rewrite Hk; by intros []).
    split; [apply eq_None_not_Some|]; intros ?; apply Hk', bk_cover0; auto. }
  constructor; cbn; unfold tickets in *; cbn; rewrite ?fmap_app; cbn.
  - intros j. destruct (decide (j = k)) as [->|Hj].
    + rewrite lookup_insert_eq. split; [unfold k; lia|eauto].
    + rewrite lookup_insert_ne, bk_issued0 by done. fold k. unfold k in *. lia.
  - fold k. assert (Hp : ((pi_response <$> Initiator.queue d) ++ [k]) ++ waiting app
                         ≡ₚ k :: (pi_response <$> Initiator.queue d) ++ waiting app)
      by solve_Permutation.
    rewrite Hp. by constructor.
  - intros j. fold k. destruct (decide (j = k)) as [->|Hj].
    + rewrite lookup_insert_eq. split; [set_solver|eauto].
    + rewrite lookup_insert_ne, bk_cover0 by done. set_solver.
  - intros j Hj. fold k in Hj. destruct (decide (j = k)) as [->|Hne]; [done|].
    apply bk_unanswered0. set_solver.
  - intros p Hp. apply elem_of_app in Hp as [Hp|Hp].
    + rewrite lookup_insert_ne; [by apply bk_queue0|]. fold k. intros Heq. apply Hkn.
      rewrite Heq. set_solver.
    + apply list_elem_of_singleton in Hp as ->. cbn. fold k. apply lookup_insert_eq.
  - intros o Ho. destruct (bk_app0 o Ho) as (q' & Hq & ?). exists q'. split; [|done].
    fold k. rewrite lookup_insert_ne; [done|]. intros Heq. by rewrite Heq, Hq in Hk.
  - intros j r Hj. destruct (bk_fits0 j r Hj) as (q' & f & Hq & ?). exists q', f. split; [|done].
    fold k. rewrite lookup_insert_ne; [done|]. intros <-. by rewrite Hq in Hk.
Qed.

(** The end of a session answers what is still in the queue. *)
Lemma drain_spec q : forall r,
  (forall k, k ∈ pi_response <$> q -> r !! k = None) -> NoDup (pi_response <$> q) ->
  r ⊆ Initiator.drain q r /\
  forall k, Initiator.drain q r !! k =
    if bool_decide (k ∈ pi_response <$> q) then Some (Rp_Sent (Err Ic_SessionLost)) else r !! k.
Proof.
  induction q as [|p q IH]; intros r Hr Hn; cbn in *.
  { split; [done|]. intros k. by rewrite bool_decide_false by set_solver. }
  apply NoDup_cons in Hn as [Hp Hn].
  destruct (IH (<[pi_response p := Rp_Sent (Err Ic_SessionLost)]> r)) as [Hs Hl].
  { intros k Hk. rewrite lookup_insert_ne; [apply Hr; set_solver|]. intros <-. done. }
  { done. }
  split.
  - etrans; [|exact Hs]. apply insert_subseteq, Hr. set_solver.
  - intros k. rewrite Hl. destruct (decide (k = pi_response p)) as [->|Hk].
    + rewrite (bool_decide_false (_ ∈ _)), (bool_decide_true (_ ∈ _)) by set_solver.
      apply lookup_insert_eq.
    + rewrite lookup_insert_ne by done. erewrite bool_decide_ext; [reflexivity|]. set_solver.
Qed.

Lemma book_end asked d :
  book asked d None ->
  book asked (Initiator.end_session d) None /\
  Initiator.replies d ⊆ Initiator.replies (Initiator.end_session d) /\
  forall k, is_Some (asked !! k) -> is_Some (Initiator.replies (Initiator.end_session d) !! k).
Proof.
  intros []. unfold tickets in *. cbn in *. rewrite app_nil_r in *.
  destruct (drain_spec (Initiator.queue d) (Initiator.replies d) bk_unanswered0 bk_open0) as [Hs Hl].
  assert (Hall : forall k, is_Some (asked !! k) <-> is_Some (Initiator.drain (Initiator.queue d) (Initiator.replies d) !! k)).
  { intros k. rewrite bk_cover0, Hl. case_bool_decide; naive_solver. }
  split_and!; [|done|by apply Hall].
  constructor; cbn; unfold tickets; cbn; try done.
  - constructor.
  - intros k. rewrite Hall. split; [by right|]. intros [Hk|?]; [|done]. by apply not_elem_of_nil in Hk.
  - intros k Hk. by apply not_elem_of_nil in Hk.
  - intros p Hp. by apply not_elem_of_nil in Hp.
  - intros k r. rewrite Hl. case_bool_decide; [done|]. apply bk_fits0.
Qed.

(** ** The loop keeps the books *)

Implicit Types (x : Session H) (env : SEnv E).

Definition app x : option InitiatorOutstanding := sl_application (se_locals x).

(** [x'] has kept the books of [x]: same clients, no answer changed. *)
Definition kept (q : gmap nat InitiatorRequest) (d : Initiator.t) x' : Prop :=
  exists d', se_driver x' = Some d' /\ book q d' (app x') /\
    Initiator.replies d ⊆ Initiator.replies d'.

Definition did_keep (q : gmap nat InitiatorRequest) (d : Initiator.t)
    (did : Session H * list Frame * SFlow) : Prop := kept q d did.1.1.

Lemma kept_same q d x x' :
  se_driver x = Some d -> book q d (app x) ->
  se_driver x' = se_driver x -> app x' = app x -> kept q d x'.
Proof. intros Hd Hb Hd' Ha. exists d. rewrite Hd', Ha. done. Qed.

(** An update of the driver that touches neither queue nor answers. *)
Lemma kept_driver q d x f :
  se_driver x = Some d -> book q d (app x) ->
  (forall d, Initiator.queue (f d) = Initiator.queue d /\
             Initiator.replies (f d) = Initiator.replies d /\
             Initiator.issued (f d) = Initiator.issued d) ->
  kept q d (on_driver x f).
Proof.
  intros Hd Hb Hf. destruct (Hf d) as (H1 & H2 & H3). exists (f d). cbn. rewrite Hd.
  split_and!; [done|by eapply book_same|by rewrite H2].
Qed.

Lemma settle_kept q d x id fits r :
  se_driver x = Some d -> book q d (app x) ->
  (forall r', fits (expected_of r') = true -> exists f, heard f /\ answers f r' r) ->
  did_keep q d (settle x id fits r).
Proof.
  intros Hd Hb Hf. unfold did_keep, settle, take_initiator_outstanding.
  destruct (sl_application (se_locals x)) as [o|] eqn:Eo; [|by eapply kept_same].
  destruct (io_request_id o =? id); [|by eapply kept_same].
  unfold app in Hb. rewrite Eo in Hb.
  destruct (fits (io_expected o)) eqn:Ef.
  - destruct (book_reply q d o (Rp_Sent (Ok r)) Hb) as [Hb' Hs].
    { intros ? [= <-] r' Hq He. apply Hf. by rewrite <- He. }
    eexists. cbn. rewrite Hd. done.
  - destruct (book_reply q d o (Rp_Sent (Err Ic_UnknownAfterDisconnect)) Hb) as [Hb' Hs];
      [done|]. eexists. cbn. rewrite Hd. done.
Qed.

Lemma answer_kept q d x fs env k :
  se_driver x = Some d -> book q d (app x) ->
  (forall x, se_driver (k x) = se_driver x /\ app (k x) = app x) ->
  did_keep q d (answer x fs env k).
Proof.
  intros Hd Hb Hk. unfold did_keep, answer.
  destruct (checked_add64 _ _) as [n|]; [|by eapply kept_same].
  destruct (send_all _ _ _) as [out [[]|e]]; cbn; [|by eapply kept_same].
  destruct (Hk (on_locals x (set_send (se_locals x) n))) as [H1 H2]. by eapply kept_same.
Qed.

Ltac keeps Hd Hb :=
  first [ by eapply (kept_same _ _ _ _ Hd Hb)
        | by eapply (answer_kept _ _ _ _ _ _ Hd Hb) ].

Lemma attend_control_kept q d x f env :
  heard f -> channel (header f) = Ch_Control -> se_driver x = Some d -> book q d (app x) ->
  did_keep q d (attend_control true peer x f env).
Proof.
  intros Hf Hch Hd Hb. unfold attend_control.
  destruct (ControlType_try_from _) as [[]|] eqn:Ety; try keeps Hd Hb.
  - destruct (negb _); [keeps Hd Hb|]. unfold did_keep. cbn [fst goes_on].
    eapply (kept_driver q d (on_runtime (on_locals x _) _)); [done..|].
    intros d'. unfold Initiator.mark_liveness. by case_match.
  - destruct (parse_authenticated_command f) as [c|]; [|keeps Hd Hb].
    destruct (handle_authenticated_command _ _ _ _ _) as [h [a|e]]; [|keeps Hd Hb].
    destruct (_ || _); [keeps Hd Hb|].
    destruct (build_command_ack_frame _ _ _) as [f'|]; [|keeps Hd Hb].
    by apply (answer_kept q d (on_handler x h)).
  - destruct (parse_command_ack_frame f) as [a|] eqn:Ea; [|keeps Hd Hb].
    apply settle_kept; [done..|]. intros r' E0. exists f. split; [done|].
    destruct r' as [c| | |[]]; try done. cbn in E0. bool_hyps. constructor; try done.
    apply ControlType_as_try_from in Ety. rewrite <- Ety. by left.
Qed.

Lemma attend_kept q d x received env :
  (forall f, received = Ok (Some f) -> heard f) -> se_driver x = Some d -> book q d (app x) ->
  did_keep q d (attend true peer x received env).
Proof.
  intros Hh Hd Hb. unfold attend. destruct received as [[f|]|e]; [|by case_match; keeps Hd Hb|keeps Hd Hb].
  specialize (Hh f eq_refl).
  destruct (accept_sequence _ f) as [tr [[]|e]]; [|keeps Hd Hb].
  destruct (authorize_dispatch f Committed); [|keeps Hd Hb].
  set (x1 := on_locals _ _).
  assert (Hd1 : se_driver x1 = Some d) by done. assert (Hb1 : book q d (app x1)) by done.
  clearbody x1. clear Hd Hb. destruct (channel (header f)) eqn:Ech.
  - by apply attend_control_kept.
  - unfold attend_resource.
    destruct (parse_resource_result_frame f) as [[k r]|] eqn:Ep; [|keeps Hd1 Hb1].
    apply settle_kept; [done..|]. intros r' E0. exists f. split; [done|]. bool_hyps.
    apply resource_result_type in Ep as Ety.
    destruct r' as [|q'| |[]]; try done. injection E0 as <-.
    constructor; [by destruct q'|rewrite Ety; destruct q'; by left|by exists (resource_kind q')|done].
  - unfold attend_remote_buffer.
    destruct (validate_remote_buffer_result_fragment f); [|keeps Hd1 Hb1].
    destruct (sl_application _); [|keeps Hd1 Hb1]. destruct (negb _); [keeps Hd1 Hb1|].
    unfold reassemble.
    destruct (Reassembler.accept _ f) as [[rs [[p|]|e]]|] eqn:Eacc; try keeps Hd1 Hb1.
    destruct (remote_response_kind _) as [k|] eqn:Ek; [|keeps Hd1 Hb1].
    destruct (parse_remote_buffer_result_payload k p) eqn:Ep; [|keeps Hd1 Hb1].
    apply settle_kept; [done..|]. intros r' E0. exists f. split; [done|]. bool_hyps.
    apply remote_response_type in Ek as Ety. apply completed_payload in Eacc as [front ->].
    destruct r' as [| |q'|[]]; try done. injection E0 as <-.
    constructor; [done|rewrite Ety; destruct q'; by left|by exists (remote_buffer_kind q'), front|done].
  - unfold attend_compute.
    destruct (parse_compute_response_frame f) as [r|] eqn:Ep; [|keeps Hd1 Hb1].
    apply settle_kept; [done..|]. intros r' E0. exists f. split; [done|].
    apply compute_response_type in Ep as Ety.
    destruct r' as [| | |q']; try done. cbn [expected_of] in E0.
    apply accepts_compute_fits in E0 as Hfit.
    constructor; [by destruct q'|rewrite Ety; destruct q', r; cbn in *; set_solver|done|done].
  - keeps Hd1 Hb1.
  - unfold attend_metrics. destruct (_ =? _); [|keeps Hd1 Hb1].
    destruct (parse_heartbeat_frame f) as [p|]; [|keeps Hd1 Hb1].
    unfold did_keep. cbn [fst goes_on].
    eapply (kept_driver q d (on_runtime x1 _)); [done..|].
    intros d'. unfold Initiator.mark_heartbeat. by case_match.
Qed.

Lemma start_kept q d n now pending draws sent d' out r :
  book q d (Some (taken pending)) ->
  start_initiator_request d n now pending draws sent = (d', out, r) ->
  book q d' (match r with Ok (_, o) => o | Err _ => None end) /\
  Initiator.replies d ⊆ Initiator.replies d'.
Proof.
  intros Hb. unfold start_initiator_request.
  pose proof (fun e => book_reply q d _ (Rp_Sent (Err e)) Hb ltac:(done)) as Hfail.
  pose proof (book_reply q d _ Rp_Dropped Hb ltac:(done)) as Hdrop.
  destruct (match pi_request_id pending with Some _ => _ | None => _ end) as [[id|]|e];
    [|by intros [= <- <- <-]|by intros [= <- <- <-]].
  destruct (build_request _ id n) as [[fs e]|] eqn:Eb; [|by intros [= <- <- <-]].
  apply build_request_expected in Eb.
  destruct (send_all fs sent 0) as [o [[]|e']]; [|by intros [= <- <- <-]].
  destruct (checked_add64 _ _); intros [= <- <- <-]; [|done].
  split; [|done]. by eapply book_app, Hb.
Qed.

Lemma tend_kept q d x env :
  se_driver x = Some d -> book q d (app x) ->
  did_keep q d (tend sha256 true peer generation x env).
Proof.
  intros Hd Hb. unfold tend. rewrite Hd. destruct (Initiator.cancel d); [keeps Hd Hb|].
  unfold tend_heartbeat. cbn [negb andb goes_on].
  unfold did_keep, tend_requests. cbn [andb].
  destruct ((_ <=? _) && idle _).
  { destruct (random_nonzero_u64 _); [|keeps Hd Hb].
    destruct (sv_send env 0%nat); [|keeps Hd Hb]. destruct (checked_add64 _ 1); keeps Hd Hb. }
  destruct (idle (se_locals x)) eqn:Ei; [|keeps Hd Hb]. rewrite Hd.
  destruct generation as [g|]; [|keeps Hd Hb].
  assert (Ha : app x = None).
  { unfold idle in Ei. bool_hyps. unfold app. by destruct (sl_application _). }
  rewrite Ha in Hb. destruct (Initiator.next_request d g) as [d1 p] eqn:En.
  destruct (book_next_request q d g d1 p Hb En) as [Hb1 Hs1].
  destruct p as [p|]; [|exists d1; unfold app in *; cbn; by rewrite Ha].
  destruct (start_initiator_request _ _ _ _ _ _) as [[d2 out] r] eqn:Est.
  destruct (start_kept q _ _ _ _ _ _ _ _ _ Hb1 Est) as [Hb2 Hs2].
  destruct r as [[n o]|e]; exists d2; (split; [done|]); (split; [|by etrans]); [done|].
  unfold app in *. cbn. by rewrite Ha.
Qed.

(** ** The theorem *)

Record sys_inv (s : t) : Prop := {
  sv_driver : is_Some (se_driver (sess s));
  sv_book : book (asked s) (driver s) (app (sess s));
  sv_ended : ended s = true -> app (sess s) = None;
}.

Lemma leave_kept q d x r env :
  se_driver x = Some d -> book q d (app x) ->
  let x' := (leave peer x r env).1 in
  exists d', se_driver x' = Some d' /\ book q d' None /\ app x' = None /\
    Initiator.replies d ⊆ Initiator.replies d' /\
    forall k, is_Some (q !! k) -> is_Some (Initiator.replies d' !! k).
Proof.
  intros Hd Hb. unfold leave, app in *. destruct (sl_application (se_locals x)) as [o|] eqn:Eo.
  - destruct (book_reply q d o (Rp_Sent (Err Ic_UnknownAfterDisconnect)) Hb) as [Hb' Hs]; [done|].
    destruct (book_end _ _ Hb') as (He & Hs' & Hall).
    destruct (authenticated_session_ended _ _ _) as [h [u|e]]; cbn; rewrite Hd; cbn;
      (eexists; split_and!; [done|exact He|done|by etrans|done]).
  - destruct (book_end _ _ Hb) as (He & Hs' & Hall).
    destruct (authenticated_session_ended _ _ _) as [h [u|e]]; cbn; rewrite Hd; cbn;
      (eexists; split_and!; [done|exact He|done|done|done]).
Qed.

(** One event keeps the invariant and every answer; an event that ends the session
    leaves nothing unanswered. *)
Lemma client_exec_inv s ev : (forall f, received ev = Some f -> heard f) -> sys_inv s ->
  sys_inv (exec s ev) /\ replies s ⊆ replies (exec s ev) /\
  (ended s = false -> ended (exec s ev) = true ->
   forall k, is_Some (asked (exec s ev) !! k) -> is_Some (replies (exec s ev) !! k)).
Proof.
  intros Hh Hs. pose proof Hs as [[d Hd] Hb He]. unfold replies. assert (Hdr : driver s = d) by (unfold driver; by rewrite Hd).
  destruct ev as [g id r| |p env]; cbn [exec].
  - rewrite Hdr in *. destruct (ended s) eqn:Een.
    + cbn. split; [|done]. constructor; cbn; [done|done|by intros _; apply He].
    + destruct (Initiator.enqueue d g id r false) as [d' [k|e]] eqn:Eq.
      * destruct (book_enqueue _ _ _ _ _ _ _ _ Hb Eq) as [Hb' Hr].
        split_and!; [by constructor|by change (Initiator.replies d ⊆ Initiator.replies d'); rewrite Hr|done].
      * assert (d' = d) as -> by (unfold Initiator.enqueue in Eq; destruct (_ <=? _); by simplify_eq).
        split_and!; [by constructor|done|done].
  - split_and!; [|done|cbn; congruence]. constructor; cbn; [done| |done].
    unfold driver at 1. cbn. rewrite Hdr, Hd in *. by apply (book_same _ d).
  - destruct (ended s) eqn:Een; [split_and!; [exact Hs|done|congruence]|].
    rewrite Hdr in *.
    assert (Hk : did_keep (asked s) d (part_step sha256 true peer generation (sess s) p))
      by (destruct p; [by apply tend_kept|apply attend_kept; [intros f ->; by apply Hh|done..]]).
    destruct (part_step _ _ _ _ _ p) as [[x out] flow]. destruct Hk as (d1 & H1 & H2 & H3).
    cbn in H1, H2. destruct flow as [|r|].
    + assert (Hd1 : driver (mk x (asked s) false) = d1) by (unfold driver; cbn; by rewrite H1).
      split_and!; [|by rewrite Hd1|done]. constructor; cbn; [by rewrite H1|by rewrite Hd1|done].
    + destruct (leave_kept _ _ _ r env H1 H2) as (d2 & G1 & G2 & G3 & G4 & G5).
      set (x2 := (leave peer x r env).1) in *.
      assert (Hd2 : driver (mk x2 (asked s) true) = d2) by (unfold driver; cbn; by rewrite G1).
      split_and!; [|rewrite Hd2; by etrans|by rewrite Hd2].
      constructor; cbn; [by rewrite G1|by rewrite Hd2, G3|done].
    + destruct (leave_kept _ _ _ (Err Re_SessionLost) env H1 H2) as (d2 & G1 & G2 & G3 & G4 & G5).
      set (x2 := (leave peer x _ env).1) in *.
      assert (Hd2 : driver (mk x2 (asked s) true) = d2) by (unfold driver; cbn; by rewrite G1).
      split_and!; [|rewrite Hd2; by etrans|by rewrite Hd2].
      constructor; cbn; [by rewrite G1|by rewrite Hd2, G3|done].
Qed.

Lemma client_run_inv evs : forall s, (forall f, f ∈ omap received evs -> heard f) -> sys_inv s ->
  sys_inv (run s evs).
Proof.
  induction evs as [|ev evs IH]; intros s Hh Hs; [done|]. cbn [run fold_left].
  apply IH.
  - intros f Hf. apply Hh. cbn. destruct (received ev); set_solver.
  - apply client_exec_inv; [|done]. intros f Hf. apply Hh. cbn. rewrite Hf. by left.
Qed.

(** A session whose client channel is unused. *)
Definition unused (x : Session H) : Prop :=
  app x = None /\
  exists d, se_driver x = Some d /\ Initiator.queue d = [] /\ Initiator.replies d = ∅ /\
            Initiator.issued d = 0%nat.

Lemma start_sys_inv x : unused x -> sys_inv (start x).
Proof.
  intros (Ha & d & Hd & Hq & Hr & Hi).
  assert (Hdr : driver (start x) = d) by (unfold driver; cbn; by rewrite Hd).
  constructor; [cbn; by rewrite Hd| |done]. rewrite Hdr. cbn. rewrite Ha.
  constructor; unfold tickets; rewrite ?Hq, ?Hr, ?Hi; cbn; try done.
  - intros k. rewrite lookup_empty. split; [by intros []|lia].
  - constructor.
  - intros k. rewrite !lookup_empty. split; [by intros []|].
    intros [Hk|[]%is_Some_None]. by apply not_elem_of_nil in Hk.
  - intros p Hp. by apply not_elem_of_nil in Hp.
Qed.

End Books.


End ClientSystem.
End ClientSystem.
