(* ===== verification/SessionFacts.v ===== *)
(** * Numbering and totality of the authenticated session

    Whatever the peer sends and the surroundings answer, both roles of the session
    number the frames they send consecutively and count them without wrapping; they
    panic only on the fragment that overflows the counter of a message in progress,
    after 2^32 - 1 received frames at the earliest. *)

From Stdlib Require Import ZArith Lia.
From stdpp Require Import base tactics list list_numbers gmap strings.
From S2P Require Import Prelude Types Pbmux Reassembly Control ResourceWire ComputeWire BufferWire.
From S2P Require Import Text Storage Records Runtime PairingLoop Initiator Session.

Definition seq_of (f : Frame) : Z := sequence (header f).

(** ** Frames carry the sequence number their builder was given *)

Lemma command_frame_seq c q n f : build_command_frame c q n = Ok f -> seq_of f = n.
Proof. unfold build_command_frame. intros E. ok_inv E. by simplify_eq. Qed.
Lemma ack_frame_seq a q n f : build_command_ack_frame a q n = Ok f -> seq_of f = n.
Proof. unfold build_command_ack_frame. intros E. ok_inv E. by simplify_eq. Qed.
Lemma heartbeat_frame_seq p n f : build_heartbeat_frame p n = Ok f -> seq_of f = n.
Proof. unfold build_heartbeat_frame. intros E. ok_inv E. by simplify_eq. Qed.
Lemma resource_request_seq r q n f : build_resource_request_frame r q n = Ok f -> seq_of f = n.
Proof. unfold build_resource_request_frame. intros E. ok_inv E. by simplify_eq. Qed.
Lemma resource_result_seq k r q n f : build_resource_result_frame k r q n = Ok f -> seq_of f = n.
Proof. unfold build_resource_result_frame. intros E. ok_inv E. by simplify_eq. Qed.
Lemma compute_request_seq r q n f : build_compute_request_frame r q n = Ok f -> seq_of f = n.
Proof. unfold build_compute_request_frame. intros E. ok_inv E. by simplify_eq. Qed.
Lemma compute_response_seq r q n f : build_compute_response_frame r q n = Ok f -> seq_of f = n.
Proof. unfold build_compute_response_frame. intros E. ok_inv E. by simplify_eq. Qed.

Lemma fragment_frames_seq flags_at ty q first total cs : forall i fs,
  fragment_frames flags_at ty q first total i cs = Ok fs ->
  seq_of <$> fs = seqZ (first + Z.of_nat i) (Z.of_nat (length fs)).
Proof.
  induction cs as [|c cs IH]; intros i fs E; cbn in E; [by simplify_eq|].
  destruct (checked_add64 first (Z.of_nat i)) as [n|] eqn:En; [|done].
  destruct (fragment_frames _ _ _ _ _ (S i) cs) as [rest|] eqn:Er; [|done].
  simplify_eq. cbn [fmap list_fmap length]. rewrite Nat2Z.inj_succ, seqZ_cons by lia.
  rewrite Z.pred_succ. f_equal.
  - unfold checked_add64 in En. case_match; by simplify_eq.
  - fold (fmap (M:=list) seq_of). rewrite (IH _ _ Er). f_equal. lia.
Qed.

Lemma buffer_request_seq r q n fs : build_remote_buffer_request_frames r q n = Ok fs ->
  seq_of <$> fs = seqZ n (Z.of_nat (length fs)).
Proof.
  unfold build_remote_buffer_request_frames. intros E. ok_inv E.
  apply fragment_frames_seq in E. by rewrite Z.add_0_r in E.
Qed.
Lemma buffer_result_seq k r q n fs : build_remote_buffer_result_frames k r q n = Ok fs ->
  seq_of <$> fs = seqZ n (Z.of_nat (length fs)).
Proof.
  unfold build_remote_buffer_result_frames. intros E. ok_inv E.
  apply fragment_frames_seq in E. by rewrite Z.add_0_r in E.
Qed.

Lemma one_seq f n : seq_of f = n -> seq_of <$> [f] = seqZ n (Z.of_nat (length [f])).
Proof. intros <-. cbn. done. Qed.

Lemma build_request_seq r q n fs e : build_request r q n = Ok (fs, e) ->
  seq_of <$> fs = seqZ n (Z.of_nat (length fs)).
Proof.
  unfold build_request. intros E. destruct r; ok_inv E; simplify_eq.
  - by eapply one_seq, command_frame_seq.
  - by eapply one_seq, resource_request_seq.
  - by eapply buffer_request_seq.
  - by eapply one_seq, compute_request_seq.
Qed.

(** ** What each part of a round keeps *)

Section Parts.
Context {H E : Type} `{CommandHandler H E}.
Context (sha256 : list byte -> list byte).
Context (initiator : bool) (peer : VerifiedPeerSession) (generation : option Z).

Implicit Types (s : Session H) (env : SEnv E).

Definition next_seq s : Z := sl_send_sequence (se_locals s).
(** No partial message waits for a fragment beyond number [m]. *)
Definition sane (m : Z) s : Prop :=
  Inv (sl_reassembler (se_locals s)) /\ reached m (sl_reassembler (se_locals s)) /\
  next_seq s <= U64_MAX.

Lemma sane_weaken m m' s : m <= m' -> sane m s -> sane m' s.
Proof.
  intros Hm (Hi & Hr & Hn). split; [done|split; [|done]]. intros k p Hk. specialize (Hr k p Hk). lia.
Qed.

(** From sequence number [n] on, the frames sent are numbered in order; a panic has the
    given cause. *)
Definition numbered (m : Z) (cause : Prop) (n : Z) (did : Session H * list Frame * SFlow) : Prop :=
  let '(s, out, flow) := did in
  seq_of <$> out = seqZ n (Z.of_nat (length out)) /\
  match flow with
  | Sf_Next => sane m s /\ next_seq s = n + Z.of_nat (length out)
  | Sf_Return _ => True
  | Sf_Panic => cause
  end.

Lemma fails_numbered m c s e : numbered m c (next_seq s) (fails s e).
Proof. by split. Qed.
Lemma goes_on_numbered m c s : sane m s -> numbered m c (next_seq s) (goes_on s).
Proof. intros. split; [done|]. cbn. split; [done|lia]. Qed.

Lemma send_all_prefix fs sent k out r : send_all fs sent k = (out, r) ->
  exists rest, fs = out ++ rest /\ (r = Ok tt -> rest = []).
Proof.
  revert k out. induction fs as [|f fs IH]; intros k out Es; cbn in Es.
  { injection Es as <- <-. by exists []. }
  destruct (sent k); [|injection Es as <- <-; by exists fs].
  destruct (send_all fs sent (S k)) as [out' r'] eqn:Er. injection Es as <- <-.
  destruct (IH _ _ Er) as (rest & -> & Hr). by exists rest.
Qed.

Lemma prefix_numbered n (out rest : list Frame) :
  seq_of <$> (out ++ rest) = seqZ n (Z.of_nat (length (out ++ rest))) ->
  seq_of <$> out = seqZ n (Z.of_nat (length out)).
Proof.
  rewrite fmap_app, length_app, Nat2Z.inj_add, seqZ_app by lia. intros Hs.
  apply app_inj_1 in Hs as [Hs _]; [done|]. by rewrite length_fmap, length_seqZ, Nat2Z.id.
Qed.

Lemma answer_numbered m c s fs env k :
  sane m s -> seq_of <$> fs = seqZ (next_seq s) (Z.of_nat (length fs)) ->
  (forall s, next_seq (k s) = next_seq s /\
             sl_reassembler (se_locals (k s)) = sl_reassembler (se_locals s)) ->
  numbered m c (next_seq s) (answer s fs env k).
Proof.
  intros (Hi & Hr0 & Hn) Hs Hk. unfold answer. fold (next_seq s).
  destruct (checked_add64 _ _) as [next|] eqn:En; [|by apply fails_numbered].
  unfold checked_add64 in En. case_match; [|done]. injection En as <-. bool_hyps.
  destruct (send_all fs _ 0) as [out r] eqn:Es.
  destruct (send_all_prefix _ _ _ _ _ Es) as (rest & -> & Hr).
  pose proof (prefix_numbered _ _ _ Hs) as Hp. rewrite length_app in *.
  destruct r as [[]|e]; [|by split].
  specialize (Hr eq_refl). subst rest. cbn [length] in *. rewrite Nat.add_0_r in *.
  destruct (Hk (on_locals s (set_send (se_locals s)
    (next_seq s + Z.of_nat (length out))))) as [Hk1 Hk2].
  split; [done|]. unfold sane. rewrite Hk1, Hk2. done.
Qed.

Lemma settle_numbered m c s q fits r : sane m s -> numbered m c (next_seq s) (settle s q fits r).
Proof.
  intros Hs. unfold settle. destruct (take_initiator_outstanding _ _) as [o|e]; [|by apply fails_numbered].
  destruct (fits _); (split; [done|]); [|done]. split; [done|]. unfold next_seq. cbn. lia.
Qed.

Lemma reassemble_numbered m s f k :
  0 <= m -> sane m s -> frame_wf f ->
  (forall s' p, sane (m + 1) s' -> next_seq s' = next_seq s ->
    numbered (m + 1) (U32_MAX <= m /\ counter_overflow (sl_reassembler (se_locals s)) f)
      (next_seq s) (k s' p)) ->
  numbered (m + 1) (U32_MAX <= m /\ counter_overflow (sl_reassembler (se_locals s)) f)
    (next_seq s) (reassemble s f k).
Proof.
  intros Hm (Hi & Hr & Hn) Hf Hk. unfold reassemble.
  destruct (reassembler_accept_inv _ f Hi Hf) as [(r & a & Ea & Ha)|(-> & Hx)].
  - rewrite Ea. pose proof (accept_reached m _ f r a Hm Hr Ea) as Hr'.
    destruct a as [[p|]|e]; [by apply Hk| |by split].
    split; [done|]. split; [done|]. unfold next_seq. cbn. lia.
  - split; [done|]. split; [|done]. destruct Hx as (_ & p & Hp & Hx).
    specialize (Hr _ _ Hp). lia.
Qed.

(** Close a branch that sends nothing, or sends an answer built from the next number. *)
Ltac branch Hs :=
  match goal with
  | |- numbered _ _ _ (fails ?s ?e) => exact (fails_numbered _ _ s e)
  | |- numbered _ _ _ (goes_on ?s) => exact (goes_on_numbered _ _ s Hs)
  | |- numbered _ _ _ (settle ?s ?q ?t ?r) => exact (settle_numbered _ _ s q t r Hs)
  | |- numbered _ _ _ (answer ?s ?fs ?e ?k) => refine (answer_numbered _ _ s fs e k Hs _ _); [|done]
  end.

Lemma attend_control_numbered m cause s f env :
  sane m s -> numbered m cause (next_seq s) (attend_control initiator peer s f env).
Proof.
  intros Hs. unfold attend_control.
  destruct (ControlType_try_from _) as [[]|]; try branch Hs.
  - destruct (negb initiator); branch Hs. done.
  - destruct initiator; [|branch Hs]. destruct (negb _); [branch Hs|].
    branch Hs.
  - destruct (parse_authenticated_command f) as [c|]; [|branch Hs].
    destruct (handle_authenticated_command _ _ _ _ _) as [h [a|e]]; [|branch Hs].
    destruct (_ || _); [branch Hs|].
    destruct (build_command_ack_frame _ _ _) as [f'|] eqn:Ef; branch Hs.
    by eapply one_seq, ack_frame_seq.
  - destruct (parse_command_ack_frame f); [|branch Hs]. destruct initiator; branch Hs.
  - by split; [|split].
Qed.

Lemma attend_resource_numbered m cause s f env :
  sane m s -> numbered m cause (next_seq s) (attend_resource initiator peer s f env).
Proof.
  intros Hs. unfold attend_resource. destruct initiator.
  - destruct (parse_resource_result_frame f) as [[k r]|]; branch Hs.
  - destruct (parse_resource_request_frame f) as [q|]; [|branch Hs].
    destruct (handle_authenticated_resource _ _ _ _ _) as [h [[k r]|e]]; [|branch Hs].
    destruct (negb _); [branch Hs|].
    destruct (build_resource_result_frame _ _ _ _) as [f'|] eqn:Ef; branch Hs.
    by eapply one_seq, resource_result_seq.
Qed.

Lemma attend_compute_numbered m cause s f env :
  sane m s -> numbered m cause (next_seq s) (attend_compute initiator peer s f env).
Proof.
  intros Hs. unfold attend_compute. destruct initiator.
  - destruct (parse_compute_response_frame f) as [r|]; branch Hs.
  - destruct (parse_compute_request_frame f) as [q|]; [|branch Hs].
    destruct (with_transport_liveness _ _) as [h [r|e]]; [|branch Hs].
    destruct (negb _); [branch Hs|].
    destruct (build_compute_response_frame _ _ _) as [f'|] eqn:Ef; branch Hs.
    by eapply one_seq, compute_response_seq.
Qed.

Lemma attend_remote_buffer_numbered m s f env :
  0 <= m -> sane m s -> frame_wf f ->
  numbered (m + 1) (U32_MAX <= m /\ counter_overflow (sl_reassembler (se_locals s)) f)
    (next_seq s) (attend_remote_buffer initiator peer s f env).
Proof.
  intros Hm Hs Hf. unfold attend_remote_buffer. destruct initiator.
  - destruct (validate_remote_buffer_result_fragment f); [|branch Hs].
    destruct (sl_application _) as [o|]; [|branch Hs]. destruct (negb _); [branch Hs|].
    apply reassemble_numbered; [done..|]. intros s' p Hs' <-.
    destruct (remote_response_kind _) as [k|]; [|branch Hs'].
    destruct (parse_remote_buffer_result_payload k p); branch Hs'.
  - destruct (validate_remote_buffer_request_fragment f); [|branch Hs].
    apply reassemble_numbered; [done..|]. intros s' p Hs' <-.
    destruct (parse_remote_buffer_request_payload _ p) as [q|]; [|branch Hs'].
    destruct (with_transport_liveness _ _) as [h [[k r]|e]]; [|branch Hs'].
    destruct (negb _); [branch Hs'|].
    destruct (build_remote_buffer_result_frames _ _ _ _) as [fs|] eqn:Ef; branch Hs'.
    by eapply buffer_result_seq.
Qed.

Lemma attend_numbered m s f env :
  0 <= m -> sane m s -> frame_wf f ->
  numbered (m + 1) (U32_MAX <= m /\ counter_overflow (sl_reassembler (se_locals s)) f)
    (next_seq s) (attend initiator peer s (Ok (Some f)) env).
Proof.
  intros Hm Hs Hw. unfold attend.
  destruct (accept_sequence _ f) as [tr [[]|e]]; [|branch Hs].
  destruct (authorize_dispatch f Committed); [|branch Hs].
  set (s1 := on_locals _ _). assert (Hs1 : sane m s1) by done.
  change (next_seq s) with (next_seq s1).
  change (sl_reassembler (se_locals s)) with (sl_reassembler (se_locals s1)).
  clearbody s1. assert (Hs2 : sane (m + 1) s1) by (by apply (sane_weaken m); [lia|]).
  destruct (channel (header f)).
  - by apply attend_control_numbered.
  - by apply attend_resource_numbered.
  - by apply attend_remote_buffer_numbered.
  - by apply attend_compute_numbered.
  - branch Hs2.
  - unfold attend_metrics. destruct (_ =? _); [|branch Hs2].
    destruct (parse_heartbeat_frame f); [|branch Hs2].
    branch Hs2.
Qed.

Lemma attend_none_numbered m c s r env :
  sane m s -> (forall f, r <> Ok (Some f)) ->
  numbered m c (next_seq s) (attend initiator peer s r env).
Proof.
  intros Hs Hf. unfold attend. destruct r as [[f|]|e]; [by destruct (Hf f)| |branch Hs].
  destruct (initiator_transport_expired _ _); branch Hs.
Qed.

Lemma numbered_app m c n s1 out1 did :
  seq_of <$> out1 = seqZ n (Z.of_nat (length out1)) ->
  next_seq s1 = n + Z.of_nat (length out1) -> numbered m c (next_seq s1) did ->
  numbered m c n (let '(s, out, flow) := did in (s, out1 ++ out, flow)).
Proof.
  intros H1 Hn. destruct did as [[s2 out2] flow2]. intros (H2 & Hf). rewrite Hn in *.
  split.
  - rewrite fmap_app, H1, H2, length_app, Nat2Z.inj_add, seqZ_app by lia. done.
  - rewrite length_app. destruct flow2; [split; [apply Hf|lia]|done|done].
Qed.

Lemma start_request_numbered d n now pending draws sent d' out r :
  start_initiator_request d n now pending draws sent = (d', out, r) -> n <= U64_MAX ->
  seq_of <$> out = seqZ n (Z.of_nat (length out)) /\
  match r with
  | Ok (next, _) => next = n + Z.of_nat (length out) /\ next <= U64_MAX
  | Err _ => True
  end.
Proof.
  unfold start_initiator_request. intros Est Hmax. revert Est.
  destruct (match pi_request_id pending with Some _ => _ | None => _ end) as [[q|]|e];
    [|intros [= <- <- <-]; cbn; split; [done|lia]|by intros [= <- <- <-]].
  destruct (build_request _ q n) as [[fs e]|] eqn:Eb;
    [|intros [= <- <- <-]; cbn; split; [done|lia]].
  apply build_request_seq in Eb.
  destruct (send_all fs sent 0) as [o [[]|e']] eqn:Es;
    destruct (send_all_prefix _ _ _ _ _ Es) as (rest & -> & Hr);
    pose proof (prefix_numbered _ _ _ Eb) as Hp.
  - rewrite (Hr eq_refl), app_nil_r. unfold checked_add64.
    destruct (_ <=? _) eqn:El; intros [= <- <- <-]; bool_hyps; by split.
  - intros [= <- <- <-]. by split.
Qed.

Lemma tend_numbered m c s env :
  sane m s -> numbered m c (next_seq s) (tend sha256 initiator peer generation s env).
Proof.
  intros Hs. unfold tend. destruct (match se_driver s with Some d => _ | None => _ end).
  { by split. }
  assert (Hh : numbered m c (next_seq s) (tend_heartbeat sha256 initiator peer s env)).
  { unfold tend_heartbeat. destruct (_ && _); [|branch Hs].
    destruct (authenticated_heartbeat _ _ _) as [h [[p|]|e]]; [| |branch Hs].
    - destruct (build_heartbeat_frame _ _) as [f|] eqn:Ef; branch Hs.
      by eapply one_seq, heartbeat_frame_seq.
    - branch Hs. }
  destruct (tend_heartbeat _ _ _ s env) as [[s1 out1] [|r|]]; [|done|done].
  destruct Hh as (H1 & Hs1 & Hn). apply (numbered_app m c _ s1); [done|done|].
  unfold tend_requests. destruct (initiator && _ && _).
  - destruct (random_nonzero_u64 _) as [q|]; [|branch Hs1].
    assert (Hp : seq_of <$> [control_frame Ct_Ping q (sl_send_sequence (se_locals s1))]
                 = seqZ (next_seq s1) 1) by done.
    destruct (sv_send env 0%nat); [|by split].
    destruct (checked_add64 _ 1) as [next|] eqn:En; [|by split].
    unfold checked_add64 in En. case_match; [|done]. injection En as <-. bool_hyps.
    split; [done|]. split; [|done]. split; [apply Hs1|]. split; [apply Hs1|done].
  - destruct (initiator && _); [|branch Hs1].
    destruct (se_driver s1) as [d|]; [|branch Hs1]. destruct generation as [g|]; [|branch Hs1].
    destruct (Initiator.next_request d g) as [d' [pending|]].
    2:{ branch Hs1. }
    destruct (start_initiator_request _ _ _ _ _ _) as [[d2 out] r] eqn:Est.
    destruct (start_request_numbered _ _ _ _ _ _ _ _ _ Est) as (Ho & Hr); [apply Hs1|].
    destruct r as [[next o]|e]; (split; [done|]); [|done]. destruct Hr as (Hr & Hm).
    split; [|done]. split; [apply Hs1|]. split; [apply Hs1|done].
Qed.

(** ** Whole sessions *)

(** The frame a part of a round receives. *)
Definition part_frame (p : Part E) : option Frame :=
  match p with Pt_Attend (Ok (Some f)) _ => Some f | _ => None end.
(** Received frames are what [decode] can return. *)
Definition part_wf (p : Part E) : Prop := forall f, part_frame p = Some f -> frame_wf f.

Local Abbreviation run := (session_run sha256 initiator peer generation).

(** The session [s], that received [m] frames before, stops at the fragment that
    overflows the counter of its message. *)
Definition stopped_by_counter (m : Z) s (ps : list (Part E)) : Prop :=
  exists pre f env post s1 out1, ps = pre ++ Pt_Attend (Ok (Some f)) env :: post /\
    run s pre = (s1, out1, Sf_Next) /\ counter_overflow (sl_reassembler (se_locals s1)) f /\
    U32_MAX <= m + Z.of_nat (length (omap part_frame pre)).

Lemma stopped_cons m s p ps s1 out1 :
  part_step sha256 initiator peer generation s p = (s1, out1, Sf_Next) ->
  stopped_by_counter (m + Z.of_nat (length (omap part_frame [p]))) s1 ps ->
  stopped_by_counter m s (p :: ps).
Proof.
  intros Ep (pre & f & env & post & s2 & out2 & -> & Er & Ho & Hm).
  exists (p :: pre), f, env, post, s2, (out1 ++ out2). split; [done|]. split; [|split; [done|]].
  - cbn [session_run]. rewrite Ep, Er. done.
  - cbn in *. destruct (part_frame p); cbn in *; lia.
Qed.

Lemma run_numbered ps : Forall part_wf ps -> forall m s, 0 <= m -> sane m s ->
  numbered (m + Z.of_nat (length (omap part_frame ps))) (stopped_by_counter m s ps)
    (next_seq s) (run s ps).
Proof.
  induction 1 as [|p ps Hp _ IH]; intros m s Hm Hs; cbn [session_run].
  { apply goes_on_numbered, (sane_weaken m); [lia|done]. }
  assert (Hstep : numbered (m + Z.of_nat (length (omap part_frame [p])))
    (stopped_by_counter m s (p :: ps)) (next_seq s)
    (part_step sha256 initiator peer generation s p)).
  { destruct p as [env|r env]; [apply tend_numbered, (sane_weaken m); [lia|done]|].
    destruct r as [[f|]|e];
      [|apply attend_none_numbered; [apply (sane_weaken m); [lia|done]|done]..].
    pose proof (attend_numbered m s f env Hm Hs (Hp f eq_refl)) as Ha. cbn [part_step omap list_omap part_frame length].
    destruct (attend _ _ _ _ _) as [[s1 out1] flow]. destruct Ha as [Ho Hf]. split; [exact Ho|].
    destruct flow; [exact Hf|done|]. destruct Hf as [Hu Hc].
    exists [], f, env, ps, s, []. cbn. repeat split; try done; try apply Hc. lia. }
  destruct (part_step _ _ _ _ s p) as [[s1 out1] flow] eqn:Ep.
  destruct Hstep as (H1 & Hf). destruct flow; [|by split|by split]. destruct Hf as [Hs1 Hn1].
  set (m1 := m + Z.of_nat (length (omap part_frame [p]))) in *.
  pose proof (IH m1 s1 ltac:(lia) Hs1) as Hrest.
  replace (m + Z.of_nat (length (omap part_frame (p :: ps))))
    with (m1 + Z.of_nat (length (omap part_frame ps)))
    by (unfold m1; cbn; destruct (part_frame p); cbn; lia).
  apply (numbered_app _ _ _ s1); [done|done|].
  destruct (run s1 ps) as [[s2 out2] flow2]. destruct Hrest as [Ho2 Hf2]. split; [done|].
  destruct flow2; [done|done|]. eapply stopped_cons; [exact Ep|exact Hf2].
Qed.

(** C14: Whatever frames the peer sends, the handler answers and the sockets do, the
    frames an authenticated session hands to the socket carry consecutive sequence
    numbers from the first number of the session on, and the number of the next frame
    is the count of frames sent and does not wrap.  The session panics only on the
    fragment that overflows the counter of its message, which the peer can send after
    2^32 - 1 received frames at the earliest (the session starts with no message in
    progress); in particular it never panics for an underflow of the accounting. *)
Theorem session_numbering s ps :
  sl_reassembler (se_locals s) = Reassembler.default ->
  0 <= sl_send_sequence (se_locals s) <= U64_MAX ->
  Forall part_wf ps ->
  let '(s', out, flow) := run s ps in
  (fun f => sequence (header f)) <$> out
    = seqZ (sl_send_sequence (se_locals s)) (Z.of_nat (length out)) /\
  (flow = Sf_Next ->
   sl_send_sequence (se_locals s') = sl_send_sequence (se_locals s) + Z.of_nat (length out) /\
   sl_send_sequence (se_locals s') <= U64_MAX) /\
  (flow = Sf_Panic -> exists pre f env post s1 out1,
     ps = pre ++ Pt_Attend (Ok (Some f)) env :: post /\
     run s pre = (s1, out1, Sf_Next) /\ counter_overflow (sl_reassembler (se_locals s1)) f /\
     U32_MAX <= Z.of_nat (length (omap part_frame pre))).
Proof.
  intros He Hn Hps.
  pose proof (run_numbered ps Hps 0 s ltac:(lia)) as Hrun.
  destruct (run s ps) as [[s' out] flow]. destruct Hrun as (H1 & H2).
  { unfold sane. rewrite He. split; [apply inv_default|]. split; [|apply Hn].
    by intros k p Hk. }
  split; [exact H1|]. split; intros ->; cbn in H2.
  - destruct H2 as [(_ & _ & Hm) Hx]. split; [exact Hx|exact Hm].
  - exact H2.
Qed.

End Parts.
