(* ===== verification/SessionDemo.v ===== *)
(** * A concrete session

    The initiator of the demonstration pairing with one client: it reserves memory on
    its peer, the peer answers, the connection is lost.  Instantiates the theorems of
    [ClientFacts] and [SessionFacts]. *)

From Stdlib Require Import ZArith Lia.
From stdpp Require Import base tactics list gmap strings.
From S2P Require Import Prelude Types Pbmux Reassembly Control ResourceWire ComputeWire BufferWire.
From S2P Require Import Text Storage Records Runtime PairingLoop PairingDemo Initiator Session.
From S2P Require Import ClientFacts SessionFacts.

Module SessionDemo.

#[local] Existing Instance no_handler.

Definition peer : VerifiedPeerSession :=
  mkVerifiedPeer (PairingDemo.key PairingSystem.Responder) (replicate 32 Byte.x09).

(** The state in which [enter_authenticated_loop] enters the loop. *)
Definition opened : Session unit :=
  mkSession tt (PairingDemo.fresh PairingSystem.Initiator)
    (Some (fst (Initiator.begin_session Initiator.channel (vp_peer_id peer) 0)))
    (mkSLocals 7 (SequenceTracker.mk 5) 2000 0 None None Reassembler.default).

Definition env (now : Z) : SEnv unit :=
  mkSEnv now now (fun _ => Some (to_be 8 5)) (fun _ => Ok tt) tt false.

Definition lease : list byte := replicate 16 Byte.x01.
Definition worker : list byte := replicate 16 Byte.x02.
Definition request : InitiatorRequest := Iq_Resource (Reserve lease worker Wc_RemoteBufferBytes 4096).
Definition refusal : ResourceResult :=
  mkResourceResult Rs_Failed Rr_ResourceExhausted lease worker None.
Definition refusal_frame : Frame :=
  match build_resource_result_frame Rk_ReserveAck refusal 9 5 with
  | Ok f => f
  | Err _ => control_frame Ct_Ping 1 5
  end.

Local Abbreviation run := (ClientSystem.run PairingDemo.sha256 peer (Some 1)).
Local Abbreviation exec := (ClientSystem.exec PairingDemo.sha256 peer (Some 1)).

Definition asked : list (ClientSystem.Event (E := unit)) := [
  ClientSystem.Ev_Ask 1 (Some 9) request;
  ClientSystem.Ev_Part (Pt_Tend (env 10)) (env 10);
  ClientSystem.Ev_Part (Pt_Attend (Ok (Some refusal_frame)) (env 20)) (env 20);
  ClientSystem.Ev_Ask 1 None request].
Definition lost : ClientSystem.Event (E := unit) :=
  ClientSystem.Ev_Part (Pt_Attend (Err Re_SessionLost) (env 30)) (env 30).


Definition parts : list (Part unit) := [
  Pt_Tend (env 10); Pt_Attend (Ok None) (env 20); Pt_Tend (env 3000);
  Pt_Attend (Ok (Some (control_frame Ct_Pong 5 5))) (env 3010); Pt_Tend (env 6000)].

(** Two PINGs, numbered 7 and 8. *)
Lemma session_numbering_witness :
  let '(s', out, flow) :=
    session_run PairingDemo.sha256 true peer (Some 1) opened parts in
  (fun f => sequence (header f)) <$> out = seqZ 7 2 /\ flow = Sf_Next /\
  sl_send_sequence (se_locals s') = 9.
Proof.
  pose proof (session_numbering PairingDemo.sha256 true peer (Some 1) opened parts) as H.
  destruct (session_run _ _ _ _ _ _) as [[s' out] flow] eqn:Er.
  assert (Ho : length out = 2%nat /\ flow = Sf_Next).
  { vm_compute in Er. injection Er as <- <- <-. done. }
  destruct Ho as [Ho ->]. destruct H as (Hs & Hn & _).
  - reflexivity.
  - cbn. unfold U64_MAX. lia.
  - repeat (apply List.Forall_cons; [intros f [= <-]; repeat constructor; by vm_compute|]).
    apply List.Forall_nil.
  - rewrite Ho in Hs, Hn. destruct (Hn eq_refl) as [Hn' _]. done.
Defined.

End SessionDemo.
