(* ===== verification/RemoteCall.v ===== *)
(** * A call through an authenticated session

    Joins the two ends of a session: a request that a client has queued at the initiator
    is sent, the responder's handler is called with it, the handler's answer is sent back
    and handed to the client.  [call] is that exchange, made of the loops of [Session];
    the theorem says that nothing is lost or altered on the way, for commands, resource,
    buffer and compute requests alike, and that the session is ready for the next call. *)

From Stdlib Require Import ZArith Lia.
From stdpp Require Import base tactics list list_numbers gmap strings.
From S2P Require Import Prelude Types Pbmux Reassembly Codec Control ResourceWire ComputeWire.
From S2P Require Import BufferWire Delivery Text Storage Records Runtime PairingLoop Initiator.
From S2P Require Import Session ClientFacts SessionFacts.

(** ** Messages *)

(** Values that fit the fields of the wire format. *)
Definition typed_request (q : InitiatorRequest) : Prop :=
  match q with
  | Iq_Command c => Command.typed c
  | Iq_Resource r => rr_typed r
  | Iq_RemoteBuffer r => rb_typed r
  | Iq_Compute r => cq_typed r
  end.

Definition typed_response (r : InitiatorResponse) : Prop :=
  match r with
  | Ir_Command a => Ack.typed a
  | Ir_Resource r => rs_typed r
  | Ir_RemoteBuffer r => bf_typed r
  | Ir_Compute r => cx_typed r
  end.

(** The frames with which a responder answers a request. *)
Definition build_answer (q : InitiatorRequest) (r : InitiatorResponse) (rid n : Z) :
    result (list Frame) PbmuxError :=
  match q, r with
  | Iq_Command _, Ir_Command a => let? f := build_command_ack_frame a rid n in Ok [f]
  | Iq_Resource q, Ir_Resource r =>
      let? f := build_resource_result_frame (resource_kind q) r rid n in Ok [f]
  | Iq_RemoteBuffer q, Ir_RemoteBuffer r =>
      build_remote_buffer_result_frames (remote_buffer_kind q) r rid n
  | Iq_Compute _, Ir_Compute r => let? f := build_compute_response_frame r rid n in Ok [f]
  | _, _ => Err bad_command
  end.

(** An answer that settles the request: of its kind, for its command or job, and final. *)
Definition settles (q : InitiatorRequest) (r : InitiatorResponse) : Prop :=
  response_fits q r /\
  match r with
  | Ir_Command a => Ack.ack_state a = 2 \/ Ack.ack_state a = 3
  | _ => True
  end.

(** Single-frame messages: what the receiver reads off the header. *)
Record heads (f : Frame) (c : Channel) (ty rid n : Z) : Prop := {
  hd_channel : channel (header f) = c;
  hd_type : message_type (header f) = ty;
  hd_id : request_id (header f) = rid;
  hd_seq : sequence (header f) = n;
}.

Ltac heads_by E := unfold build_command_frame, build_command_ack_frame,
  build_resource_request_frame, build_resource_result_frame, build_compute_request_frame,
  build_compute_response_frame in E; ok_inv E; simplify_eq; by constructor.

Lemma command_heads c q n f : build_command_frame c q n = Ok f ->
  heads f Ch_Control (ControlType_as_u16 Ct_Command) q n.
Proof. intros E. heads_by E. Qed.
Lemma ack_heads a q n f : build_command_ack_frame a q n = Ok f ->
  heads f Ch_Control (ControlType_as_u16 Ct_CommandAck) q n.
Proof. intros E. heads_by E. Qed.
Lemma resource_request_heads r q n f : build_resource_request_frame r q n = Ok f ->
  exists ty, heads f Ch_Resource ty q n.
Proof. intros E. eexists. heads_by E. Qed.
Lemma resource_result_heads k r q n f : build_resource_result_frame k r q n = Ok f ->
  exists ty, heads f Ch_Resource ty q n.
Proof. intros E. eexists. heads_by E. Qed.
Lemma compute_request_heads r q n f : build_compute_request_frame r q n = Ok f ->
  exists ty, heads f Ch_Compute ty q n.
Proof. intros E. eexists. heads_by E. Qed.
Lemma compute_response_heads r q n f : build_compute_response_frame r q n = Ok f ->
  exists ty, heads f Ch_Compute ty q n.
Proof. intros E. eexists. heads_by E. Qed.

Lemma fragment_frames_ids flags_at ty q first total cs : forall i fs,
  fragment_frames flags_at ty q first total i cs = Ok fs ->
  Forall (fun f => channel (header f) = Ch_RemoteBuffer /\ request_id (header f) = q) fs.
Proof.
  induction cs as [|c cs IH]; intros i fs E; cbn in E; [by simplify_eq|].
  ok_inv E. simplify_eq. constructor; [done|]. by eapply IH.
Qed.

Lemma buffer_request_ids r q n fs : build_remote_buffer_request_frames r q n = Ok fs ->
  Forall (fun f => channel (header f) = Ch_RemoteBuffer /\ request_id (header f) = q) fs.
Proof.
  unfold build_remote_buffer_request_frames. intros E. ok_inv E. by eapply fragment_frames_ids.
Qed.
Lemma buffer_result_ids k r q n fs : build_remote_buffer_result_frames k r q n = Ok fs ->
  Forall (fun f => channel (header f) = Ch_RemoteBuffer /\ request_id (header f) = q) fs.
Proof.
  unfold build_remote_buffer_result_frames. intros E. ok_inv E. by eapply fragment_frames_ids.
Qed.

(** ** Frames through a loop *)

(** The peer's frames, read one per round. *)
Definition deliver {E} (envs : nat -> SEnv E) (fs : list Frame) : list (Part E) :=
  imap (fun i f => Pt_Attend (Ok (Some f)) (envs i)) fs.

Lemma deliver_cons {E} (envs : nat -> SEnv E) f fs :
  deliver envs (f :: fs) =
    Pt_Attend (Ok (Some f)) (envs 0%nat) :: deliver (fun i => envs (S i)) fs.
Proof. done. Qed.

Section Frames.
Context {H E : Type} `{CommandHandler H E}.
Context (sha256 : list byte -> list byte) (initiator : bool).
Context (peer : VerifiedPeerSession) (generation : option Z).
Implicit Types (s : Session H) (env : SEnv E).

(** The loop's variables after it has accepted a frame with sequence number [n - 1]. *)
Definition accepted s (n now : Z) (r : Reassembler.t) : Session H :=
  let l := se_locals s in
  on_locals s (mkSLocals (sl_send_sequence l) (SequenceTracker.mk n) (sl_next_heartbeat l) now
                 (sl_heartbeat_outstanding l) (sl_application l) r).

Lemma attend_accepts s f env n :
  SequenceTracker.expected (sl_receive_sequence (se_locals s)) = n ->
  sequence (header f) = n -> 0 <= n < U64_MAX ->
  ~ (channel (header f) = Ch_Control /\ message_type (header f) = 8) ->
  let s' := accepted s (n + 1) (sv_now env) (sl_reassembler (se_locals s)) in
  attend initiator peer s (Ok (Some f)) env =
    match channel (header f) with
    | Ch_Control => attend_control initiator peer s' f env
    | Ch_Resource => attend_resource initiator peer s' f env
    | Ch_RemoteBuffer => attend_remote_buffer initiator peer s' f env
    | Ch_Compute => attend_compute initiator peer s' f env
    | Ch_Metrics => attend_metrics s' f env
    | Ch_AiRpc => fails s' Re_Pbmux
    end.
Proof.
  intros He Hs Hn Hc s'. unfold attend, accept_sequence, SequenceTracker.accept.
  rewrite He, Hs, Z.eqb_refl. cbn [negb].
  unfold checked_add64. rewrite (proj2 (Z.leb_le (n + 1) U64_MAX)) by lia. cbn [map_err].
  assert (authorize_dispatch f Committed = Ok tt) as ->; [|done].
  unfold authorize_dispatch. change (ControlType_as_u16 Ct_PairConfirm) with 8.
  destruct (bool_decide_reflect (channel (header f) = Ch_Control)),
    (Z.eqb_spec (message_type (header f)) 8); try done. by destruct Hc.
Qed.

(** A message of one frame. *)
Lemma run_single s f (envs : nat -> SEnv E) did :
  attend initiator peer s (Ok (Some f)) (envs 0%nat) = did -> snd did = Sf_Next ->
  session_run sha256 initiator peer generation s (deliver envs [f]) = did.
Proof.
  intros Ha Hd. unfold deliver. cbn [imap session_run part_step]. rewrite Ha. destruct did as [[s1 out] flow]. cbn in Hd. subst flow.
  by rewrite app_nil_r.
Qed.

(** A message in fragments: only the last one has an effect beyond the loop's
    variables. *)
Lemma run_message (K : Session H -> list byte -> SEnv E -> Session H * list Frame * SFlow)
    (o : option InitiatorOutstanding) fs : forall s n R b (envs : nat -> SEnv E) did,
  (forall s f env, f ∈ fs -> sl_application (se_locals s) = o ->
     attend_remote_buffer initiator peer s f env = reassemble s f (fun s p => K s p env)) ->
  Forall (fun f => channel (header f) = Ch_RemoteBuffer) fs ->
  sl_application (se_locals s) = o ->
  SequenceTracker.expected (sl_receive_sequence (se_locals s)) = n ->
  seq_of <$> fs = seqZ n (Z.of_nat (length fs)) ->
  0 <= n -> n + Z.of_nat (length fs) <= U64_MAX -> (0 < length fs)%nat ->
  Reassembler.run (sl_reassembler (se_locals s)) fs =
    Some (R, replicate (length fs - 1) (Ok None) ++ [Ok (Some b)]) ->
  let last := envs (length fs - 1)%nat in
  K (accepted s (n + Z.of_nat (length fs)) (sv_now last) R) b last = did -> snd did = Sf_Next ->
  session_run sha256 initiator peer generation s (deliver envs fs) = did.
Proof.
  induction fs as [|f fs IH]; intros s n R b envs did HK Hc Ha He Hs Hn Hmax Hl Hr last Hd Hnext.
  { cbn in Hl. lia. }
  cbn [length] in *. apply Forall_cons in Hc as (Hc1 & Hc2).
  assert (Hseq : sequence (header f) = n /\
                 seq_of <$> fs = seqZ (n + 1) (Z.of_nat (length fs))).
  { rewrite Nat2Z.inj_succ, seqZ_cons in Hs by lia. rewrite Z.pred_succ in Hs. cbn in Hs.
    rewrite <- Z.add_1_r in Hs. injection Hs as H1 H2. done. }
  destruct Hseq as (Hf & Hfs).
  rewrite deliver_cons. cbn [session_run part_step].
  rewrite (attend_accepts s f (envs 0%nat) n); [|done|done|lia|by rewrite Hc1; intros []].
  rewrite Hc1, HK; [|set_solver|done]. unfold reassemble.
  change (sl_reassembler (se_locals (accepted s _ _ ?R))) with R.
  cbn [Reassembler.run] in Hr.
  destruct (Reassembler.accept (sl_reassembler (se_locals s)) f) as [[r1 a1]|] eqn:Eacc;
    [|done]. cbn [mbind option_bind] in Hr.
  destruct (Reassembler.run r1 fs) as [[r2 as2]|] eqn:Erun; [|done].
  cbn [mbind option_bind] in Hr. injection Hr as -> Has.
  destruct fs as [|f2 fs].
  - cbn [length Nat.sub replicate app] in *. cbn in Erun. injection Erun as <- <-.
    injection Has as ->. change (Z.of_nat 1) with 1 in Hd. unfold last in Hd. cbn in Hd.
    change (on_locals (accepted s ?a ?b ?c) (set_reassembler _ ?r)) with (accepted s a b r).
    rewrite Hd. destruct did as [[s1 out] flow]. cbn in Hnext. subst flow. cbn.
    by rewrite app_nil_r.
  - cbn [length Nat.sub replicate app] in Has. injection Has as -> ->.
    cbn [goes_on].
    change (on_locals (accepted s ?a ?b ?c) (set_reassembler _ ?r)) with (accepted s a b r).
    set (s1 := accepted s (n + 1) (sv_now (envs 0%nat)) r1).
    assert (Hrest : session_run sha256 initiator peer generation s1
                      (deliver (fun i => envs (S i)) (f2 :: fs)) = did).
    { apply (IH s1 (n + 1) R b); try done.
      - intros s0 f0 env0 Hin. apply HK. set_solver.
      - lia.
      - cbn [length] in *. lia.
      - cbn [length]. lia.
      - cbn [length Nat.sub]. rewrite Nat.sub_0_r. exact Erun.
      - subst last. cbn [length Nat.sub] in *. rewrite <- Hd.
        unfold s1, accepted. cbn [on_locals se_locals sl_send_sequence sl_next_heartbeat
          sl_heartbeat_outstanding sl_application se_handler se_runtime se_driver].
        replace (n + 1 + Z.of_nat (S (length fs))) with (n + Z.of_nat (S (S (length fs)))) by lia.
        by rewrite Nat.sub_0_r. }
    rewrite Hrest. destruct did as [[s2 out] flow]. done.
Qed.

End Frames.

(** ** The responder *)

Section Responder.
Context {H E : Type} `{CommandHandler H E}.
Context (sha256 : list byte -> list byte).
Context (peer : VerifiedPeerSession) (generation : option Z).
Implicit Types (s : Session H) (h : H) (env : SEnv E).

(** The handler is called with the request and answers it with [r]. *)
Definition served (e : E) h (rid : Z) (q : InitiatorRequest) h' (r : InitiatorResponse) : Prop :=
  match q, r with
  | Iq_Command c, Ir_Command a => handle_authenticated_command h e peer rid c = (h', Ok a)
  | Iq_Resource q, Ir_Resource r =>
      handle_authenticated_resource h e peer rid q = (h', Ok (resource_kind q, r))
  | Iq_RemoteBuffer q, Ir_RemoteBuffer r =>
      handle_authenticated_remote_buffer h e peer rid q = (h', Ok (remote_buffer_kind q, r))
  | Iq_Compute q, Ir_Compute r => handle_authenticated_compute h e peer rid q = (h', Ok r)
  | _, _ => False
  end.

(** Surroundings in which sending succeeds and the connection stays up. *)
Record steady (e : E) env : Prop := {
  sd_send : forall k, sv_send env k = Ok tt;
  sd_handler : sv_handler env = e;
  sd_up : sv_lost env = false;
}.

Lemma send_all_ok fs sent k : (forall k, sent k = Ok tt) -> send_all fs sent k = (fs, Ok tt).
Proof.
  intros Hs. revert k. induction fs as [|f fs IH]; intros k; [done|].
  cbn [send_all]. by rewrite Hs, IH.
Qed.

Lemma answer_ok s fs env e :
  steady e env -> sl_send_sequence (se_locals s) + Z.of_nat (length fs) <= U64_MAX ->
  answer s fs env id =
    (on_locals s (set_send (se_locals s)
       (sl_send_sequence (se_locals s) + Z.of_nat (length fs))), fs, Sf_Next).
Proof.
  intros [Hs _ _] Hn. unfold answer, checked_add64. rewrite (proj2 (Z.leb_le _ _)) by done.
  by rewrite send_all_ok.
Qed.

(** The responder's loop after it has answered. *)
Definition responded s (h' : H) (sent expected now : Z) : Session H :=
  let l := se_locals s in
  mkSession h' (se_runtime s) (se_driver s)
    (mkSLocals sent (SequenceTracker.mk expected) (sl_next_heartbeat l) now
       (sl_heartbeat_outstanding l) (sl_application l) (sl_reassembler l)).

Section Respond.
Context (s : Session H) (e : E) (envs : nat -> SEnv E) (rid n : Z).
Hypothesis (Hasm : sl_reassembler (se_locals s) = Reassembler.default).
Hypothesis (Hexp : SequenceTracker.expected (sl_receive_sequence (se_locals s)) = n).
Hypothesis (Hn : 0 <= n) (Hmax : n + 69 <= U64_MAX) (Hrid : 0 < rid < 2 ^ 64).
Hypothesis (Henv : forall i, steady e (envs i)).

Local Abbreviation sent := (sl_send_sequence (se_locals s)).

(** The handler's answer goes out, the loop is ready for the next frame. *)
Lemma answered h' now m answers env :
  steady e env -> sent + Z.of_nat (length answers) <= U64_MAX ->
  answer (on_handler (accepted s m now Reassembler.default) h') answers env id =
    (responded s h' (sent + Z.of_nat (length answers)) m now, answers, Sf_Next).
Proof using Hasm.
  intros Hs Hm. rewrite (answer_ok _ _ _ e) by done. unfold responded. by rewrite Hasm.
Qed.

(** The frame of a single-frame request is accepted. *)
Lemma accepts_head f c ty :
  heads f c ty rid n -> ~ (c = Ch_Control /\ ty = 8) ->
  let s' := accepted s (n + 1) (sv_now (envs 0%nat)) Reassembler.default in
  attend false peer s (Ok (Some f)) (envs 0%nat) =
    match c with
    | Ch_Control => attend_control false peer s' f (envs 0%nat)
    | Ch_Resource => attend_resource false peer s' f (envs 0%nat)
    | Ch_RemoteBuffer => attend_remote_buffer false peer s' f (envs 0%nat)
    | Ch_Compute => attend_compute false peer s' f (envs 0%nat)
    | Ch_Metrics => attend_metrics s' f (envs 0%nat)
    | Ch_AiRpc => fails s' Re_Pbmux
    end.
Proof using Hasm Hexp Hn Hmax.
  intros [Hc Hty Hid Hseq] Hp s'. rewrite (attend_accepts _ _ s f _ n) by (lia || congruence).
  by rewrite Hc, Hasm.
Qed.

Lemma respond_command c f h' a g :
  Command.typed c -> build_command_frame c rid n = Ok f ->
  handle_authenticated_command (se_handler s) e peer rid c = (h', Ok a) ->
  Ack.command_seq a = Command.command_seq c -> (Ack.ack_state a = 2 \/ Ack.ack_state a = 3) ->
  build_command_ack_frame a rid sent = Ok g -> sent + 1 <= U64_MAX ->
  session_run sha256 false peer generation s (deliver envs [f]) =
    (responded s h' (sent + 1) (n + 1) (sv_now (envs 0%nat)), [g], Sf_Next).
Proof using Hasm Hexp Hn Hmax Henv.
  intros Ht Hb Hserve Hseq Hfin Ha Hm. pose proof (command_heads _ _ _ _ Hb) as Hh.
  apply run_single; [|done]. rewrite (accepts_head f _ _ Hh) by (by intros []).
  destruct Hh as [_ Hty Hid Hsq]. unfold attend_control. rewrite Hty. cbn [ControlType_as_u16].
  change (ControlType_try_from 5) with (@Ok _ unit Ct_Command).
  unfold parse_authenticated_command.
  rewrite (proj2 (command_frame_bijective f c)) by (by rewrite Hid, Hsq).
  rewrite Hid, (sd_handler _ _ (Henv 0%nat)).
  change (se_handler (accepted s _ _ _)) with (se_handler s). rewrite Hserve, Hseq, Z.eqb_refl.
  assert ((Ack.ack_state a =? 2) || (Ack.ack_state a =? 3) = true) as ->
    by (destruct Hfin as [-> | ->]; done).
  cbn [negb orb]. change (sl_send_sequence (se_locals (accepted s _ _ _))) with sent.
  rewrite Ha. by rewrite answered.
Qed.

Lemma respond_resource q f h' r g :
  rr_typed q -> build_resource_request_frame q rid n = Ok f ->
  handle_authenticated_resource (se_handler s) e peer rid q = (h', Ok (resource_kind q, r)) ->
  build_resource_result_frame (resource_kind q) r rid sent = Ok g -> sent + 1 <= U64_MAX ->
  session_run sha256 false peer generation s (deliver envs [f]) =
    (responded s h' (sent + 1) (n + 1) (sv_now (envs 0%nat)), [g], Sf_Next).
Proof using Hasm Hexp Hn Hmax Henv.
  intros Ht Hb Hserve Ha Hm. destruct (resource_request_heads _ _ _ _ Hb) as (ty & Hh).
  apply run_single; [|done]. rewrite (accepts_head f _ _ Hh) by (by intros []).
  destruct Hh as [_ _ Hid Hsq]. unfold attend_resource.
  rewrite (proj2 (resource_request_bijective f q)) by (by rewrite Hid, Hsq).
  rewrite Hid, (sd_handler _ _ (Henv 0%nat)).
  change (se_handler (accepted s _ _ _)) with (se_handler s). rewrite Hserve.
  rewrite bool_decide_true by done. cbn [negb].
  change (sl_send_sequence (se_locals (on_handler (accepted s _ _ _) h'))) with sent.
  rewrite Ha. by rewrite answered.
Qed.

Lemma respond_compute q f h' r g :
  cq_typed q -> build_compute_request_frame q rid n = Ok f ->
  handle_authenticated_compute (se_handler s) e peer rid q = (h', Ok r) ->
  accepts_compute (compute_expected q) r = true ->
  build_compute_response_frame r rid sent = Ok g -> sent + 1 <= U64_MAX ->
  session_run sha256 false peer generation s (deliver envs [f]) =
    (responded s h' (sent + 1) (n + 1) (sv_now (envs 0%nat)), [g], Sf_Next).
Proof using Hasm Hexp Hn Hmax Henv.
  intros Ht Hb Hserve Hfit Ha Hm. destruct (compute_request_heads _ _ _ _ Hb) as (ty & Hh).
  apply run_single; [|done]. rewrite (accepts_head f _ _ Hh) by (by intros []).
  destruct Hh as [_ _ Hid Hsq]. unfold attend_compute.
  rewrite (proj2 (compute_request_bijective f q)) by (by rewrite Hid, Hsq).
  rewrite Hid, (sd_handler _ _ (Henv 0%nat)), (sd_up _ _ (Henv 0%nat)).
  change (se_handler (accepted s _ _ _)) with (se_handler s). rewrite Hserve.
  cbn [with_transport_liveness map_err].
  assert (compute_response_fits q r = true) as -> by (destruct q, r; done). cbn [negb].
  change (sl_send_sequence (se_locals (on_handler (accepted s _ _ _) h'))) with sent.
  rewrite Ha. by rewrite answered.
Qed.

(** What the responder does with a whole remote-buffer request. *)
Definition whole_request (ty : Z) (s : Session H) (payload : list byte) (env : SEnv E) :
    Session H * list Frame * SFlow :=
  match parse_remote_buffer_request_payload ty payload with
  | Err _ => fails s Re_Pbmux
  | Ok request =>
      match with_transport_liveness
              (handle_authenticated_remote_buffer (se_handler s) (sv_handler env) peer rid request)
              (sv_lost env) with
      | (h, Err e) => fails (on_handler s h) e
      | (h, Ok (kind, r)) =>
          let s := on_handler s h in
          if negb (bool_decide (kind = remote_buffer_kind request))
          then fails s Re_CommandHandlerFailed
          else
            match build_remote_buffer_result_frames kind r rid
                    (sl_send_sequence (se_locals s)) with
            | Err _ => fails s Re_CommandHandlerFailed
            | Ok frames => answer s frames env id
            end
      end
  end.

Lemma default_room : has_room Reassembler.default Ch_RemoteBuffer.
Proof. split_and!; by vm_compute. Qed.

Lemma respond_buffer q fs h' r gs :
  rb_typed q -> build_remote_buffer_request_frames q rid n = Ok fs ->
  handle_authenticated_remote_buffer (se_handler s) e peer rid q
    = (h', Ok (remote_buffer_kind q, r)) ->
  build_remote_buffer_result_frames (remote_buffer_kind q) r rid sent = Ok gs ->
  sent + Z.of_nat (length gs) <= U64_MAX ->
  session_run sha256 false peer generation s (deliver envs fs) =
    (responded s h' (sent + Z.of_nat (length gs)) (n + Z.of_nat (length fs))
       (sv_now (envs (length fs - 1)%nat)), gs, Sf_Next).
Proof using Hasm Hexp Hn Hmax Henv Hrid.
  intros Ht Hb Hserve Ha Hm.
  assert (Hids : rb_ids_nonzero q = true /\ is_ok (encode_buffer_request q) = true).
  { unfold build_remote_buffer_request_frames in Hb. ok_inv Hb. bool_hyps.
    unfold rb_ids_nonzero.
    by repeat match goal with X : nonzero _ = true |- _ => rewrite X; clear X end. }
  destruct Hids as (Hz & Henc). unfold U64_MAX in *.
  destruct (buffer_request_delivery q rid n Reassembler.default Ht Hz Henc) as
    (ty & b & fs' & Hb' & Hlen & Hwf & Hrun & Hparse);
    [lia|lia|lia|apply inv_default|done|apply default_room|].
  rewrite Hb in Hb'. injection Hb' as <-. rewrite Forall_forall in Hwf.
  pose proof (buffer_request_ids _ _ _ _ Hb) as Hid. rewrite Forall_forall in Hid.
  pose proof (buffer_request_seq _ _ _ _ Hb) as Hseq.
  apply (run_message _ _ _ _ (whole_request ty) (sl_application (se_locals s)) fs s n
           Reassembler.default b); try done; try lia.
  - intros s0 f env Hf _. destruct (Hwf f Hf) as (_ & Hty & Hv). destruct (Hid f Hf) as (_ & Hi).
    unfold attend_remote_buffer. by rewrite Hv, Hty, Hi.
  - rewrite Forall_forall. intros f Hf. by apply Hid.
  - unfold U64_MAX. lia.
  - by rewrite Hasm.
  - unfold whole_request. rewrite Hparse.
    set (env := envs (length fs - 1)%nat). pose proof (Henv (length fs - 1)) as He. fold env in He.
    rewrite (sd_handler _ _ He), (sd_up _ _ He).
    change (se_handler (accepted s _ _ _)) with (se_handler s). rewrite Hserve.
    cbn [with_transport_liveness map_err]. rewrite bool_decide_true by done. cbn [negb].
    change (sl_send_sequence (se_locals (on_handler (accepted s _ _ _) h'))) with sent.
    rewrite Ha. by rewrite answered.
Qed.

(** Whatever the request: the handler is called with it, and its answer is sent. *)
Lemma respond q fs ex h' r answers :
  typed_request q -> build_request q rid n = Ok (fs, ex) ->
  served e (se_handler s) rid q h' r -> settles q r ->
  build_answer q r rid sent = Ok answers -> sent + Z.of_nat (length answers) <= U64_MAX ->
  session_run sha256 false peer generation s (deliver envs fs) =
    (responded s h' (sent + Z.of_nat (length answers)) (n + Z.of_nat (length fs))
       (sv_now (envs (length fs - 1)%nat)), answers, Sf_Next).
Proof using Hasm Hexp Hn Hmax Henv Hrid.
  intros Ht Hb Hserve [Hfit Hfin] Ha Hm. cbn [build_request] in Hb.
  destruct q as [c|q|q|q], r as [a|r|r|r]; try done; cbn [build_request build_answer] in Hb, Ha;
    ok_inv Hb; injection Hb as <- <-; try (ok_inv Ha; injection Ha as <-).
  - by eapply respond_command.
  - by eapply respond_resource.
  - by eapply respond_buffer.
  - apply accepts_compute_fits in Hfit. by eapply respond_compute.
Qed.

End Respond.
End Responder.

(** ** The initiator *)

Section Caller.
Context {H E : Type} `{CommandHandler H E}.
Context (sha256 : list byte -> list byte).
Context (peer : VerifiedPeerSession) (g : Z).
Implicit Types (s : Session H) (env : SEnv E).

(** A session that can send the client's next request [p] at once. *)
Record ready s (d : Initiator.t) (p : PendingInitiatorRequest) (rest : list PendingInitiatorRequest) :
  Prop := {
  rd_driver : se_driver s = Some d;
  rd_cancel : Initiator.cancel d = false;
  rd_queue : Initiator.queue d = p :: rest;
  rd_generation : pi_generation p = g;
  rd_idle : idle (se_locals s) = true;
}.

(** The request identifier: the client's own, or one drawn for the request. *)
Definition numbered_by (p : PendingInitiatorRequest) env (rid : Z) : Prop :=
  pi_request_id p = Some rid \/
  pi_request_id p = None /\ random_nonzero_u64 (sv_draws env) = Ok rid.

(** The initiator's loop after it has sent the request. *)
Definition called s (d : Initiator.t) (rest : list PendingInitiatorRequest)
    (o : InitiatorOutstanding) (sent : Z) : Session H :=
  mkSession (se_handler s) (se_runtime s) (Some (Initiator.with_queue d rest))
    (set_application (set_send (se_locals s) sent) (Some o)).

Lemma tend_calls s d p rest env fs ex rid :
  ready s d p rest -> sv_now env < sl_next_heartbeat (se_locals s) ->
  (forall k, sv_send env k = Ok tt) -> numbered_by p env rid -> rid <> 0 ->
  build_request (pi_request p) rid (sl_send_sequence (se_locals s)) = Ok (fs, ex) ->
  sl_send_sequence (se_locals s) + Z.of_nat (length fs) <= U64_MAX ->
  tend sha256 true peer (Some g) s env =
    (called s d rest (mkOutstanding rid ex (sv_after env) (pi_response p))
       (sl_send_sequence (se_locals s) + Z.of_nat (length fs)), fs, Sf_Next).
Proof.
  intros [Hd Hc Hq Hg Hi] Hb Hsend Hid Hz Hbuild Hm.
  unfold tend. rewrite Hd, Hc. unfold tend_heartbeat. cbn [negb andb goes_on].
  unfold tend_requests. rewrite (proj2 (Z.leb_gt _ _)) by done. cbn [andb]. rewrite Hi, Hd.
  unfold Initiator.next_request. rewrite Hq. cbn [Initiator.next_in].
  rewrite Hg, Z.eqb_refl. unfold start_initiator_request.
  assert (match pi_request_id p with
          | Some id => if id =? 0 then Ok None else Ok (Some id)
          | None => let? id := random_nonzero_u64 (sv_draws env) in Ok (Some id)
          end = Ok (Some rid)) as ->.
  { destruct Hid as [->|[-> ->]]; [|done]. by rewrite (proj2 (Z.eqb_neq _ _)). }
  rewrite Hbuild, send_all_ok by done.
  unfold checked_add64. rewrite (proj2 (Z.leb_le _ _)) by done. done.
Qed.

Section Receive.
Context (s : Session H) (d : Initiator.t) (o : InitiatorOutstanding).
Context (envs : nat -> SEnv E) (n : Z).
Hypothesis (Hdrv : se_driver s = Some d) (Happ : sl_application (se_locals s) = Some o).
Hypothesis (Hasm : sl_reassembler (se_locals s) = Reassembler.default).
Hypothesis (Hexp : SequenceTracker.expected (sl_receive_sequence (se_locals s)) = n).
Hypothesis (Hn : 0 <= n) (Hmax : n + 69 <= U64_MAX).
Hypothesis (Hrid : 0 < io_request_id o < 2 ^ 64).

Local Abbreviation rid := (io_request_id o).

(** The initiator's loop after it has handed the answer to the client. *)
Definition settled (r : InitiatorResponse) (expected now : Z) : Session H :=
  let l := se_locals s in
  mkSession (se_handler s) (se_runtime s)
    (Some (Initiator.reply d (io_response o) (Rp_Sent (Ok r))))
    (mkSLocals (sl_send_sequence l) (SequenceTracker.mk expected) (sl_next_heartbeat l) now
       (sl_heartbeat_outstanding l) None (sl_reassembler l)).

Lemma settle_fits m now fits r : fits (io_expected o) = true ->
  settle (accepted s m now Reassembler.default) rid fits r = (settled r m now, [], Sf_Next).
Proof using Hdrv Happ Hasm.
  intros Hf. unfold settle.
  change (sl_application (se_locals (accepted s m now _))) with (sl_application (se_locals s)).
  rewrite Happ. cbn [take_initiator_outstanding]. rewrite Z.eqb_refl, Hf.
  unfold settled, complete, on_driver. cbn [se_driver on_locals accepted].
  rewrite Hdrv, Hasm. done.
Qed.

Lemma receives_head f c ty :
  heads f c ty rid n -> ~ (c = Ch_Control /\ ty = 8) ->
  let s' := accepted s (n + 1) (sv_now (envs 0%nat)) Reassembler.default in
  attend true peer s (Ok (Some f)) (envs 0%nat) =
    match c with
    | Ch_Control => attend_control true peer s' f (envs 0%nat)
    | Ch_Resource => attend_resource true peer s' f (envs 0%nat)
    | Ch_RemoteBuffer => attend_remote_buffer true peer s' f (envs 0%nat)
    | Ch_Compute => attend_compute true peer s' f (envs 0%nat)
    | Ch_Metrics => attend_metrics s' f (envs 0%nat)
    | Ch_AiRpc => fails s' Re_Pbmux
    end.
Proof using Hasm Hexp Hn Hmax.
  intros [Hc Hty Hid Hseq] Hp s'. rewrite (attend_accepts _ _ s f _ n) by (lia || congruence).
  by rewrite Hc, Hasm.
Qed.

Local Abbreviation run gs := (session_run sha256 true peer (Some g) s (deliver envs gs)).

Lemma receive_ack a f :
  Ack.typed a -> build_command_ack_frame a rid n = Ok f ->
  io_expected o = Ex_Command (Ack.command_seq a) ->
  run [f] = (settled (Ir_Command a) (n + 1) (sv_now (envs 0%nat)), [], Sf_Next).
Proof using Hdrv Happ Hasm Hexp Hn Hmax.
  intros Ht Hb Hex. pose proof (ack_heads _ _ _ _ Hb) as Hh.
  apply run_single; [|done]. rewrite (receives_head f _ _ Hh) by (by intros []).
  destruct Hh as [_ Hty Hid Hsq]. unfold attend_control. rewrite Hty. cbn [ControlType_as_u16].
  change (ControlType_try_from 6) with (@Ok _ unit Ct_CommandAck).
  rewrite (proj2 (command_ack_frame_bijective f a)) by (by rewrite Hid, Hsq).
  rewrite Hid. apply settle_fits. rewrite Hex. apply Z.eqb_refl.
Qed.

Lemma receive_resource k r f :
  rs_typed r -> build_resource_result_frame k r rid n = Ok f -> io_expected o = Ex_Resource k ->
  run [f] = (settled (Ir_Resource r) (n + 1) (sv_now (envs 0%nat)), [], Sf_Next).
Proof using Hdrv Happ Hasm Hexp Hn Hmax.
  intros Ht Hb Hex. destruct (resource_result_heads _ _ _ _ _ Hb) as (ty & Hh).
  apply run_single; [|done]. rewrite (receives_head f _ _ Hh) by (by intros []).
  destruct Hh as [_ _ Hid Hsq]. unfold attend_resource.
  rewrite (proj2 (resource_result_bijective f k r)) by (by rewrite Hid, Hsq).
  rewrite Hid. apply settle_fits. by apply bool_decide_true.
Qed.

Lemma receive_compute r f :
  cx_typed r -> build_compute_response_frame r rid n = Ok f ->
  accepts_compute (io_expected o) r = true ->
  run [f] = (settled (Ir_Compute r) (n + 1) (sv_now (envs 0%nat)), [], Sf_Next).
Proof using Hdrv Happ Hasm Hexp Hn Hmax.
  intros Ht Hb Hex. destruct (compute_response_heads _ _ _ _ Hb) as (ty & Hh).
  apply run_single; [|done]. rewrite (receives_head f _ _ Hh) by (by intros []).
  destruct Hh as [_ _ Hid Hsq]. unfold attend_compute.
  rewrite (proj2 (compute_response_bijective f r)) by (by rewrite Hid, Hsq).
  rewrite Hid. by apply settle_fits.
Qed.

Lemma remote_response_kind_type k : remote_response_kind (buffer_message_type k) = Ok k.
Proof. by destruct k. Qed.

Lemma receive_buffer k r fs :
  bf_typed r -> build_remote_buffer_result_frames k r rid n = Ok fs ->
  io_expected o = Ex_RemoteBuffer k ->
  run fs = (settled (Ir_RemoteBuffer r) (n + Z.of_nat (length fs))
              (sv_now (envs (length fs - 1)%nat)), [], Sf_Next).
Proof using Hdrv Happ Hasm Hexp Hn Hmax Hrid.
  intros Ht Hb Hex.
  assert (Henc : is_ok (encode_buffer_result k r) = true)
    by (unfold build_remote_buffer_result_frames in Hb; by ok_inv Hb).
  unfold U64_MAX in *.
  destruct (buffer_result_delivery k r rid n Reassembler.default Ht Henc) as
    (b & fs' & Hb' & Hlen & Hwf & Hrun & Hparse);
    [lia|lia|lia|apply inv_default|done|apply default_room|].
  rewrite Hb in Hb'. injection Hb' as <-. rewrite Forall_forall in Hwf.
  pose proof (buffer_result_ids _ _ _ _ _ Hb) as Hid. rewrite Forall_forall in Hid.
  apply (run_message _ _ _ _ (fun s p env =>
      match parse_remote_buffer_result_payload k p with
      | Err _ => fails s Re_Pbmux
      | Ok r => settle s rid (fun e => bool_decide (e = Ex_RemoteBuffer k)) (Ir_RemoteBuffer r)
      end) (Some o) fs s n Reassembler.default b); try done; try lia.
  - intros s0 f env Hf Ho. destruct (Hwf f Hf) as (_ & Hty & Hv). destruct (Hid f Hf) as (_ & Hi).
    unfold attend_remote_buffer. rewrite Hv, Hty, Hi, Ho, Z.eqb_refl. cbn [negb].
    by rewrite remote_response_kind_type.
  - rewrite Forall_forall. intros f Hf. by apply Hid.
  - by eapply buffer_result_seq.
  - unfold U64_MAX. lia.
  - by rewrite Hasm.
  - rewrite Hparse. apply settle_fits. by apply bool_decide_true.
Qed.

(** Whatever the request: its answer completes it. *)
Lemma receive q r gs :
  typed_response r -> build_answer q r rid n = Ok gs -> io_expected o = expected_of q ->
  settles q r ->
  run gs = (settled r (n + Z.of_nat (length gs)) (sv_now (envs (length gs - 1)%nat)), [], Sf_Next).
Proof using Hdrv Happ Hasm Hexp Hn Hmax Hrid.
  intros Ht Hb Hex [Hfit _].
  destruct q as [c|q|q|q], r as [a|r|r|r]; try done; cbn [build_answer] in Hb;
    try (ok_inv Hb; injection Hb as <-); cbn [expected_of response_fits] in *.
  - apply receive_ack; [done..|]. by rewrite Hfit.
  - by apply (receive_resource (resource_kind q)).
  - by apply (receive_buffer (remote_buffer_kind q)).
  - apply receive_compute; [done..|]. rewrite Hex. by apply accepts_compute_fits.
Qed.

End Receive.
End Caller.

(** ** The exchange *)

Lemma buffer_frames_count flags_at ty q first total b : forall fs,
  fragment_frames flags_at ty q first total 0 (chunks FRAGMENT b) = Ok fs ->
  0 < len b <= MAX_LOGICAL_MESSAGE -> (length fs <= 69)%nat.
Proof.
  intros fs E Hb. pose proof (ck_count _ _ (chunks_chunked b Hb)) as Hc.
  assert (length fs = length (chunks FRAGMENT b)) as ->; [|lia].
  revert E. generalize 0%nat. generalize (chunks FRAGMENT b). clear.
  intros cs. revert fs. induction cs as [|c cs IH]; intros fs i E; cbn in E; [by simplify_eq|].
  ok_inv E. simplify_eq. cbn. f_equal. by eapply IH.
Qed.

Lemma build_request_count q rid n fs ex :
  typed_request q -> build_request q rid n = Ok (fs, ex) -> (length fs <= 69)%nat.
Proof.
  intros Ht E. destruct q as [c|q|q|q]; cbn in E; ok_inv E; simplify_eq; cbn; try lia.
  unfold build_remote_buffer_request_frames in G. ok_inv G.
  eapply buffer_frames_count; [exact G|]. destruct t as [ty b].
  destruct (encode_request_shape q ty b Ht G1) as [Hb _]. unfold snd. lia.
Qed.

Lemma build_answer_count q r rid n fs :
  typed_response r -> build_answer q r rid n = Ok fs -> (length fs <= 69)%nat.
Proof.
  intros Ht E. destruct q as [c|q|q|q], r as [a|r|r|r]; cbn in E; try done;
    try (ok_inv E; simplify_eq; cbn; lia).
  unfold build_remote_buffer_result_frames in E. ok_inv E.
  eapply buffer_frames_count; [exact E|].
  destruct (encode_result_shape _ _ _ Ht G0) as [Hb _]. lia.
Qed.

Section Call.
Context {Hi Ei : Type} {IH : CommandHandler Hi Ei} {H E : Type} {RH : CommandHandler H E}.
Context (sha256 : list byte -> list byte).
Context (worker host : VerifiedPeerSession) (g : Z).

(** The initiator sends its client's next request, the responder reads it and answers,
    the initiator reads the answer. *)
Definition call (si : Session Hi) (sr : Session H) (env : SEnv Ei) (renvs : nat -> SEnv E)
    (ienvs : nat -> SEnv Ei) : option (Session Hi * Session H) :=
  match tend sha256 true worker (Some g) si env with
  | (si, frames, Sf_Next) =>
      match session_run sha256 false host None sr (deliver renvs frames) with
      | (sr, answers, Sf_Next) =>
          match session_run sha256 true worker (Some g) si (deliver ienvs answers) with
          | (si, [], Sf_Next) => Some (si, sr)
          | _ => None
          end
      | _ => None
      end
  | _ => None
  end.

(** Two ends of one session between calls: each expects the number the other sends
    next, and no message or request is half done. *)
Record linked (si : Session Hi) (sr : Session H) : Prop := {
  lk_there : SequenceTracker.expected (sl_receive_sequence (se_locals sr))
             = sl_send_sequence (se_locals si);
  lk_back : SequenceTracker.expected (sl_receive_sequence (se_locals si))
            = sl_send_sequence (se_locals sr);
  lk_pos : 0 <= sl_send_sequence (se_locals si) /\ 0 <= sl_send_sequence (se_locals sr);
  lk_asm : sl_reassembler (se_locals si) = Reassembler.default /\
           sl_reassembler (se_locals sr) = Reassembler.default;
  lk_idle : idle (se_locals si) = true;
}.

(** The next request of the client can be sent at once, with number [rid]; the sockets
    and the connection hold; [e] is what the handler's surroundings answer. *)
Record callable (si : Session Hi) (sr : Session H) (d : Initiator.t)
    (p : PendingInitiatorRequest) (rest : list PendingInitiatorRequest) (env : SEnv Ei)
    (renvs : nat -> SEnv E) (e : E) (rid : Z) : Prop := {
  ca_linked : linked si sr;
  ca_ready : ready g si d p rest;
  ca_before_heartbeat : sv_now env < sl_next_heartbeat (se_locals si);
  ca_sends : forall k, sv_send env k = Ok tt;
  ca_steady : forall i, steady e (renvs i);
  ca_numbered : numbered_by p env rid;
  ca_rid : 0 < rid < 2 ^ 64;
  ca_room : sl_send_sequence (se_locals si) + 69 <= U64_MAX /\
            sl_send_sequence (se_locals sr) + 69 <= U64_MAX;
  ca_typed : typed_request (pi_request p);
  ca_builds : is_ok (build_request (pi_request p) rid (sl_send_sequence (se_locals si))) = true;
}.

(** The handler answers the request with [r] and [h'] as its next state, and [r] can be
    sent as the answer. *)
Record answerable (sr : Session H) (p : PendingInitiatorRequest) (e : E) (rid : Z) (h' : H)
    (r : InitiatorResponse) : Prop := {
  an_served : served host e (se_handler sr) rid (pi_request p) h' r;
  an_settles : settles (pi_request p) r;
  an_typed : typed_response r;
  an_builds : is_ok (build_answer (pi_request p) r rid (sl_send_sequence (se_locals sr))) = true;
}.

(** The two ends after the exchange. *)
Record exchanged (si : Session Hi) (d : Initiator.t) (p : PendingInitiatorRequest)
    (rest : list PendingInitiatorRequest) (h' : H) (r : InitiatorResponse)
    (si' : Session Hi) (sr' : Session H) (d' : Initiator.t) : Prop := {
  ec_linked : linked si' sr';
  ec_handler : se_handler sr' = h';
  ec_own_handler : se_handler si' = se_handler si;
  ec_driver : se_driver si' = Some d';
  ec_queue : Initiator.queue d' = rest;
  ec_replies : Initiator.replies d'
               = <[pi_response p := Rp_Sent (Ok r)]> (Initiator.replies d);
}.

Lemma exchange si sr d p rest env renvs ienvs e rid h' r :
  callable si sr d p rest env renvs e rid -> answerable sr p e rid h' r ->
  exists si' sr' d', call si sr env renvs ienvs = Some (si', sr') /\
                     exchanged si d p rest h' r si' sr' d'.
Proof.
  intros [[Hth Hbk [Hp1 Hp2] [Ha1 Ha2] _] Hrd Hnow Hsend Hst Hid Hrid [Hm1 Hm2] Htq Hbq]
    [Hsv Hset Htr Hbr].
  destruct (build_request _ _ _) as [[fs ex]|] eqn:Ebq; [|done].
  destruct (build_answer _ _ _ _) as [gs|] eqn:Ebr; [|done].
  pose proof (build_request_count _ _ _ _ _ Htq Ebq) as Hc1.
  pose proof (build_answer_count _ _ _ _ _ Htr Ebr) as Hc2.
  unfold call.
  rewrite (tend_calls sha256 worker g si d p rest env fs ex rid) by (done || lia).
  rewrite (respond sha256 host None sr e renvs rid (sl_send_sequence (se_locals si)) Ha2 Hth Hp1
             Hm1 Hrid Hst (pi_request p) fs ex h' r gs) by (done || lia).
  set (o := mkOutstanding rid ex (sv_after env) (pi_response p)).
  set (si1 := called si d rest o _).
  rewrite (receive sha256 worker g si1 (Initiator.with_queue d rest) o ienvs
             (sl_send_sequence (se_locals sr)) eq_refl eq_refl Ha1 Hbk Hp2 Hm2 Hrid
             (pi_request p) r gs Htr Ebr (build_request_expected _ _ _ _ _ Ebq) Hset).
  do 3 eexists. split; [done|]. constructor; try done.
  destruct Hrd as [_ _ _ _ Hidle]. unfold idle in *. bool_hyps.
  constructor; cbn; try done; [lia|]. unfold idle. cbn. by rewrite H0.
Qed.

(** C4: A request that a client has queued is carried to the peer's handler and its
    answer back.  When the request is one that can be encoded, the handler answers it
    with a final, encodable answer for it, and sending succeeds, then the exchange
    completes: the handler was called once, with exactly that request; the client
    finds exactly the handler's answer; no other answer changes; and both ends are
    ready for the next call.  This holds for commands, resource, remote-buffer
    (in up to 69 fragments each way) and compute requests. *)
Theorem remote_call_faithful si sr d p rest env renvs ienvs e rid h' r :
  callable si sr d p rest env renvs e rid -> answerable sr p e rid h' r ->
  exists si' sr' d',
    call si sr env renvs ienvs = Some (si', sr') /\ linked si' sr' /\
    se_handler sr' = h' /\ se_driver si' = Some d' /\ Initiator.queue d' = rest /\
    Initiator.await d' (pi_response p) = Ok r /\
    forall k, k <> pi_response p -> Initiator.await d' k = Initiator.await d k.
Proof.
  intros Hc Ha. destruct (exchange si sr d p rest env renvs ienvs e rid h' r Hc Ha)
    as (si' & sr' & d' & Hcall & [Hl Hh _ Hd Hq Hr]).
  exists si', sr', d'. split_and!; try done.
  - unfold Initiator.await. by rewrite Hr, lookup_insert_eq.
  - intros k Hk. unfold Initiator.await. by rewrite Hr, lookup_insert_ne.
Qed.

End Call.
