(* ===== verification/Android.v ===== *)
(** * android core-jni: the worker behind the secure runtime

    Models [android/core-jni/src/lib.rs]: the worker in its process-wide slot, the
    [AuthenticatedCommandHandler] that serves authenticated sessions with it, and the
    integer interface of the Android application.

    A slot is the content of a [Mutex] and whether it is poisoned: a panic inside
    [with_worker] poisons the worker's mutex, and every later [lock()] fails.  The
    handler's [He_Failed] then stands for the unwinding of the session's thread up to the
    boundary that catches it; no reachable worker gets there ([RemoteWorker]).  [jint] and
    [jlong] are [Z]. *)

From Stdlib Require Import ZArith Lia.
From stdpp Require Import base tactics list gmap strings.
From S2P Require Import Prelude Types Pbmux Control ResourceWire ComputeWire BufferWire.
From S2P Require Import Lease ResourceGuard BufferStore ComputeStore WorkerCore.
From S2P Require Import Sas Text Storage Records Runtime PairingLoop Initiator Session.

Definition RESULT_OK : Z := 0.
Definition RESULT_ALREADY_RUNNING : Z := 1.
Definition ERROR_INTERNAL : Z := -1.
Definition ERROR_NOT_RUNNING : Z := -2.
Definition ERROR_ENTROPY : Z := -3.
Definition ERROR_PANIC_CONTAINED : Z := -4.
Definition ERROR_BAD_LOCAL_SAMPLE : Z := -5.
Definition ERROR_SECURE_STATE : Z := -6.
Definition ERROR_SECURE_SESSION : Z := -7.
Definition STATE_STOPPED : Z := 0.
Definition STATE_COLD_START : Z := 1.
Definition STATE_PAIRING_REQUIRED : Z := 2.

(** [u64 as i64] *)
Definition as_i64 (z : Z) : Z := if z <? 2 ^ 63 then z else z - 2 ^ 64.

(** [u64::try_from(i64)], [u8::try_from(i32)] *)
Definition u64_try_from (z : Z) : option Z := if 0 <=? z then Some z else None.
Definition u8_try_from (z : Z) : option Z := if (0 <=? z) && (z <=? 255) then Some z else None.

(** ** The worker's slot *)

Record Slot : Type := mkSlot {
  sl_worker : option Worker.t;
  sl_poisoned : bool;
}.

Definition running (w : Worker.t) : Slot := mkSlot (Some w) false.
Definition stopped : Slot := mkSlot None false.

Definition with_worker {T} (s : Slot)
    (apply : Worker.t -> option (Worker.t * result T HandlerError)) :
    Slot * result T HandlerError :=
  if sl_poisoned s then (s, Err He_Failed)
  else
    match sl_worker s with
    | None => (s, Err He_Unavailable)
    | Some w =>
        match apply w with
        | None => (mkSlot (Some w) true, Err He_Failed)
        | Some (w, r) => (running w, r)
        end
    end.

(** ** Commands and acknowledgements *)

Definition controller_command (c : Command.Payload) : ControllerCommand :=
  if Command.command_type c =? 1 then Cc_Acquire
  else if Command.command_type c =? 2 then Cc_Renew (Command.lease_id c) (Command.command_seq c)
  else if Command.command_type c =? 3 then Cc_Release (Command.lease_id c) (Command.command_seq c)
  else Cc_Unsupported (Command.command_seq c).

Definition failure_code (r : ControllerFailureReason) : Z :=
  match r with
  | Cf_ControllerBusy => 1
  | Cf_StaleControllerLease => 2
  | Cf_OutOfOrder => 3
  | Cf_DuplicateResultEvicted => 4
  | Cf_UnsupportedMessage => 5
  end.

Definition controller_ack (r : ControllerCommandResult) : Ack.Payload :=
  match r with
  | Cmd_Completed command_seq lease => {|
      Ack.ack_state := 2;
      Ack.reason_code := 0;
      Ack.command_seq := command_seq;
      Ack.expected_present := 0;
      Ack.expected := 0;
      Ack.result_ref_present := u8_of_bool (is_some lease);
      Ack.lease_id := match lease with Some l => lr_lease_id l | None => zeros 16 end;
      Ack.worker_incarnation :=
        match lease with Some l => lr_worker_incarnation_id l | None => zeros 16 end;
      Ack.ttl_remaining_ms := match lease with Some l => lr_ttl_remaining_ms l | None => 0 end;
      Ack.next_command_seq := match lease with Some l => lr_next_command_seq l | None => 0 end;
      Ack.digest_present := 0;
      Ack.digest := zeros 32 |}
  | Cmd_Failed command_seq reason expected_next_seq => {|
      Ack.ack_state := 3;
      Ack.reason_code := failure_code reason;
      Ack.command_seq := command_seq;
      Ack.expected_present := u8_of_bool (is_some expected_next_seq);
      Ack.expected := default 0 expected_next_seq;
      Ack.result_ref_present := 0;
      Ack.lease_id := zeros 16;
      Ack.worker_incarnation := zeros 16;
      Ack.ttl_remaining_ms := 0;
      Ack.next_command_seq := 0;
      Ack.digest_present := 0;
      Ack.digest := zeros 32 |}
  end.

(** ** The handler *)

Section Handler.
Context {Hasher : Type} (hasher_new : Hasher) (hasher_update : Hasher -> list byte -> Hasher)
  (hasher_finalize : Hasher -> list byte).

(** [SessionBinding::Production(session_id)] of the session proof. *)
Definition verified (v : VerifiedPeerSession) : VerifiedSession :=
  mkVerified (vp_peer_id v) (be_val (vp_session_id v)).

Definition ok_of {T} (r : option (Worker.t * T)) : option (Worker.t * result T HandlerError) :=
  match r with Some (w, x) => Some (w, Ok x) | None => None end.

Definition android_handler : CommandHandler Slot Env := {|
  handle_authenticated_command s env v _ command :=
    with_worker s (fun w =>
      let '(w, r) :=
        Worker.apply_controller_command w (verified v) (controller_command command) env in
      Some (w, match r with Ok r => Ok (controller_ack r) | Err _ => Err He_Failed end));
  handle_authenticated_resource s env v request_id request :=
    with_worker s (fun w =>
      ok_of (Worker.apply_resource_request w (verified v) request_id request env));
  handle_authenticated_remote_buffer s env v _ request :=
    with_worker s (fun w =>
      ok_of (Worker.apply_remote_buffer_request w (verified v) request env));
  handle_authenticated_compute s env v request_id request :=
    with_worker s (fun w =>
      ok_of (Worker.apply_compute_request hasher_new hasher_update hasher_finalize w (verified v)
               request_id request env));
  authenticated_heartbeat s env v :=
    with_worker s (fun w =>
      let '(w, p) := Worker.heartbeat_payload w (verified v) env in Some (w, Ok p));
  authenticated_session_ended s env v :=
    with_worker s (fun w =>
      Some (Worker.authenticated_session_ended w (verified v) env, Ok tt));
|}.
End Handler.

(** ** The worker's life *)

Definition start_worker (s : Slot) (entropy : Entropy) : Slot * Z :=
  if sl_poisoned s then (s, ERROR_INTERNAL)
  else if is_some (sl_worker s) then (s, RESULT_ALREADY_RUNNING)
  else
    match Worker.cold_start entropy with
    | Ok w => (running w, RESULT_OK)
    | Err _ => (s, ERROR_ENTROPY)
    end.

Definition stop_worker (s : Slot) : Slot * Z :=
  if sl_poisoned s then (s, ERROR_INTERNAL)
  else
    match sl_worker s with
    | Some _ => (stopped, RESULT_OK)
    | None => (s, ERROR_NOT_RUNNING)
    end.

Definition worker_state (s : Slot) : Z :=
  if sl_poisoned s then ERROR_INTERNAL
  else
    match sl_worker s with
    | None => STATE_STOPPED
    | Some w =>
        match Worker.state w with
        | Ws_ColdStart => STATE_COLD_START
        | Ws_PairingRequired => STATE_PAIRING_REQUIRED
        end
    end.

Definition incarnation_word (s : Slot) (high : bool) : Z :=
  if sl_poisoned s then ERROR_INTERNAL
  else
    match sl_worker s with
    | None => ERROR_NOT_RUNNING
    | Some w => as_i64 (read_u64 (Worker.incarnation w) (if high then 0%nat else 8%nat))
    end.

(** ** Local health *)

Definition flag (z : Z) : bool := (z =? 0) || (z =? 1).

(** The sample that the arguments describe, if they are well-formed. *)
Definition local_sample (available_memory_bytes low_memory thermal_code battery_percent charging
    power_save monotonic_ms : Z) : option HealthSample :=
  available ← u64_try_from available_memory_bytes;
  monotonic ← u64_try_from monotonic_ms;
  thermal ← from_android_code thermal_code;
  battery ← u8_try_from battery_percent;
  if (100 <? battery) || negb (flag low_memory) || negb (flag charging) || negb (flag power_save)
  then None
  else Some (mkSample available (low_memory =? 1) thermal battery (charging =? 1)
               (power_save =? 1) monotonic).

Definition update_health (s : Slot) (env : Env) (available_memory_bytes low_memory thermal_code
    battery_percent charging power_save monotonic_ms : Z) : Slot * Z :=
  match local_sample available_memory_bytes low_memory thermal_code battery_percent charging
          power_save monotonic_ms with
  | None => (s, ERROR_BAD_LOCAL_SAMPLE)
  | Some sample =>
      if sl_poisoned s then (s, ERROR_INTERNAL)
      else
        match sl_worker s with
        | None => (s, ERROR_NOT_RUNNING)
        | Some w => (running (fst (Worker.record_local_health w sample env)), RESULT_OK)
        end
  end.

Definition SafetyBand_as_i32 (b : SafetyBand) : Z :=
  match b with
  | Sb_Nominal => 0 | Sb_Throttle => 1 | Sb_RefusedMemoryPressure => 2 | Sb_RefusedThermal => 3
  | Sb_RefusedBattery => 4 | Sb_RefusedStaleState => 5
  end.

Definition health_field (s : Slot) (field now_ms : Z) : Z :=
  match u64_try_from now_ms with
  | None => ERROR_BAD_LOCAL_SAMPLE
  | Some now_ms =>
      if sl_poisoned s then ERROR_INTERNAL
      else
        match sl_worker s with
        | None => ERROR_NOT_RUNNING
        | Some w =>
            let status := Guard.health_status (Worker.resource_guard w) now_ms in
            if field =? 0 then
              as_i64 (Guard.sample_count (Guard.health (Worker.resource_guard w)))
            else if field =? 1 then SafetyBand_as_i32 (hl_safety status)
            else if field =? 2 then ThermalBand_as_i32 (hl_thermal status)
            else if field =? 3 then BatteryBand_as_i32 (hl_battery status)
            else if field =? 4 then
              match hl_sample_age_ms status with Some age => as_i64 age | None => -1 end
            else if field =? 5 then as_i64 (hl_budget_bytes status)
            else ERROR_BAD_LOCAL_SAMPLE
        end
  end.

Definition authority_state (s : Slot) (field : Z) : Z :=
  if sl_poisoned s then ERROR_INTERNAL
  else
    match sl_worker s with
    | None => ERROR_NOT_RUNNING
    | Some w =>
        if field =? 0 then
          match LeaseManager.state (Worker.lease_manager w) with
          | Ls_Free => 0 | Ls_Active => 1 | Ls_Revoking => 2 | Ls_Expired => 3
          end
        else if field =? 1 then 1
        else ERROR_BAD_LOCAL_SAMPLE
    end.

(** ** The secure runtime's integer interface *)

(** [open] stands for [StateStore::from_directory_fd]; [init] for
    [SecureRuntime::initialize] in its surroundings. *)
Definition initialize_secure (slot : option SecureRuntime.t) (directory_fd : Z)
    (open : option (Dir * Dir)) (init : EndpointRole -> Dir -> Dir ->
    result SecureRuntime.t RuntimeError) : option SecureRuntime.t * Z :=
  if directory_fd <? 0 then (slot, ERROR_SECURE_STATE)
  else if is_some slot then (slot, RESULT_ALREADY_RUNNING)
  else
    match open with
    | None => (slot, ERROR_SECURE_STATE)
    | Some (root, peers) =>
        match init AndroidResponder root peers with
        | Err _ => (slot, ERROR_SECURE_STATE)
        | Ok rt => (Some rt, RESULT_OK)
        end
    end.

Definition secure_state (rt : option SecureRuntime.t) : Z :=
  match rt with
  | None => ERROR_SECURE_STATE
  | Some rt =>
      match ss_state (SecureRuntime.snapshot rt) with
      | Rt_Unpaired => 0 | Rt_PairingXx => 1 | Rt_SasPending => 2 | Rt_LocalConfirmed => 3
      | Rt_PeerConfirmed => 4 | Rt_MutualConfirmed => 5 | Rt_TrustCommitting => 6
      | Rt_CommittedWaitingPeer => 7 | Rt_Paired => 8 | Rt_Authenticated => 9
      | Rt_PairRejected => 10 | Rt_PairingFailed => 11 | Rt_Cooldown => 12
      end
  end.

Definition secure_sas (rt : option SecureRuntime.t) : Z :=
  match rt with
  | None => ERROR_SECURE_STATE
  | Some rt => default ERROR_SECURE_STATE (ss_sas (SecureRuntime.snapshot rt) ≫= parse_i32)
  end.

Definition secure_action (rt : option SecureRuntime.t) (action : Z) :
    option SecureRuntime.t * Z :=
  let answer (did : SecureRuntime.t * PairingActionResult) :=
    (Some (fst did),
     match snd did with
     | Pa_Accepted => RESULT_OK
     | Pa_Duplicate => RESULT_ALREADY_RUNNING
     | Pa_InvalidState => ERROR_SECURE_STATE
     end) in
  match rt with
  | None => (rt, ERROR_SECURE_STATE)
  | Some r =>
      if action =? 0 then answer (SecureRuntime.local_confirm r)
      else if action =? 1 then answer (SecureRuntime.cancel r)
      else if action =? 2 then answer (SecureRuntime.mismatch r)
      else (rt, ERROR_SECURE_STATE)
  end.

Definition secure_field (rt : option SecureRuntime.t) (field : Z) : Z :=
  match rt with
  | None => ERROR_SECURE_STATE
  | Some rt =>
      let s := SecureRuntime.snapshot rt in
      if field =? 0 then u8_of_bool (ss_authenticated s)
      else if field =? 1 then as_i64 (ss_heartbeat_count s)
      else if field =? 2 then as_i64 (ss_committed_peer_count s)
      else if field =? 3 then as_i64 (ss_mismatch_count s)
      else ERROR_SECURE_STATE
  end.

(** [catch_unwind(action).unwrap_or(ERROR_PANIC_CONTAINED)]: [None] is a panic. *)
Definition int_boundary (action : option Z) : Z := default ERROR_PANIC_CONTAINED action.
