(* ===== verification/Transport.v ===== *)
(** * android core-jni: starting and stopping the secure transport

    Models [SecureTransportSessions] and [accept_secure_fd] of
    [android/core-jni/src/lib.rs].  Each session's thread registers its socket for
    cancellation before it runs and drops the registration when it ends; the service
    starts and stops the transport at any time.  Every function holds the sessions' mutex
    once, so it is one step, and a step also yields the sockets it shuts down.

    The theorem is about the threads together: stopping reaches every session that runs,
    and the transport starts again only when none does. *)

From Stdlib Require Import ZArith Lia.
From stdpp Require Import base tactics list gmap fin_maps.
From S2P Require Import Prelude Android.

Module Transport.

(** A socket is known by a number of its own. *)
Record t : Type := mk {
  accepting : bool;
  next_token : Z;
  sockets : gmap Z nat;
}.

Definition initial : t := mk false 0 ∅.

Definition start_secure_transport (s : t) : t * Z :=
  if negb (bool_decide (sockets s = ∅)) then (s, ERROR_SECURE_SESSION)
  else (mk true (next_token s) (sockets s), RESULT_OK).

(** The sockets shut down come last. *)
Definition stop_secure_transport (s : t) : t * Z * list nat :=
  (mk false (next_token s) (sockets s), RESULT_OK, snd <$> map_to_list (sockets s)).

Definition register_secure_transport (s : t) (socket : nat) (cloned : bool) :
    t * result Z Z * list nat :=
  if negb cloned then (s, Err ERROR_SECURE_SESSION, [])
  else if negb (accepting s) then (s, Err ERROR_SECURE_SESSION, [socket])
  else
    let token := Z.max (sat_add64 (next_token s) 1) 1 in
    (mk (accepting s) token (<[token := socket]> (sockets s)), Ok token, []).

(** [SecureTransportRegistration::drop] *)
Definition drop_registration (s : t) (token : Z) : t :=
  mk (accepting s) (next_token s) (delete token (sockets s)).

(** The arguments [accept_secure_fd] refuses, and the bytes already read. *)
Definition prefix_byte (p : Z) : bool := (-1 <=? p) && (p <=? 255).
Definition accept_arguments (socket_fd prefix_first prefix_second : Z) : option (list byte) :=
  if (socket_fd <? 0) || negb (prefix_byte prefix_first) || negb (prefix_byte prefix_second)
     || negb (Bool.eqb (prefix_first =? -1) (prefix_second =? -1))
  then None
  else Some (if prefix_first <? 0 then [] else [z2b prefix_first; z2b prefix_second]).

(** [accept_secure_fd] before the session runs: its token and prefix. *)
Definition accept_begin (s : t) (runtime : result unit Z) (socket_fd prefix_first prefix_second : Z)
    (socket : nat) (cloned : bool) : t * result (Z * list byte) Z * list nat :=
  match accept_arguments socket_fd prefix_first prefix_second with
  | None => (s, Err ERROR_SECURE_SESSION, [])
  | Some prefix =>
      match runtime with
      | Err e => (s, Err e, [])
      | Ok _ =>
          let '(s, r, shut) := register_secure_transport s socket cloned in
          (s, (let? token := r in Ok (token, prefix)), shut)
      end
  end.

(** [accept_secure_fd] after the session has returned. *)
Definition accept_end (s : t) (token : Z) (session_ok : bool) : t * Z :=
  (drop_registration s token, if session_ok then RESULT_OK else ERROR_SECURE_SESSION).

(** ** The service and its session threads *)

(** [live] are the sessions that run, by token; [shut] the sockets shut down so far. *)
Record world : Type := mkWorld {
  sessions : t;
  live : gmap Z nat;
  shut : list nat;
  accepted : nat;
}.

Inductive Event : Type :=
| Ev_Start
| Ev_Stop
| Ev_Accept (runtime : result unit Z) (socket_fd prefix_first prefix_second : Z) (cloned : bool)
| Ev_End (token : Z) (session_ok : bool).

Definition exec (w : world) (ev : Event) : world :=
  match ev with
  | Ev_Start => mkWorld (fst (start_secure_transport (sessions w))) (live w) (shut w) (accepted w)
  | Ev_Stop =>
      let '(s, _, out) := stop_secure_transport (sessions w) in
      mkWorld s (live w) (shut w ++ out) (accepted w)
  | Ev_Accept runtime fd p1 p2 cloned =>
      let '(s, r, out) := accept_begin (sessions w) runtime fd p1 p2 (accepted w) cloned in
      mkWorld s
        (match r with Ok (token, _) => <[token := accepted w]> (live w) | Err _ => live w end)
        (shut w ++ out) (S (accepted w))
  | Ev_End token ok =>
      if is_some (live w !! token) then
        mkWorld (fst (accept_end (sessions w) token ok)) (delete token (live w)) (shut w)
          (accepted w)
      else w
  end.

Definition start : world := mkWorld initial ∅ [] 0.
Definition run (w : world) (evs : list Event) : world := fold_left exec evs w.

(** Every running session is registered under its own token, and all of them are shut
    down while the transport does not accept. *)
Record inv (n : nat) (w : world) : Prop := {
  tv_live : sockets (sessions w) = live w;
  tv_tokens : forall k s, live w !! k = Some s -> 0 < k <= next_token (sessions w);
  tv_next : 0 <= next_token (sessions w) <= Z.of_nat n;
  tv_shut : accepting (sessions w) = false -> forall k s, live w !! k = Some s -> s ∈ shut w;
}.

Lemma transport_start_inv : inv 0 start.
Proof. by constructor. Qed.

(** A connection that is refused changes nothing but what is shut down. *)
Lemma refused_inv n w out k :
  inv n w -> inv (S n) (mkWorld (sessions w) (live w) (shut w ++ out) k).
Proof.
  intros [Hl Ht Hx Hs]. constructor; cbn; try done; [lia|].
  intros Ha x s Hk. apply elem_of_app. left. eauto.
Qed.

Lemma transport_exec_inv n w ev : Z.of_nat n < U64_MAX -> inv n w -> inv (S n) (exec w ev).
Proof.
  intros Hn Hw. pose proof Hw as [Hl Ht Hx Hs]. destruct ev as [| |rt fd p1 p2 cloned|token ok]; cbn [exec].
  - unfold start_secure_transport. destruct (bool_decide_reflect (sockets (sessions w) = ∅)) as [He|He];
      cbn; constructor; cbn; try done; try lia.
  - constructor; cbn; try done; [lia|]. intros _ k s Hk. apply elem_of_app. right.
    apply list_elem_of_fmap. exists (k, s). split; [done|]. by apply elem_of_map_to_list; rewrite Hl.
  - unfold accept_begin. destruct (accept_arguments _ _ _) as [prefix|]; cbn.
    2:{ by apply refused_inv. }
    destruct rt; cbn.
    2:{ by apply refused_inv. }
    unfold register_secure_transport. destruct cloned; cbn.
    2:{ by apply refused_inv. }
    destruct (accepting (sessions w)) eqn:Ea; cbn.
    2:{ by apply refused_inv. }
    assert (Htok : Z.max (sat_add64 (next_token (sessions w)) 1) 1 = next_token (sessions w) + 1).
    { unfold sat_add64. lia. }
    rewrite Htok. constructor; cbn; [by rewrite Hl| |lia|done].
    intros k s Hk. destruct (decide (k = next_token (sessions w) + 1)) as [->|Hne]; [lia|].
    rewrite lookup_insert_ne in Hk by done. specialize (Ht k s Hk). lia.
  - destruct (live w !! token) as [x|] eqn:El; cbn.
    2:{ constructor; cbn; try done; lia. }
    constructor; cbn; [by rewrite Hl| |lia|].
    + intros k s Hk. apply lookup_delete_Some in Hk as [_ Hk]. eauto.
    + intros Ha k s Hk. apply lookup_delete_Some in Hk as [_ Hk]. eauto.
Qed.

Lemma transport_run_inv evs : forall n w, Z.of_nat (n + length evs) <= U64_MAX -> inv n w ->
  inv (n + length evs) (run w evs).
Proof.
  induction evs as [|ev evs IH]; intros n w Hn Hw; cbn in *; [by rewrite Nat.add_0_r|].
  rewrite <- Nat.add_succ_comm in *. apply IH; [done|]. apply transport_exec_inv; [lia|done].
Qed.

(** C30: Stopping the transport reaches every session.  In every interleaving of the
    service's starts and stops with session threads that begin and end: while the
    transport does not accept, the socket of each session that still runs has been shut
    down, a new connection is refused; and a start succeeds exactly when no session runs,
    so a session from before a stop never overlaps a restarted transport. *)
Theorem transport_stop_reaches_all evs :
  Z.of_nat (length evs) < U64_MAX ->
  let w := run start evs in
  (accepting (sessions w) = false ->
     (forall token socket, live w !! token = Some socket -> socket ∈ shut w) /\
     forall rt fd p1 p2 cloned socket,
       is_ok (snd (fst (accept_begin (sessions w) rt fd p1 p2 socket cloned))) = false) /\
  (snd (start_secure_transport (sessions w)) = RESULT_OK <-> live w = ∅).
Proof.
  intros Hn w. destruct (transport_run_inv evs 0 start ltac:(lia) transport_start_inv) as [Hl _ _ Hs].
  fold w in Hl, Hs. split; [intros Ha; split; [by apply Hs|]|].
  - intros rt fd p1 p2 cloned socket. unfold accept_begin.
    destruct (accept_arguments _ _ _); [|done]. destruct rt; [|done].
    unfold register_secure_transport. rewrite Ha. by destruct cloned.
  - unfold start_secure_transport. rewrite Hl. by destruct (bool_decide_reflect (live w = ∅)).
Qed.

(** A session runs while the transport is stopped; a restart waits for it. *)
Definition stopping : list Event :=
  [Ev_Start; Ev_Accept (Ok tt) 5 (-1) (-1) true; Ev_Stop; Ev_Start].

Lemma transport_stop_reaches_all_witness :
  let w := run start stopping in
  live w !! 1 = Some 0%nat /\ 0%nat ∈ shut w /\
  snd (start_secure_transport (sessions w)) <> RESULT_OK.
Proof.
  assert (Hn : Z.of_nat (length stopping) < U64_MAX) by (cbn; unfold U64_MAX; lia).
  destruct (transport_stop_reaches_all stopping Hn) as [H1 H2].
  split; [by vm_compute|]. split.
  - destruct (H1 ltac:(by vm_compute)) as [H _]. apply (H 1). by vm_compute.
  - intros E. apply H2 in E. by vm_compute in E.
Defined.

End Transport.
