(* ===== verification/AndroidFacts.v ===== *)
(** * The Android worker: commands, health and panics

    What the runtime and the application may rely on: acknowledgements are always final,
    numbered like their command and encodable; the worker's mutex is never poisoned; and
    the health the application displays, which mixes two clocks. *)

From Stdlib Require Import ZArith Lia.
From stdpp Require Import base tactics list gmap relations.
From S2P Require Import Prelude Types Pbmux Codec Control ResourceWire ComputeWire BufferWire.
From S2P Require Import Lease ResourceGuard GuardFacts BufferStore Claims BufferFacts BufferInv.
From S2P Require Import BufferRefine ComputeStore WorkerCore WorkerFacts WorkerInv WorkerCompute.
From S2P Require Import WorkerSystem Sas Text Storage Records Runtime PairingLoop Initiator.
From S2P Require Import Session Android.

(** ** Acknowledgements *)

(** The results that have an acknowledgement: one number is expected exactly when the
    command came out of order. *)
Definition acknowledgeable (command_seq : Z) (r : ControllerCommandResult) : Prop :=
  match r with
  | Cmd_Completed n _ => n = command_seq
  | Cmd_Failed n reason expected =>
      n = command_seq /\ (reason = Cf_OutOfOrder <-> is_some expected = true)
  end.

Lemma released_acknowledgeable m session lease n :
  acknowledgeable n (LeaseManager.released_admission m session lease n).
Proof.
  unfold LeaseManager.released_admission, LeaseManager.failed_stale.
  destruct (LeaseManager.released m) as [r|]; [|done]. destruct (_ && _ && _); [|done].
  destruct (LeaseManager.find_terminal _ _) as [e|] eqn:Ef.
  - apply List.find_some in Ef as [_ Ef]. apply Z.eqb_eq in Ef.
    unfold LeaseManager.terminal_result. by destruct (te_code e).
  - by destruct (LeaseManager.evicted r n).
Qed.

Lemma admission_acknowledgeable m admission n r :
  LeaseManager.result_from_admission m admission n = Ok r -> acknowledgeable n r.
Proof.
  unfold LeaseManager.result_from_admission. intros E. destruct admission; simplify_eq; try done.
  ok_inv E. apply List.find_some in G0 as [_ G0]. bool_hyps. simplify_eq.
  unfold LeaseManager.terminal_result. by destruct (te_code t).
Qed.

(** The number a command asks its acknowledgement to carry. *)
Definition asked_seq (c : ControllerCommand) : Z :=
  match c with
  | Cc_Acquire => 0
  | Cc_Renew _ n | Cc_Release _ n | Cc_Unsupported n => n
  end.

Lemma command_acknowledgeable m session c now e m' r :
  LeaseManager.apply_controller_command m session c now e = (m', Ok r) ->
  acknowledgeable (asked_seq c) r.
Proof.
  destruct c as [|lease n|lease n|n]; cbn; intros E.
  - unfold LeaseManager.apply_acquire in E.
    destruct (LeaseManager.active _) as [a|]; [|destruct (random_nonzero_128 e)];
      repeat case_bool_decide; by simplify_eq.
  - unfold LeaseManager.apply_renew in E. destruct (LeaseManager.validate _ _ _ _) as [m1 [pf|]].
    2:{ simplify_eq. apply released_acknowledgeable. }
    destruct (LeaseManager.begin_mutation_internal _ _ _ _ _) as [m2 []];
      try (apply (f_equal snd) in E; cbn [snd] in E;
           exact (admission_acknowledgeable _ _ _ _ E)).
    destruct (LeaseManager.active m2) as [a|]; [|by simplify_eq].
    destruct (LeaseManager.complete_active _ _ _); by simplify_eq.
  - unfold LeaseManager.apply_release in E. destruct (LeaseManager.validate _ _ _ _) as [m1 [pf|]].
    2:{ simplify_eq. apply released_acknowledgeable. }
    destruct (LeaseManager.begin_mutation_internal _ _ _ _ _) as [m2 []];
      try (apply (f_equal snd) in E; cbn [snd] in E;
           exact (admission_acknowledgeable _ _ _ _ E)).
    destruct (LeaseManager.active m2) as [a|]; [|by simplify_eq].
    destruct (LeaseManager.complete_active _ _ _); by simplify_eq.
  - by simplify_eq.
Qed.

Lemma worker_command_acknowledgeable w v c env w' r :
  Worker.apply_controller_command w v c env = (w', Ok r) -> acknowledgeable (asked_seq c) r.
Proof.
  unfold Worker.apply_controller_command.
  destruct (LeaseManager.apply_controller_command _ _ _ _ _) as [m x] eqn:E. intros Hw.
  assert (x = Ok r) as ->.
  { destruct x as [x|]; [|done]. by destruct x as [? []|], c; simplify_eq. }
  by eapply command_acknowledgeable.
Qed.

Lemma ack_validates n r : acknowledgeable n r -> Ack.validate (controller_ack r) = Ok tt.
Proof.
  destruct r as [k [l|]|k reason expected]; intros H; try done.
  destruct H as [_ H]. unfold Ack.validate, controller_ack. cbn -[is_zeros].
  destruct reason, expected; try (by destruct H as [H _]; specialize (H eq_refl));
    try (by destruct H as [_ H]; specialize (H eq_refl)); cbn; done.
Qed.

(** Only a command of unknown type is refused as unsupported. *)
Lemma unsupported_type f e :
  parse_command_frame f = Err e -> kind e = K_UnsupportedMessage ->
  read_u8 (payload f) 0 <> 1.
Proof.
  unfold parse_command_frame, Command.decode. intros E Hk Ht. rewrite Ht in E.
  change (1 =? 1) with true in E. cbn zeta in E.
  repeat match type of E with
  | context [if ?c then _ else _] => destruct c; simplify_eq; try done
  end.
Qed.

(** A command as the runtime hands it over: an acquisition has number 0. *)
Lemma parsed_command_seq f c :
  parse_authenticated_command f = Ok c -> asked_seq (controller_command c) = Command.command_seq c.
Proof.
  unfold parse_authenticated_command, controller_command. intros E.
  destruct (parse_command_frame f) as [c'|e] eqn:Ep.
  - injection E as ->. apply command_frame_bijective in Ep as [_ Eb].
    unfold build_command_frame in Eb. ok_inv Eb. unfold Command.encode in G0. ok_inv G0.
    repeat case_match; bool_hyps; simplify_eq; cbn; congruence.
  - destruct (bool_decide_reflect (kind e = K_UnsupportedMessage)) as [Hk|]; [|done].
    pose proof (unsupported_type f e Ep Hk). ok_inv E. simplify_eq. cbn.
    rewrite (proj2 (Z.eqb_neq _ _)) by done. by repeat case_match.
Qed.

Section AndroidFacts.
Context {Hasher : Type} (hasher_new : Hasher) (hasher_update : Hasher -> list byte -> Hasher)
  (hasher_finalize : Hasher -> list byte).

#[local] Instance handler : CommandHandler Slot Env :=
  android_handler hasher_new hasher_update hasher_finalize.

(** What the responder's loop asks of an acknowledgement before it sends it. *)
Definition acceptable (c : Command.Payload) (rid : Z) (ack : Ack.Payload) : Prop :=
  Ack.command_seq ack = Command.command_seq c /\
  (Ack.ack_state ack = 2 \/ Ack.ack_state ack = 3) /\
  forall n, exists frame, build_command_ack_frame ack rid n = Ok frame.

(** C29: The runtime never has to refuse an acknowledgement of the Android handler.  For
    every command the responder parses, unknown types included, and in every state of
    the worker, an acknowledgement is final (completed or failed), carries the number of
    the command and passes the frame builder, so the session goes on. *)
Theorem android_acks_accepted s env v rid f c s' ack :
  parse_authenticated_command f = Ok c -> rid <> 0 ->
  handle_authenticated_command s env v rid c = (s', Ok ack) -> acceptable c rid ack.
Proof.
  intros Hp Hrid Hh. cbn in Hh. unfold with_worker in Hh.
  destruct (sl_poisoned s), (sl_worker s) as [w|]; try done.
  destruct (Worker.apply_controller_command _ _ _ _) as [w' [r|]] eqn:E; [|done].
  injection Hh as _ <-. apply worker_command_acknowledgeable in E.
  unfold acceptable. rewrite <- (parsed_command_seq f c Hp). split; [by destruct r as [|]; destruct E|].
  split; [destruct r; [by left|by right]|]. intros n.
  unfold build_command_ack_frame. rewrite (proj2 (Z.eqb_neq _ _)) by done.
  unfold Ack.encode. rewrite (ack_validates _ _ E). by eexists.
Qed.

(** ** Every call of the library *)

(** The requests as the wire parsers produce them, identifiers that are not in use. *)
Inductive slot_step : Slot -> Slot -> Prop :=
| ss_start s e : slot_step s (fst (start_worker s e))
| ss_stop s : slot_step s (fst (stop_worker s))
| ss_health s env a l th b c p m : slot_step s (fst (update_health s env a l th b c p m))
| ss_command s env v rid c : slot_step s (fst (handle_authenticated_command s env v rid c))
| ss_resource s env v rid q :
    typed_resource q ->
    (forall w, sl_worker s = Some w ->
       fresh_id (Worker.resource_guard
         (Worker.reconcile_expired_controller_lease w (ev_now_ms env))) (ev_entropy env)) ->
    slot_step s (fst (handle_authenticated_resource s env v rid q))
| ss_buffer s env v rid q :
    typed q -> slot_step s (fst (handle_authenticated_remote_buffer s env v rid q))
| ss_compute s env v rid q :
    typed_compute q -> slot_step s (fst (handle_authenticated_compute s env v rid q))
| ss_heartbeat s env v : slot_step s (fst (authenticated_heartbeat s env v))
| ss_ended s env v : slot_step s (fst (authenticated_session_ended s env v)).

Definition slot_reachable (s : Slot) : Prop := rtc slot_step stopped s.

Definition slot_inv (s : Slot) : Prop :=
  sl_poisoned s = false /\ forall w, sl_worker s = Some w -> WInv w.

Lemma with_worker_inv {T} s (apply : Worker.t -> option (Worker.t * result T HandlerError)) :
  slot_inv s ->
  (forall w, sl_worker s = Some w -> WInv w ->
     exists w' r, apply w = Some (w', r) /\ WInv w') ->
  slot_inv (fst (with_worker s apply)).
Proof.
  intros [Hp Hw] Ha. unfold with_worker. rewrite Hp.
  destruct (sl_worker s) as [w|] eqn:Es; [|by split; [|cbn; rewrite Es]].
  destruct (Ha w eq_refl (Hw w eq_refl)) as (w' & r & -> & Hw'). split; [done|].
  by intros ? [= <-].
Qed.

Lemma slot_step_inv s s' : slot_step s s' -> slot_inv s -> slot_inv s'.
Proof.
  destruct 1; intros Hs; try (apply with_worker_inv; [done|intros w Ew Hw]).
  - pose proof Hs as [Hp Hw]. unfold start_worker. rewrite Hp.
    destruct (is_some (sl_worker s)); [done|].
    destruct (Worker.cold_start e) as [w|] eqn:E; [|done]. split; [done|].
    intros ? [= <-]. by eapply winv_cold_start.
  - pose proof Hs as [Hp Hw]. unfold stop_worker. rewrite Hp. by destruct (sl_worker s).
  - pose proof Hs as [Hp Hw]. unfold update_health. destruct (local_sample _ _ _ _ _ _ _); [|done].
    rewrite Hp. destruct (sl_worker s) as [w|] eqn:E; [|done]. split; [done|].
    intros ? [= <-]. by apply health_inv, Hw.
  - pose proof (command_inv w (verified v) (controller_command c) env Hw) as Hc.
    destruct (Worker.apply_controller_command _ _ _ _) as [w' r]. by eexists _, _.
  - destruct (resource_inv w (verified v) rid q env Hw (H0 w Ew)) as (w' & r & -> & Hw');
      [by intros l i c n ->|]. by eexists _, _.
  - destruct (buffer_inv w (verified v) q env Hw H) as (w' & r & -> & Hw'). by eexists _, _.
  - destruct (compute_inv hasher_new hasher_update hasher_finalize w (verified v) rid q env Hw H)
      as (w' & r & -> & Hw' & _). by eexists _, _.
  - pose proof (heartbeat_inv w (verified v) env Hw) as Hc.
    destruct (Worker.heartbeat_payload _ _ _) as [w' r]. by eexists _, _.
  - eexists _, _. split; [done|]. by apply session_ended_inv.
Qed.

Lemma slot_reachable_inv s : slot_reachable s -> slot_inv s.
Proof.
  intros Hr. assert (Hs : slot_inv stopped) by done. revert Hs.
  induction Hr; eauto using slot_step_inv.
Qed.

(** C28: The worker's mutex is never poisoned.  However the application and the sessions
    call the library, no call panics while it holds the worker, so the worker never
    becomes unusable: a handler that finds a worker gets an answer for every request a
    peer can send, and only a stopped worker is reported as unavailable. *)
Theorem android_never_poisoned s :
  slot_reachable s ->
  sl_poisoned s = false /\
  forall env v rid q b c w,
    sl_worker s = Some w -> typed_resource q -> typed b -> typed_compute c ->
    fresh_id (Worker.resource_guard
      (Worker.reconcile_expired_controller_lease w (ev_now_ms env))) (ev_entropy env) ->
    is_ok (snd (handle_authenticated_resource s env v rid q)) = true /\
    is_ok (snd (handle_authenticated_remote_buffer s env v rid b)) = true /\
    is_ok (snd (handle_authenticated_compute s env v rid c)) = true.
Proof.
  intros Hr. destruct (slot_reachable_inv s Hr) as [Hp Hs]. split; [done|].
  intros env v rid q b c w Hw Hq Hb Hc Hf. specialize (Hs w Hw).
  cbn. unfold with_worker. rewrite Hp, Hw. split_and!.
  - destruct (resource_inv w (verified v) rid q env Hs Hf) as (w' & r & -> & _);
      [by intros l i k n ->|done].
  - by destruct (buffer_inv w (verified v) b env Hs Hb) as (w' & r & -> & _).
  - by destruct (compute_inv hasher_new hasher_update hasher_finalize w (verified v) rid c env Hs
      Hc) as (w' & r & -> & _).
Qed.

End AndroidFacts.

(** ** Displayed health *)

Lemma release_consumed_health g id c n now :
  Guard.health (Guard.release_consumed g id c n now) = Guard.health g.
Proof. unfold Guard.release_consumed. repeat case_match; done. Qed.

Lemma sweep_health P st s g now :
  Guard.health (snd (BufferStore.sweep P st s g now)) = Guard.health g.
Proof.
  unfold BufferStore.sweep. generalize (map_to_list (filter (fun x => P x.2 = true)
    (BufferStore.buffers s))) as l. intros l. revert s g.
  induction l as [|x l IH]; intros s g; [done|]. cbn [foldl].
  unfold BufferStore.end_record at 2. destruct (BufferStore.terminalize _ _ _ _) as [r g'] eqn:E.
  rewrite IH. unfold BufferStore.terminalize in E. injection E as _ <-.
  destruct (bu_budget_released x.2); [done|]. apply release_consumed_health.
Qed.

(** Recording a sample stores it with the worker's own time. *)
Lemma recorded_health w sample env :
  exists s, Guard.latest (Guard.health (Worker.resource_guard
              (fst (Worker.record_local_health w sample env)))) = Some s /\
            hs_monotonic_ms s = ev_now_ms env.
Proof.
  unfold Worker.record_local_health.
  set (w1 := Worker.reconcile_expired_controller_lease w (ev_now_ms env)). clearbody w1.
  set (s1 := mkSample _ _ _ _ _ _ _). cbn [Guard.record_health].
  set (g := Guard.tick _ _). unfold BufferStore.tick, BufferStore.expire_and_purge.
  destruct (BufferStore.sweep _ _ _ _ _) as [b g'] eqn:Eb. cbn. exists s1. split; [|done].
  assert (Guard.health g' = Guard.health g) as ->.
  { apply (f_equal (fun x => Guard.health (snd x))) in Eb. by rewrite sweep_health in Eb. }
  unfold g, Guard.tick, Guard.expire_reserved. cbn. by rewrite expire_fold_health.
Qed.

(** The caller's clock is ahead of the worker's by more than a sample may age. *)
Definition clock_ahead (env : Env) (at_ms : Z) : Prop :=
  0 <= ev_now_ms env /\ ev_now_ms env + HEALTH_STALE_AFTER_MS < at_ms.

(** C31: The safety that the application displays is wrong once the phone has been up more
    than six seconds longer than the worker.  A sample is stored with the worker's own
    clock, which starts with the worker; [health_field] measures its age with the
    caller's clock, which starts at boot.  So the field reads RefusedStaleState (5) right
    after a good sample was accepted, while the worker itself holds the sample as fresh. *)
Theorem displayed_health_stale w env available low thermal battery charging save at_ms :
  is_some (local_sample available low thermal battery charging save at_ms) = true ->
  clock_ahead env at_ms ->
  let '(s, r) := update_health (running w) env available low thermal battery charging save at_ms in
  r = RESULT_OK /\ health_field s 1 at_ms = 5 /\
  exists w', s = running w' /\
    hl_fresh (Guard.health_status (Worker.resource_guard w') (ev_now_ms env)) = true.
Proof.
  intros Hs [H0 Hat]. unfold update_health.
  destruct (local_sample _ _ _ _ _ _ _) as [sample|]; [|done].
  cbn [sl_poisoned sl_worker running]. split; [done|].
  destruct (recorded_health w sample env) as (x & Hl & Hm).
  set (w' := fst (Worker.record_local_health w sample env)) in *.
  unfold HEALTH_STALE_AFTER_MS in *. split.
  - unfold health_field, u64_try_from. rewrite (proj2 (Z.leb_le _ _)) by lia.
    cbn [sl_poisoned sl_worker running].
    unfold Guard.health_status, Guard.health_status_of. rewrite Hl, Hm. cbn [Z.eqb].
    unfold sat_sub. rewrite (proj2 (Z.leb_gt (Z.max _ _) _)) by (unfold HEALTH_STALE_AFTER_MS; lia).
    by rewrite andb_false_r.
  - exists w'. split; [done|]. unfold Guard.health_status, Guard.health_status_of.
    rewrite Hl, Hm. cbn [hl_fresh]. unfold sat_sub, HEALTH_STALE_AFTER_MS.
    rewrite Z.leb_refl, Z.sub_diag. done.
Qed.
