(* ===== verification/RemoteWorker.v ===== *)
(** * Hashing on the phone, end to end

    A host's client asks the phone to hash a range of a remote buffer: the request goes
    through the initiator's queue and session, over the wire into the responder's session,
    through the Android handler into the worker, and the answer comes back the same way.
    Composes [RemoteCall] (the session), [Android] (the handler) and [WorkerSystem] (the
    worker). *)

From Stdlib Require Import ZArith Lia.
From stdpp Require Import base tactics list gmap relations.
From S2P Require Import Prelude Types Pbmux Reassembly Codec Control ResourceWire ComputeWire.
From S2P Require Import BufferWire Lease ResourceGuard GuardFacts BufferStore Claims BufferFacts.
From S2P Require Import BufferInv BufferRefine BufferSystem ComputeStore WorkerCore WorkerFacts.
From S2P Require Import WorkerInv WorkerCompute WorkerSystem.
From S2P Require Import Sas Text Storage Records Runtime PairingLoop Initiator Session.
From S2P Require Import ClientFacts SessionFacts RemoteCall Android AndroidFacts.

Import Content BufferSpec.

Section RemoteWorker.
Context {Hasher : Type} (hasher_new : Hasher) (hasher_update : Hasher -> list byte -> Hasher)
  (hasher_finalize : Hasher -> list byte).

#[local] Instance phone : CommandHandler Slot Env :=
  android_handler hasher_new hasher_update hasher_finalize.

Local Abbreviation apply_compute :=
  (Worker.apply_compute_request hasher_new hasher_update hasher_finalize).
Local Abbreviation apply_submit :=
  (Worker.apply_compute_submit hasher_new hasher_update hasher_finalize).

(** ** The shape of the answer to a new submit *)

(** Drawn identifiers and digests have the sizes of their Rust types. *)
Definition sized_env (env : Env) : Prop :=
  forall k id, random_nonzero_128 (ev_draws env k) = Ok id -> length id = 16%nat.
Definition sized_hash : Prop := forall h, length (hasher_finalize h) = 32%nat.

Definition result_typed (resp : ComputeResponse) : Prop :=
  exists res, resp = Cx_Result res /\ cr_typed res.

Lemma absent_typed submit inc reason :
  cs_typed submit -> length inc = 16%nat -> result_typed (absent_result submit inc reason).
Proof. intros Hs Hi. eexists. split; [done|]. split; [apply Hs|]. by split. Qed.

Lemma draw_sized used env k fuel id :
  sized_env env -> JobStore.draw_job_id used (ev_draws env) k fuel = Ok id -> length id = 16%nat.
Proof.
  intros He. revert k. induction fuel as [|fuel IH]; intros k E; cbn in E; [done|].
  destruct (random_nonzero_128 _) as [x|] eqn:Er; [|done].
  destruct (used !! x); [by eapply IH|]. simplify_eq. by eapply He.
Qed.

(** The job's answer, whatever its outcome. *)
Lemma finish_typed r g st reason digest now :
  length (jb_controller_lease_id r) = 16%nat -> length (jb_worker_incarnation_id r) = 16%nat ->
  jr_typed (job_ref r) -> match jb_digest r with Some d => length d = 32%nat | None => True end ->
  match digest with Some d => length d = 32%nat | None => True end ->
  result_typed (job_result (fst (JobStore.finish_record r g st reason digest now))).
Proof.
  intros Hl Hi Hj Hd Hd'. unfold JobStore.finish_record.
  destruct (job_is_terminal (jb_state r)); eexists; (split; [done|]); by split_and!.
Qed.

Lemma terminalize_typed j g id session outcome now j' g' resp r :
  JobStore.terminalize j g id session outcome now = Some (j', g', resp) ->
  JobStore.jobs j !! id = Some r ->
  length (jb_controller_lease_id r) = 16%nat -> length (jb_worker_incarnation_id r) = 16%nat ->
  jr_typed (job_ref r) -> jb_digest r = None ->
  match outcome with Ok d => length d = 32%nat | Err _ => True end ->
  result_typed resp.
Proof.
  intros E Hr Hl Hi Hj Hd Ho. unfold JobStore.terminalize in E. rewrite Hr in E.
  cbn [mbind option_bind] in E. destruct (job_is_terminal (jb_state r)) eqn:Et.
  { simplify_eq. eexists. split; [done|]. split_and!; cbn; try done; [apply Hj..|]. by rewrite Hd. }
  match type of E with context [let '(_, _) := ?x in _] => destruct x as [r1 g1] eqn:Ex end.
  injection E as _ _ <-. apply (f_equal fst) in Ex. cbn [fst] in Ex. rewrite <- Ex.
  repeat case_match; apply finish_typed; try done; by rewrite Hd.
Qed.

Lemma refusal_incarnation w pf session submit now w' o :
  Worker.compute_refusal w pf session submit now = (w', o) ->
  Worker.incarnation w' = Worker.incarnation w /\
  Worker.compute_jobs w' = Worker.compute_jobs w.
Proof.
  unfold Worker.compute_refusal. intros E. repeat case_match; simplify_eq; done.
Qed.

Lemma submit_typed w pf session rid submit env w' resp :
  apply_submit w pf session rid submit env = Some (w', resp) ->
  JobStore.submits (Worker.compute_jobs w) !! (pf_lease_id pf, rid) = None ->
  pf_lease_id pf = cs_lease_id submit -> cs_typed submit ->
  length (pf_incarnation pf) = 16%nat -> length (Worker.incarnation w) = 16%nat ->
  sized_env env -> sized_hash -> result_typed resp.
Proof.
  intros E Hnew Hpl Hs Hpi Hwi He Hh. unfold Worker.apply_compute_submit in E. cbv zeta in E.
  unfold JobStore.check_submit in E.
  assert (Hp : JobStore.submits (JobStore.purge (Worker.compute_jobs w) (ev_now_ms env))
                 !! (pf_lease_id pf, rid) = None).
  { cbn. apply map_lookup_filter_None. by left. }
  rewrite Hp in E. rewrite Hp in E. destruct (_ <=? _).
  { simplify_eq. by apply absent_typed. }
  destruct (Worker.compute_refusal _ _ _ _ _) as [w2 o] eqn:Er.
  apply refusal_incarnation in Er as [Hi2 _].
  assert (Href : forall w3 reason, Worker.incarnation w3 = Worker.incarnation w2 ->
    Some (Worker.cache_compute_refusal w3 (pf_lease_id pf) session rid submit reason
            (ev_now_ms env)) = Some (w', resp) -> result_typed resp).
  { intros w3 reason Hi3 Ec. cbn in Ec. injection Ec as _ <-. apply absent_typed; [done|].
    rewrite Hi3, Hi2. exact Hwi. }
  destruct o as [reason|]; [refine (Href _ _ _ E); reflexivity|].
  destruct (Guard.reservation_snapshot _ _ _ _) as [g o] eqn:Es.
  destruct (Worker.scratch_of o) as [n|]; [|refine (Href _ _ _ E); reflexivity].
  destruct (JobStore.stage _ _ _ _ _ _ _ _) as [staged|] eqn:Est; [|refine (Href _ _ _ E); reflexivity].
  destruct (Guard.consume_for_compute _ _ _ _) as [[g2 x]|]; [|done]. cbn [mbind option_bind] in E.
  destruct x; [|refine (Href _ _ _ E); reflexivity].
  unfold JobStore.stage in Est.
  destruct (JobStore.draw_job_id _ _ _ _) as [id|] eqn:Ed; [|done].
  apply draw_sized in Ed; [|done]. injection Est as <-.
  unfold Worker.run_job in E. cbn [JobStore.publish_running] in E.
  destruct (JobStore.job_input _ _) as [[[bid off] ln]|]; [|done]. cbn [mbind option_bind] in E.
  destruct (BufferStore.with_compute_input _ _ _ _ _ _) as [input|]; [|done].
  cbn [mbind option_bind] in E.
  destruct (JobStore.terminalize _ _ _ _ _ _) as [[[j g3] r]|] eqn:Et; [|done].
  cbn in E. injection E as _ <-.
  destruct Hs as (? & ? & ? & ? & ? & _).
  eapply terminalize_typed; [exact Et|cbn; apply lookup_insert_eq|..]; cbn; try done.
  - by rewrite Hpl.
  - destruct input as [data|]; [|done].
    destruct (blake3_digest_bounded _ _ _ _ _ _ _) as [d|] eqn:Eh; [|done].
    unfold blake3_digest_bounded in Eh. apply hash_chunks_ok in Eh. rewrite Eh. apply Hh.
Qed.

(** A compute request of a known lease reaches the submit; any other is refused. *)
Lemma compute_submit_typed w v rid submit env w' resp :
  apply_compute w v rid (Cq_Submit submit) env = Some (w', resp) ->
  let w1 := Worker.reconcile_expired_controller_lease w (ev_now_ms env) in
  JobStore.submits (Worker.compute_jobs w1) !! (cs_lease_id submit, rid) = None ->
  WInv w1 -> cs_typed submit -> length (Worker.incarnation w1) = 16%nat ->
  sized_env env -> sized_hash -> result_typed resp.
Proof.
  intros E w1 Hnew Hw Hs Hi He Hh. unfold Worker.apply_compute_request in E. cbv zeta in E.
  fold w1 in E. destruct (negb _); [injection E as _ <-; by apply absent_typed|].
  destruct (LeaseManager.validate _ _ _ _) as [m x] eqn:Ev.
  apply validate_incarnation in Ev as [_ Hx].
  destruct x as [pf|]; [|injection E as _ <-; by apply absent_typed].
  destruct (rid =? 0); [injection E as _ <-; by apply absent_typed|].
  destruct (Hx pf eq_refl) as (Hpl & _ & Hpi). cbn in Hpl.
  eapply submit_typed; [exact E|..]; try done; [by rewrite Hpl|].
  rewrite Hpi, (wi_leases w1 Hw). done.
Qed.

(** Only an admitted request completes. *)
Lemma completed_validated w v rid submit env w' res :
  apply_compute w v rid (Cq_Submit submit) env = Some (w', Cx_Result res) ->
  cr_state res = Js_Completed ->
  exists pf, snd (LeaseManager.validate
    (Worker.lease_manager (Worker.reconcile_expired_controller_lease w (ev_now_ms env)))
    (from_verified v) (cs_lease_id submit) (ev_now_ms env)) = Ok pf.
Proof.
  intros E Hc. unfold Worker.apply_compute_request in E. cbv zeta in E.
  destruct (negb _); [by injection E as _ <-|]. cbn [cq_lease_id] in E.
  destruct (LeaseManager.validate _ _ _ _) as [m [pf|]]; [by exists pf|by injection E as _ <-].
Qed.

(** ** End to end *)

(** A submit that the frame builder accepts is one that the worker expects. *)
Lemma built_typed submit rid n :
  cs_typed submit -> is_ok (build_request (Iq_Compute (Cq_Submit submit)) rid n) = true ->
  typed_compute (Cq_Submit submit).
Proof.
  intros (_ & _ & _ & _ & _ & _ & _ & Ho & Hl) Hb. unfold uw in *. split; [|lia].
  destruct (build_request _ _ _) eqn:E; [|done]. cbn in E. ok_inv E.
  unfold build_compute_request_frame in G. ok_inv G. ok_inv G1. by bool_hyps.
Qed.

(** A response that passes its validation can be sent. *)
Lemma compute_builds r rid n q :
  0 < rid < 2 ^ 64 -> response_ok r -> is_ok (build_answer (Iq_Compute q) (Ir_Compute r) rid n) = true.
Proof.
  intros Hr Hok. cbn. unfold build_compute_response_frame. rewrite (proj2 (Z.eqb_neq _ _)) by lia.
  destruct r; cbn in Hok; unfold encode_status, encode_compute_result; by rewrite Hok.
Qed.

Context {Hi Ei : Type} {IH : CommandHandler Hi Ei}.
Context (sha256 : list byte -> list byte).
Context (worker host : VerifiedPeerSession) (g : Z).

(** C1: A digest that a client receives is right.  When the client's submit, with a new
    request number, is carried to a phone whose worker is in any reachable state, the
    client gets the worker's result, and a completed result carries the BLAKE3 hash of
    the bytes last written to the requested range of a complete, unexpired buffer that
    the client's lease and session own.  BLAKE3's hasher is the one parameter: streaming
    chunks hashes their concatenation, and a digest has 32 bytes. *)
Theorem remote_digest_correct (blake3 : list byte -> list byte) si sr d p rest env renvs ienvs e
    rid submit w :
  (forall chunks, hasher_finalize (foldl hasher_update hasher_new chunks)
                  = blake3 (concat chunks)) ->
  sized_hash -> sized_env e ->
  callable g si sr d p rest env renvs e rid ->
  pi_request p = Iq_Compute (Cq_Submit submit) ->
  se_handler sr = running w -> worker_reachable hasher_new hasher_update hasher_finalize w ->
  length (Worker.incarnation w) = 16%nat ->
  let w1 := Worker.reconcile_expired_controller_lease w (ev_now_ms e) in
  JobStore.submits (Worker.compute_jobs w1) !! (cs_lease_id submit, rid) = None ->
  exists si' sr' d' w' res,
    call sha256 worker host g si sr env renvs ienvs = Some (si', sr') /\ linked si' sr' /\
    se_handler sr' = running w' /\
    worker_reachable hasher_new hasher_update hasher_finalize w' /\
    se_driver si' = Some d' /\
    Initiator.await d' (pi_response p) = Ok (Ir_Compute (Cx_Result res)) /\
    (cr_state res = Js_Completed ->
     exists pf c data,
       expire (ev_now_ms e) (abs (Worker.remote_buffers w1)) !! cs_buffer_id submit = Some c /\
       holds pf (vs_session_id (verified host)) c = true /\
       pf_lease_id pf = cs_lease_id submit /\
       read (ce_bytes c) (Z.to_nat (cs_input_offset submit)) (Z.to_nat (cs_input_length submit))
         = Some data /\
       cr_digest res = Some (blake3 data)).
Proof.
  intros Hblake Hh He Hc Hp Hsr Hw Hinc w1 Hnew.
  pose proof (worker_reachable_inv _ _ _ w Hw) as Hwi.
  pose proof (ca_typed _ _ _ _ _ _ _ _ _ _ Hc) as Ht.
  pose proof (ca_builds _ _ _ _ _ _ _ _ _ _ Hc) as Hb. rewrite Hp in Ht, Hb. cbn in Ht.
  assert (Htc : typed_compute (Cq_Submit submit)) by (by eapply built_typed).
  destruct (compute_inv hasher_new hasher_update hasher_finalize w (verified host) rid
    (Cq_Submit submit) e Hwi Htc) as (w' & resp & E & _ & Hok).
  destruct (compute_submit_typed w (verified host) rid submit e w' resp E Hnew
    (reconcile_inv _ _ Hwi) Ht ltac:(by rewrite reconcile_incarnation) He Hh) as (res & -> & Hres).
  destruct (exchange sha256 worker host g si sr d p rest env renvs ienvs e rid (running w')
    (Ir_Compute (Cx_Result res)) Hc) as (si' & sr' & d' & Hcall & Hx).
  { constructor; rewrite ?Hp; [|by split|done|].
    - cbn. rewrite Hsr. unfold with_worker. cbn. by rewrite E.
    - apply compute_builds; [|done]. apply (ca_rid _ _ _ _ _ _ _ _ _ _ Hc). }
  exists si', sr', d', w', res. split_and!; [done|apply Hx|apply Hx| |apply Hx| |].
  - destruct Hw as (e0 & w0 & H0 & Hr). exists e0, w0. split; [done|].
    eapply rtc_r; [exact Hr|]. by eapply wk_compute.
  - unfold Initiator.await. by rewrite (ec_replies _ _ _ _ _ _ _ _ _ Hx), lookup_insert_eq.
  - intros Hst. destruct (completed_validated _ _ _ _ _ _ _ E Hst) as (pf & Hpf).
    destruct (submit_digest hasher_new hasher_update hasher_finalize blake3 w (verified host) rid
      submit e w' res pf Hblake Hwi Htc Hpf Hnew E Hst) as (c & data & H1 & H2 & H3 & H4).
    exists pf, c, data. split_and!; try done.
    destruct (LeaseManager.validate _ _ _ _) as [m x] eqn:Ev. cbn in Hpf. subst x.
    by apply validate_incarnation in Ev as [_ Ev]; destruct (Ev pf eq_refl).
Qed.
End RemoteWorker.
