(* ===== verification/RemoteDemo.v ===== *)
(** * A concrete call

    The host of the demonstration session and the phone of the demonstration worker, with
    one request queued.  Instantiates the theorems of [RemoteCall], [RemoteWorker] and
    [AndroidFacts]. *)

From Stdlib Require Import ZArith Lia.
From stdpp Require Import base tactics list gmap relations.
From S2P Require Import Prelude Types Pbmux Reassembly Codec Control ResourceWire ComputeWire.
From S2P Require Import BufferWire Lease ResourceGuard GuardFacts BufferStore Claims BufferFacts.
From S2P Require Import BufferInv BufferRefine BufferSystem ComputeStore WorkerCore WorkerFacts.
From S2P Require Import WorkerInv WorkerCompute WorkerSystem WorkerDemo.
From S2P Require Import Sas Text Storage Records Runtime PairingLoop PairingDemo Initiator Session.
From S2P Require Import ClientFacts SessionFacts RemoteCall Android AndroidFacts RemoteWorker.

Module RemoteDemo.

#[local] Instance host_handler : CommandHandler unit unit := no_handler.
#[local] Instance phone_handler : CommandHandler Slot Env :=
  android_handler [] toy_update toy_hash.

(** What each side knows of the other. *)
Definition phone_peer : VerifiedPeerSession :=
  mkVerifiedPeer (PairingDemo.key PairingSystem.Responder) (to_be 16 3).
Definition host_peer : VerifiedPeerSession :=
  mkVerifiedPeer (replicate 32 Byte.x01) (to_be 16 7).

Definition pending (q : InitiatorRequest) : PendingInitiatorRequest := mkPending 1 (Some 5) q 0.
Definition driver (q : InitiatorRequest) : Initiator.t :=
  Initiator.with_queue
    (fst (Initiator.begin_session Initiator.channel (vp_peer_id phone_peer) 0)) [pending q].

Definition host_end (q : InitiatorRequest) : Session unit :=
  mkSession tt (PairingDemo.fresh PairingSystem.Initiator) (Some (driver q))
    (mkSLocals 7 (SequenceTracker.mk 5) 2000 0 None None Reassembler.default).
Definition phone_end : Session Slot :=
  mkSession (running armed) (PairingDemo.fresh PairingSystem.Responder) None
    (mkSLocals 5 (SequenceTracker.mk 7) 2000 0 None None Reassembler.default).

Definition calm {E} (e : E) : SEnv E :=
  mkSEnv 10 10 (fun _ => Some (to_be 8 5)) (fun _ => Ok tt) e false.
Definition surroundings : Env := env_at 15000 Byte.x0e.

Lemma demo_callable q :
  typed_request q -> is_ok (build_request q 5 7) = true ->
  callable 1 (host_end q) phone_end (driver q) (pending q) [] (calm tt)
    (fun _ => calm surroundings) surroundings 5.
Proof.
  intros Ht Hb. constructor; try done. by left.
Qed.

Local Abbreviation call q :=
  (call PairingDemo.sha256 phone_peer host_peer 1 (host_end q) phone_end (calm tt)
     (fun _ => calm surroundings) (fun _ => calm tt)).

(** Reading the buffer back: the host gets what was written. *)
Definition get : RemoteBufferRequest := Rb_Get demo_lease demo_inc demo_buf 0 5.
Definition got : BufferResult := {|
  bf_completed := true; bf_reason := Br_None; bf_lease_id := demo_lease;
  bf_worker_incarnation_id := demo_inc;
  bf_buffer := Some (mkBufferResultRef demo_buf Bs_Ready NONE 5 297000);
  bf_reservation_id := None; bf_offset := 0; bf_data_len := 5; bf_data := demo_text |}.

Lemma remote_call_faithful_witness :
  exists si' sr' d',
    call (Iq_RemoteBuffer get) = Some (si', sr') /\ linked si' sr' /\
    se_driver si' = Some d' /\ Initiator.await d' 0 = Ok (Ir_RemoteBuffer got).
Proof.
  set (q := Iq_RemoteBuffer get).
  set (h := fst (handle_authenticated_remote_buffer (running armed) surroundings host_peer 5 get)).
  destruct (remote_call_faithful PairingDemo.sha256 phone_peer host_peer 1 (host_end q) phone_end
    (driver q) (pending q) [] (calm tt) (fun _ => calm surroundings) (fun _ => calm tt)
    surroundings 5 h (Ir_RemoteBuffer got)) as (si' & sr' & d' & H1 & H2 & _ & H4 & _ & H6 & _).
  - apply demo_callable; [repeat split; by vm_compute|by vm_compute].
  - constructor.
    + apply injective_projections; [reflexivity|]. by vm_compute.
    + done.
    + repeat split; by vm_compute.
    + by vm_compute.
  - exists si', sr', d'. exact (conj H1 (conj H2 (conj H4 H6))).
Defined.

Lemma toy_sized : sized_hash toy_hash.
Proof. intros l. unfold toy_hash. rewrite length_drop, length_app.
  unfold zeros. rewrite length_replicate. lia. Qed.

Lemma surroundings_sized : sized_env surroundings.
Proof. intros k id E. cbn in E. injection E as <-. done. Qed.

(** Hashing the buffer. *)
Lemma remote_digest_correct_witness :
  exists si' sr' d' res,
    call (Iq_Compute (Cq_Submit job)) = Some (si', sr') /\ linked si' sr' /\
    se_driver si' = Some d' /\ Initiator.await d' 0 = Ok (Ir_Compute (Cx_Result res)) /\
    (cr_state res = Js_Completed -> exists data, cr_digest res = Some (toy_hash data)).
Proof.
  set (q := Iq_Compute (Cq_Submit job)).
  destruct (remote_digest_correct [] toy_update toy_hash PairingDemo.sha256 phone_peer host_peer 1
    toy_hash (host_end q) phone_end (driver q) (pending q) [] (calm tt)
    (fun _ => calm surroundings) (fun _ => calm tt) surroundings 5 job armed)
    as (si' & sr' & d' & w' & res & H1 & H2 & _ & _ & H5 & H6 & H7).
  - apply toy_stream.
  - apply toy_sized.
  - apply surroundings_sized.
  - apply demo_callable; [repeat split; by vm_compute|by vm_compute].
  - reflexivity.
  - reflexivity.
  - apply armed_reach.
  - by vm_compute.
  - by vm_compute.
  - exists si', sr', d', res. refine (conj H1 (conj H2 (conj H5 (conj H6 _)))).
    intros Hc. destruct (H7 Hc) as (pf & c & data & _ & _ & _ & _ & Hd). by exists data.
Defined.

(** ** The Android library *)

Definition started : Slot := fst (start_worker stopped (bytes_of_entropy Byte.x02)).

Definition acquire : Command.Payload := Command.mk 1 0 (zeros 16) 0 (zeros 16) 0 0 0.
Definition acquire_frame : Frame :=
  match build_command_frame acquire 5 0 with Ok f => f | Err _ => control_frame Ct_Ping 5 0 end.
Definition acquired : Slot * result Ack.Payload HandlerError :=
  handle_authenticated_command started surroundings host_peer 5 acquire.
Definition granted : Ack.Payload :=
  controller_ack (Cmd_Completed 0 (Some (mkLeaseRef (replicate 16 Byte.x0e) demo_inc LEASE_TTL_MS 0))).

Lemma android_acks_accepted_witness :
  snd acquired = Ok granted /\ Ack.command_seq granted = 0 /\
  exists frame, build_command_ack_frame granted 5 9 = Ok frame.
Proof.
  assert (E : acquired = (fst acquired, Ok granted))
    by (apply injective_projections; [reflexivity|by vm_compute]).
  destruct (android_acks_accepted [] toy_update toy_hash started surroundings host_peer 5
    acquire_frame acquire (fst acquired) granted) as (H1 & _ & H3).
  - by vm_compute.
  - done.
  - exact E.
  - split; [by vm_compute|]. exact (conj H1 (H3 9)).
Defined.

Lemma android_never_poisoned_witness :
  sl_poisoned started = false /\
  is_ok (snd (handle_authenticated_compute started surroundings host_peer 5 (Cq_Submit job)))
    = true.
Proof.
  destruct (android_never_poisoned [] toy_update toy_hash started) as [H1 H2].
  - eapply rtc_once. apply ss_start.
  - split; [exact H1|].
    apply (H2 surroundings host_peer 5 (Commit demo_lease demo_inc demo_lease) get (Cq_Submit job)
             cold); [by vm_compute|done|done|by split|]. intros id _. by vm_compute.
Defined.

(** The phone has been up for an hour, the worker for ten seconds. *)
Lemma displayed_health_stale_witness :
  let '(s, r) := update_health (running armed) (env_at 10000 Byte.x00) (2 ^ 31) 0 0 80 1 0 3600000 in
  r = RESULT_OK /\ health_field s 1 3600000 = 5.
Proof.
  pose proof (displayed_health_stale armed (env_at 10000 Byte.x00) (2 ^ 31) 0 0 80 1 0 3600000) as H.
  destruct (update_health _ _ _ _ _ _ _ _ _) as [s r].
  destruct H as (H1 & H2 & _); [by vm_compute|by split; vm_compute|]. exact (conj H1 H2).
Defined.

End RemoteDemo.
